(** * Header location and section spanning: a shallow embedding

    The definitions below transcribe, function by function, the parts of
    the Python sources that decide the properties stated at the end of the
    file.  Python values are modelled as follows.

    - A [str] is a list of 8-bit characters ([text]) read as the code
      points U+0000..U+00FF.  The regular-expression classes [\s], [\d],
      [\w] and [str.strip] follow CPython on that range; code points
      0..127 are exact in every operation.
    - A Python [int] is a [Z]; list positions are [nat].
    - A [dict] is an insertion-ordered association list ([dict_get],
      [dict_set]); a [set] is a duplicate-free list.
    - Exceptions are values of [result]. *)

From Stdlib Require Import Ascii String.
From Stdlib Require Import List ZArith QArith Lia Bool Arith PeanoNat.
From Stdlib Require Import Permutation Sorted Lqa.
Import ListNotations.
Close Scope Q_scope.

Set Implicit Arguments.

Definition text := list ascii.

(** [s2t] reads a string literal as a [text]. *)
Definition s2t (s : string) : text := list_ascii_of_string s.

(* ------------------------------------------------------------------ *)
(** ** Characters *)

Module Chars.

Definition code (c : ascii) : nat := nat_of_ascii c.

Definition between (lo hi : nat) (c : ascii) : bool :=
  (lo <=? code c) && (code c <=? hi).

Definition is_digit (c : ascii) : bool := between 48 57 c.
Definition is_upper (c : ascii) : bool := between 65 90 c.
Definition is_lower (c : ascii) : bool := between 97 122 c.
Definition is_alpha (c : ascii) : bool := is_upper c || is_lower c.

(** Unicode white space below U+0100: TAB..CR, FS..US, SPACE, NEL, NBSP. *)
Definition is_space (c : ascii) : bool :=
  between 9 13 c || between 28 32 c || (code c =? 133) || (code c =? 160).

(** Alphanumerics outside ASCII that [\w] accepts below U+0100. *)
Definition is_latin1_alnum (c : ascii) : bool :=
  (code c =? 170) || (code c =? 178) || (code c =? 179) || (code c =? 181)
  || (code c =? 185) || (code c =? 186) || between 188 190 c
  || between 192 214 c || between 216 246 c || between 248 255 c.

Definition is_word (c : ascii) : bool :=
  is_digit c || is_alpha c || (code c =? 95) || is_latin1_alnum c.

(** The capitals of Latin-1, U+00C0..U+00DE without the sign U+00D7. *)
Definition is_latin1_upper (c : ascii) : bool :=
  between 192 222 c && negb (code c =? 215).

Definition lower (c : ascii) : ascii :=
  if is_upper c || is_latin1_upper c then ascii_of_nat (code c + 32) else c.

(** The sources upper-case runs of ASCII letters only. *)
Definition upper (c : ascii) : ascii :=
  if is_lower c then ascii_of_nat (code c - 32) else c.

Definition eqc (a b : ascii) : bool := Ascii.eqb a b.

(** Equality up to ASCII case, as [re.IGNORECASE] compares a literal. *)
Definition eqc_ci (a b : ascii) : bool := Ascii.eqb (lower a) (lower b).

(** [str.casefold] on one character: ASCII and Latin-1 capitals go to
    lower case and U+00DF folds to "ss". *)
Definition casefold1 (c : ascii) : text :=
  if is_upper c || is_latin1_upper c then [ascii_of_nat (code c + 32)]
  else if code c =? 223 then ["s"%char; "s"%char]
  else [c].

End Chars.

(* ------------------------------------------------------------------ *)
(** ** Python string helpers *)

Module PyStr.
Import Chars.

Fixpoint eqb (a b : text) : bool :=
  match a, b with
  | [], [] => true
  | x :: a', y :: b' => eqc x y && eqb a' b'
  | _, _ => false
  end.

Fixpoint lstrip_by (p : ascii -> bool) (s : text) : text :=
  match s with
  | c :: s' => if p c then lstrip_by p s' else s
  | [] => []
  end.

Definition rstrip_by (p : ascii -> bool) (s : text) : text :=
  rev (lstrip_by p (rev s)).

Definition strip_by (p : ascii -> bool) (s : text) : text :=
  rstrip_by p (lstrip_by p s).

(** [s.strip()], [s.lstrip()], [s.rstrip()] *)
Definition strip : text -> text := strip_by is_space.
Definition lstrip : text -> text := lstrip_by is_space.
Definition rstrip : text -> text := rstrip_by is_space.

Fixpoint mem_char (c : ascii) (cs : text) : bool :=
  match cs with
  | [] => false
  | d :: cs' => eqc c d || mem_char c cs'
  end.

(** [s.lstrip(chars)] *)
Definition lstrip_chars (chars s : text) : text :=
  lstrip_by (fun c => mem_char c chars) s.

(** [s.strip(chars)] *)
Definition strip_chars (chars s : text) : text :=
  strip_by (fun c => mem_char c chars) s.

Definition casefold (s : text) : text := flat_map casefold1 s.

(** [s.lower()] and [s.upper()] *)
Definition lower (s : text) : text := map Chars.lower s.
Definition upper (s : text) : text := map Chars.upper s.

(** [s.replace(old, "")] for a one-character [old]. *)
Definition remove_char (old : ascii) (s : text) : text :=
  filter (fun c => negb (eqc c old)) s.

(** [s.replace(old, new)] for one-character [old] and [new]. *)
Definition replace_char (old new : ascii) (s : text) : text :=
  map (fun c => if eqc c old then new else c) s.

Fixpoint startswith (p s : text) : bool :=
  match p, s with
  | [], _ => true
  | x :: p', y :: s' => eqc x y && startswith p' s'
  | _ :: _, [] => false
  end.

(** [p in s] for strings. *)
Fixpoint contains (p s : text) : bool :=
  startswith p s ||
  match s with
  | [] => false
  | _ :: s' => contains p s'
  end.

(** [s.isdigit()] and [s.isalpha()] on the tokens the sources apply them
    to, which are runs of ASCII digits or ASCII letters. *)
Definition isdigit (s : text) : bool :=
  negb (Nat.eqb (length s) 0) && forallb is_digit s.
Definition isalpha (s : text) : bool :=
  negb (Nat.eqb (length s) 0) && forallb is_alpha s.

(** [s.islower()]: at least one cased character and no upper-case one. *)
Definition islower (s : text) : bool :=
  existsb is_lower s && negb (existsb is_upper s).

(** [int(s)] for a run of ASCII digits. *)
Definition int_of_digits (s : text) : Z :=
  fold_left (fun acc c => (acc * 10 + Z.of_nat (code c - 48))%Z) s 0%Z.

Definition digit_char (d : Z) : ascii := ascii_of_nat (48 + Z.to_nat d).

Fixpoint digits_fuel (fuel : nat) (n : Z) (acc : text) : text :=
  match fuel with
  | O => acc
  | S f =>
      let acc' := digit_char (n mod 10) :: acc in
      if (n <? 10)%Z then acc' else digits_fuel f (n / 10)%Z acc'
  end.

(** [str(n)] for an integer. *)
Definition str_of_Z (n : Z) : text :=
  if (n <? 0)%Z then "-"%char :: digits_fuel (S (Z.to_nat (Z.log2 (- n)))) (- n) []
  else digits_fuel (S (Z.to_nat (Z.log2 n))) n [].

(** [s.zfill(width)] for an unsigned numeral. *)
Definition zfill (width : nat) (s : text) : text :=
  repeat "0"%char (width - length s) ++ s.

(** [sep.join(parts)] *)
Fixpoint join (sep : text) (parts : list text) : text :=
  match parts with
  | [] => []
  | [p] => p
  | p :: rest => p ++ sep ++ join sep rest
  end.

End PyStr.

(* ------------------------------------------------------------------ *)
(** ** Regular expressions

    A backtracking matcher with the priorities of Python's [re]: the
    alternatives of [Alt] are tried left to right, a greedy [Star] tries
    one more iteration before stopping and a lazy one the other way
    round.  A cursor is the text already read, reversed, paired with the
    text still to read, so that [\b] and look-behind can inspect what
    precedes the current position. *)

Module Re.
Import Chars.

Inductive regex : Type :=
| Eps
| Chr (p : ascii -> bool)
| Seq (r1 r2 : regex)
| Alt (r1 r2 : regex)
| Star (greedy : bool) (r : regex)
| Bol                                   (* ^ without MULTILINE *)
| Eol                                   (* $ without MULTILINE *)
| WordB                                 (* \b *)
| Ahead (neg : bool) (r : regex)        (* (?=r) and (?!r) *)
| Behind (neg : bool) (width : nat) (r : regex). (* (?<=r) and (?<!r) *)

Definition cursor := (text * text)%type.

Definition prev_char (st : cursor) : option ascii := hd_error (fst st).
Definition next_char (st : cursor) : option ascii := hd_error (snd st).

Definition is_word_opt (o : option ascii) : bool :=
  match o with Some c => is_word c | None => false end.

Definition at_word_boundary (st : cursor) : bool :=
  xorb (is_word_opt (prev_char st)) (is_word_opt (next_char st)).

(** [$] holds at the end of the text and just before a final newline. *)
Definition at_eol (st : cursor) : bool :=
  match snd st with
  | [] => true
  | [c] => code c =? 10
  | _ => false
  end.

Fixpoint back (n : nat) (st : cursor) : option cursor :=
  match n with
  | O => Some st
  | S n' =>
      match fst st with
      | c :: pre => back n' (pre, c :: snd st)
      | [] => None
      end
  end.

Definition orelse {A} (x : option A) (y : unit -> option A) : option A :=
  match x with Some a => Some a | None => y tt end.

Fixpoint run (A : Type) (r : regex) (st : cursor) (k : cursor -> option A)
  {struct r} : option A :=
  match r with
  | Eps => k st
  | Chr p =>
      match snd st with
      | c :: rest => if p c then k (c :: fst st, rest) else None
      | [] => None
      end
  | Seq r1 r2 => run r1 st (fun st1 => run r2 st1 k)
  | Alt r1 r2 => orelse (run r1 st k) (fun _ => run r2 st k)
  | Star greedy r1 =>
      (fix loop (n : nat) (st : cursor) {struct n} : option A :=
         let again (_ : unit) :=
           match n with
           | O => None
           | S n' =>
               run r1 st (fun st' =>
                 if length (snd st') <? length (snd st) then loop n' st' else None)
           end in
         if greedy then orelse (again tt) (fun _ => k st)
         else orelse (k st) again) (length (snd st)) st
  | Bol => match fst st with [] => k st | _ :: _ => None end
  | Eol => if at_eol st then k st else None
  | WordB => if at_word_boundary st then k st else None
  | Ahead neg r1 =>
      match run r1 st (fun _ => Some tt) with
      | Some _ => if neg then None else k st
      | None => if neg then k st else None
      end
  | Behind neg width r1 =>
      let found :=
        match back width st with
        | Some st0 =>
            run r1 st0 (fun st' =>
              if length (snd st') =? length (snd st) then Some tt else None)
        | None => None
        end in
      match found with
      | Some _ => if neg then None else k st
      | None => if neg then k st else None
      end
  end.

(** The end cursor of the preferred match of [r] starting at [st]. *)
Definition match_at (r : regex) (st : cursor) : option cursor :=
  run r st (fun st' => Some st').

(** Scan start positions from left to right: the cursor where the first
    match starts and the cursor where it ends. *)
Fixpoint search_from (r : regex) (fuel : nat) (st : cursor) : option (cursor * cursor) :=
  match match_at r st with
  | Some st' => Some (st, st')
  | None =>
      match fuel, snd st with
      | S f, c :: rest => search_from r f (c :: fst st, rest)
      | _, _ => None
      end
  end.

Definition start (s : text) : cursor := ([], s).

(** [pattern.search(s)] *)
Definition search (r : regex) (s : text) : option (cursor * cursor) :=
  search_from r (length s) (start s).

Definition found (r : regex) (s : text) : bool :=
  match search r s with Some _ => true | None => false end.

(** [pattern.match(s)]; the number of characters read is [m.end()]. *)
Definition match_prefix (r : regex) (s : text) : option cursor :=
  match_at r (start s).

Definition match_end (st : cursor) : nat := length (fst st).

(** [re.fullmatch(pattern, s)] *)
Definition fullmatch (r : regex) (s : text) : bool :=
  match run r (start s) (fun st' => match snd st' with [] => Some tt | _ => None end) with
  | Some _ => true
  | None => false
  end.

(** The text matched between two cursors of the same subject. *)
Definition matched (st st' : cursor) : text :=
  firstn (length (snd st) - length (snd st')) (snd st).

(** [pattern.sub(repl, s)], with the replacement given as a function of
    the matched text.  Every pattern substituted in the sources needs at
    least one character, so a match always advances the scan. *)
Fixpoint sub_from (r : regex) (repl : text -> text) (fuel : nat) (st : cursor) : text :=
  match fuel with
  | O => snd st
  | S f =>
      match match_at r st with
      | Some st' =>
          if length (snd st') <? length (snd st)
          then repl (matched st st') ++ sub_from r repl f st'
          else match snd st with
               | c :: rest => repl [] ++ c :: sub_from r repl f (c :: fst st, rest)
               | [] => repl []
               end
      | None =>
          match snd st with
          | c :: rest => c :: sub_from r repl f (c :: fst st, rest)
          | [] => []
          end
      end
  end.

Definition sub (r : regex) (repl : text -> text) (s : text) : text :=
  sub_from r repl (S (length s)) (start s).

(** [pattern.findall(s)] for a pattern without groups. *)
Fixpoint findall_from (r : regex) (fuel : nat) (st : cursor) : list text :=
  match fuel with
  | O => []
  | S f =>
      match match_at r st with
      | Some st' =>
          if length (snd st') <? length (snd st)
          then matched st st' :: findall_from r f st'
          else match snd st with
               | c :: rest => [] :: findall_from r f (c :: fst st, rest)
               | [] => [[]]
               end
      | None =>
          match snd st with
          | c :: rest => findall_from r f (c :: fst st, rest)
          | [] => []
          end
      end
  end.

Definition findall (r : regex) (s : text) : list text :=
  findall_from r (S (length s)) (start s).

(** *** Pattern syntax *)

Definition plus (r : regex) : regex := Seq r (Star true r).    (* r+ *)
Definition opt (r : regex) : regex := Alt r Eps.                (* r? *)
Definition star (r : regex) : regex := Star true r.             (* r* *)
Definition lazy_star (r : regex) : regex := Star false r.       (* r*? *)

Fixpoint seqs (rs : list regex) : regex :=
  match rs with
  | [] => Eps
  | [r] => r
  | r :: rs' => Seq r (seqs rs')
  end.

Fixpoint times (n : nat) (r : regex) : regex :=
  match n with
  | O => Eps
  | S n' => Seq r (times n' r)
  end.

(** [r{n,}] *)
Definition at_least (n : nat) (r : regex) : regex := Seq (times n r) (star r).

(** [r{0,n}], greedy *)
Fixpoint up_to (n : nat) (r : regex) : regex :=
  match n with
  | O => Eps
  | S n' => opt (Seq r (up_to n' r))
  end.

(** [r{lo,hi}] *)
Definition from_to (lo hi : nat) (r : regex) : regex :=
  Seq (times lo r) (up_to (hi - lo) r).

Definition chr (c : ascii) : regex := Chr (eqc c).
Definition chr_ci (c : ascii) : regex := Chr (eqc_ci c).
Definition one_of (cs : text) : regex := Chr (fun c => PyStr.mem_char c cs).

(** [re.escape(s)] compiled as a literal, case-sensitively or not. *)
Definition lit (s : text) : regex := seqs (map chr s).
Definition lit_ci (s : text) : regex := seqs (map chr_ci s).

Definition space : regex := Chr is_space.                 (* \s *)
Definition digit : regex := Chr is_digit.                 (* \d *)
Definition non_space : regex := Chr (fun c => negb (is_space c)). (* \S *)
Definition spaces : regex := star space.                  (* \s* *)

End Re.

(* ------------------------------------------------------------------ *)
(** ** Shared containers *)

(** Python raises [IndexError] when a list is indexed out of range. *)
Inductive result (A : Type) : Type :=
| Ok (a : A)
| IndexError.
Arguments Ok {A} a.
Arguments IndexError {A}.

Definition bind {A B} (x : result A) (f : A -> result B) : result B :=
  match x with
  | Ok a => f a
  | IndexError => IndexError
  end.

Definition index {A} (l : list A) (i : nat) : result A :=
  match nth_error l i with
  | Some a => Ok a
  | None => IndexError
  end.

(** Insertion-ordered dictionaries. *)
Section Dict.
Variables (K V : Type) (keq : K -> K -> bool).

Definition dict := list (K * V).

Fixpoint dict_get (d : dict) (k : K) : option V :=
  match d with
  | [] => None
  | (k', v) :: d' => if keq k k' then Some v else dict_get d' k
  end.

(** [d[k] = v]: an existing key keeps its place. *)
Fixpoint dict_set (d : dict) (k : K) (v : V) : dict :=
  match d with
  | [] => [(k, v)]
  | (k', v') :: d' => if keq k k' then (k', v) :: d' else (k', v') :: dict_set d' k v
  end.

(** [d.setdefault(k, v)] *)
Definition dict_setdefault (d : dict) (k : K) (v : V) : dict :=
  match dict_get d k with
  | Some _ => d
  | None => d ++ [(k, v)]
  end.

Definition dict_mem (d : dict) (k : K) : bool :=
  match dict_get d k with Some _ => true | None => false end.

End Dict.

(** [sorted(l, key=...)]: a stable insertion sort; [le x y] compares the
    keys of [x] and [y]. *)
Section Sorting.
Variables (A : Type) (le : A -> A -> bool).

Fixpoint insert_sorted (x : A) (l : list A) : list A :=
  match l with
  | [] => [x]
  | y :: l' => if le x y then x :: l else y :: insert_sorted x l'
  end.

Fixpoint sorted (l : list A) : list A :=
  match l with
  | [] => []
  | x :: l' => insert_sorted x (sorted l')
  end.

End Sorting.

(** Lexicographic order on integer tuples, as Python compares them. *)
Fixpoint tuple_leb (a b : list Z) : bool :=
  match a, b with
  | [], _ => true
  | _ :: _, [] => false
  | x :: a', y :: b' => (x <? y)%Z || ((x =? y)%Z && tuple_leb a' b')
  end.

(** Sets built from an iterable: first occurrences, in order. *)
Section SetOf.
Variables (A : Type) (aeq : A -> A -> bool).

Definition mem (x : A) (l : list A) : bool := existsb (aeq x) l.

Fixpoint set_of (l : list A) : list A :=
  match l with
  | [] => []
  | x :: l' => x :: filter (fun y => negb (aeq x y)) (set_of l')
  end.

End SetOf.

(** [defaultdict(list)] filled by [d[key(x)].append(x)]. *)
Section GroupBy.
Variables (A K : Type) (keq : K -> K -> bool) (key : A -> K).

Definition group_add (d : dict K (list A)) (x : A) : dict K (list A) :=
  match dict_get keq d (key x) with
  | Some xs => dict_set keq d (key x) (xs ++ [x])
  | None => d ++ [(key x, [x])]
  end.

Definition group_by (l : list A) : dict K (list A) :=
  fold_left group_add l [].

End GroupBy.

(** [Counter]: [c[k] += 1]. *)
Definition counter_incr {K} (keq : K -> K -> bool) (c : dict K nat) (k : K) : dict K nat :=
  match dict_get keq c k with
  | Some n => dict_set keq c k (S n)
  | None => c ++ [(k, 1)]
  end.

(* ------------------------------------------------------------------ *)
(** ** backend/config.py: the module constants the functions read *)

Inductive DedupePolicy := DedupeBest | DedupeEarliest.

Record Config : Type := {
  HEADERS_BAND_LINES : Z;
  HEADERS_TITLE_ONLY_REANCHOR : bool;
  HEADERS_STRICT_INVARIANTS : bool;
  HEADERS_RESCAN_PASSES : Z;
  HEADERS_DEDUPE_POLICY : DedupePolicy;
  HEADERS_STRICT_TOC_MIN_DOT_LEADERS : Z;
  HEADERS_STRICT_TOC_MIN_SECTION_TOKENS : Z;
  HEADERS_ALIGN_SEQUENTIAL : bool;  (* HEADERS_ALIGN_STRATEGY == "sequential" *)
  HEADERS_RUNNER_MIN_PAGES : Z
}.

(** The values used when the environment sets none of them. *)
Definition default_config : Config := {|
  HEADERS_BAND_LINES := 5;
  HEADERS_TITLE_ONLY_REANCHOR := true;
  HEADERS_STRICT_INVARIANTS := true;
  HEADERS_RESCAN_PASSES := 2;
  HEADERS_DEDUPE_POLICY := DedupeBest;
  HEADERS_STRICT_TOC_MIN_DOT_LEADERS := 4;
  HEADERS_STRICT_TOC_MIN_SECTION_TOKENS := 6;
  HEADERS_ALIGN_SEQUENTIAL := true;
  HEADERS_RUNNER_MIN_PAGES := 2
|}.

(* ------------------------------------------------------------------ *)
(** ** backend/services/headers_sequential.py: text normalisation *)

Module HeadersSequential.
Import Chars Re.

(** [DOT_SPACE_RE = (\d)\s*\.\s*(\d)] *)
Definition DOT_SPACE_RE : regex :=
  seqs [digit; spaces; chr "."; spaces; digit].

(** [MULTISPACE_RE = \s+] *)
Definition MULTISPACE_RE : regex := plus space.

(** [TOC_LEADER_RE = \.{3,}\s*\d+\s*$] *)
Definition TOC_LEADER_RE : regex :=
  seqs [at_least 3 (chr "."); spaces; plus digit; spaces; Eol].

(** [CONFUSABLE_NUM_RE = (?<=\d)\s*[Il]\s*(?=[\.\s])] *)
Definition CONFUSABLE_NUM_RE : regex :=
  seqs [Behind false 1 digit; spaces; one_of (s2t "Il"); spaces;
        Ahead false (Chr (fun c => eqc c "." || is_space c))].

(** [ALPHA_ONE_RE = (?<=\b[A-Za-z])\s*[Il](?=\b)] *)
Definition ALPHA_ONE_RE : regex :=
  seqs [Behind false 1 (Seq WordB (Chr is_alpha)); spaces; one_of (s2t "Il");
        Ahead false WordB].

(** [NUMBER_COMPONENT_RE = [A-Za-z]+|\d+] *)
Definition NUMBER_COMPONENT_RE : regex :=
  Alt (plus (Chr is_alpha)) (plus digit).

(** The replacement [\1.\2] of [DOT_SPACE_RE]: group 1 is the first and
    group 2 the last character of the match. *)
Definition repl_dot (m : text) : text :=
  match m, rev m with
  | a :: _, b :: _ => [a; "."%char; b]
  | _, _ => m
  end.

Definition SOFT_HYPHEN : ascii := ascii_of_nat 173.

Definition normalize (value : text) (confusables : bool) : text :=
  let cleaned := PyStr.remove_char SOFT_HYPHEN value in
  let cleaned := sub DOT_SPACE_RE repl_dot cleaned in
  let cleaned := sub MULTISPACE_RE (fun _ => s2t " ") cleaned in
  let cleaned :=
    if confusables
    then sub ALPHA_ONE_RE (fun _ => s2t "1")
           (sub CONFUSABLE_NUM_RE (fun _ => s2t "1") cleaned)
    else cleaned in
  PyStr.casefold (PyStr.strip cleaned).

(** The [Line] dataclass. *)
Record Line : Type := {
  text_of : text;
  page : Z;
  global_idx : Z;
  line_idx : Z;
  is_running : bool
}.

Definition is_probable_toc_line (t : text) : bool := found TOC_LEADER_RE t.

Definition detect_toc_pages (lines : list Line) : list Z :=
  let page_hits :=
    fold_left
      (fun hits entry =>
         if is_running entry then hits
         else if is_probable_toc_line (text_of entry)
              then counter_incr Z.eqb hits (page entry)
              else hits)
      lines [] in
  map fst (filter (fun pc => 6 <=? snd pc) page_hits).

Definition gid_leb (a b : Line) : bool := (global_idx a <=? global_idx b)%Z.

(** The set [page_candidates] of one page. *)
Definition page_candidates (limit : nat) (page_lines : list Line) : list text :=
  let ordered := sorted gid_leb page_lines in
  let tops := firstn limit ordered in
  let bots :=
    if limit <=? length ordered
    then skipn (length ordered - limit) ordered
    else ordered in
  set_of PyStr.eqb
    (map (fun candidate => normalize (text_of candidate) false)
         (filter (fun candidate => negb (is_running candidate)) (tops ++ bots))).

(** [max(2, int(0.6 * total_pages)) if total_pages else 0].  The double
    nearest to 0.6 lies 2.2e-17 below it, and the product with an
    integer below 2^50 rounds to a double whose integer part is that of
    [3 * total_pages / 5]. *)
Definition running_threshold (total_pages : nat) : nat :=
  match total_pages with
  | O => 0
  | _ => Nat.max 2 (3 * total_pages / 5)
  end.

Definition detect_running_header_footer (cfg : Config) (lines : list Line)
  (band : option Z) : list text :=
  let limit := match band with None => HEADERS_BAND_LINES cfg | Some b => b end in
  if (limit <=? 0)%Z then []
  else
    let per_page := group_by Z.eqb page lines in
    let occurrences :=
      fold_left
        (fun occ page_lines =>
           fold_left (counter_incr PyStr.eqb) (page_candidates (Z.to_nat limit) page_lines) occ)
        (map snd per_page) [] in
    let total_pages := length per_page in
    let threshold := running_threshold total_pages in
    map fst (filter (fun tc => threshold <=? snd tc) occurrences).

End HeadersSequential.

(* ------------------------------------------------------------------ *)
(** ** backend/services/extractors/_normalize.py *)

Module ExtractorNormalize.
Import Chars Re.

(** [DOTS] is the class of U+002E, U+2024, U+2027, U+00C2 and U+00B7
    (the file spells the middle dot as the two characters U+00C2 U+00B7);
    U+002E, U+00C2 and U+00B7 lie below U+0100. *)
Definition is_dots (c : ascii) : bool :=
  eqc c "." || (code c =? 194) || (code c =? 183).
Definition DOTS : regex := Chr is_dots.

(** [NBSPS], of which U+00A0 lies below U+0100. *)
Definition NBSP : ascii := ascii_of_nat 160.
Definition SOFT_HYPH : ascii := ascii_of_nat 173.

(** [SPACED_DOTS_RE = (\d)\s*DOTS\s*(\d)] *)
Definition SPACED_DOTS_RE : regex :=
  seqs [digit; spaces; DOTS; spaces; digit].

(** [(?<=\d)\s*[Il]\s*(?=(?:\d|\b))] and [(?<=DOTS)\s*[Il]\b] *)
Definition CONFUSABLE_ONE_RES : list regex :=
  [ seqs [Behind false 1 digit; spaces; one_of (s2t "Il"); spaces;
          Ahead false (Alt digit WordB)];
    seqs [Behind false 1 DOTS; spaces; one_of (s2t "Il"); WordB] ].

Definition normalize_numeric_artifacts (s : text) : text :=
  let s := PyStr.remove_char SOFT_HYPH s in
  let s := PyStr.replace_char NBSP " " s in
  let s := sub SPACED_DOTS_RE HeadersSequential.repl_dot s in
  let s := fold_left (fun acc rx => sub rx (fun _ => s2t "1") acc) CONFUSABLE_ONE_RES s in
  PyStr.strip (sub (plus space) (fun _ => s2t " ") s).

End ExtractorNormalize.

(* ------------------------------------------------------------------ *)
(** ** Line and header dictionaries

    A line is the dictionary [collect_line_metrics] builds, with every
    key present.  A located header carries [source_idx]; the value -1
    stands for an absent key, which is how every reader defaults it. *)

Record BodyLine : Type := {
  l_text : text;
  l_page : Z;
  l_global_idx : Z;
  l_line_idx : Z;
  l_is_toc : bool;
  l_is_index : bool;
  l_is_running : bool
}.

Record Header : Type := {
  h_text : text;
  h_number : option text;
  h_level : Z;
  h_page : Z;
  h_line_idx : Z;
  h_global_idx : Z;
  h_source_idx : Z
}.

(** [len(...)] of the elements a predicate holds for. *)
Definition count {A} (p : A -> bool) (l : list A) : nat := length (filter p l).

(* ------------------------------------------------------------------ *)
(** ** backend/services/headers_llm_strict.py: text and TOC pages *)

Module HeadersLlmStrict.
Import Chars Re.

Definition is_dots (c : ascii) : bool := eqc c "." || (code c =? 183).
Definition DOTS : regex := Chr is_dots.
Definition NBSP : ascii := ascii_of_nat 160.
Definition SOFT_HYPH : ascii := ascii_of_nat 173.

(** [SPACED_DOTS_RE = (?<=\d)\s*DOTS\s*(?=\d)] *)
Definition SPACED_DOTS_RE : regex :=
  seqs [Behind false 1 digit; spaces; DOTS; spaces; Ahead false digit].

Definition CONFUSABLE_ONE_RES : list regex :=
  [ seqs [Behind false 1 digit; spaces; one_of (s2t "Il"); spaces;
          Ahead false (Alt digit WordB)];
    seqs [Behind false 1 DOTS; spaces; one_of (s2t "Il"); WordB] ].

(** [DOTTED_LEADER_RE = \.{3,}\s*\d+\s*$] *)
Definition DOTTED_LEADER_RE : regex :=
  seqs [at_least 3 (chr "."); spaces; plus digit; spaces; Eol].

(** [SECTION_LIKE_RE = ^\s*\d+(?:\s*DOTS\s*\d+)*\b] *)
Definition SECTION_LIKE_RE : regex :=
  seqs [Bol; spaces; plus digit; star (seqs [spaces; DOTS; spaces; plus digit]); WordB].

Definition _collapse_spaced_dots (value : text) : text :=
  sub SPACED_DOTS_RE (fun _ => s2t ".") value.

Definition normalize_strict_text (value : text) : text :=
  let cleaned := PyStr.remove_char SOFT_HYPH value in
  let cleaned := PyStr.replace_char NBSP " " cleaned in
  let cleaned := _collapse_spaced_dots cleaned in
  let cleaned := fold_left (fun acc rx => sub rx (fun _ => s2t "1") acc) CONFUSABLE_ONE_RES cleaned in
  let cleaned := _collapse_spaced_dots cleaned in
  let cleaned := sub (plus space) (fun _ => s2t " ") cleaned in
  PyStr.casefold (PyStr.strip cleaned).

Definition dotted_count (texts : list text) : nat :=
  count (found DOTTED_LEADER_RE) texts.

Definition section_like_count (texts : list text) : nat :=
  count (fun t => found SECTION_LIKE_RE (normalize_strict_text t)) texts.

Definition body_like_count (texts : list text) : nat :=
  count (fun t => PyStr.contains (s2t ".") t && (40 <=? length (normalize_strict_text t))) texts.

(** The test applied to the texts of one page. *)
Definition toc_page_strict (cfg : Config) (texts : list text) : bool :=
  let dotted := dotted_count texts in
  let section_like := section_like_count texts in
  let body_like := body_like_count texts in
  if (HEADERS_STRICT_TOC_MIN_DOT_LEADERS cfg <=? Z.of_nat dotted)%Z then true
  else (HEADERS_STRICT_TOC_MIN_SECTION_TOKENS cfg <=? Z.of_nat section_like)%Z
       && (body_like <=? Nat.max 1 (section_like / 2)).

Definition detect_toc_pages_strict (cfg : Config) (lines : list BodyLine) : list Z :=
  let by_page := group_by Z.eqb l_page lines in
  map fst (filter (fun entry => toc_page_strict cfg (map l_text (snd entry))) by_page).

End HeadersLlmStrict.

(* ------------------------------------------------------------------ *)
(** ** backend/services/pdf_native.py: TOC-like pages *)

Module PdfNative.
Import Chars Re.

(** [\.{2,}\s*\d+$] *)
Definition DOTTED_ENTRY_RE : regex :=
  seqs [at_least 2 (chr "."); spaces; plus digit; Eol].

(** [\.{3,}], used with [re.fullmatch] *)
Definition DOT_ONLY_RE : regex := at_least 3 (chr ".").

Definition cleaned_lines (lines : list text) : list text :=
  map PyStr.strip (filter (fun line => negb (Nat.eqb (length (PyStr.strip line)) 0)) lines).

Definition _is_toc_like (lines : list text) (page_number : Z) : bool :=
  match lines with
  | [] => false
  | _ =>
      let cleaned := cleaned_lines lines in
      match cleaned with
      | [] => false
      | _ =>
          let lowered := map PyStr.lower cleaned in
          if existsb (fun entry => PyStr.startswith (s2t "table of contents") entry
                                   || PyStr.eqb entry (s2t "contents")) lowered
          then true
          else
            let dotted_entries := count (found DOTTED_ENTRY_RE) cleaned in
            let dot_only := count (fullmatch DOT_ONLY_RE) cleaned in
            let threshold := Nat.max 4 (length cleaned / 2) in
            if threshold <=? dotted_entries then true
            else if 12 <=? dot_only then true
            else if (6 <=? dot_only) && (1 <=? dotted_entries) then true
            else false
      end
  end.

End PdfNative.

(* ------------------------------------------------------------------ *)
(** ** backend/services/headers_sequential.py: numbering keys *)

Module Numbering.
Import Chars Re.

(** [number_tokens] *)
Definition number_tokens (num : option text) : list text :=
  match num with
  | None => []
  | Some [] => []
  | Some n => findall HeadersSequential.NUMBER_COMPONENT_RE n
  end.

(** [_alpha_component_value]; [_alpha_to_int] of the orchestrator has the
    same body. *)
Definition _alpha_component_value (token : text) : Z :=
  fold_left
    (fun total char =>
       if is_upper char then (total * 26 + (Z.of_nat (code char) - 65 + 1))%Z else total)
    (PyStr.upper token) 0%Z.

Definition _component_value (token : text) : Z :=
  if PyStr.isdigit token then PyStr.int_of_digits token
  else if PyStr.isalpha token then _alpha_component_value token
  else match findall (plus digit) token with
       | d :: _ => PyStr.int_of_digits d
       | [] => 0%Z
       end.

(** [number_key] of a numbering string *)
Definition number_key (num : text) : list Z :=
  map _component_value (number_tokens (Some num)).

End Numbering.

(* ------------------------------------------------------------------ *)
(** ** backend/services/section_chunking.py *)

Module SectionChunking.

Record Chunk : Type := {
  header_text : text;
  header_number : option text;
  level : Z;
  start_global_idx : Z;
  end_global_idx : Z;
  start_page : Z;
  end_page : Z
}.

(** [int(x or 1)] *)
Definition or_one (x : Z) : Z := if (x =? 0)%Z then 1%Z else x.

(** [index_by_global.setdefault(global_idx, idx)] over [enumerate(lines)] *)
Definition index_by_global (lines : list BodyLine) : dict Z nat :=
  fold_left (fun d il => dict_setdefault Z.eqb d (l_global_idx (snd il)) (fst il))
            (combine (seq 0 (length lines)) lines) [].

(** The body of the loop over [enumerate(headers)]: the chunk of the
    header at [position], or nothing when the iteration [continue]s. *)
Definition chunk_at (headers : list Header) (lines : list BodyLine)
  (ibg : dict Z nat) (position : nat) (header : Header) : result (option Chunk) :=
  match dict_get Z.eqb ibg (h_global_idx header) with
  | None => Ok None
  | Some current_idx =>
      bind
        (if position <? length headers - 1
         then
           bind (index headers (position + 1)) (fun next_header =>
             let next_idx :=
               match dict_get Z.eqb ibg (h_global_idx next_header) with
               | Some i => i
               | None => length lines
               end in
             Ok (Z.max (Z.of_nat current_idx) (Z.of_nat next_idx - 1)))
         else Ok (Z.of_nat (length lines) - 1)%Z)
        (fun end_index =>
           if (end_index <? Z.of_nat current_idx)%Z then Ok None
           else
             bind (index lines current_idx) (fun start_line =>
             bind (index lines (Z.to_nat end_index)) (fun end_line =>
             Ok (Some {| header_text := h_text header;
                         header_number := h_number header;
                         level := or_one (h_level header);
                         start_global_idx := l_global_idx start_line;
                         end_global_idx := l_global_idx end_line;
                         start_page := l_page start_line;
                         end_page := l_page end_line |}))))
  end.

Fixpoint chunks_loop (headers : list Header) (lines : list BodyLine)
  (ibg : dict Z nat) (todo : list (nat * Header)) (chunks : list Chunk)
  : result (list Chunk) :=
  match todo with
  | [] => Ok chunks
  | (position, header) :: rest =>
      bind (chunk_at headers lines ibg position header) (fun c =>
        chunks_loop headers lines ibg rest
          (match c with Some ch => chunks ++ [ch] | None => chunks end))
  end.

Definition single_chunks_from_headers (headers : list Header) (lines : list BodyLine)
  : result (list Chunk) :=
  match headers with
  | [] => Ok []
  | _ =>
      chunks_loop headers lines (index_by_global lines)
        (combine (seq 0 (length headers)) headers) []
  end.

End SectionChunking.

(* ------------------------------------------------------------------ *)
(** ** backend/services/headers_orchestrator.py: sequence repair *)

Module HeadersOrchestrator.
Import Chars Re SectionChunking.

Inductive Kind := Numeric | Alpha.

Definition kind_eqb (a b : Kind) : bool :=
  match a, b with
  | Numeric, Numeric | Alpha, Alpha => true
  | _, _ => false
  end.

(** A component dictionary: [raw], [normalized], [kind], [value]. *)
Record Component : Type := {
  raw : text;
  normalized : text;
  kind : option Kind;
  value : option Z
}.

Definition _alpha_to_int (v : text) : Z := Numbering._alpha_component_value v.

Fixpoint int_to_alpha_loop (fuel : nat) (remaining : Z) (chars : text) : text :=
  match fuel with
  | O => chars
  | S f =>
      if (0 <? remaining)%Z
      then
        let remaining := (remaining - 1)%Z in
        int_to_alpha_loop f (remaining / 26)%Z
          (chars ++ [ascii_of_nat (65 + Z.to_nat (remaining mod 26))])
      else chars
  end.

(** [_int_to_alpha]; the loop divides [remaining] by 26 each round, so
    [value] rounds are more than enough. *)
Definition _int_to_alpha (v : Z) : text :=
  if (v <=? 0)%Z then s2t "A"
  else rev (int_to_alpha_loop (Z.to_nat v) v []).

Definition _extract_components (number : option text) : list Component :=
  match number with
  | None => []
  | Some [] => []
  | Some t =>
      map (fun component =>
             if PyStr.isdigit component then
               let v := PyStr.int_of_digits component in
               {| raw := component; normalized := PyStr.str_of_Z v;
                  kind := Some Numeric; value := Some v |}
             else if PyStr.isalpha component then
               let v := _alpha_to_int component in
               {| raw := component; normalized := _int_to_alpha v;
                  kind := Some Alpha; value := Some v |}
             else
               {| raw := component; normalized := component;
                  kind := None; value := None |})
          (findall HeadersSequential.NUMBER_COMPONENT_RE t)
  end.

Definition _build_component (v : Z) (k : Kind) (template : option Component) : Component :=
  let template_raw := match template with Some t => raw t | None => [] end in
  match k with
  | Numeric =>
      let width := if PyStr.isdigit template_raw then length template_raw else 0 in
      {| raw := if Nat.eqb width 0 then PyStr.str_of_Z v
                else PyStr.zfill width (PyStr.str_of_Z v);
         normalized := PyStr.str_of_Z v;
         kind := Some Numeric; value := Some v |}
  | Alpha =>
      let n := _int_to_alpha v in
      if PyStr.islower template_raw
      then {| raw := PyStr.lower n; normalized := PyStr.upper n;
              kind := Some Alpha; value := Some v |}
      else {| raw := n; normalized := n; kind := Some Alpha; value := Some v |}
  end.

(** [_prefix_key]: the tuple of [(kind, value)] pairs. *)
Definition PrefixKey := list (option Kind * option Z).

Definition _prefix_key (components : list Component) : PrefixKey :=
  map (fun c => (kind c, value c)) components.

Definition opt_eqb {A} (eq : A -> A -> bool) (a b : option A) : bool :=
  match a, b with
  | Some x, Some y => eq x y
  | None, None => true
  | _, _ => false
  end.

Fixpoint list_eqb {A} (eq : A -> A -> bool) (a b : list A) : bool :=
  match a, b with
  | [], [] => true
  | x :: a', y :: b' => eq x y && list_eqb eq a' b'
  | _, _ => false
  end.

Definition GroupKey := (PrefixKey * option Kind)%type.

Definition group_key_eqb (a b : GroupKey) : bool :=
  list_eqb (fun x y => opt_eqb kind_eqb (fst x) (fst y) && opt_eqb Z.eqb (snd x) (snd y))
           (fst a) (fst b)
  && opt_eqb kind_eqb (snd a) (snd b).

(** A gap dictionary: [components], [after_index], [insert_position],
    [level]. *)
Record Gap : Type := {
  components : list Component;
  after_index : option nat;
  insert_position : nat;
  gap_level : Z
}.

(** [_value_range(start, stop)] is [range(start, stop)]. *)
Definition _value_range (start stop : Z) : list Z :=
  map (fun i => (start + Z.of_nat i)%Z) (seq 0 (Z.to_nat (stop - start))).

(** The state of the loop of [_identify_missing_headers]. *)
Record GapState : Type := {
  missing : list Gap;
  expected_by_key : dict GroupKey Z;
  last_index_by_key : dict GroupKey nat;
  components_cache : dict nat (list Component)
}.

Definition level_at (headers : list Header) (i : nat) : result Z :=
  bind (index headers i) (fun h => Ok (or_one (h_level h))).

Definition identify_step (headers : list Header) (st : GapState)
  (ih : nat * Header) : result GapState :=
  let '(idx, header) := ih in
  let comps := _extract_components (h_number header) in
  let cache := dict_set Nat.eqb (components_cache st) idx comps in
  match rev comps with
  | [] =>
      Ok {| missing := missing st; expected_by_key := expected_by_key st;
            last_index_by_key := last_index_by_key st; components_cache := cache |}
  | last_component :: rev_prefix =>
      let prefix_components := rev rev_prefix in
      let key := (_prefix_key prefix_components, kind last_component) in
      match kind last_component, value last_component with
      | Some k, Some v =>
          let expected := dict_get group_key_eqb (expected_by_key st) key in
          let last_index := dict_get group_key_eqb (last_index_by_key st) key in
          bind
            (match expected with
             | Some e =>
                 if (e <? v)%Z then
                   let template_component :=
                     match last_index with
                     | Some li =>
                         match dict_get Nat.eqb cache li with
                         | Some previous_components =>
                             match rev previous_components with
                             | t :: _ => t
                             | [] => last_component
                             end
                         | None => last_component
                         end
                     | None => last_component
                     end in
                   bind
                     (match last_index with
                      | Some li => level_at headers li
                      | None => Ok (or_one (h_level header))
                      end)
                     (fun prev_level =>
                        Ok (missing st ++
                            map (fun missing_value =>
                                   {| components :=
                                        prefix_components ++
                                        [_build_component missing_value k (Some template_component)];
                                      after_index := last_index;
                                      insert_position :=
                                        match last_index with Some li => li + 1 | None => 0 end;
                                      gap_level := prev_level |})
                                (_value_range e v)))
                 else Ok (missing st)
             | None => Ok (missing st)
             end)
            (fun missing' =>
               Ok {| missing := missing';
                     expected_by_key := dict_set group_key_eqb (expected_by_key st) key (v + 1)%Z;
                     last_index_by_key := dict_set group_key_eqb (last_index_by_key st) key idx;
                     components_cache := cache |})
      | _, _ =>
          Ok {| missing := missing st; expected_by_key := expected_by_key st;
                last_index_by_key := dict_set group_key_eqb (last_index_by_key st) key idx;
                components_cache := cache |}
      end
  end.

Fixpoint identify_loop (headers : list Header) (todo : list (nat * Header))
  (st : GapState) : result GapState :=
  match todo with
  | [] => Ok st
  | ih :: rest => bind (identify_step headers st ih) (identify_loop headers rest)
  end.

Definition _identify_missing_headers (headers : list Header) : result (list Gap) :=
  bind (identify_loop headers (combine (seq 0 (length headers)) headers)
          {| missing := []; expected_by_key := []; last_index_by_key := [];
             components_cache := [] |})
       (fun st => Ok (missing st)).

(** [_build_number_pattern]: with [separator = (?:[\s\.\-\)\(]*?)] the
    pattern is [^\s*[\(\[]?\s*{joined}(?:\b|[\.).\-\s:])], compiled with
    [re.IGNORECASE]. *)
Definition separator : regex :=
  lazy_star (Chr (fun c => is_space c || PyStr.mem_char c (s2t ".-)("))).

Definition component_part (component : Component) : regex :=
  match kind component with
  | Some Numeric => Seq (star (chr "0")) (lit_ci (normalized component))
  | _ =>
      let token := match raw component with [] => normalized component | r => r end in
      lit_ci token
  end.

Fixpoint join_parts (parts : list regex) : regex :=
  match parts with
  | [] => Eps
  | [p] => p
  | p :: rest => Seq p (Seq separator (join_parts rest))
  end.

Definition _build_number_pattern (comps : list Component) : option regex :=
  match comps with
  | [] => None
  | _ =>
      Some (seqs [Bol; spaces; opt (one_of (s2t "([")); spaces;
                  join_parts (map component_part comps);
                  Alt WordB (Chr (fun c => is_space c || PyStr.mem_char c (s2t ".)-:")))])
  end.

Definition _components_to_number (comps : list Component) : text :=
  PyStr.join (s2t ".")
    (filter (fun n => negb (Nat.eqb (length n) 0)) (map normalized comps)).

(** [remainder or stripped], with
    [remainder = stripped[match.end():].lstrip(" -.):\t")]. *)
Definition header_text_of (m : cursor) (stripped : text) : text :=
  let remainder :=
    PyStr.lstrip_chars (" "%char :: "-"%char :: "."%char :: ")"%char :: ":"%char
                        :: [ascii_of_nat 9])
                       (skipn (match_end m) stripped) in
  match remainder with [] => stripped | _ => remainder end.

(** The header dictionary a matching line yields. *)
Definition candidate_of (chunk : Chunk) (comps : list Component)
  (fallback_level : Z) (line : BodyLine) (pattern : regex) : option Header :=
  let stripped := PyStr.lstrip (l_text line) in
  match match_prefix pattern stripped with
  | None => None
  | Some m =>
      let lvl :=
        if negb (level chunk =? 0)%Z then level chunk
        else if negb (fallback_level =? 0)%Z then fallback_level
        else 1%Z in
      Some {| h_text := header_text_of m stripped;
              h_number := Some (_components_to_number comps);
              h_level := lvl;
              h_page := l_page line;
              h_line_idx := l_line_idx line;
              h_global_idx := l_global_idx line;
              h_source_idx := (-1)%Z |}
  end.

(** The loop [for idx in range(start_idx, end_idx + 1)]. *)
Fixpoint scan_chunk (chunk : Chunk) (lines : list BodyLine) (comps : list Component)
  (fallback_level : Z) (pattern : regex) (idxs : list nat) : result (option Header) :=
  match idxs with
  | [] => Ok None
  | idx :: rest =>
      bind (index lines idx) (fun line =>
        match candidate_of chunk comps fallback_level line pattern with
        | Some h => Ok (Some h)
        | None => scan_chunk chunk lines comps fallback_level pattern rest
        end)
  end.

(** [start_idx = index_by_global.get(start_global, 0)] and
    [end_idx = index_by_global.get(end_global, start_idx)] *)
Definition scan_start (chunk : Chunk) (index_by_global : dict Z nat) : nat :=
  match dict_get Z.eqb index_by_global (start_global_idx chunk) with
  | Some i => i | None => 0 end.

Definition scan_end (chunk : Chunk) (index_by_global : dict Z nat) : nat :=
  match dict_get Z.eqb index_by_global (end_global_idx chunk) with
  | Some i => i | None => scan_start chunk index_by_global end.

(** [fallback_level] is [gap.get("level")], an integer in every gap. *)
Definition _find_header_in_chunk (chunk : Chunk) (lines : list BodyLine)
  (comps : list Component) (index_by_global : dict Z nat) (fallback_level : Z)
  : result (option Header) :=
  match _build_number_pattern comps with
  | None => Ok None
  | Some pattern =>
      let start_idx := scan_start chunk index_by_global in
      let end_idx := scan_end chunk index_by_global in
      scan_chunk chunk lines comps fallback_level pattern
        (seq start_idx (end_idx + 1 - start_idx))
  end.

(** [_order_key] *)
Definition _order_key (header : Header) : list Z :=
  let order :=
    match h_number header with
    | None | Some [] => [(-1)%Z]
    | Some n => Numbering.number_key n
    end in
  if (0 <=? h_source_idx header)%Z
  then h_source_idx header :: order ++ [h_level header; h_global_idx header]
  else order ++ [h_level header; h_global_idx header].

Definition by_global_idx (a b : Header) : bool := (h_global_idx a <=? h_global_idx b)%Z.
Definition by_order_key (a b : Header) : bool := tuple_leb (_order_key a) (_order_key b).

(** The entries of [working_headers]. *)
Definition working_header (header : Header) : Header :=
  {| h_text := PyStr.strip (h_text header);
     h_number := match h_number header with Some [] => None | n => n end;
     h_level := or_one (h_level header);
     h_page := h_page header;
     h_line_idx := h_line_idx header;
     h_global_idx := h_global_idx header;
     h_source_idx := h_source_idx header |}.

(** [{int(line.get("global_idx", -1)): idx for idx, line in enumerate(lines)}]:
    a later line with the same [global_idx] replaces an earlier one. *)
Definition index_by_global_last (lines : list BodyLine) : dict Z nat :=
  fold_left (fun d il => dict_set Z.eqb d (l_global_idx (snd il)) (fst il))
            (combine (seq 0 (length lines)) lines) [].

(** [working_headers.insert(position, candidate)] *)
Definition list_insert {A} (l : list A) (position : nat) (x : A) : list A :=
  firstn position l ++ x :: skipn position l.

(** The loop [for gap in gaps]: the repaired headers and sections after
    the first gap that yields a new anchor, if any. *)
Fixpoint try_gaps (working : list Header) (sections : list Chunk)
  (lines : list BodyLine) (ibg : dict Z nat) (gaps : list Gap)
  : result (option (list Header * list Chunk)) :=
  match gaps with
  | [] => Ok None
  | gap :: rest =>
      match after_index gap with
      | None => try_gaps working sections lines ibg rest
      | Some ai =>
          if length sections <=? ai then try_gaps working sections lines ibg rest
          else
            bind (index sections ai) (fun chunk =>
            bind (_find_header_in_chunk chunk lines (components gap) ibg (gap_level gap))
              (fun found =>
                 match found with
                 | None => try_gaps working sections lines ibg rest
                 | Some candidate =>
                     if existsb (fun existing =>
                                   (h_global_idx existing =? h_global_idx candidate)%Z) working
                     then try_gaps working sections lines ibg rest
                     else
                       let position := Nat.min (insert_position gap) (length working) in
                       let working' :=
                         sorted by_global_idx (list_insert working position candidate) in
                       bind (single_chunks_from_headers working' lines) (fun sections' =>
                         Ok (Some (working', sections')))
                 end))
      end
  end.

(** The [while True] loop; [None] when [fuel] rounds did not reach a
    [break]. *)
Fixpoint repair_loop (fuel : nat) (working : list Header) (sections : list Chunk)
  (lines : list BodyLine) : option (result (list Header * list Chunk)) :=
  match fuel with
  | O => None
  | S f =>
      match _identify_missing_headers working with
      | IndexError => Some IndexError
      | Ok [] => Some (Ok (working, sections))
      | Ok gaps =>
          match try_gaps working sections lines (index_by_global_last lines) gaps with
          | IndexError => Some IndexError
          | Ok None => Some (Ok (working, sections))
          | Ok (Some (working', sections')) => repair_loop f working' sections' lines
          end
      end
  end.

(** [entry.pop("source_idx", None)] *)
Definition pop_source_idx (h : Header) : Header :=
  {| h_text := h_text h; h_number := h_number h; h_level := h_level h;
     h_page := h_page h; h_line_idx := h_line_idx h;
     h_global_idx := h_global_idx h; h_source_idx := (-1)%Z |}.

Definition enforce_with_fuel (fuel : nat) (headers : list Header) (lines : list BodyLine)
  : option (result (list Header * list Chunk)) :=
  match headers with
  | [] => Some (Ok ([], []))
  | _ =>
      let working :=
        sorted by_order_key (sorted by_global_idx (map working_header headers)) in
      match single_chunks_from_headers working lines with
      | IndexError => Some IndexError
      | Ok sections =>
          match repair_loop fuel working sections lines with
          | None => None
          | Some IndexError => Some IndexError
          | Some (Ok (working', sections')) =>
              Some (Ok (map pop_source_idx
                          (sorted by_order_key (sorted by_global_idx working')),
                        sections'))
          end
      end
  end.

(** Every round but the last anchors one more line, so one round more
    than there are lines always reaches a [break]. *)
Definition _enforce_header_sequence (headers : list Header) (lines : list BodyLine)
  : option (result (list Header * list Chunk)) :=
  enforce_with_fuel (S (length lines)) headers lines.

End HeadersOrchestrator.

(* ------------------------------------------------------------------ *)
(** ** backend/services/headers_sequential.py: numbering patterns *)

Module NumberRegex.
Import Chars Re.

(** The look-ahead [(?=$|\s|[).:-])] that closes every numbering
    pattern. *)
Definition number_end : regex :=
  Ahead false (Alt Eol (Alt space (one_of (s2t ").:-")))).

Fixpoint number_parts (prev : text) (tokens : list text) : list regex :=
  match tokens with
  | [] => []
  | token :: rest =>
      (if PyStr.isdigit prev && PyStr.isdigit token
       then seqs [spaces; chr "."; spaces; lit_ci token]
       else Seq (star (Chr (fun c => eqc c "." || is_space c))) (lit_ci token))
      :: number_parts token rest
  end.

(** [compile_number_regex]: [(?<!\S){core}(?=$|\s|[).:-])] with
    [re.IGNORECASE]. *)
Definition compile_number_regex (num : text) : regex :=
  match Numbering.number_tokens (Some num) with
  | [] => seqs [Behind true 1 non_space; lit_ci num; number_end]
  | first :: rest =>
      seqs [Behind true 1 non_space; seqs (lit_ci first :: number_parts first rest);
            number_end]
  end.

End NumberRegex.

(* ------------------------------------------------------------------ *)
(** ** backend/services/header_locator.py *)

Module HeaderLocator.
Import Chars Re.

(** A header of the oracle's outline: [text], [number], [level]. *)
Record OracleHeader : Type := {
  o_text : text;
  o_number : option text;
  o_level : Z
}.

(** An entry of the list [align_headers_sequential] returns. *)
Record SeqEntry : Type := {
  e_number : text;
  e_title : text;
  e_level : Z;
  e_global_idx : Z;
  e_page : Z;
  e_line_idx : Z
}.

Definition _normalise (t : text) : text := HeadersSequential.normalize t true.

(** [(header.get("number") or "").strip()] *)
Definition number_of (h : OracleHeader) : text :=
  match o_number h with Some n => PyStr.strip n | None => [] end.

Definition nonempty (t : text) : bool := negb (Nat.eqb (length t) 0).

(** [s.split()]: the maximal runs of characters that are not white
    space. *)
Fixpoint split_ws_aux (s : text) (cur : text) : list text :=
  match s with
  | [] => match cur with [] => [] | _ => [rev cur] end
  | c :: s' =>
      if is_space c
      then match cur with [] => split_ws_aux s' [] | _ => rev cur :: split_ws_aux s' [] end
      else split_ws_aux s' (c :: cur)
  end.

Definition split_ws (s : text) : list text := split_ws_aux s [].

Section Legacy.

(** [SequenceMatcher(a=target, b=norm).ratio() >= similarity_threshold],
    the test of difflib the legacy matcher falls back to. *)
Variable similar : text -> text -> bool.

(** The candidate test of the first scan over [usable]. *)
Definition is_candidate (number target : text) (target_tokens : list text)
  (line : BodyLine) : bool :=
  let norm := _normalise (l_text line) in
  (nonempty number
   && (found (NumberRegex.compile_number_regex number) (l_text line)
       || found (NumberRegex.compile_number_regex number) norm))
  || PyStr.eqb norm target || PyStr.contains target norm
  || (negb (Nat.eqb (length target_tokens) 0)
      && forallb (fun token => PyStr.contains token norm) target_tokens).

Definition by_line_gid (a b : BodyLine) : bool := (l_global_idx a <=? l_global_idx b)%Z.

(** One round of the loop over [headers]: the anchors found so far and
    [previous_anchor]. *)
Definition legacy_step (usable : list BodyLine) (st : list Header * Z)
  (header : OracleHeader) : list Header * Z :=
  let '(located, previous_anchor) := st in
  let target := _normalise (o_text header) in
  match target with
  | [] => st
  | _ =>
      let number := number_of header in
      let target_tokens := split_ws target in
      let candidates := filter (is_candidate number target target_tokens) usable in
      let candidates :=
        match candidates with
        | [] => filter (fun line =>
                          let norm := _normalise (l_text line) in
                          nonempty norm && similar target norm) usable
        | _ => candidates
        end in
      match candidates with
      | [] => st
      | _ =>
          let candidates := sorted by_line_gid candidates in
          let best :=
            match find (fun c => (previous_anchor <=? l_global_idx c)%Z) candidates with
            | Some c => Some c
            | None => last (map Some candidates) None
            end in
          match best with
          | None => st
          | Some best =>
              (located ++
               [{| h_text := PyStr.strip (o_text header);
                   h_number := match number with [] => None | n => Some n end;
                   h_level := SectionChunking.or_one (o_level header);
                   h_page := l_page best;
                   h_line_idx := l_line_idx best;
                   h_global_idx := l_global_idx best;
                   h_source_idx := (-1)%Z |}],
               l_global_idx best)
          end
      end
  end.

Definition by_header_gid (a b : Header) : bool := (h_global_idx a <=? h_global_idx b)%Z.

Definition _locate_headers_legacy (headers : list OracleHeader) (lines : list BodyLine)
  (excluded_pages : list Z) : list Header :=
  let usable :=
    filter (fun line => negb (mem Z.eqb (l_page line) excluded_pages)
                        && negb (l_is_running line)) lines in
  sorted by_header_gid (fst (fold_left (legacy_step usable) headers ([], (-1)%Z))).

(** [align_headers_sequential], which scores lines with rapidfuzz; the
    locator only reads the list it returns. *)
Variable align_headers_sequential : list OracleHeader -> list BodyLine -> list SeqEntry.

Definition BucketKey := (text * text)%type.

Definition bucket_key_eqb (a b : BucketKey) : bool :=
  PyStr.eqb (fst a) (fst b) && PyStr.eqb (snd a) (snd b).

(** [index_buckets.setdefault((number_key, text_key), []).append(idx)] *)
Definition index_buckets (headers : list OracleHeader) : dict BucketKey (list nat) :=
  fold_left
    (fun d ih =>
       let key := (number_of (snd ih), _normalise (o_text (snd ih))) in
       match dict_get bucket_key_eqb d key with
       | Some b => dict_set bucket_key_eqb d key (b ++ [fst ih])
       | None => d ++ [(key, [fst ih])]
       end)
    (combine (seq 0 (length headers)) headers) [].

(** [_take_index]: the next free position of the bucket, which is
    popped, or [len(headers) + 1000]. *)
Definition _take_index (n_headers : nat) (buckets : dict BucketKey (list nat))
  (number : option text) (t : text) : dict BucketKey (list nat) * Z :=
  let key := (match number with Some n => PyStr.strip n | None => [] end, _normalise t) in
  match dict_get bucket_key_eqb buckets key with
  | Some (i :: rest) => (dict_set bucket_key_eqb buckets key rest, Z.of_nat i)
  | _ => (buckets, Z.of_nat (n_headers + 1000))
  end.

(** [for entry in located: entry["source_idx"] = _take_index(...)] *)
Fixpoint assign_source_idx (n_headers : nat) (buckets : dict BucketKey (list nat))
  (located : list Header) : dict BucketKey (list nat) * list Header :=
  match located with
  | [] => (buckets, [])
  | h :: rest =>
      let '(buckets1, i) := _take_index n_headers buckets (h_number h) (h_text h) in
      let '(buckets2, rest') := assign_source_idx n_headers buckets1 rest in
      (buckets2,
       {| h_text := h_text h; h_number := h_number h; h_level := h_level h;
          h_page := h_page h; h_line_idx := h_line_idx h;
          h_global_idx := h_global_idx h; h_source_idx := i |} :: rest')
  end.

(** The sort key [(source_idx, global_idx)] of the result. *)
Definition by_source_then_gid (a b : Header) : bool :=
  tuple_leb [h_source_idx a; h_global_idx a] [h_source_idx b; h_global_idx b].

Definition _eligible (excluded : list Z) (line : BodyLine) : bool :=
  negb (mem Z.eqb (l_page line) excluded) && negb (l_is_toc line || l_is_index line).

(** The dictionary built from an entry of the sequential aligner. *)
Definition located_of (entry : SeqEntry) : Header :=
  {| h_text := e_title entry;
     h_number := Some (e_number entry);
     h_level := e_level entry;
     h_page := e_page entry;
     h_line_idx := e_line_idx entry;
     h_global_idx := e_global_idx entry;
     h_source_idx := (-1)%Z |}.

Definition total_numbered (headers : list OracleHeader) : nat :=
  count (fun h => nonempty (number_of h)) headers.

(** [coverage < 0.6], where [coverage] is
    [len(sequential_headers) / total_numbered], or 1.0 when no header is
    numbered.  For counts below 2^50 the correctly rounded quotient is
    below the double nearest to 0.6 exactly when [5 * resolved] is below
    [3 * total]. *)
Definition low_coverage (resolved total : nat) : bool :=
  match total with
  | O => false
  | _ => 5 * resolved <? 3 * total
  end.

Definition locate_headers_in_lines (cfg : Config) (headers : list OracleHeader)
  (lines : list BodyLine) (excluded_pages : list Z) : list Header :=
  let buckets := index_buckets headers in
  if HEADERS_ALIGN_SEQUENTIAL cfg then
    let sequential_lines := filter (_eligible excluded_pages) lines in
    let sequential_headers := align_headers_sequential headers sequential_lines in
    let sequential_headers :=
      if low_coverage (length sequential_headers) (total_numbered headers)
      then [] else sequential_headers in
    let '(buckets, located) :=
      assign_source_idx (length headers) buckets (map located_of sequential_headers) in
    let matched_numbers :=
      map e_number (filter (fun e => nonempty (e_number e)) sequential_headers) in
    let used_indices := map e_global_idx sequential_headers in
    let remaining_headers :=
      filter (fun h => negb (nonempty (number_of h)
                             && mem PyStr.eqb (number_of h) matched_numbers)) headers in
    let located :=
      match remaining_headers with
      | [] => located
      | _ =>
          let filtered_lines :=
            filter (fun line => negb (mem Z.eqb (l_global_idx line) used_indices))
                   sequential_lines in
          located ++
          snd (assign_source_idx (length headers) buckets
                 (_locate_headers_legacy remaining_headers filtered_lines excluded_pages))
      end in
    sorted by_source_then_gid located
  else
    sorted by_source_then_gid
      (snd (assign_source_idx (length headers) buckets
              (_locate_headers_legacy headers lines excluded_pages))).

End Legacy.

End HeaderLocator.

(* ------------------------------------------------------------------ *)
(** ** backend/services/sections.py *)

Module Sections.
Import Chars Re.

(** An entry of [simpleheaders]; a key that is absent or not an integer
    reads as [None] through [_safe_int]. *)
Record SimpleHeader : Type := {
  sh_text : text;
  sh_number : option text;
  sh_level : Z;
  sh_page : option Z;
  sh_line_idx : option Z;
  sh_global_idx : option Z
}.

(** [_ResolvedHeader] *)
Record ResolvedHeader : Type := {
  rh_text : text;
  rh_number : option text;
  rh_level : Z;
  rh_page : option Z;
  rh_line_idx : option Z;
  rh_global_idx : Z
}.

Definition set_global_idx (h : ResolvedHeader) (gid : Z) : ResolvedHeader :=
  {| rh_text := rh_text h; rh_number := rh_number h; rh_level := rh_level h;
     rh_page := rh_page h; rh_line_idx := rh_line_idx h; rh_global_idx := gid |}.

(** [_normalise_text] *)
Definition _normalise_text (t : text) : text :=
  PyStr.lower (PyStr.strip (sub (plus space) (fun _ => s2t " ") t)).

(** [line_by_gid.setdefault(gid, line)] *)
Definition line_by_gid (lines : list BodyLine) : dict Z BodyLine :=
  fold_left (fun d line => dict_setdefault Z.eqb d (l_global_idx line) line) lines [].

Definition pair_eqb (a b : Z * Z) : bool := (fst a =? fst b)%Z && (snd a =? snd b)%Z.

(** [lookup_page_line.setdefault((page, line_idx), gid)] *)
Definition lookup_page_line (lines : list BodyLine) : dict (Z * Z) Z :=
  fold_left (fun d line => dict_setdefault pair_eqb d (l_page line, l_line_idx line)
                             (l_global_idx line)) lines [].

(** The first loop: the entries that have a text and a [global_idx]. *)
Definition resolve_entry (lookup : dict (Z * Z) Z) (entry : SimpleHeader)
  : option ResolvedHeader :=
  let t := PyStr.strip (sh_text entry) in
  match t with
  | [] => None
  | _ =>
      let number :=
        match sh_number entry with
        | None | Some [] => None
        | Some n => Some (PyStr.strip n)
        end in
      let gid :=
        match sh_global_idx entry, sh_page entry, sh_line_idx entry with
        | Some g, _, _ => Some g
        | None, Some p, Some li => dict_get pair_eqb lookup (p, li)
        | None, _, _ => None
        end in
      match gid with
      | None => None
      | Some g =>
          Some {| rh_text := t; rh_number := number;
                  rh_level := SectionChunking.or_one (sh_level entry);
                  rh_page := sh_page entry; rh_line_idx := sh_line_idx entry;
                  rh_global_idx := g |}
      end
  end.

Fixpoint filter_map {A B} (f : A -> option B) (l : list A) : list B :=
  match l with
  | [] => []
  | x :: l' => match f x with Some y => y :: filter_map f l' | None => filter_map f l' end
  end.

Definition DedupKey := (option text * text * Z)%type.

Definition dedup_key (h : ResolvedHeader) : DedupKey :=
  (rh_number h, _normalise_text (rh_text h), rh_level h).

Definition dedup_key_eqb (a b : DedupKey) : bool :=
  HeadersOrchestrator.opt_eqb PyStr.eqb (fst (fst a)) (fst (fst b))
  && PyStr.eqb (snd (fst a)) (snd (fst b))
  && (snd a =? snd b)%Z.

(** The loop that keeps, for each key, the header with the largest
    [global_idx], a later one winning a tie. *)
Definition dedup_step (dedup : dict DedupKey ResolvedHeader) (header : ResolvedHeader)
  : dict DedupKey ResolvedHeader :=
  match dict_get dedup_key_eqb dedup (dedup_key header) with
  | None => dedup ++ [(dedup_key header, header)]
  | Some existing =>
      if (rh_global_idx existing <=? rh_global_idx header)%Z
      then dict_set dedup_key_eqb dedup (dedup_key header) header
      else dedup
  end.

(** An optional integer as a sort key: [None] sorts as [math.inf]. *)
Definition opt_leb (a b : option Z) : bool :=
  match a, b with
  | _, None => true
  | None, Some _ => false
  | Some x, Some y => (x <=? y)%Z
  end.

Definition opt_ltb (a b : option Z) : bool := negb (opt_leb b a).

(** The order of the key [(global_idx, page, line_idx)]. *)
Definition resolved_leb (a b : ResolvedHeader) : bool :=
  (rh_global_idx a <? rh_global_idx b)%Z
  || ((rh_global_idx a =? rh_global_idx b)%Z
      && (opt_ltb (rh_page a) (rh_page b)
          || (opt_leb (rh_page a) (rh_page b) && opt_leb (rh_page b) (rh_page a)
              && opt_leb (rh_line_idx a) (rh_line_idx b)))).

(** [sorted(line_by_gid)] *)
Definition line_order (lines : list BodyLine) : list Z :=
  sorted Z.leb (map fst (line_by_gid lines)).

(** [line_order.index(gid)] for a [gid] known to be in the list. *)
Fixpoint position_of (gid : Z) (l : list Z) : nat :=
  match l with
  | [] => 0
  | g :: l' => if (g =? gid)%Z then 0 else S (position_of gid l')
  end.

(** [while gid in used: gid += 1]; the loop leaves after at most
    [len(used)] increments. *)
Fixpoint first_free (fuel : nat) (used : list Z) (gid : Z) : Z :=
  match fuel with
  | O => gid
  | S f => if mem Z.eqb gid used then first_free f used (gid + 1)%Z else gid
  end.

(** The scan of the next six lines for one whose text is the header's. *)
Definition scan_forward (lines : list BodyLine) (entry : ResolvedHeader) : Z :=
  let gid := rh_global_idx entry in
  let by_gid := line_by_gid lines in
  let order := line_order lines in
  let start_idx :=
    if dict_mem Z.eqb by_gid gid then position_of gid order + 1 else 0 in
  match
    find (fun candidate_gid =>
            match dict_get Z.eqb by_gid candidate_gid with
            | None => false
            | Some line =>
                let t := _normalise_text (l_text line) in
                HeaderLocator.nonempty t && PyStr.eqb t (_normalise_text (rh_text entry))
            end)
         (firstn 6 (skipn start_idx order))
  with
  | Some candidate_gid => candidate_gid
  | None => gid
  end.

(** The loop that makes the [global_idx] values pairwise distinct. *)
Fixpoint make_distinct (lines : list BodyLine) (used : list Z)
  (resolved : list ResolvedHeader) : list ResolvedHeader :=
  match resolved with
  | [] => []
  | entry :: rest =>
      if mem Z.eqb (rh_global_idx entry) used
      then
        let gid := first_free (S (length used)) used (scan_forward lines entry) in
        set_global_idx entry gid :: make_distinct lines (used ++ [gid]) rest
      else entry :: make_distinct lines (used ++ [rh_global_idx entry]) rest
  end.

Definition _resolve_headers (headers : list SimpleHeader) (lines : list BodyLine)
  : list ResolvedHeader :=
  let resolved := filter_map (resolve_entry (lookup_page_line lines)) headers in
  let dedup := fold_left dedup_step resolved [] in
  make_distinct lines [] (sorted resolved_leb (map snd dedup)).

(** A section span.  [section_key] is a function of the other fields
    through [make_section_key]; it and the two page numbers are left
    out. *)
Record Span : Type := {
  title : text;
  number : option text;
  span_level : Z;
  start_global_idx : Z;
  end_global_idx : Z
}.

(** [document_end]: one past the largest [global_idx], or 0. *)
Definition document_end (lines : list BodyLine) : Z :=
  match rev (sorted HeaderLocator.by_line_gid lines) with
  | last_line :: _ => (l_global_idx last_line + 1)%Z
  | [] => 0%Z
  end.

Fixpoint spans_of (doc_end : Z) (resolved : list ResolvedHeader) : list Span :=
  match resolved with
  | [] => []
  | header :: rest =>
      let start_gid := rh_global_idx header in
      let end_gid :=
        match rest with
        | next :: _ => rh_global_idx next
        | [] => doc_end
        end in
      {| title := rh_text header; number := rh_number header;
         span_level := rh_level header;
         start_global_idx := start_gid;
         end_global_idx := if (end_gid <? start_gid)%Z then start_gid else end_gid |}
      :: spans_of doc_end rest
  end.

Definition build_section_spans (simpleheaders : list SimpleHeader) (lines : list BodyLine)
  : list Span :=
  spans_of (document_end lines) (_resolve_headers simpleheaders lines).

End Sections.

(* ------------------------------------------------------------------ *)
(** ** backend/services/headers_sequential.py: parent re-anchoring *)

Module Invariants.
Import Chars Re HeadersSequential.

(** [HeaderItem] *)
Record HeaderItem : Type := {
  num : text;
  item_title : text;
  item_level : Z
}.

Definition within (v start stop : Z) : bool := (start <=? v)%Z && (v <? stop)%Z.

(** [page_positions]: page -> {global_idx -> position on the page}. *)
Definition page_positions (lines : list Line) : dict Z (dict Z nat) :=
  map (fun entry =>
         let ordered := sorted gid_leb (snd entry) in
         (fst entry,
          fold_left (fun m il => dict_set Z.eqb m (global_idx (snd il)) (fst il))
                    (combine (seq 0 (length ordered)) ordered) []))
      (group_by Z.eqb page lines).

Definition in_page_band (ln : Line) (pos_map : dict Z (dict Z nat)) (band : Z) : bool :=
  match dict_get Z.eqb pos_map (page ln) with
  | None | Some [] => false
  | Some positions =>
      match dict_get Z.eqb positions (global_idx ln) with
      | None => false
      | Some pos =>
          let count := Z.of_nat (length positions) in
          (Z.of_nat pos <? band)%Z || (Z.max 0 (count - band) <=? Z.of_nat pos)%Z
      end
  end.

Definition is_ineligible_runner_or_toc (ln : Line) (norm_text : text)
  (toc_pages : list Z) (runners : list text) : bool :=
  mem Z.eqb (page ln) toc_pages || mem PyStr.eqb norm_text runners.

Section Scoring.

(** [rapidfuzz.fuzz.token_set_ratio], a score between 0 and 100. *)
Variable token_set_ratio : text -> text -> Q.

Definition cand_score (norm_line want_norm : text) (has_number in_band : bool) : Q :=
  let score := token_set_ratio norm_line want_norm in
  let score := if has_number then (score + 20)%Q else score in
  if in_band then (score - 15)%Q else score.

(** A candidate [(score, line.global_idx, has_num)] and the order of
    such tuples. *)
Definition Candidate := (Q * Z * bool)%type.

Definition candidate_gtb (a b : Candidate) : bool :=
  let '(sa, ga, na) := a in
  let '(sb, gb, nb) := b in
  negb (Qle_bool sa sb)
  || (Qeq_bool sa sb && ((gb <? ga)%Z || ((ga =? gb)%Z && na && negb nb))).

Definition threshold_of (fuzzy_threshold : Z) : Q := inject_Z (Z.max fuzzy_threshold 70).

(** One round of the loop over [lines] in [reanchor_parent_title_only]. *)
Definition reanchor_step (cfg : Config) (confusables : bool) (pos_map : dict Z (dict Z nat))
  (toc_pages : list Z) (runners : list text) (fuzzy_threshold : Z)
  (want_norm : text) (number_regex : regex) (start_scan earliest_child_idx : Z)
  (best : option Candidate) (line : Line) : option Candidate :=
  if (earliest_child_idx <=? global_idx line)%Z || (global_idx line <? start_scan)%Z
  then best
  else
    let norm_text := normalize (text_of line) confusables in
    if is_ineligible_runner_or_toc line norm_text toc_pages runners then best
    else
      let has_num := found number_regex norm_text in
      if negb has_num && negb (HEADERS_TITLE_ONLY_REANCHOR cfg) then best
      else
        let score :=
          cand_score norm_text want_norm has_num
            (in_page_band line pos_map (HEADERS_BAND_LINES cfg)) in
        if Qle_bool (threshold_of fuzzy_threshold) score
        then
          let candidate := (score, global_idx line, has_num) in
          match best with
          | None => Some candidate
          | Some b => if candidate_gtb candidate b then Some candidate else best
          end
        else best.

(** [reanchor_parent_title_only]: the anchors after the call and the
    value returned. *)
Definition reanchor_parent_title_only (cfg : Config) (confusables : bool)
  (lines : list Line) (items_by_num : dict text HeaderItem)
  (toc_pages : list Z) (runners : list text) (fuzzy_threshold : Z)
  (pos : dict text Z) (parent_num : text) (earliest_child_idx : Z)
  : dict text Z * bool :=
  match dict_get PyStr.eqb items_by_num parent_num with
  | None => (pos, false)
  | Some parent_item =>
      let want_norm :=
        normalize (num parent_item ++ s2t " " ++ item_title parent_item) confusables in
      let number_regex := NumberRegex.compile_number_regex (num parent_item) in
      let start_scan := Z.max 0 (earliest_child_idx - 800) in
      let best :=
        fold_left
          (reanchor_step cfg confusables (page_positions lines) toc_pages runners
             fuzzy_threshold want_norm number_regex start_scan earliest_child_idx)
          lines None in
      match best with
      | Some b => (dict_set PyStr.eqb pos parent_num (snd (fst b)), true)
      | None => (dict_set PyStr.eqb pos parent_num earliest_child_idx, true)
      end
  end.

End Scoring.

End Invariants.

(* ------------------------------------------------------------------ *)
(** ** backend/services/headers_orchestrator.py: the run *)

Module Run.
Import HeaderLocator HeadersOrchestrator.

Inductive Mode :=
| llm_full | llm_strict | llm_vector | llm_disabled | llm_full_error.

(** The settings [extract_headers_and_chunks] reads. *)
Record Settings : Type := {
  headers_mode_is_llm_full : bool;   (* settings.headers_mode.lower() == "llm_full" *)
  headers_llm_strict : bool;
  header_locate_use_embeddings : bool
}.

(** The dictionary the run returns, without the values it passes
    through ([lines], [doc_hash], [excluded_pages], [fenced_text]). *)
Record LocateResult : Type := {
  headers : list Header;
  sections : list SectionChunking.Chunk;
  mode : Mode;
  messages : list text
}.

Section Collaborators.

(** The oracle call [get_headers_llm_full]: the failure message of
    [_format_llm_failure] when it raises, its headers otherwise. *)
Variable get_headers_llm_full : list BodyLine -> text + list OracleHeader.

(** [align_headers_llm_strict] followed by the conversion of its items
    to located headers. *)
Variable align_headers_llm_strict : list OracleHeader -> list BodyLine -> list Header.

(** [locate_headers_with_vectors]; [None] when it raises. *)
Variable locate_headers_with_vectors : list OracleHeader -> list BodyLine -> option (list Header).

Variable similar : text -> text -> bool.
Variable align_headers_sequential : list OracleHeader -> list BodyLine -> list SeqEntry.

Definition is_nil {A} (l : list A) : bool := match l with [] => true | _ => false end.

(** The located headers, mode and messages before sequence repair. *)
Definition locate (cfg : Config) (settings : Settings) (lines : list BodyLine)
  (excluded_pages : list Z) : list Header * Mode * list text :=
  if headers_mode_is_llm_full settings then
    match get_headers_llm_full lines with
    | inl failure => ([], llm_full_error, [failure])
    | inr llm_headers =>
        let '(located, mode_used) :=
          if headers_llm_strict settings && negb (is_nil llm_headers)
          then
            let strict_resolved := align_headers_llm_strict llm_headers lines in
            if is_nil strict_resolved then ([], llm_full) else (strict_resolved, llm_strict)
          else ([], llm_full) in
        let '(located, mode_used, messages) :=
          if is_nil located && header_locate_use_embeddings settings
          then
            match locate_headers_with_vectors llm_headers lines with
            | Some found =>
                (found, if is_nil found then mode_used else llm_vector, [])
            | None =>
                ([], mode_used,
                 [s2t "Vector header locator unavailable; using sequential alignment."])
            end
          else (located, mode_used, []) in
        let located :=
          if is_nil located
          then locate_headers_in_lines similar align_headers_sequential cfg llm_headers
                 lines excluded_pages
          else located in
        (located, mode_used, messages)
    end
  else ([], llm_disabled, [s2t "LLM header extraction is disabled by configuration."]).

(** [extract_headers_and_chunks] once [collect_line_metrics] has
    returned [lines] and [excluded_pages], without a cached artifact.
    [None] stands for a repair loop that never leaves, [IndexError] for
    an index out of range. *)
Definition extract_headers_and_chunks (cfg : Config) (settings : Settings)
  (lines : list BodyLine) (excluded_pages : list Z) : option (result LocateResult) :=
  let '(located, mode_used, messages) := locate cfg settings lines excluded_pages in
  match _enforce_header_sequence located lines with
  | None => None
  | Some IndexError => Some IndexError
  | Some (Ok (located_headers, sections)) =>
      Some (Ok {| headers := located_headers; sections := sections;
                  mode := mode_used; messages := messages |})
  end.

End Collaborators.

End Run.

(* ------------------------------------------------------------------ *)
(** ** Vocabulary of the statements *)

Section Filed.
Variables (A K : Type) (keq : K -> K -> bool) (key : A -> K).

(** The elements of [l] filed under the key [k], in order. *)
Definition filed (k : K) (l : list A) : list A :=
  filter (fun x => keq (key x) k) l.

(** [d] files every element of [l] under its key, each key once. *)
Definition groups_of (d : dict K (list A)) (l : list A) : Prop :=
  NoDup (map fst d) /\
  (forall k, In k (map fst d) <-> In k (map key l)) /\
  (forall k, In k (map fst d) -> dict_get keq d k = Some (filed k l)).

End Filed.

(** The count a [Counter] holds for [k]: 0 for an absent key. *)
Definition cnt {K} (keq : K -> K -> bool) (c : dict K nat) (k : K) : nat :=
  match dict_get keq c k with Some n => n | None => 0 end.

(** Every key of a counter has been counted at least once. *)
Definition counted {K} (c : dict K nat) : Prop :=
  NoDup (map fst c) /\ forall k n, In (k, n) c -> 1 <= n.

(** The lines of one page, in stream order. *)
Definition lines_on (p : Z) (lines : list HeadersSequential.Line) : list HeadersSequential.Line :=
  filed Z.eqb HeadersSequential.page p lines.

(** The distinct pages of a line stream. *)
Definition pages_of (lines : list HeadersSequential.Line) : list Z :=
  nodup Z.eq_dec (map HeadersSequential.page lines).

(** The number of distinct pages in whose top or bottom band the
    normalised text [t] appears on a line not flagged as running. *)
Definition pages_showing (limit : nat) (t : text) (lines : list HeadersSequential.Line) : nat :=
  count (fun p => mem PyStr.eqb t (HeadersSequential.page_candidates limit (lines_on p lines)))
        (pages_of lines).

(** The dot-leader pattern as the specification words it:
    [\.{3,}\s*\d{1,4}\s*$]. *)
Definition SPEC_DOT_LEADER_RE : Re.regex :=
  Re.seqs [Re.at_least 3 (Re.chr "."); Re.spaces; Re.from_to 1 4 Re.digit; Re.spaces; Re.Eol].

(** The line dictionaries and dataclass instances of the examples. *)
Definition body_line (t : string) (p g : Z) : BodyLine :=
  {| l_text := s2t t; l_page := p; l_global_idx := g; l_line_idx := g;
     l_is_toc := false; l_is_index := false; l_is_running := false |}.

Definition seq_line (t : string) (p g : Z) : HeadersSequential.Line :=
  {| HeadersSequential.text_of := s2t t; HeadersSequential.page := p;
     HeadersSequential.global_idx := g; HeadersSequential.line_idx := 0;
     HeadersSequential.is_running := false |}.

(** The configuration with [HEADERS_ALIGN_STRATEGY] set to a value other
    than "sequential". *)
Definition legacy_config : Config := {|
  HEADERS_BAND_LINES := 5;
  HEADERS_TITLE_ONLY_REANCHOR := true;
  HEADERS_STRICT_INVARIANTS := true;
  HEADERS_RESCAN_PASSES := 2;
  HEADERS_DEDUPE_POLICY := DedupeBest;
  HEADERS_STRICT_TOC_MIN_DOT_LEADERS := 4;
  HEADERS_STRICT_TOC_MIN_SECTION_TOKENS := 6;
  HEADERS_ALIGN_SEQUENTIAL := false;
  HEADERS_RUNNER_MIN_PAGES := 2
|}.

Definition oracle_header (t : string) (n : option string) (lvl : Z)
  : HeaderLocator.OracleHeader :=
  {| HeaderLocator.o_text := s2t t;
     HeaderLocator.o_number := option_map s2t n;
     HeaderLocator.o_level := lvl |}.

(** What a candidate of the parent scan has to satisfy. *)
Definition reanchor_candidate (lines : list HeadersSequential.Line) (confusables : bool)
  (toc_pages : list Z) (runners : list text) (earliest_child_idx g : Z) : Prop :=
  (Z.max 0 (earliest_child_idx - 800) <= g < earliest_child_idx)%Z
  /\ exists line,
       In line lines /\ HeadersSequential.global_idx line = g
       /\ Invariants.is_ineligible_runner_or_toc line
            (HeadersSequential.normalize (HeadersSequential.text_of line) confusables)
            toc_pages runners = false.

(** The values of the de-duplication dictionary of [_resolve_headers]
    come from the headers seen so far and keep their indexes pairwise
    distinct. *)
Definition dedup_inv (d : dict Sections.DedupKey Sections.ResolvedHeader)
  (seen : list Sections.ResolvedHeader) : Prop :=
  (forall h, In h (map snd d) -> In h seen)
  /\ NoDup (map Sections.rh_global_idx (map snd d)).

Definition simple_header (t : string) (n : option string) (g : Z) : Sections.SimpleHeader :=
  {| Sections.sh_text := s2t t; Sections.sh_number := option_map s2t n;
     Sections.sh_level := 1; Sections.sh_page := Some 1%Z;
     Sections.sh_line_idx := Some g; Sections.sh_global_idx := Some g |}.

(** The position of the first line whose [global_idx] is [g]. *)
Fixpoint first_index (g : Z) (lines : list BodyLine) : option nat :=
  match lines with
  | [] => None
  | line :: rest =>
      if (l_global_idx line =? g)%Z then Some 0
      else option_map S (first_index g rest)
  end.

(** The position of the last line whose [global_idx] is [g]. *)
Fixpoint last_index (g : Z) (lines : list BodyLine) : option nat :=
  match lines with
  | [] => None
  | line :: rest =>
      match last_index g rest with
      | Some i => Some (S i)
      | None => if (l_global_idx line =? g)%Z then Some 0 else None
      end
  end.

(** [c] spans the lines at positions [p] to [q], both included. *)
Definition spans_lines (lines : list BodyLine) (c : SectionChunking.Chunk) (p q : nat) : Prop :=
  p <= q
  /\ option_map l_global_idx (nth_error lines p) = Some (SectionChunking.start_global_idx c)
  /\ option_map l_global_idx (nth_error lines q) = Some (SectionChunking.end_global_idx c).


(** The chunk's first and last index are indexes of lines. *)
Definition on_lines (lines : list BodyLine) (c : SectionChunking.Chunk) : Prop :=
  In (SectionChunking.start_global_idx c) (map l_global_idx lines)
  /\ In (SectionChunking.end_global_idx c) (map l_global_idx lines).

(** The spans are half-open ranges, each ending where the next begins
    and the last ending at [doc_end]. *)
Fixpoint abutting (doc_end : Z) (spans : list Sections.Span) : Prop :=
  match spans with
  | [] => True
  | s :: rest =>
      (Sections.start_global_idx s < Sections.end_global_idx s)%Z
      /\ Sections.end_global_idx s
         = match rest with
           | [] => doc_end
           | s' :: _ => Sections.start_global_idx s'
           end
      /\ abutting doc_end rest
  end.


(** The number of distinct line indexes that no header of [working]
    occupies: the rounds the repair loop can still make. *)
Definition free_lines (lines : list BodyLine) (working : list Header) : nat :=
  count (fun g => negb (mem Z.eqb g (map h_global_idx working)))
        (nodup Z.eq_dec (map l_global_idx lines)).

(** Every recorded position is a position of [headers]. *)
Definition positions_in_range (headers : list Header)
  (st : HeadersOrchestrator.GapState) : Prop :=
  forall k i, In (k, i) (HeadersOrchestrator.last_index_by_key st) -> i < length headers.

(** What sequence repair keeps of the anchors it is given. *)
Definition keeps_anchors (lines : list BodyLine) (before after : list Header) : Prop :=
  (NoDup (map h_global_idx before) -> NoDup (map h_global_idx after))
  /\ (forall g, In g (map h_global_idx before) -> In g (map h_global_idx after))
  /\ (forall g, In g (map h_global_idx after) ->
        In g (map h_global_idx before) \/ In g (map l_global_idx lines)).

(** The numbered oracle headers whose number is the number of an entry
    the sequential aligner returned. *)
Definition resolved_numbered (headers : list HeaderLocator.OracleHeader)
  (entries : list HeaderLocator.SeqEntry) : nat :=
  count (fun h => HeaderLocator.nonempty (HeaderLocator.number_of h)
                  && mem PyStr.eqb (HeaderLocator.number_of h)
                       (map HeaderLocator.e_number entries))
        headers.

(** The order of the located headers: by [source_idx], then by
    [global_idx]. *)
Definition source_then_gid (a b : Header) : Prop :=
  (h_source_idx a < h_source_idx b)%Z
  \/ (h_source_idx a = h_source_idx b /\ (h_global_idx a <= h_global_idx b)%Z).

Definition seq_entry (n t : string) (lvl p g : Z) : HeaderLocator.SeqEntry :=
  {| HeaderLocator.e_number := s2t n; HeaderLocator.e_title := s2t t;
     HeaderLocator.e_level := lvl; HeaderLocator.e_global_idx := g;
     HeaderLocator.e_page := p; HeaderLocator.e_line_idx := g |}.

(** The tuple [(score, line.global_idx, has_num)] the parent scan
    builds for a line when it looks for the outline entry [item]. *)
Definition reanchor_tuple (token_set_ratio : text -> text -> Q) (cfg : Config)
  (confusables : bool) (lines : list HeadersSequential.Line)
  (item : Invariants.HeaderItem) (line : HeadersSequential.Line) : Invariants.Candidate :=
  let norm_text := HeadersSequential.normalize (HeadersSequential.text_of line) confusables in
  let want_norm :=
    HeadersSequential.normalize
      (Invariants.num item ++ s2t " " ++ Invariants.item_title item) confusables in
  let has_num :=
    Re.found (NumberRegex.compile_number_regex (Invariants.num item)) norm_text in
  (Invariants.cand_score token_set_ratio norm_text want_norm has_num
     (Invariants.in_page_band line (Invariants.page_positions lines)
        (HEADERS_BAND_LINES cfg)),
   HeadersSequential.global_idx line, has_num).

(** A line qualifies for the parent when it lies in the 800 indexes
    before the earliest child, is neither on a TOC page nor a running
    text, shows the parent's number (or title-only anchors are allowed)
    and scores at least [max(fuzzy_threshold, 70)]. *)
Definition reanchor_qualifies (token_set_ratio : text -> text -> Q) (cfg : Config)
  (confusables : bool) (lines : list HeadersSequential.Line)
  (toc_pages : list Z) (runners : list text) (fuzzy_threshold : Z)
  (item : Invariants.HeaderItem) (earliest_child_idx : Z)
  (line : HeadersSequential.Line) : bool :=
  let candidate := reanchor_tuple token_set_ratio cfg confusables lines item line in
  (Z.max 0 (earliest_child_idx - 800) <=? HeadersSequential.global_idx line)%Z
  && (HeadersSequential.global_idx line <? earliest_child_idx)%Z
  && negb (mem Z.eqb (HeadersSequential.page line) toc_pages)
  && negb (mem PyStr.eqb
             (HeadersSequential.normalize (HeadersSequential.text_of line) confusables)
             runners)
  && (snd candidate || HEADERS_TITLE_ONLY_REANCHOR cfg)
  && Qle_bool (inject_Z (Z.max fuzzy_threshold 70)) (fst (fst candidate)).

(** [best] is a qualifying line of [seen] and no qualifying line of
    [seen] has a larger tuple: none scores higher; among those with the
    score of [best] none has a larger [global_idx]; and at the same
    [global_idx] none shows the number unless [best] does. *)
Definition reanchor_best (token_set_ratio : text -> text -> Q) (cfg : Config)
  (confusables : bool) (lines : list HeadersSequential.Line)
  (toc_pages : list Z) (runners : list text) (fuzzy_threshold : Z)
  (item : Invariants.HeaderItem) (earliest_child_idx : Z)
  (seen : list HeadersSequential.Line) (best : HeadersSequential.Line) : Prop :=
  In best seen
  /\ reanchor_qualifies token_set_ratio cfg confusables lines toc_pages runners
       fuzzy_threshold item earliest_child_idx best = true
  /\ forall other,
       In other seen ->
       reanchor_qualifies token_set_ratio cfg confusables lines toc_pages runners
         fuzzy_threshold item earliest_child_idx other = true ->
       let o := reanchor_tuple token_set_ratio cfg confusables lines item other in
       let b := reanchor_tuple token_set_ratio cfg confusables lines item best in
       (fst (fst o) <= fst (fst b))%Q
       /\ (fst (fst o) == fst (fst b) ->
           (snd (fst o) <= snd (fst b))%Z
           /\ (snd (fst o) = snd (fst b) -> snd o = true -> snd b = true))%Q.

(** The same with the comparison of the scan: the tuple of no
    qualifying line of [seen] is greater than that of [best]. *)
Definition scan_best (token_set_ratio : text -> text -> Q) (cfg : Config)
  (confusables : bool) (lines : list HeadersSequential.Line)
  (toc_pages : list Z) (runners : list text) (fuzzy_threshold : Z)
  (item : Invariants.HeaderItem) (earliest_child_idx : Z)
  (seen : list HeadersSequential.Line) (best : HeadersSequential.Line) : Prop :=
  In best seen
  /\ reanchor_qualifies token_set_ratio cfg confusables lines toc_pages runners
       fuzzy_threshold item earliest_child_idx best = true
  /\ forall other,
       In other seen ->
       reanchor_qualifies token_set_ratio cfg confusables lines toc_pages runners
         fuzzy_threshold item earliest_child_idx other = true ->
       Invariants.candidate_gtb
         (reanchor_tuple token_set_ratio cfg confusables lines item other)
         (reanchor_tuple token_set_ratio cfg confusables lines item best) = false.

(** The round of the parent scan for the outline entry [item], as
    [reanchor_parent_title_only] sets it up. *)
Definition parent_scan_step (token_set_ratio : text -> text -> Q) (cfg : Config)
  (confusables : bool) (lines : list HeadersSequential.Line)
  (toc_pages : list Z) (runners : list text) (fuzzy_threshold : Z)
  (item : Invariants.HeaderItem) (earliest_child_idx : Z)
  : option Invariants.Candidate -> HeadersSequential.Line -> option Invariants.Candidate :=
  Invariants.reanchor_step token_set_ratio cfg confusables
    (Invariants.page_positions lines) toc_pages runners fuzzy_threshold
    (HeadersSequential.normalize
       (Invariants.num item ++ s2t " " ++ Invariants.item_title item) confusables)
    (NumberRegex.compile_number_regex (Invariants.num item))
    (Z.max 0 (earliest_child_idx - 800)) earliest_child_idx.

(** What the parent scan knows after the lines [seen]: no candidate
    when none of them qualifies, the tuple of a best one otherwise. *)
Definition scan_inv (token_set_ratio : text -> text -> Q) (cfg : Config)
  (confusables : bool) (lines : list HeadersSequential.Line)
  (toc_pages : list Z) (runners : list text) (fuzzy_threshold : Z)
  (item : Invariants.HeaderItem) (earliest_child_idx : Z)
  (seen : list HeadersSequential.Line) (best : option Invariants.Candidate) : Prop :=
  match best with
  | None =>
      forall line, In line seen ->
        reanchor_qualifies token_set_ratio cfg confusables lines toc_pages runners
          fuzzy_threshold item earliest_child_idx line = false
  | Some b =>
      exists line,
        b = reanchor_tuple token_set_ratio cfg confusables lines item line
        /\ scan_best token_set_ratio cfg confusables lines toc_pages runners
             fuzzy_threshold item earliest_child_idx seen line
  end.

(* ------------------------------------------------------------------ *)
(** ** backend/services/headers_sequential.py: the numbering tree *)

Module NumberTree.
Import Chars.

(** [ch.isdigit()] on one character below U+0100: the ASCII digits and
    the superscripts U+00B2, U+00B3 and U+00B9. *)
Definition char_isdigit (c : ascii) : bool :=
  is_digit c || (code c =? 178) || (code c =? 179) || (code c =? 185).

(** What follows the first "." of [l], for [l] holding one. *)
Fixpoint after_first_dot (l : text) : text :=
  match l with
  | [] => []
  | c :: l' => if eqc c "." then l' else after_first_dot l'
  end.

(** [num.rsplit(".", 1)[0]] for a [num] holding a ".": what precedes
    the last one. *)
Definition before_last_dot (num : text) : text := rev (after_first_dot (rev num)).

(** The loop [while idx > 0 and stripped[idx - 1].isdigit(): idx -= 1]. *)
Fixpoint parent_idx (stripped : text) (idx : nat) : nat :=
  match idx with
  | O => O
  | S i =>
      match nth_error stripped i with
      | Some c => if char_isdigit c then parent_idx stripped i else idx
      | None => idx
      end
  end.

Definition number_parent (num : option text) : option text :=
  match num with
  | None | Some [] => None
  | Some n =>
      if PyStr.mem_char "." n then Some (before_last_dot n)
      else
        let stripped := PyStr.strip n in
        match stripped with
        | [] => None
        | _ =>
            let idx := parent_idx stripped (length stripped) in
            if (idx <=? 0) || (length stripped <=? idx) then None
            else Some (firstn idx stripped)
        end
  end.

(** The loop [while current: ...] of [is_number_descendant]; [None] when
    [fuel] rounds did not leave it. *)
Fixpoint descendant_loop (fuel : nat) (parent : text) (current : option text)
  : option bool :=
  match current with
  | None | Some [] => Some false
  | Some c =>
      if PyStr.eqb c parent then Some true
      else
        match fuel with
        | O => None
        | S f => descendant_loop f parent (number_parent (Some c))
        end
  end.

(** [is_number_descendant]: every parent is shorter than its child, so
    [len(candidate)] rounds leave the loop. *)
Definition is_number_descendant (candidate : text) (parent : option text) : option bool :=
  match parent, candidate with
  | None, _ | Some [], _ | _, [] => Some false
  | Some p, _ =>
      if PyStr.eqb candidate p then Some false
      else descendant_loop (length candidate) p (number_parent (Some candidate))
  end.

End NumberTree.


(* ------------------------------------------------------------------ *)
(** ** backend/services/token_chunk.py *)

Module TokenChunk.

(** [rough_token_count]: [max(1, math.ceil(len(text) / 4))], and 1 for
    the empty text.  The quotient is exact in floating point for every
    length a string can have. *)
Definition rough_token_count (t : text) : nat :=
  match t with
  | [] => 1
  | _ => Nat.max 1 ((length t + 3) / 4)
  end.

(** The loop [while start < text_length] of [_split_block], on the text
    from [start] on; every round takes [char_limit >= 1] characters, so
    [len(text)] rounds leave it. *)
Fixpoint split_loop (fuel : nat) (char_limit : nat) (rest : text) : list text :=
  match fuel with
  | O => []
  | S f =>
      match rest with
      | [] => []
      | _ => firstn char_limit rest :: split_loop f char_limit (skipn char_limit rest)
      end
  end.

(** [_split_block], as the list of the texts it yields. *)
Definition _split_block (t : text) (limit_tokens : Z) : list text :=
  match t with
  | [] => [[]]
  | _ =>
      if (Z.of_nat (rough_token_count t) <=? limit_tokens)%Z then [t]
      else
        let char_limit := Z.to_nat (Z.max 1 (limit_tokens * 4)) in
        split_loop (length t) char_limit t
  end.

(** The state of the loop of [split_by_token_limit]: [groups],
    [current] and [current_tokens]. *)
Record GroupState : Type := {
  groups : list (list text);
  current : list text;
  current_tokens : Z
}.

(** The body of the loop over the segments of a block. *)
Definition add_segment (limit_tokens : Z) (st : GroupState) (segment : text) : GroupState :=
  let tokens := Z.of_nat (rough_token_count segment) in
  let st :=
    match current st with
    | [] => st
    | _ =>
        if (limit_tokens <? current_tokens st + tokens)%Z
        then {| groups := groups st ++ [current st]; current := []; current_tokens := 0 |}
        else st
    end in
  {| groups := groups st;
     current := current st ++ [segment];
     current_tokens := (current_tokens st + tokens)%Z |}.

(** The groups when the loops over [blocks] and their segments end, the
    last [current] included. *)
Definition token_groups (blocks : list text) (limit_tokens : Z) : list (list text) :=
  let st :=
    fold_left
      (fun st block => fold_left (add_segment limit_tokens) (_split_block block limit_tokens) st)
      blocks {| groups := []; current := []; current_tokens := 0 |} in
  match current st with
  | [] => groups st
  | _ => groups st ++ [current st]
  end.

Inductive outcome : Type :=
| Parts (parts : list text)
| ValueError.

Definition NEWLINE : text := [ascii_of_nat 10].

(** [split_by_token_limit]; a block is a string, for which
    [block or ""] is the block. *)
Definition split_by_token_limit (blocks : list text) (limit_tokens : Z) : outcome :=
  if (limit_tokens <=? 0)%Z then ValueError
  else Parts (map (PyStr.join NEWLINE) (token_groups blocks limit_tokens)).

End TokenChunk.

(* ------------------------------------------------------------------ *)
(** ** backend/services/pdf_headers_llm_full.py: the prompt text *)

Module TextBlocks.

(** The state of the loop of [_build_text_blocks]: [blocks],
    [current_page] and [buffer]. *)
Record BlockState : Type := {
  blocks : list text;
  current_page : Z;
  buffer : list text
}.

Definition add_line (st : BlockState) (line : BodyLine) : BlockState :=
  let st :=
    if negb (l_page line =? current_page st)%Z
    then {| blocks := blocks st ++ [PyStr.join TokenChunk.NEWLINE (buffer st)];
            current_page := l_page line;
            buffer := [] |}
    else st in
  {| blocks := blocks st; current_page := current_page st;
     buffer := buffer st ++ [l_text line] |}.

(** The lines the prompt is built from. *)
Definition kept (lines : list BodyLine) (excluded_pages : list Z) : list BodyLine :=
  filter (fun line => negb (mem Z.eqb (l_page line) excluded_pages)
                      && negb (l_is_running line)) lines.

Definition _build_text_blocks (lines : list BodyLine) (excluded_pages : list Z) : list text :=
  match kept lines excluded_pages with
  | [] => [[]]
  | first :: rest =>
      let st :=
        fold_left add_line (first :: rest)
          {| blocks := []; current_page := l_page first; buffer := [] |} in
      match buffer st with
      | [] => blocks st
      | _ => blocks st ++ [PyStr.join TokenChunk.NEWLINE (buffer st)]
      end
  end.

End TextBlocks.

(* ------------------------------------------------------------------ *)
(** ** backend/services/sections.py: the text of the sections *)

Module SectionText.

(** A chunk dictionary: [start_global_idx], [end_global_idx], [text];
    [section_key] is copied from the span. *)
Record TextChunk : Type := {
  chunk_start : Z;
  chunk_end : Z;
  chunk_text : text
}.

(** [by_gid]: the texts of the lines of every [global_idx], in stream
    order. *)
Definition by_gid (lines : list BodyLine) : dict Z (list text) :=
  fold_left
    (fun d line =>
       let gid := l_global_idx line in
       dict_set Z.eqb d gid
         (match dict_get Z.eqb d gid with Some texts => texts | None => [] end
          ++ [l_text line]))
    lines [].

(** [range(start, end)] *)
Definition gid_range (start stop : Z) : list Z :=
  map (fun i => (start + Z.of_nat i)%Z) (seq 0 (Z.to_nat (stop - start))).

(** The list [collected] of one span. *)
Definition collected (texts_by_gid : dict Z (list text)) (start stop : Z) : list text :=
  flat_map
    (fun gid => match dict_get Z.eqb texts_by_gid gid with Some texts => texts | None => [] end)
    (gid_range start stop).

(** [part.strip()] is not empty. *)
Definition nonblank (part : text) : bool :=
  match PyStr.strip part with [] => false | _ => true end.

(** [chunk_document_by_sections], on spans that hold both bounds, as
    [build_section_spans] makes them. *)
Definition chunk_document_by_sections (lines : list BodyLine) (spans : list Sections.Span)
  : list TextChunk :=
  match lines, spans with
  | [], _ | _, [] => []
  | _, _ =>
      let texts_by_gid := by_gid lines in
      map (fun span =>
             let start := Sections.start_global_idx span in
             let stop := Sections.end_global_idx span in
             {| chunk_start := start;
                chunk_end := stop;
                chunk_text :=
                  PyStr.join TokenChunk.NEWLINE
                    (filter nonblank (collected texts_by_gid start stop)) |})
          spans
  end.

End SectionText.

(* ------------------------------------------------------------------ *)
(** ** backend/services/headers_sequential.py: the windows of the
    top-level sections *)

Module Windows.
Import HeadersSequential.

(** [HeaderItem], with its [tokens]. *)
Record HeaderItem : Type := {
  num : text;
  title : text;
  level : Z;
  tokens : list text
}.

(** The order of [sorted(..., key=lambda h: number_key(h.tokens))]. *)
Definition by_number_key (a b : HeaderItem) : bool :=
  tuple_leb (map Numbering._component_value (tokens a))
            (map Numbering._component_value (tokens b)).

(** [min(values, default=None)] *)
Definition min_default (values : list Z) : option Z :=
  match values with
  | [] => None
  | v :: rest => Some (fold_left Z.min rest v)
  end.

(** The loop that fills [children_by_parent]. *)
Definition children_by_parent (anchors : dict text Z) (llm_items : list HeaderItem)
  : dict text (list Z) :=
  fold_left
    (fun d h =>
       if (2 <=? level h)%Z then
         match dict_get PyStr.eqb anchors (num h) with
         | Some anchor =>
             match NumberTree.number_parent (Some (num h)) with
             | None | Some [] => d
             | Some parent =>
                 dict_set PyStr.eqb d parent
                   (match dict_get PyStr.eqb d parent with Some l => l | None => [] end
                    ++ [anchor])
             end
         | None => d
         end
       else d)
    llm_items [].

(** [start_idx] of a top-level header. *)
Definition start_of (anchors : dict text Z) (children : dict text (list Z))
  (header : HeaderItem) : option Z :=
  let anchor_idx := dict_get PyStr.eqb anchors (num header) in
  let earliest_child :=
    min_default (match dict_get PyStr.eqb children (num header) with
                 | Some l => l
                 | None => []
                 end) in
  match anchor_idx, earliest_child with
  | Some a, Some c => if (c <? a)%Z then Some c else Some a
  | Some a, None => Some a
  | None, c => c
  end.

Definition by_start (a b : text * Z) : bool := (snd a <=? snd b)%Z.

(** The list [ordered], sorted by start. *)
Definition ordered_starts (anchors : dict text Z) (llm_items : list HeaderItem)
  : list (text * Z) :=
  let l1s := sorted by_number_key (filter (fun h => (level h =? 1)%Z) llm_items) in
  let children := children_by_parent anchors llm_items in
  sorted by_start
    (flat_map (fun header =>
                 match start_of anchors children header with
                 | Some start_idx => [(num header, start_idx)]
                 | None => []
                 end)
              l1s).

(** The loop [for pos, (num, start) in enumerate(ordered)], on what is
    left of [ordered]. *)
Fixpoint windows_loop (anchors : dict text Z) (last_idx : Z) (ordered : list (text * Z))
  (windows : dict text (Z * Z * Z)) : dict text (Z * Z * Z) :=
  match ordered with
  | [] => windows
  | (n, start) :: rest =>
      let stop :=
        match rest with
        | (_, next) :: _ => next
        | [] => (last_idx + 1)%Z
        end in
      let anchor_val :=
        match dict_get PyStr.eqb anchors n with Some a => a | None => start end in
      windows_loop anchors last_idx rest
        (dict_set PyStr.eqb windows n (anchor_val, start, stop))
  end.

(** [compute_windows_from_anchors_and_children]: number ->
    [(anchor, start, end)]. *)
Definition compute_windows_from_anchors_and_children (lines : list Line)
  (anchors : dict text Z) (llm_items : list HeaderItem) : dict text (Z * Z * Z) :=
  match lines, anchors with
  | [], _ | _, [] => []
  | _, _ =>
      let ordered := ordered_starts anchors llm_items in
      let last_idx := last (map global_idx lines) 0%Z in
      windows_loop anchors last_idx ordered []
  end.

(** [lines[idx] if 0 <= idx < len(lines) else fallback] *)
Definition line_or (lines : list Line) (idx : Z) (fallback : option Line)
  : result (option Line) :=
  if (0 <=? idx)%Z && (idx <? Z.of_nat (length lines))%Z
  then bind (index lines (Z.to_nat idx)) (fun line => Ok (Some line))
  else Ok fallback.

(** The body of the loop of [convert_windows_to_global]. *)
Definition convert_window (lines : list Line) (last_gid : Z) (window : Z * Z * Z)
  : result (Z * Z * Z) :=
  let '(anchor_idx, start_idx, end_idx) := window in
  bind (line_or lines anchor_idx None) (fun anchor_line =>
  bind (line_or lines start_idx anchor_line) (fun start_line =>
  bind (if (end_idx <=? 0)%Z then Ok (last_gid + 1)%Z
        else
          let end_pos := Z.min (Z.of_nat (length lines) - 1) (Z.max 0 (end_idx - 1)) in
          bind (index lines (Z.to_nat end_pos)) (fun line => Ok (global_idx line + 1)%Z))
       (fun end_gid =>
  let anchor_gid :=
    match anchor_line with
    | Some line => global_idx line
    | None => match start_line with Some line => global_idx line | None => 0%Z end
    end in
  let start_gid :=
    match start_line with Some line => global_idx line | None => anchor_gid end in
  Ok (anchor_gid, start_gid, end_gid)))).

(** [convert_windows_to_global]: windows of positions in [lines] to
    windows of [global_idx] values. *)
Definition convert_windows_to_global (lines : list Line) (windows : dict text (Z * Z * Z))
  : result (dict text (Z * Z * Z)) :=
  match lines with
  | [] => Ok []
  | _ =>
      let last_gid := last (map global_idx lines) 0%Z in
      fold_left
        (fun acc entry =>
           bind acc (fun out =>
           bind (convert_window lines last_gid (snd entry)) (fun window =>
           Ok (dict_set PyStr.eqb out (fst entry) window))))
        windows (Ok [])
  end.

End Windows.

(* ------------------------------------------------------------------ *)
(** ** backend/services/sections.py: the keys of the sections *)

Module SectionKeys.
Import Chars Re.

(** [make_section_key]: the parts [number_part], [title_part] and
    [str(anchor)], joined by ["::"]. *)
Definition make_section_key (number : option text) (title : text) (anchor : option Z)
  : text :=
  let number_part :=
    sub (plus space) (fun _ => s2t "-")
        (PyStr.strip (match number with Some n => n | None => [] end)) in
  let title_part :=
    sub (plus (Chr (fun c => negb (is_lower c || is_digit c)))) (fun _ => s2t "-")
        (Sections._normalise_text title) in
  let title_part :=
    match PyStr.strip_chars (s2t "-") (sub (plus (chr "-")) (fun _ => s2t "-") title_part) with
    | [] => s2t "section"
    | stripped => stripped
    end in
  PyStr.join (s2t "::")
    ((match number_part with [] => [] | _ => [number_part] end)
     ++ [title_part]
     ++ match anchor with Some a => [PyStr.str_of_Z a] | None => [] end).

(** The [section_key] [build_section_spans] gives a span:
    [make_section_key(header.number, header.text, anchor=start_gid)]. *)
Definition section_key (span : Sections.Span) : text :=
  make_section_key (Sections.number span) (Sections.title span)
    (Some (Sections.start_global_idx span)).

End SectionKeys.

(* ------------------------------------------------------------------ *)
(** ** backend/services/header_align_bp.py: running headers *)

Module HeaderAlignBp.
Import Chars Re.

(** [_norm] *)
Definition _norm (value : text) : text :=
  PyStr.casefold (PyStr.strip (sub (plus space) (fun _ => s2t " ") value)).

(** The slice [entries[:n]] *)
Definition slice_to {A} (n : Z) (entries : list A) : list A :=
  if (n <? 0)%Z then firstn (length entries - Z.to_nat (- n)) entries
  else firstn (Z.to_nat n) entries.

(** The slice [entries[m:]] *)
Definition slice_from {A} (m : Z) (entries : list A) : list A :=
  if (m <? 0)%Z then skipn (length entries - Z.to_nat (- m)) entries
  else skipn (Z.to_nat m) entries.

(** [detect_running_headers]: a signature is counted once for every
    band entry, and kept when its count reaches
    [HEADERS_RUNNER_MIN_PAGES] and [len(text) >= 6]. *)
Definition detect_running_headers (cfg : Config) (lines : list BodyLine) : list text :=
  let per_page := group_by Z.eqb l_page lines in
  let signatures :=
    fold_left
      (fun sig entries =>
         let sorted_entries := sorted HeaderLocator.by_line_gid entries in
         let top_band := slice_to (HEADERS_BAND_LINES cfg) sorted_entries in
         let bottom_band := slice_from (- HEADERS_BAND_LINES cfg) sorted_entries in
         fold_left
           (fun sig candidate => counter_incr PyStr.eqb sig (_norm (l_text candidate)))
           (top_band ++ bottom_band) sig)
      (map snd per_page) [] in
  map fst
    (filter (fun tc => (HEADERS_RUNNER_MIN_PAGES cfg <=? Z.of_nat (snd tc))%Z
                       && (6 <=? length (fst tc)))
            signatures).

End HeaderAlignBp.

(* ------------------------------------------------------------------ *)
(** ** Vocabulary of the further statements *)

(** The loop of a starred pattern, as [Re.run] unfolds it. *)
Definition star_loop (A : Type) (greedy : bool) (r : Re.regex) (k : Re.cursor -> option A)
  : nat -> Re.cursor -> option A :=
  fix loop (n : nat) (st : Re.cursor) {struct n} : option A :=
    let again (_ : unit) :=
      match n with
      | O => None
      | S n' =>
          Re.run r st (fun st' =>
            if length (snd st') <? length (snd st) then loop n' st' else None)
      end in
    if greedy then Re.orelse (again tt) (fun _ => k st)
    else Re.orelse (k st) again.

(** A component of a numbering: a non-empty run of ASCII digits or of
    ASCII letters. *)
Definition is_token (t : text) : Prop :=
  t <> [] /\ (forallb Chars.is_digit t = true \/ forallb Chars.is_alpha t = true).

(** [p] is reached from [x] by taking parents, every step through a
    non-empty numbering. *)
Inductive ancestor : text -> text -> Prop :=
| ancestor_parent (x p : text) :
    NumberTree.number_parent (Some x) = Some p -> p <> [] -> ancestor x p
| ancestor_step (x q p : text) :
    NumberTree.number_parent (Some x) = Some q -> q <> [] -> ancestor q p -> ancestor x p.

(** The [normalized] field [_extract_components] gives the component it
    reads from the token [t]. *)
Definition canonical_token (t : text) : text :=
  if PyStr.isdigit t then PyStr.str_of_Z (PyStr.int_of_digits t)
  else if PyStr.isalpha t
       then HeadersOrchestrator._int_to_alpha (HeadersOrchestrator._alpha_to_int t)
       else t.

(** [_components_to_number(_extract_components(number))]: the numbering
    string a recovered header carries for the components read from
    [number]. *)
Definition canonical_number (number : text) : text :=
  HeadersOrchestrator._components_to_number
    (HeadersOrchestrator._extract_components (Some number)).

(** [c] is the chunk of the header [h]: it carries the header's text and
    number and spans the lines from the first line with the header's
    index to a line at or after it. *)
Definition chunk_of_header (lines : list BodyLine) (h : Header) (c : SectionChunking.Chunk)
  : Prop :=
  SectionChunking.header_text c = h_text h
  /\ SectionChunking.header_number c = h_number h
  /\ SectionChunking.start_global_idx c = h_global_idx h
  /\ exists p q, first_index (h_global_idx h) lines = Some p /\ spans_lines lines c p q.

(** The bucket key of an outline entry and of a located header:
    [((number or "").strip(), _normalise(text))]. *)
Definition outline_key (oh : HeaderLocator.OracleHeader) : HeaderLocator.BucketKey :=
  (HeaderLocator.number_of oh, HeaderLocator._normalise (HeaderLocator.o_text oh)).

Definition located_key (h : Header) : HeaderLocator.BucketKey :=
  (match h_number h with Some n => PyStr.strip n | None => [] end,
   HeaderLocator._normalise (h_text h)).

(** The source position of [h] is the position of an outline entry with
    the key of [h], or the value [len(headers) + 1000] given to a header
    that matches no free entry. *)
Definition source_position_ok (headers : list HeaderLocator.OracleHeader) (h : Header) : Prop :=
  h_source_idx h = Z.of_nat (length headers + 1000)
  \/ exists j oh,
       h_source_idx h = Z.of_nat j
       /\ nth_error headers j = Some oh
       /\ outline_key oh = located_key h.

(** Every position filed in a bucket is the position of an outline entry
    with the bucket's key. *)
Definition buckets_ok (headers : list HeaderLocator.OracleHeader)
  (buckets : dict HeaderLocator.BucketKey (list nat)) : Prop :=
  forall k l j, In (k, l) buckets -> In j l ->
    exists oh, nth_error headers j = Some oh /\ outline_key oh = k.

(** The tokens [rough_token_count] gives the segments of a group. *)
Definition group_tokens (g : list text) : Z :=
  fold_right Z.add 0%Z (map (fun s => Z.of_nat (TokenChunk.rough_token_count s)) g).

(** A group of [split_by_token_limit] is not empty and stays within the
    limit. *)
Definition group_within (limit_tokens : Z) (g : list text) : Prop :=
  g <> [] /\ (group_tokens g <= limit_tokens)%Z.

(** The segments of all the blocks, in order. *)
Definition segments_of (blocks : list text) (limit_tokens : Z) : list text :=
  flat_map (fun block => TokenChunk._split_block block limit_tokens) blocks.

(** The group [_identify_missing_headers] files a header under, the
    prefix key and the kind of the last component of its number, with
    the value of that component. *)
Definition last_component_of (h : Header) : option (HeadersOrchestrator.GroupKey * Z) :=
  match rev (HeadersOrchestrator._extract_components (h_number h)) with
  | c :: rev_prefix =>
      match HeadersOrchestrator.kind c, HeadersOrchestrator.value c with
      | Some k, Some v =>
          Some ((HeadersOrchestrator._prefix_key (rev rev_prefix), Some k), v)
      | _, _ => None
      end
  | [] => None
  end.

(** Header [i] is the last header before position [n] of the group
    [key], and its value is [v]. *)
Definition latest_in_group (headers : list Header) (n : nat)
  (key : HeadersOrchestrator.GroupKey) (i : nat) (v : Z) : Prop :=
  i < n
  /\ (exists h, nth_error headers i = Some h /\ last_component_of h = Some (key, v))
  /\ forall m hm w, i < m < n -> nth_error headers m = Some hm ->
       last_component_of hm <> Some (key, w).

(** Headers [i] and [j] follow each other in the group [key], with the
    values [vi] and [vj]. *)
Definition successive_in_group (headers : list Header) (i j : nat)
  (key : HeadersOrchestrator.GroupKey) (vi vj : Z) : Prop :=
  (exists hj, nth_error headers j = Some hj /\ last_component_of hj = Some (key, vj))
  /\ latest_in_group headers j key i vi.

(** The gap [g] stands for the value [v] between the headers [i] and
    [j] of the group [key]. *)
Definition gap_fills (headers : list Header) (g : HeadersOrchestrator.Gap) (i j : nat)
  (key : HeadersOrchestrator.GroupKey) (v : Z) : Prop :=
  HeadersOrchestrator.after_index g = Some i
  /\ HeadersOrchestrator.insert_position g = S i
  /\ (exists hi, nth_error headers i = Some hi
        /\ HeadersOrchestrator.gap_level g = SectionChunking.or_one (h_level hi))
  /\ exists hj c,
       nth_error headers j = Some hj
       /\ HeadersOrchestrator.components g
          = removelast (HeadersOrchestrator._extract_components (h_number hj)) ++ [c]
       /\ HeadersOrchestrator.kind c = snd key
       /\ HeadersOrchestrator.value c = Some v.

(** What the loop of [_identify_missing_headers] has established after
    the first [n] headers. *)
Definition gaps_inv (headers : list Header) (n : nat)
  (st : HeadersOrchestrator.GapState) : Prop :=
  (forall key e,
      dict_get HeadersOrchestrator.group_key_eqb (HeadersOrchestrator.expected_by_key st) key
      = Some e ->
      exists i,
        dict_get HeadersOrchestrator.group_key_eqb
          (HeadersOrchestrator.last_index_by_key st) key = Some i
        /\ latest_in_group headers n key i (e - 1))
  /\ (forall key,
        dict_get HeadersOrchestrator.group_key_eqb (HeadersOrchestrator.expected_by_key st) key
        = None ->
        forall m hm w, m < n -> nth_error headers m = Some hm ->
          last_component_of hm <> Some (key, w))
  /\ Forall (fun g => exists i j key vi vj v,
               successive_in_group headers i j key vi vj
               /\ (vi < v < vj)%Z /\ gap_fills headers g i j key v)
       (HeadersOrchestrator.missing st)
  /\ (forall i j key vi vj v,
        j < n -> successive_in_group headers i j key vi vj -> (vi < v < vj)%Z ->
        exists g, In g (HeadersOrchestrator.missing st) /\ gap_fills headers g i j key v).

(** The lines a span takes into its text: those of a [global_idx] in
    the half-open range of the span whose text is not blank. *)
Definition span_lines (lines : list BodyLine) (span : Sections.Span) : list BodyLine :=
  filter (fun line =>
            (Sections.start_global_idx span <=? l_global_idx line)%Z
            && (l_global_idx line <? Sections.end_global_idx span)%Z
            && SectionText.nonblank (l_text line))
         lines.

(** The stream is in [global_idx] order. *)
Definition in_gid_order (lines : list BodyLine) : Prop :=
  StronglySorted (fun a b => (l_global_idx a <= l_global_idx b)%Z) lines.

(** The half-open window [start, stop) of [global_idx] values holds the
    lines at the positions of the half-open window [s, e). *)
Definition same_lines (lines : list HeadersSequential.Line) (s e start stop : Z) : Prop :=
  forall (p : nat) (line : HeadersSequential.Line),
    nth_error lines p = Some line ->
    ((s <= Z.of_nat p < e)%Z
     <-> (start <= HeadersSequential.global_idx line < stop)%Z).

(** A component as [_extract_components] reads it from a numbering or
    as [_build_component] makes it. *)
Definition made_component (c : HeadersOrchestrator.Component) : Prop :=
  (exists number, In c (HeadersOrchestrator._extract_components (Some number)))
  \/ (exists v k template, c = HeadersOrchestrator._build_component v k template).

(** What may follow a numbering for [compile_number_regex] to accept
    it: the end of the text, white space or one of [).:-]. *)
Definition closes_number (rest : text) : Prop :=
  match rest with
  | [] => True
  | c :: _ => Chars.is_space c || PyStr.mem_char c (s2t ").:-") = true
  end.

(* ================================================================== *)
(** * Properties *)

(** ** Dictionaries, groups and counters *)

Unset Implicit Arguments.

Section DictFacts.
Variables (K V : Type) (keq : K -> K -> bool).
Hypothesis keq_spec : forall a b, keq a b = true <-> a = b.

Lemma keq_refl (k : K) : keq k k = true.
Proof. apply keq_spec; reflexivity. Qed.

Lemma keq_neq (a b : K) : a <> b -> keq a b = false.
Proof.
  intros H; destruct (keq a b) eqn:E; [|reflexivity].
  apply keq_spec in E; contradiction.
Qed.

Lemma dict_get_app (d e : dict K V) (k : K) :
  dict_get keq (d ++ e) k =
  match dict_get keq d k with Some v => Some v | None => dict_get keq e k end.
Proof.
  induction d as [|[k' v'] d IH]; simpl; [reflexivity|].
  destruct (keq k k'); [reflexivity|apply IH].
Qed.

Lemma dict_get_set (d : dict K V) (k k' : K) (v : V) :
  dict_get keq (dict_set keq d k v) k' =
  if keq k' k then Some v else dict_get keq d k'.
Proof.
  induction d as [|[k0 v0] d IH]; simpl.
  - reflexivity.
  - destruct (keq k k0) eqn:E; simpl.
    + apply keq_spec in E; subst k0.
      destruct (keq k' k); reflexivity.
    + destruct (keq k' k0) eqn:E'.
      * apply keq_spec in E'; subst k0.
        destruct (keq k' k) eqn:E''; [|reflexivity].
        apply keq_spec in E''; subst. rewrite keq_refl in E; discriminate.
      * apply IH.
Qed.

Lemma dict_get_none_keys (d : dict K V) (k : K) :
  dict_get keq d k = None <-> ~ In k (map fst d).
Proof.
  induction d as [|[k' v'] d IH]; simpl.
  - split; [intros _ []|reflexivity].
  - destruct (keq k k') eqn:E.
    + apply keq_spec in E; subst. split; [discriminate|intros H; exfalso; apply H; now left].
    + rewrite IH. split.
      * intros H [H'|H']; [subst; rewrite keq_refl in E; discriminate|auto].
      * intros H H'; apply H; now right.
Qed.

Lemma dict_get_some_keys (d : dict K V) (k : K) (v : V) :
  dict_get keq d k = Some v -> In k (map fst d).
Proof.
  induction d as [|[k' v'] d IH]; simpl; [discriminate|].
  destruct (keq k k') eqn:E.
  - apply keq_spec in E; subst. intros _; now left.
  - intros H; right; auto.
Qed.

Lemma dict_set_keys_present (d : dict K V) (k : K) (v : V) :
  In k (map fst d) -> map fst (dict_set keq d k v) = map fst d.
Proof.
  induction d as [|[k' v'] d IH]; simpl; [intros []|].
  destruct (keq k k') eqn:E; simpl; [reflexivity|].
  intros [H|H]; [subst; rewrite keq_refl in E; discriminate|].
  now rewrite IH.
Qed.

Lemma dict_in_get (d : dict K V) (k : K) (v : V) :
  NoDup (map fst d) -> (In (k, v) d <-> dict_get keq d k = Some v).
Proof.
  induction d as [|[k' v'] d IH]; simpl; intros ND.
  - split; [intros []|discriminate].
  - inversion ND as [|? ? Hn ND']; subst.
    destruct (keq k k') eqn:E.
    + apply keq_spec in E; subst k'. split.
      * intros [H|H]; [congruence|].
        exfalso; apply Hn. change k with (fst (k, v)). now apply in_map.
      * intros H; left; congruence.
    + rewrite <- (IH ND'). split.
      * intros [H|H]; [|assumption].
        inversion H; subst. rewrite keq_refl in E; discriminate.
      * now right.
Qed.

End DictFacts.

Section GroupFacts.
Variables (A K : Type) (keq : K -> K -> bool) (key : A -> K).
Hypothesis keq_spec : forall a b, keq a b = true <-> a = b.

Lemma filed_app (k : K) (l : list A) (x : A) :
  filed keq key k (l ++ [x]) = filed keq key k l ++ (if keq (key x) k then [x] else []).
Proof. unfold filed. rewrite filter_app. reflexivity. Qed.

Lemma groups_of_add (d : dict K (list A)) (l : list A) (x : A) :
  groups_of keq key d l -> groups_of keq key (group_add keq key d x) (l ++ [x]).
Proof.
  intros (ND & Hk & Hg). unfold group_add.
  destruct (dict_get keq d (key x)) as [xs|] eqn:E.
  - assert (Hin : In (key x) (map fst d))
      by (eapply dict_get_some_keys; eauto).
    unfold groups_of.
    rewrite (dict_set_keys_present _ _ keq keq_spec d _ _ Hin).
    split; [assumption|]. split.
    + intros k. rewrite Hk, map_app, in_app_iff. simpl. split; [tauto|].
      intros [H|[H|[]]]; [assumption|]. subst k. apply Hk. assumption.
    + intros k Hk'. rewrite (dict_get_set _ _ keq keq_spec), filed_app.
      destruct (keq k (key x)) eqn:E'.
      * apply keq_spec in E'; subst k. rewrite (keq_refl _ keq keq_spec).
        rewrite (Hg _ Hin) in E. congruence.
      * assert (keq (key x) k = false) as ->.
        { destruct (keq (key x) k) eqn:E''; [|reflexivity].
          apply keq_spec in E''; subst k. rewrite (keq_refl _ keq keq_spec) in E'; discriminate. }
        rewrite app_nil_r. apply Hg. assumption.
  - assert (Hnin : ~ In (key x) (map fst d)) by (apply (dict_get_none_keys _ _ keq keq_spec); assumption).
    unfold groups_of. rewrite map_app. simpl. split; [|split].
    + apply NoDup_app; [assumption|constructor; [intros []|constructor]|].
      intros a Ha [Hb|[]]; subst. contradiction.
    + intros k. rewrite map_app, !in_app_iff, Hk. simpl. tauto.
    + intros k Hk'. rewrite (dict_get_app _ _ keq), filed_app.
      apply in_app_iff in Hk'. destruct Hk' as [Hk'|[Hk'|[]]].
      * rewrite (Hg _ Hk').
        assert (keq (key x) k = false) as ->.
        { destruct (keq (key x) k) eqn:E''; [|reflexivity].
          apply keq_spec in E''; subst k. contradiction. }
        now rewrite app_nil_r.
      * subst k. rewrite E. simpl. rewrite !(keq_refl _ keq keq_spec).
        replace (filed keq key (key x) l) with (@nil A); [reflexivity|].
        symmetry. unfold filed.
        destruct (filter (fun x0 : A => keq (key x0) (key x)) l) as [|y ys] eqn:F; [reflexivity|].
        exfalso. assert (In y (filter (fun x0 : A => keq (key x0) (key x)) l)) as Hy
          by (rewrite F; now left).
        apply filter_In in Hy. destruct Hy as [Hy1 Hy2]. apply keq_spec in Hy2.
        apply Hnin, Hk. rewrite <- Hy2. now apply in_map.
Qed.

Lemma groups_of_fold (l l0 : list A) (d : dict K (list A)) :
  groups_of keq key d l0 -> groups_of keq key (fold_left (group_add keq key) l d) (l0 ++ l).
Proof.
  revert l0 d; induction l as [|x l IH]; intros l0 d H; simpl.
  - now rewrite app_nil_r.
  - replace (l0 ++ x :: l) with ((l0 ++ [x]) ++ l) by (now rewrite <- app_assoc).
    apply IH, groups_of_add, H.
Qed.

Lemma group_by_spec (l : list A) : groups_of keq key (group_by keq key l) l.
Proof.
  apply (groups_of_fold l [] []).
  split; [constructor|]. split; [intros k; simpl; tauto|intros k []].
Qed.

End GroupFacts.

Section CounterFacts.
Variables (K : Type) (keq : K -> K -> bool).
Hypothesis keq_spec : forall a b, keq a b = true <-> a = b.

Lemma keq_sym (a b : K) : keq a b = keq b a.
Proof.
  destruct (keq a b) eqn:E, (keq b a) eqn:E'; try reflexivity.
  - apply keq_spec in E; subst. rewrite (keq_refl _ keq keq_spec) in E'; discriminate.
  - apply keq_spec in E'; subst. rewrite (keq_refl _ keq keq_spec) in E; discriminate.
Qed.

Lemma cnt_incr (c : dict K nat) (k k' : K) :
  cnt keq (counter_incr keq c k) k' = cnt keq c k' + (if keq k' k then 1 else 0).
Proof.
  unfold cnt, counter_incr.
  destruct (dict_get keq c k) as [n|] eqn:E.
  - rewrite (dict_get_set _ _ keq keq_spec).
    destruct (keq k' k) eqn:E'.
    + apply keq_spec in E'; subst. rewrite E. lia.
    + lia.
  - rewrite (dict_get_app _ _ keq). simpl.
    destruct (dict_get keq c k') as [m|] eqn:E''; [destruct (keq k' k) eqn:E'|].
    + apply keq_spec in E'; subst; congruence.
    + lia.
    + destruct (keq k' k); reflexivity.
Qed.

Lemma counted_nil : counted (@nil (K * nat)).
Proof. split; [constructor|intros ? ? []]. Qed.

Lemma counted_incr (c : dict K nat) (k : K) :
  counted c -> counted (counter_incr keq c k).
Proof.
  intros [ND Hp]. unfold counter_incr.
  destruct (dict_get keq c k) as [n|] eqn:E.
  - split.
    + rewrite (dict_set_keys_present _ _ keq keq_spec); [assumption|].
      eapply dict_get_some_keys; eauto.
    + intros k' n' Hin.
      assert (NoDup (map fst (dict_set keq c k (S n)))) as ND'.
      { rewrite (dict_set_keys_present _ _ keq keq_spec); [assumption|].
        eapply dict_get_some_keys; eauto. }
      apply (dict_in_get _ _ keq keq_spec _ _ _ ND') in Hin.
      rewrite (dict_get_set _ _ keq keq_spec) in Hin.
      destruct (keq k' k); [inversion Hin; lia|].
      apply (dict_in_get _ _ keq keq_spec _ _ _ ND) in Hin. eauto.
  - assert (~ In k (map fst c)) by (apply (dict_get_none_keys _ _ keq keq_spec); assumption).
    split.
    + rewrite map_app. apply NoDup_app; [assumption|constructor; [intros []|constructor]|].
      intros a Ha [Hb|[]]; subst; contradiction.
    + intros k' n' Hin. apply in_app_iff in Hin. destruct Hin as [Hin|[Hin|[]]]; [eauto|].
      inversion Hin; lia.
Qed.

(** Reading off the keys whose count reaches a positive threshold. *)
Lemma counted_threshold (c : dict K nat) (thr : nat) (k : K) :
  counted c -> 1 <= thr ->
  (In k (map fst (filter (fun kn => thr <=? snd kn) c)) <-> thr <= cnt keq c k).
Proof.
  intros [ND Hp] Hthr. unfold cnt. split.
  - intros H. apply in_map_iff in H. destruct H as [[k' n] [Hk H]]. simpl in Hk; subst k'.
    apply filter_In in H. destruct H as [Hin Hle]. simpl in Hle.
    apply (dict_in_get _ _ keq keq_spec _ _ _ ND) in Hin. rewrite Hin.
    now apply Nat.leb_le.
  - destruct (dict_get keq c k) as [n|] eqn:E; [|lia].
    intros Hle. apply in_map_iff. exists (k, n). split; [reflexivity|].
    apply filter_In. split.
    + now apply (dict_in_get _ _ keq keq_spec _ _ _ ND).
    + simpl. now apply Nat.leb_le.
Qed.

End CounterFacts.

Lemma Zeqb_spec (a b : Z) : Z.eqb a b = true <-> a = b.
Proof. apply Z.eqb_eq. Qed.

Lemma text_eqb_spec (a b : text) : PyStr.eqb a b = true <-> a = b.
Proof.
  revert b; induction a as [|x a IH]; intros [|y b]; simpl; split; try congruence; try easy.
  - rewrite andb_true_iff. intros [H1 H2]. apply Ascii.eqb_eq in H1.
    apply IH in H2. congruence.
  - intros H; inversion H; subst. rewrite andb_true_iff; split.
    + apply Ascii.eqb_refl.
    + apply IH; reflexivity.
Qed.

Lemma count_app {A} (p : A -> bool) (l l' : list A) :
  count p (l ++ l') = count p l + count p l'.
Proof. unfold count. now rewrite filter_app, length_app. Qed.

Lemma count_map {A B} (f : A -> B) (p : B -> bool) (l : list A) :
  count p (map f l) = count (fun x => p (f x)) l.
Proof.
  unfold count. induction l as [|x l IH]; simpl; [reflexivity|].
  destruct (p (f x)); simpl; congruence.
Qed.

Lemma count_filter {A} (p q : A -> bool) (l : list A) :
  count p (filter q l) = count (fun x => q x && p x) l.
Proof.
  unfold count. induction l as [|x l IH]; simpl; [reflexivity|].
  destruct (q x); simpl; [destruct (p x); simpl; congruence|assumption].
Qed.

Lemma count_ext {A} (p q : A -> bool) (l : list A) :
  (forall x, In x l -> p x = q x) -> count p l = count q l.
Proof.
  unfold count. induction l as [|x l IH]; simpl; intros H; [reflexivity|].
  rewrite (H x (or_introl eq_refl)). destruct (q x); simpl; rewrite IH; auto.
Qed.

(** ** TOC pages (C6) *)

Lemma strict_toc_member (cfg : Config) (lines : list BodyLine) (p : Z) :
  In p (HeadersLlmStrict.detect_toc_pages_strict cfg lines) <->
  In p (map l_page lines) /\
  HeadersLlmStrict.toc_page_strict cfg (map l_text (filed Z.eqb l_page p lines)) = true.
Proof.
  unfold HeadersLlmStrict.detect_toc_pages_strict.
  destruct (group_by_spec _ _ Z.eqb l_page Zeqb_spec lines) as (ND & Hk & Hg).
  split.
  - intros H. apply in_map_iff in H. destruct H as [[p' xs] [Hp H]]. simpl in Hp; subst p'.
    apply filter_In in H. destruct H as [Hin Ht]. simpl in Ht.
    assert (In p (map fst (group_by Z.eqb l_page lines))) as Hkey
      by (change p with (fst (p, xs)); now apply in_map).
    split; [now apply Hk|].
    apply (dict_in_get _ _ Z.eqb Zeqb_spec _ _ _ ND) in Hin.
    rewrite (Hg _ Hkey) in Hin. congruence.
  - intros [Hp Ht]. apply Hk in Hp. apply in_map_iff.
    exists (p, filed Z.eqb l_page p lines). split; [reflexivity|].
    apply filter_In. split; [|assumption].
    apply (dict_in_get _ _ Z.eqb Zeqb_spec _ _ _ ND). now apply Hg.
Qed.

Lemma toc_hits_fold (lines : list HeadersSequential.Line) (hits : dict Z nat) (p : Z) :
  counted hits ->
  let hits' :=
    fold_left
      (fun hits entry =>
         if HeadersSequential.is_running entry then hits
         else if HeadersSequential.is_probable_toc_line (HeadersSequential.text_of entry)
              then counter_incr Z.eqb hits (HeadersSequential.page entry)
              else hits) lines hits in
  counted hits' /\
  cnt Z.eqb hits' p =
  cnt Z.eqb hits p +
  count (fun e => negb (HeadersSequential.is_running e)
                  && HeadersSequential.is_probable_toc_line (HeadersSequential.text_of e)
                  && (HeadersSequential.page e =? p)%Z) lines.
Proof.
  revert hits; induction lines as [|e lines IH]; intros hits Hc; simpl.
  - split; [assumption|unfold count; simpl; lia].
  - unfold count in *. simpl.
    destruct (HeadersSequential.is_running e); simpl.
    + apply IH; assumption.
    + destruct (HeadersSequential.is_probable_toc_line (HeadersSequential.text_of e)); simpl.
      * destruct (IH (counter_incr Z.eqb hits (HeadersSequential.page e))
                     (counted_incr _ Z.eqb Zeqb_spec _ _ Hc)) as [Hc' Hn].
        split; [assumption|]. rewrite Hn, (cnt_incr _ Z.eqb Zeqb_spec).
        rewrite (keq_sym _ Z.eqb Zeqb_spec p).
        destruct (HeadersSequential.page e =? p)%Z; simpl; lia.
      * apply IH; assumption.
Qed.

Lemma sequential_toc_member (lines : list HeadersSequential.Line) (p : Z) :
  In p (HeadersSequential.detect_toc_pages lines) <->
  6 <= count (fun e => negb (HeadersSequential.is_running e)
                       && HeadersSequential.is_probable_toc_line (HeadersSequential.text_of e)
                       && (HeadersSequential.page e =? p)%Z) lines.
Proof.
  unfold HeadersSequential.detect_toc_pages.
  destruct (toc_hits_fold lines [] p (counted_nil _)) as [Hc Hn].
  rewrite (counted_threshold _ Z.eqb Zeqb_spec _ 6 p Hc) by lia.
  rewrite Hn. unfold cnt; simpl. reflexivity.
Qed.

Lemma toc_like_by_dotted (lines : list text) (pn : Z) :
  Nat.max 4 (length (PdfNative.cleaned_lines lines) / 2)
    <= count (Re.found PdfNative.DOTTED_ENTRY_RE) (PdfNative.cleaned_lines lines) ->
  PdfNative._is_toc_like lines pn = true.
Proof.
  intros H. unfold PdfNative._is_toc_like.
  destruct lines as [|l0 lines]; [unfold count in H; simpl in H; lia|].
  destruct (PdfNative.cleaned_lines (l0 :: lines)) as [|c cs] eqn:E;
    [unfold count in H; simpl in H; lia|].
  destruct (existsb _ _); [reflexivity|].
  apply Nat.leb_le in H. rewrite H. reflexivity.
Qed.

(** ** Scanning a chunk for a numbered line (C8) *)

Lemma scan_chunk_some (chunk : SectionChunking.Chunk) (lines : list BodyLine)
  (comps : list HeadersOrchestrator.Component) (fl : Z) (pattern : Re.regex)
  (idxs : list nat) (h : Header) :
  HeadersOrchestrator.scan_chunk chunk lines comps fl pattern idxs = Ok (Some h) <->
  exists pre idx post line,
    idxs = pre ++ idx :: post /\
    nth_error lines idx = Some line /\
    HeadersOrchestrator.candidate_of chunk comps fl line pattern = Some h /\
    forall j, In j pre ->
      exists lj, nth_error lines j = Some lj /\
                 HeadersOrchestrator.candidate_of chunk comps fl lj pattern = None.
Proof.
  induction idxs as [|i idxs IH]; simpl.
  - split; [discriminate|]. intros (pre & idx & post & line & H & _).
    destruct pre; discriminate.
  - unfold index. destruct (nth_error lines i) as [li|] eqn:E; simpl.
    + destruct (HeadersOrchestrator.candidate_of chunk comps fl li pattern) as [c|] eqn:C.
      * split.
        -- intros H; inversion H; subst c.
           exists [], i, idxs, li. repeat split; auto. intros j [].
        -- intros (pre & idx & post & line & H & Hn & Hc & Hpre).
           destruct pre as [|j pre]; simpl in H; inversion H; subst.
           ++ congruence.
           ++ destruct (Hpre j (or_introl eq_refl)) as (lj & Hj & Hcj). congruence.
      * rewrite IH. split.
        -- intros (pre & idx & post & line & H & Hn & Hc & Hpre).
           exists (i :: pre), idx, post, line. subst idxs. repeat split; auto.
           intros j [Hj|Hj]; [subst; eauto|auto].
        -- intros (pre & idx & post & line & H & Hn & Hc & Hpre).
           destruct pre as [|j pre]; simpl in H; inversion H; subst.
           ++ congruence.
           ++ exists pre, idx, post, line. repeat split; auto.
              intros j' Hj'. apply Hpre. now right.
    + split; [discriminate|].
      intros (pre & idx & post & line & H & Hn & Hc & Hpre).
      destruct pre as [|j pre]; simpl in H; inversion H; subst.
      * congruence.
      * destruct (Hpre j (or_introl eq_refl)) as (lj & Hj & _). congruence.
Qed.

Lemma seq_split (s n : nat) (pre post : list nat) (i : nat) :
  seq s n = pre ++ i :: post ->
  i = s + length pre /\ i < s + n /\ forall j, In j pre <-> s <= j < i.
Proof.
  revert s n; induction pre as [|x pre IH]; intros s n H; simpl in *.
  - destruct n; simpl in H; inversion H; subst.
    split; [lia|]. split; [lia|]. intros j; split; [intros []|lia].
  - destruct n; simpl in H; inversion H; subst.
    destruct (IH _ _ H2) as (Hi & Hlt & Hin).
    split; [lia|]. split; [lia|]. intros j; split.
    + intros [Hj|Hj]; [lia|apply Hin in Hj; lia].
    + intros Hj. destruct (Nat.eq_dec j x); [now left|right; apply Hin; lia].
Qed.

Lemma candidate_of_some (chunk : SectionChunking.Chunk)
  (comps : list HeadersOrchestrator.Component) (fl : Z) (line : BodyLine)
  (pattern : Re.regex) (h : Header) :
  HeadersOrchestrator.candidate_of chunk comps fl line pattern = Some h ->
  exists m,
    Re.match_prefix pattern (PyStr.lstrip (l_text line)) = Some m /\
    h_text h = HeadersOrchestrator.header_text_of m (PyStr.lstrip (l_text line)) /\
    h_number h = Some (HeadersOrchestrator._components_to_number comps) /\
    h_global_idx h = l_global_idx line.
Proof.
  unfold HeadersOrchestrator.candidate_of.
  destruct (Re.match_prefix pattern (PyStr.lstrip (l_text line))) as [m|]; [|discriminate].
  intros H; inversion H; subst; simpl. exists m. repeat split.
Qed.

Lemma candidate_of_none (chunk : SectionChunking.Chunk)
  (comps : list HeadersOrchestrator.Component) (fl : Z) (line : BodyLine)
  (pattern : Re.regex) :
  HeadersOrchestrator.candidate_of chunk comps fl line pattern = None ->
  Re.match_prefix pattern (PyStr.lstrip (l_text line)) = None.
Proof.
  unfold HeadersOrchestrator.candidate_of.
  destruct (Re.match_prefix pattern (PyStr.lstrip (l_text line))); [discriminate|reflexivity].
Qed.

(** ** Running headers and footers (C7) *)

Section SetFacts.
Variables (A : Type) (aeq : A -> A -> bool).
Hypothesis aeq_spec : forall a b, aeq a b = true <-> a = b.

Lemma mem_spec (x : A) (l : list A) : mem aeq x l = true <-> In x l.
Proof.
  unfold mem. rewrite existsb_exists. split.
  - intros (y & Hy & E). apply aeq_spec in E. now subst.
  - intros H. exists x. split; [assumption|now apply aeq_spec].
Qed.

Lemma set_of_In (x : A) (l : list A) : In x (set_of aeq l) <-> In x l.
Proof.
  induction l as [|y l IH]; simpl; [tauto|].
  rewrite filter_In, IH. split.
  - intros [H|[H _]]; auto.
  - intros [H|H]; [now left|].
    destruct (aeq y x) eqn:E.
    + apply aeq_spec in E. now left.
    + right. split; [assumption|reflexivity].
Qed.

Lemma set_of_NoDup (l : list A) : NoDup (set_of aeq l).
Proof.
  induction l as [|y l IH]; simpl; constructor.
  - rewrite filter_In. intros [_ H]. cbv beta in H.
    rewrite (proj2 (aeq_spec y y) eq_refl) in H. discriminate.
  - now apply NoDup_filter.
Qed.

Lemma counter_fold_NoDup (ts : list A) (c : dict A nat) (t : A) :
  NoDup ts -> counted c ->
  counted (fold_left (counter_incr aeq) ts c) /\
  cnt aeq (fold_left (counter_incr aeq) ts c) t
  = cnt aeq c t + (if mem aeq t ts then 1 else 0).
Proof.
  revert c; induction ts as [|x ts IH]; intros c ND Hc; simpl.
  - split; [assumption|lia].
  - inversion ND as [|? ? Hx ND']; subst.
    destruct (IH (counter_incr aeq c x) ND' (counted_incr _ aeq aeq_spec _ _ Hc)) as [Hc' Hn].
    split; [assumption|]. rewrite Hn, (cnt_incr _ aeq aeq_spec).
    unfold mem. simpl. fold (mem aeq t ts).
    destruct (aeq t x) eqn:E; simpl.
    + apply aeq_spec in E; subst x.
      assert (mem aeq t ts = false) as ->; [|lia].
      destruct (mem aeq t ts) eqn:M; [|reflexivity].
      apply mem_spec in M. contradiction.
    + lia.
Qed.

Lemma counter_pages_fold (cands : list (list A)) (c : dict A nat) (t : A) :
  (forall ts, In ts cands -> NoDup ts) -> counted c ->
  counted (fold_left (fun occ ts => fold_left (counter_incr aeq) ts occ) cands c) /\
  cnt aeq (fold_left (fun occ ts => fold_left (counter_incr aeq) ts occ) cands c) t
  = cnt aeq c t + count (mem aeq t) cands.
Proof.
  revert c; induction cands as [|ts cands IH]; intros c ND Hc; simpl.
  - split; [assumption|unfold count; simpl; lia].
  - destruct (counter_fold_NoDup ts c t (ND ts (or_introl eq_refl)) Hc) as [Hc1 Hn1].
    destruct (IH (fold_left (counter_incr aeq) ts c)
                 (fun ts' H => ND ts' (or_intror H)) Hc1) as [Hc2 Hn2].
    split; [assumption|]. rewrite Hn2, Hn1. unfold count. simpl.
    destruct (mem aeq t ts); simpl; lia.
Qed.

End SetFacts.

Lemma count_Permutation {A} (p : A -> bool) (l l' : list A) :
  Permutation l l' -> count p l = count p l'.
Proof.
  unfold count. induction 1; simpl; try congruence.
  - destruct (p x); simpl; congruence.
  - destruct (p x), (p y); simpl; reflexivity.
Qed.

Lemma fold_left_map {A B C} (f : C -> B -> C) (g : A -> B) (l : list A) (c : C) :
  fold_left f (map g l) c = fold_left (fun acc x => f acc (g x)) l c.
Proof. revert c; induction l as [|x l IH]; intros c; simpl; [reflexivity|apply IH]. Qed.

Lemma running_member (cfg : Config) (lines : list HeadersSequential.Line)
  (band : option Z) (t : text) :
  let limit := match band with None => HEADERS_BAND_LINES cfg | Some b => b end in
  In t (HeadersSequential.detect_running_header_footer cfg lines band) <->
  (0 < limit)%Z /\
  Nat.max 2 (3 * length (pages_of lines) / 5) <= pages_showing (Z.to_nat limit) t lines.
Proof.
  intros limit. unfold HeadersSequential.detect_running_header_footer. fold limit.
  destruct (limit <=? 0)%Z eqn:L.
  - apply Z.leb_le in L. split; [intros []|lia].
  - apply Z.leb_gt in L.
    destruct (group_by_spec _ _ Z.eqb HeadersSequential.page Zeqb_spec lines)
      as (ND & Hk & Hg).
    set (per_page := group_by Z.eqb HeadersSequential.page lines) in *.
    set (cands := map (HeadersSequential.page_candidates (Z.to_nat limit)) (map snd per_page)).
    assert (Hperm : Permutation (map fst per_page) (pages_of lines)).
    { apply NoDup_Permutation; [assumption|apply NoDup_nodup|].
      intros p. unfold pages_of. rewrite nodup_In. apply Hk. }
    assert (Hlen : length per_page = length (pages_of lines)).
    { rewrite <- (length_map fst per_page). now apply Permutation_length. }
    destruct (counter_pages_fold _ PyStr.eqb text_eqb_spec cands [] t) as [Hc Hn].
    { intros ts Hts. unfold cands in Hts. apply in_map_iff in Hts.
      destruct Hts as (pl & <- & _). unfold HeadersSequential.page_candidates.
      apply set_of_NoDup. apply text_eqb_spec. }
    { apply counted_nil. }
    assert (Hshow : count (mem PyStr.eqb t) cands = pages_showing (Z.to_nat limit) t lines).
    { unfold cands, pages_showing. rewrite !count_map.
      rewrite <- (count_Permutation _ _ _ Hperm), count_map.
      apply count_ext. intros [p xs] Hin. simpl.
      assert (In p (map fst per_page)) as Hp
        by (change p with (fst (p, xs)); now apply in_map).
      apply (dict_in_get _ _ Z.eqb Zeqb_spec _ _ _ ND) in Hin.
      rewrite (Hg _ Hp) in Hin. inversion Hin. reflexivity. }
    rewrite <- Hshow in *. clear Hshow.
    unfold cands in *. rewrite fold_left_map in Hc, Hn.
    rewrite Hlen. unfold HeadersSequential.running_threshold.
    destruct (length (pages_of lines)) as [|n] eqn:Epages.
    + assert (per_page = []) as Hnil by (destruct per_page; [reflexivity|discriminate]).
      rewrite Hnil. simpl.
      split; [intros []|]. intros [_ H].
      unfold count in H; simpl in H. lia.
    + rewrite (counted_threshold _ PyStr.eqb text_eqb_spec _ _ t Hc) by lia.
      rewrite Hn. unfold cnt; simpl. split; [intros H; split; [lia|exact H]|tauto].
Qed.

(** ** Sorting *)

Section SortFacts.
Variables (A : Type) (le : A -> A -> bool).

Lemma insert_sorted_perm (x : A) (l : list A) :
  Permutation (insert_sorted le x l) (x :: l).
Proof.
  induction l as [|y l IH]; simpl; [reflexivity|].
  destruct (le x y); [reflexivity|].
  rewrite IH. apply perm_swap.
Qed.

Lemma sorted_perm (l : list A) : Permutation (sorted le l) l.
Proof.
  induction l as [|x l IH]; simpl; [reflexivity|].
  rewrite insert_sorted_perm. now constructor.
Qed.

Lemma sorted_In (x : A) (l : list A) : In x (sorted le l) <-> In x l.
Proof.
  split; apply Permutation_in; [apply sorted_perm|symmetry; apply sorted_perm].
Qed.

Lemma sorted_length (l : list A) : length (sorted le l) = length l.
Proof. apply Permutation_length, sorted_perm. Qed.

Lemma sorted_map_perm {B} (f : A -> B) (l : list A) :
  Permutation (map f (sorted le l)) (map f l).
Proof. apply Permutation_map, sorted_perm. Qed.

End SortFacts.

(** ** The locator (C10) *)

Section LocatorFacts.
Variable similar : text -> text -> bool.
Variable align : list HeaderLocator.OracleHeader -> list BodyLine -> list HeaderLocator.SeqEntry.

Lemma assign_source_idx_fields (n : nat)
  (buckets : dict HeaderLocator.BucketKey (list nat)) (l : list Header) (h : Header) :
  In h l ->
  exists h', In h' (snd (HeaderLocator.assign_source_idx n buckets l))
             /\ h_text h' = h_text h /\ h_number h' = h_number h
             /\ h_level h' = h_level h /\ h_page h' = h_page h
             /\ h_line_idx h' = h_line_idx h /\ h_global_idx h' = h_global_idx h.
Proof.
  revert buckets; induction l as [|x l IH]; intros buckets; simpl; [intros []|].
  destruct (HeaderLocator._take_index n buckets (h_number x) (h_text x)) as [b1 i].
  destruct (HeaderLocator.assign_source_idx n b1 l) as [b2 rest] eqn:E.
  intros [Hx|Hin].
  - subst x. eexists. split; [left; reflexivity|]. simpl. repeat split.
  - destruct (IH b1 Hin) as (h' & Hh' & Hf). rewrite E in Hh'. simpl in Hh'.
    exists h'. split; [now right|assumption].
Qed.

Lemma legacy_nil (lines : list BodyLine) (excluded : list Z) :
  HeaderLocator._locate_headers_legacy similar [] lines excluded = [].
Proof. reflexivity. Qed.

Lemma filter_all {A} (p : A -> bool) (l : list A) :
  (forall x, In x l -> p x = true) -> filter p l = l.
Proof.
  induction l as [|x l IH]; simpl; intros H; [reflexivity|].
  rewrite (H x (or_introl eq_refl)), IH; auto.
Qed.

Lemma locate_low_coverage (cfg : Config) (headers : list HeaderLocator.OracleHeader)
  (lines : list BodyLine) (excluded : list Z) :
  HEADERS_ALIGN_SEQUENTIAL cfg = true ->
  HeaderLocator.low_coverage
    (length (align headers (filter (HeaderLocator._eligible excluded) lines)))
    (HeaderLocator.total_numbered headers) = true ->
  HeaderLocator.locate_headers_in_lines similar align cfg headers lines excluded =
  sorted HeaderLocator.by_source_then_gid
    (snd (HeaderLocator.assign_source_idx (length headers)
            (HeaderLocator.index_buckets headers)
            (HeaderLocator._locate_headers_legacy similar headers
               (filter (HeaderLocator._eligible excluded) lines) excluded))).
Proof.
  intros Hs Hlow. unfold HeaderLocator.locate_headers_in_lines.
  rewrite Hs, Hlow. simpl.
  rewrite (filter_all _ headers).
  2:{ intros x _. unfold mem. simpl. now rewrite andb_false_r. }
  rewrite (filter_all _ (filter (HeaderLocator._eligible excluded) lines)) by reflexivity.
  destruct headers as [|h hs]; [reflexivity|]. reflexivity.
Qed.

End LocatorFacts.

(** ** Resolving headers (C9) *)

Lemma dict_set_split {K V} (keq : K -> K -> bool) (d : dict K V) (k : K) (v0 v : V) :
  dict_get keq d k = Some v0 ->
  exists d1 k0 d2, d = d1 ++ (k0, v0) :: d2 /\ dict_set keq d k v = d1 ++ (k0, v) :: d2.
Proof.
  induction d as [|[k' v'] d IH]; simpl; [discriminate|].
  destruct (keq k k').
  - intros H; inversion H; subst. exists [], k', d. split; reflexivity.
  - intros H. destruct (IH H) as (d1 & k0 & d2 & -> & ->).
    exists ((k', v') :: d1), k0, d2. split; reflexivity.
Qed.

Lemma NoDup_insert {A} (l l' : list A) (a : A) :
  NoDup (l ++ l') -> ~ In a (l ++ l') -> NoDup (l ++ a :: l').
Proof.
  intros H Hn. apply (Permutation_NoDup (Permutation_middle l l' a)).
  now constructor.
Qed.

Section ResolveFacts.
Import Sections.

Lemma resolve_entry_gid (lookup : dict (Z * Z) Z) (e : SimpleHeader) (r : ResolvedHeader) (g : Z) :
  sh_global_idx e = Some g -> resolve_entry lookup e = Some r -> rh_global_idx r = g.
Proof.
  unfold resolve_entry. intros Hg.
  destruct (PyStr.strip (sh_text e)); [discriminate|]. rewrite Hg.
  intros H; inversion H; reflexivity.
Qed.

Lemma filter_map_gids (lookup : dict (Z * Z) Z) (headers : list SimpleHeader) (r : ResolvedHeader) :
  (forall e, In e headers -> exists g, sh_global_idx e = Some g) ->
  In r (filter_map (resolve_entry lookup) headers) ->
  exists e, In e headers /\ sh_global_idx e = Some (rh_global_idx r).
Proof.
  induction headers as [|e headers IH]; simpl; intros Hall; [intros []|].
  destruct (resolve_entry lookup e) as [r0|] eqn:E.
  - intros [Hr|Hr].
    + subst r0. destruct (Hall e (or_introl eq_refl)) as (g & Hg).
      exists e. split; [now left|]. rewrite (resolve_entry_gid _ _ _ _ Hg E). exact Hg.
    + destruct IH as (e' & He' & Hg'); auto. exists e'. split; [now right|assumption].
  - intros Hr. destruct IH as (e' & He' & Hg'); auto. exists e'. split; [now right|assumption].
Qed.

Lemma filter_map_NoDup (lookup : dict (Z * Z) Z) (headers : list SimpleHeader) :
  (forall e, In e headers -> exists g, sh_global_idx e = Some g) ->
  NoDup (map sh_global_idx headers) ->
  NoDup (map rh_global_idx (filter_map (resolve_entry lookup) headers)).
Proof.
  induction headers as [|e headers IH]; simpl; intros Hall ND; [constructor|].
  inversion ND as [|? ? Hn ND']; subst.
  assert (Hrest : NoDup (map rh_global_idx (filter_map (resolve_entry lookup) headers)))
    by (apply IH; auto).
  destruct (resolve_entry lookup e) as [r0|] eqn:E; [|assumption].
  simpl. constructor; [|assumption].
  intros Hin. apply in_map_iff in Hin. destruct Hin as (r & Hr & Hin).
  destruct (filter_map_gids lookup headers r) as (e' & He' & Hg'); auto.
  destruct (Hall e (or_introl eq_refl)) as (g & Hg).
  rewrite (resolve_entry_gid _ _ _ _ Hg E) in Hr. apply Hn.
  rewrite Hg, <- Hr, <- Hg'. now apply in_map.
Qed.

Lemma dedup_step_inv (d : dict DedupKey ResolvedHeader) (seen : list ResolvedHeader)
  (h : ResolvedHeader) :
  dedup_inv d seen -> NoDup (map rh_global_idx (seen ++ [h])) ->
  dedup_inv (dedup_step d h) (seen ++ [h]).
Proof.
  intros [Hsub ND] NDs.
  assert (Hfresh : forall x, In x seen -> rh_global_idx x <> rh_global_idx h).
  { intros x Hx Heq. rewrite map_app in NDs. simpl in NDs.
    apply NoDup_remove in NDs. destruct NDs as [_ Hn]. apply Hn.
    rewrite app_nil_r, <- Heq. now apply in_map. }
  unfold dedup_step.
  destruct (dict_get dedup_key_eqb d (dedup_key h)) as [existing|] eqn:E.
  - destruct (rh_global_idx existing <=? rh_global_idx h)%Z.
    + destruct (dict_set_split dedup_key_eqb d (dedup_key h) existing h E) as (d1 & k0 & d2 & Hd & ->).
      subst d. split.
      * intros x Hx. rewrite map_app in Hx. simpl in Hx.
        apply in_app_iff in Hx. apply in_app_iff.
        destruct Hx as [Hx|[Hx|Hx]].
        -- left. apply Hsub. rewrite map_app. apply in_app_iff. now left.
        -- right. now left.
        -- left. apply Hsub. rewrite map_app. apply in_app_iff. right. now right.
      * rewrite !map_app in ND. simpl in ND. rewrite !map_app. simpl.
        apply NoDup_remove in ND. destruct ND as [ND Hn].
        apply NoDup_insert; [assumption|].
        intros Hin. rewrite <- map_app in Hin. apply in_map_iff in Hin.
        destruct Hin as (x & Hx & Hin). apply (Hfresh x); [|assumption].
        apply Hsub. rewrite map_app. simpl. apply in_app_iff in Hin. apply in_app_iff.
        destruct Hin; [now left|right; now right].
    + split; [|assumption]. intros x Hx. apply in_app_iff. left. now apply Hsub.
  - unfold dedup_inv. rewrite !map_app. simpl. split.
    + intros x Hx. apply in_app_iff in Hx. apply in_app_iff.
      destruct Hx as [Hx|Hx]; [left; now apply Hsub|now right].
    + apply NoDup_insert; rewrite app_nil_r; [assumption|].
      intros Hin. apply in_map_iff in Hin. destruct Hin as (x & Hx & Hin).
      apply (Hfresh x); [now apply Hsub|assumption].
Qed.

Lemma dedup_fold_inv (l seen : list ResolvedHeader) (d : dict DedupKey ResolvedHeader) :
  dedup_inv d seen -> NoDup (map rh_global_idx (seen ++ l)) ->
  dedup_inv (fold_left dedup_step l d) (seen ++ l).
Proof.
  revert seen d; induction l as [|h l IH]; intros seen d Hinv ND; simpl.
  - now rewrite app_nil_r.
  - replace (seen ++ h :: l) with ((seen ++ [h]) ++ l) in * by (now rewrite <- app_assoc).
    apply IH; [|assumption]. apply dedup_step_inv; [assumption|].
    rewrite map_app in ND. now apply NoDup_app_remove_r in ND.
Qed.

Lemma make_distinct_id (lines : list BodyLine) (l : list ResolvedHeader) (used : list Z) :
  NoDup (used ++ map rh_global_idx l) -> make_distinct lines used l = l.
Proof.
  revert used; induction l as [|h l IH]; intros used ND; simpl; [reflexivity|].
  assert (mem Z.eqb (rh_global_idx h) used = false) as ->.
  { destruct (mem Z.eqb (rh_global_idx h) used) eqn:M; [|reflexivity].
    apply (mem_spec _ Z.eqb Zeqb_spec) in M. simpl in ND.
    apply NoDup_remove in ND. destruct ND as [_ Hn]. exfalso. apply Hn.
    apply in_app_iff. now left. }
  f_equal. apply IH. simpl in ND. now rewrite <- app_assoc.
Qed.

Lemma resolve_distinct (headers : list SimpleHeader) (lines : list BodyLine) :
  (forall e, In e headers -> exists g, sh_global_idx e = Some g) ->
  NoDup (map sh_global_idx headers) ->
  NoDup (map rh_global_idx (_resolve_headers headers lines))
  /\ forall r, In r (_resolve_headers headers lines) ->
       exists e, In e headers /\ sh_global_idx e = Some (rh_global_idx r).
Proof.
  intros Hall ND. unfold _resolve_headers.
  set (resolved := filter_map (resolve_entry (lookup_page_line lines)) headers).
  assert (NDr : NoDup (map rh_global_idx resolved)) by (now apply filter_map_NoDup).
  destruct (dedup_fold_inv resolved [] []) as [Hsub NDd].
  { split; [intros ? []|constructor]. }
  { exact NDr. }
  simpl in Hsub.
  set (values := map snd (fold_left dedup_step resolved [])) in *.
  assert (NDs : NoDup (map rh_global_idx (sorted resolved_leb values))).
  { apply (Permutation_NoDup (l := map rh_global_idx values)); [|assumption].
    symmetry. apply sorted_map_perm. }
  rewrite make_distinct_id by assumption.
  split; [assumption|].
  intros r Hr. apply sorted_In in Hr. apply Hsub in Hr.
  now apply (filter_map_gids (lookup_page_line lines)).
Qed.

End ResolveFacts.

(** ** Section chunks (C3) *)

Lemma dict_get_setdefault {K V} (keq : K -> K -> bool)
  (keq_spec : forall a b, keq a b = true <-> a = b) (d : dict K V) (k k' : K) (v : V) :
  dict_get keq (dict_setdefault keq d k v) k' =
  match dict_get keq d k' with
  | Some x => Some x
  | None => if keq k' k then Some v else None
  end.
Proof.
  unfold dict_setdefault. destruct (dict_get keq d k) as [x|] eqn:E.
  - destruct (dict_get keq d k') as [y|] eqn:E'; [reflexivity|].
    destruct (keq k' k) eqn:Q; [|reflexivity].
    apply keq_spec in Q; subst. congruence.
  - rewrite (dict_get_app _ _ keq). simpl.
    destruct (dict_get keq d k'); reflexivity.
Qed.

Lemma index_by_global_fold (g : Z) (l : list BodyLine) (s : nat) (d : dict Z nat) :
  dict_get Z.eqb
    (fold_left (fun d il => dict_setdefault Z.eqb d (l_global_idx (snd il)) (fst il))
               (combine (seq s (length l)) l) d) g =
  match dict_get Z.eqb d g with
  | Some p => Some p
  | None => option_map (fun i => s + i) (first_index g l)
  end.
Proof.
  revert s d; induction l as [|x l IH]; intros s d; simpl.
  - destruct (dict_get Z.eqb d g); reflexivity.
  - rewrite IH, (dict_get_setdefault Z.eqb Zeqb_spec). simpl.
    destruct (dict_get Z.eqb d g) as [p|]; [reflexivity|].
    rewrite (Z.eqb_sym g). destruct (l_global_idx x =? g)%Z; simpl.
    + f_equal. lia.
    + destruct (first_index g l); simpl; [f_equal; lia|reflexivity].
Qed.

Lemma index_by_global_get (g : Z) (lines : list BodyLine) :
  dict_get Z.eqb (SectionChunking.index_by_global lines) g = first_index g lines.
Proof.
  unfold SectionChunking.index_by_global. rewrite index_by_global_fold. simpl.
  destruct (first_index g lines); reflexivity.
Qed.

Lemma first_index_nth (g : Z) (lines : list BodyLine) (p : nat) :
  first_index g lines = Some p ->
  p < length lines /\ option_map l_global_idx (nth_error lines p) = Some g.
Proof.
  revert p; induction lines as [|x l IH]; intros p; simpl; [discriminate|].
  destruct (l_global_idx x =? g)%Z eqn:E.
  - intros H; inversion H; subst. apply Z.eqb_eq in E. simpl. split; [lia|congruence].
  - destruct (first_index g l) as [i|]; simpl; [|discriminate].
    intros H; inversion H; subst. destruct (IH i eq_refl). simpl. split; [lia|assumption].
Qed.


Lemma nth_gid_in (lines : list BodyLine) (p : nat) (g : Z) :
  option_map l_global_idx (nth_error lines p) = Some g -> In g (map l_global_idx lines).
Proof.
  destruct (nth_error lines p) as [x|] eqn:E; simpl; [|discriminate].
  intros H; inversion H; subst. apply in_map. eapply nth_error_In; eauto.
Qed.

(** In a strictly increasing list a larger value sits further right. *)
Lemma sorted_nth_lt (l : list Z) (p q : nat) (a b : Z) :
  StronglySorted Z.lt l ->
  nth_error l p = Some a -> nth_error l q = Some b -> p < q -> (a < b)%Z.
Proof.
  intros HS. revert p q. induction HS as [|x l HS IH Hall]; intros p q Hp Hq Hlt.
  - destruct p; discriminate.
  - destruct q as [|q]; [lia|]. destruct p as [|p]; simpl in *.
    + inversion Hp; subst. rewrite Forall_forall in Hall. apply Hall.
      eapply nth_error_In; eauto.
    + apply (IH p q); auto. lia.
Qed.

Lemma sorted_nth_pos (l : list Z) (p q : nat) (a b : Z) :
  StronglySorted Z.lt l ->
  nth_error l p = Some a -> nth_error l q = Some b -> (a < b)%Z -> p < q.
Proof.
  intros HS Hp Hq Hab.
  destruct (Nat.lt_trichotomy p q) as [H|[H|H]]; [assumption| |].
  - subst. rewrite Hp in Hq. inversion Hq. lia.
  - pose proof (sorted_nth_lt l q p b a HS Hq Hp H). lia.
Qed.


Lemma index_ok {A} (l : list A) (i : nat) :
  i < length l -> exists x, index l i = Ok x /\ nth_error l i = Some x.
Proof.
  intros H. unfold index. destruct (nth_error l i) as [x|] eqn:E; [eauto|].
  apply nth_error_None in E. lia.
Qed.




(** ** Sortedness of the insertion sort *)

Section SortedFacts.
Variables (A : Type) (le : A -> A -> bool) (R : A -> A -> Prop).
Hypothesis le_total : forall a b, le a b = true \/ le b a = true.
Hypothesis le_R : forall a b, le a b = true -> R a b.
Hypothesis R_trans : forall a b c, R a b -> R b c -> R a c.

Lemma insert_sorted_In (x y : A) (l : list A) :
  In y (insert_sorted le x l) <-> y = x \/ In y l.
Proof.
  split.
  - intros H. apply (Permutation_in _ (insert_sorted_perm _ le x l)) in H.
    destruct H; [left; congruence|now right].
  - intros H. apply (Permutation_in _ (Permutation_sym (insert_sorted_perm _ le x l))).
    destruct H; [left; congruence|now right].
Qed.

Lemma insert_sorted_strongly (x : A) (l : list A) :
  StronglySorted R l -> StronglySorted R (insert_sorted le x l).
Proof.
  induction 1 as [|y l HS IH Hall]; simpl.
  - constructor; constructor.
  - destruct (le x y) eqn:E.
    + constructor; [constructor; assumption|].
      constructor; [now apply le_R|].
      rewrite Forall_forall in *. intros z Hz. eapply R_trans; [apply le_R; eassumption|auto].
    + constructor; [assumption|].
      rewrite Forall_forall in *. intros z Hz. apply insert_sorted_In in Hz.
      destruct Hz as [->|Hz]; [|auto].
      destruct (le_total x y) as [H|H]; [congruence|now apply le_R].
Qed.

Lemma sorted_strongly (l : list A) : StronglySorted R (sorted le l).
Proof.
  induction l as [|x l IH]; simpl; [constructor|now apply insert_sorted_strongly].
Qed.

End SortedFacts.

(** ** Section spans (C3) *)

Ltac z_cases :=
  repeat match goal with
         | |- context [(?a <? ?b)%Z] => destruct (Z.ltb_spec a b)
         | |- context [(?a <=? ?b)%Z] => destruct (Z.leb_spec a b)
         | |- context [(?a =? ?b)%Z] => destruct (Z.eqb_spec a b)
         end.

Lemma resolved_leb_total (a b : Sections.ResolvedHeader) :
  Sections.resolved_leb a b = true \/ Sections.resolved_leb b a = true.
Proof.
  unfold Sections.resolved_leb, Sections.opt_ltb, Sections.opt_leb.
  destruct (Sections.rh_page a) as [pa|], (Sections.rh_page b) as [pb|],
           (Sections.rh_line_idx a) as [la|], (Sections.rh_line_idx b) as [lb|];
    z_cases; simpl; try lia; auto.
Qed.

Lemma resolved_leb_gid (a b : Sections.ResolvedHeader) :
  Sections.resolved_leb a b = true ->
  (Sections.rh_global_idx a <= Sections.rh_global_idx b)%Z.
Proof.
  unfold Sections.resolved_leb. z_cases; simpl; try lia; discriminate.
Qed.

Lemma strongly_le_lt {A} (f : A -> Z) (l : list A) :
  StronglySorted (fun a b => (f a <= f b)%Z) l -> NoDup (map f l) ->
  StronglySorted (fun a b => (f a < f b)%Z) l.
Proof.
  induction 1 as [|x l HS IH Hall]; simpl; intros ND; constructor.
  - apply IH. now inversion ND.
  - inversion ND as [|? ? Hn _]; subst.
    rewrite Forall_forall in *. intros y Hy.
    assert (f x <> f y) by (intros E; apply Hn; rewrite E; now apply in_map).
    specialize (Hall y Hy). lia.
Qed.

Lemma strongly_last {A} (R : A -> A -> Prop) (l r : list A) (z : A) :
  StronglySorted R l -> rev l = z :: r -> forall x, In x l -> x = z \/ R x z.
Proof.
  intros HS. revert z r. induction HS as [|y l HS IH Hall]; intros z r Hrev x Hx.
  - destruct Hx.
  - simpl in Hrev. destruct (rev l) as [|z' r'] eqn:E.
    + simpl in Hrev. inversion Hrev; subst.
      assert (l = []) as -> by (rewrite <- (rev_involutive l), E; reflexivity).
      destruct Hx as [Hx|[]]. now left.
    + simpl in Hrev. inversion Hrev; subst.
      assert (In z l) as Hz.
      { apply in_rev. rewrite E. now left. }
      destruct Hx as [Hx|Hx].
      * subst. right. rewrite Forall_forall in Hall. now apply Hall.
      * apply (IH z r' eq_refl x Hx).
Qed.

Lemma document_end_above (lines : list BodyLine) (g : Z) :
  In g (map l_global_idx lines) -> (g < Sections.document_end lines)%Z.
Proof.
  intros Hin. apply in_map_iff in Hin. destruct Hin as (x & <- & Hx).
  unfold Sections.document_end.
  assert (HS : StronglySorted (fun a b => (l_global_idx a <= l_global_idx b)%Z)
                 (sorted HeaderLocator.by_line_gid lines)).
  { apply sorted_strongly.
    - intros a b. unfold HeaderLocator.by_line_gid. z_cases; auto; lia.
    - intros a b. unfold HeaderLocator.by_line_gid. apply Z.leb_le.
    - intros a b c. lia. }
  apply (sorted_In _ HeaderLocator.by_line_gid) in Hx.
  destruct (rev (sorted HeaderLocator.by_line_gid lines)) as [|z r] eqn:E.
  - assert (sorted HeaderLocator.by_line_gid lines = []) as H
      by (rewrite <- (rev_involutive (sorted _ lines)), E; reflexivity).
    rewrite H in Hx. destruct Hx.
  - destruct (strongly_last _ _ _ _ HS E x Hx) as [->|H]; lia.
Qed.

Lemma spans_of_abutting (doc_end : Z) (l : list Sections.ResolvedHeader) :
  StronglySorted (fun a b => (Sections.rh_global_idx a < Sections.rh_global_idx b)%Z) l ->
  (forall r, In r l -> (Sections.rh_global_idx r < doc_end)%Z) ->
  abutting doc_end (Sections.spans_of doc_end l)
  /\ map Sections.start_global_idx (Sections.spans_of doc_end l)
     = map Sections.rh_global_idx l.
Proof.
  induction 1 as [|x l HS IH Hall]; intros Hend; simpl; [split; [exact I|reflexivity]|].
  destruct IH as [IHa IHs]; [intros r Hr; apply Hend; now right|].
  assert (Hx : (Sections.rh_global_idx x <
                match l with
                | [] => doc_end
                | next :: _ => Sections.rh_global_idx next
                end)%Z).
  { destruct l as [|y l]; [apply Hend; now left|].
    rewrite Forall_forall in Hall. apply Hall. now left. }
  assert ((match l with
           | [] => doc_end
           | next :: _ => Sections.rh_global_idx next
           end <? Sections.rh_global_idx x)%Z = false) as -> by (apply Z.ltb_ge; lia).
  split; [|simpl; now rewrite IHs].
  split; [exact Hx|]. split; [|exact IHa].
  destruct l as [|y l]; reflexivity.
Qed.

Lemma spans_abut (headers : list Sections.SimpleHeader) (lines : list BodyLine) :
  (forall e, In e headers ->
     exists g, Sections.sh_global_idx e = Some g /\ In g (map l_global_idx lines)) ->
  NoDup (map Sections.sh_global_idx headers) ->
  abutting (Sections.document_end lines) (Sections.build_section_spans headers lines)
  /\ map Sections.start_global_idx (Sections.build_section_spans headers lines)
     = map Sections.rh_global_idx (Sections._resolve_headers headers lines).
Proof.
  intros Hall ND. unfold Sections.build_section_spans.
  destruct (resolve_distinct headers lines) as [NDr Hsrc]; [|assumption|].
  { intros e He. destruct (Hall e He) as (g & Hg & _). eauto. }
  apply spans_of_abutting.
  - apply strongly_le_lt; [|assumption].
    unfold Sections._resolve_headers in *.
    set (values := map snd (fold_left Sections.dedup_step _ [])) in *.
    assert (NDs : NoDup (map Sections.rh_global_idx (sorted Sections.resolved_leb values))).
    { destruct (dedup_fold_inv
                  (Sections.filter_map
                     (Sections.resolve_entry (Sections.lookup_page_line lines)) headers)
                  [] []) as [_ NDd].
      - split; [intros ? []|constructor].
      - apply filter_map_NoDup; [|assumption].
        intros e He. destruct (Hall e He) as (g & Hg & _). eauto.
      - apply (Permutation_NoDup (l := map Sections.rh_global_idx values)); [|assumption].
        symmetry. apply sorted_map_perm. }
    rewrite make_distinct_id by assumption.
    apply sorted_strongly.
    + apply resolved_leb_total.
    + apply resolved_leb_gid.
    + intros a b c. lia.
  - intros r Hr. destruct (Hsrc r Hr) as (e & He & Hg).
    destruct (Hall e He) as (g & Hg' & Hin).
    apply document_end_above. congruence.
Qed.

(** ** Sequence repair always returns (C1, C5) *)

Lemma chunk_at_ok (headers : list Header) (lines : list BodyLine)
  (position : nat) (h : Header) :
  exists r,
    SectionChunking.chunk_at headers lines (SectionChunking.index_by_global lines) position h
    = Ok r
    /\ forall c, r = Some c -> on_lines lines c.
Proof.
  unfold SectionChunking.chunk_at. rewrite index_by_global_get.
  destruct (first_index (h_global_idx h) lines) as [cur|] eqn:Hcur;
    [|exists None; split; [reflexivity|discriminate]].
  destruct (first_index_nth _ _ _ Hcur) as [Hlt _].
  assert (Hend : forall end_index : Z,
             (end_index < Z.of_nat (length lines))%Z ->
             exists r,
               (if (end_index <? Z.of_nat cur)%Z then Ok None
                else
                  bind (index lines cur) (fun start_line =>
                  bind (index lines (Z.to_nat end_index)) (fun end_line =>
                  Ok (Some {| SectionChunking.header_text := h_text h;
                              SectionChunking.header_number := h_number h;
                              SectionChunking.level := SectionChunking.or_one (h_level h);
                              SectionChunking.start_global_idx := l_global_idx start_line;
                              SectionChunking.end_global_idx := l_global_idx end_line;
                              SectionChunking.start_page := l_page start_line;
                              SectionChunking.end_page := l_page end_line |})))) = Ok r
               /\ forall c, r = Some c -> on_lines lines c).
  { intros end_index He.
    destruct (end_index <? Z.of_nat cur)%Z eqn:C;
      [exists None; split; [reflexivity|discriminate]|].
    apply Z.ltb_ge in C.
    destruct (index_ok lines cur Hlt) as (lp & -> & Hlp). simpl.
    destruct (index_ok lines (Z.to_nat end_index)) as (lq & -> & Hlq); [lia|]. simpl.
    eexists. split; [reflexivity|]. intros c Hc. inversion Hc; subst.
    split; simpl; apply in_map; eapply nth_error_In; eauto. }
  destruct (position <? length headers - 1) eqn:P.
  - apply Nat.ltb_lt in P.
    destruct (index_ok headers (position + 1)) as (h' & -> & _); [lia|]. simpl.
    apply Hend. rewrite index_by_global_get.
    destruct (first_index (h_global_idx h') lines) as [i|] eqn:Hi; [|lia].
    destruct (first_index_nth _ _ _ Hi). lia.
  - simpl. apply Hend. lia.
Qed.

Lemma chunks_loop_ok (headers : list Header) (lines : list BodyLine)
  (todo : list (nat * Header)) (acc : list SectionChunking.Chunk) :
  Forall (on_lines lines) acc ->
  exists cs,
    SectionChunking.chunks_loop headers lines (SectionChunking.index_by_global lines) todo acc
    = Ok cs
    /\ Forall (on_lines lines) cs.
Proof.
  revert acc; induction todo as [|[position h] todo IH]; intros acc Hacc; simpl.
  - eauto.
  - destruct (chunk_at_ok headers lines position h) as (r & -> & Hr). simpl.
    apply IH. destruct r as [c|]; [|assumption].
    apply Forall_app. split; [assumption|]. constructor; [now apply Hr|constructor].
Qed.

Lemma single_chunks_ok (headers : list Header) (lines : list BodyLine) :
  exists cs,
    SectionChunking.single_chunks_from_headers headers lines = Ok cs
    /\ Forall (on_lines lines) cs.
Proof.
  unfold SectionChunking.single_chunks_from_headers.
  destruct headers; [exists []; split; [reflexivity|constructor]|].
  apply chunks_loop_ok. constructor.
Qed.

Lemma dict_get_In {K V} (keq : K -> K -> bool) (d : dict K V) (k : K) (v : V) :
  dict_get keq d k = Some v -> exists k0, In (k0, v) d.
Proof.
  induction d as [|[k' v'] d IH]; simpl; [discriminate|].
  destruct (keq k k').
  - intros H; inversion H; subst. exists k'. now left.
  - intros H. destruct (IH H) as [k0 Hk]. exists k0. now right.
Qed.

Lemma dict_set_In {K V} (keq : K -> K -> bool) (d : dict K V) (k k' : K) (v v' : V) :
  In (k', v') (dict_set keq d k v) -> v' = v \/ In (k', v') d.
Proof.
  induction d as [|[k0 v0] d IH]; simpl.
  - intros [H|[]]. inversion H. now left.
  - destruct (keq k k0); simpl.
    + intros [H|H]; [inversion H; now left|right; now right].
    + intros [H|H]; [right; now left|]. destruct (IH H); [now left|right; now right].
Qed.

Lemma identify_step_ok (headers : list Header) (st : HeadersOrchestrator.GapState)
  (idx : nat) (h : Header) :
  positions_in_range headers st -> idx < length headers ->
  exists st',
    HeadersOrchestrator.identify_step headers st (idx, h) = Ok st'
    /\ positions_in_range headers st'.
Proof.
  intros Hinv Hidx. unfold HeadersOrchestrator.identify_step.
  assert (Hset : forall key missing' expected' cache',
             positions_in_range headers
               {| HeadersOrchestrator.missing := missing';
                  HeadersOrchestrator.expected_by_key := expected';
                  HeadersOrchestrator.last_index_by_key :=
                    dict_set HeadersOrchestrator.group_key_eqb
                      (HeadersOrchestrator.last_index_by_key st) key idx;
                  HeadersOrchestrator.components_cache := cache' |}).
  { intros key m e c k i Hin. simpl in Hin. apply dict_set_In in Hin.
    destruct Hin as [->|Hin]; [assumption|eapply Hinv; eauto]. }
  destruct (rev (HeadersOrchestrator._extract_components (h_number h)))
    as [|last_component rev_prefix].
  - eexists. split; [reflexivity|]. intros k i Hin. eapply Hinv; eauto.
  - destruct (HeadersOrchestrator.kind last_component) as [k|];
      [destruct (HeadersOrchestrator.value last_component) as [v|]|].
    + set (key := (HeadersOrchestrator._prefix_key (rev rev_prefix), Some k)).
      destruct (dict_get HeadersOrchestrator.group_key_eqb
                  (HeadersOrchestrator.expected_by_key st) key) as [e|].
      * destruct (e <? v)%Z.
        -- destruct (dict_get HeadersOrchestrator.group_key_eqb
                       (HeadersOrchestrator.last_index_by_key st) key) as [li|] eqn:L.
           ++ destruct (dict_get_In _ _ _ _ L) as [k0 Hk0].
              unfold HeadersOrchestrator.level_at.
              destruct (index_ok headers li (Hinv _ _ Hk0)) as (hl & -> & _). simpl.
              eexists. split; [reflexivity|apply Hset].
           ++ simpl. eexists. split; [reflexivity|apply Hset].
        -- simpl. eexists. split; [reflexivity|apply Hset].
      * simpl. eexists. split; [reflexivity|apply Hset].
    + eexists. split; [reflexivity|apply Hset].
    + eexists. split; [reflexivity|apply Hset].
Qed.

Lemma identify_loop_ok (headers : list Header) (todo : list (nat * Header))
  (st : HeadersOrchestrator.GapState) :
  positions_in_range headers st ->
  (forall i h, In (i, h) todo -> i < length headers) ->
  exists st', HeadersOrchestrator.identify_loop headers todo st = Ok st'.
Proof.
  revert st; induction todo as [|[i h] todo IH]; intros st Hinv Htodo; [simpl; eauto|].
  cbn [HeadersOrchestrator.identify_loop].
  destruct (identify_step_ok headers st i h Hinv (Htodo i h (or_introl eq_refl)))
    as (st' & -> & Hinv'). cbn [bind].
  apply IH; [assumption|]. intros i' h' Hin. eapply Htodo. right. eassumption.
Qed.

Lemma identify_ok (headers : list Header) :
  exists gaps, HeadersOrchestrator._identify_missing_headers headers = Ok gaps.
Proof.
  unfold HeadersOrchestrator._identify_missing_headers.
  destruct (identify_loop_ok headers (combine (seq 0 (length headers)) headers)
              {| HeadersOrchestrator.missing := [];
                 HeadersOrchestrator.expected_by_key := [];
                 HeadersOrchestrator.last_index_by_key := [];
                 HeadersOrchestrator.components_cache := [] |}) as (st & ->).
  - intros k i [].
  - intros i h Hin. apply in_combine_l in Hin. apply in_seq in Hin. lia.
  - simpl. eauto.
Qed.

Lemma index_by_global_last_fold (g : Z) (l : list BodyLine) (s : nat) (d : dict Z nat) :
  dict_get Z.eqb
    (fold_left (fun d il => dict_set Z.eqb d (l_global_idx (snd il)) (fst il))
               (combine (seq s (length l)) l) d) g =
  match last_index g l with
  | Some i => Some (s + i)
  | None => dict_get Z.eqb d g
  end.
Proof.
  revert s d; induction l as [|x l IH]; intros s d; simpl; [reflexivity|].
  rewrite IH. destruct (last_index g l) as [i|]; [f_equal; lia|].
  rewrite (dict_get_set _ _ Z.eqb Zeqb_spec). rewrite (Z.eqb_sym g).
  destruct (l_global_idx x =? g)%Z; [f_equal; lia|reflexivity].
Qed.

Lemma index_by_global_last_get (g : Z) (lines : list BodyLine) :
  dict_get Z.eqb (HeadersOrchestrator.index_by_global_last lines) g = last_index g lines.
Proof.
  unfold HeadersOrchestrator.index_by_global_last. rewrite index_by_global_last_fold.
  destruct (last_index g lines); reflexivity.
Qed.

Lemma last_index_lt (g : Z) (lines : list BodyLine) (p : nat) :
  last_index g lines = Some p -> p < length lines.
Proof.
  revert p; induction lines as [|x l IH]; intros p; simpl; [discriminate|].
  destruct (last_index g l) as [i|].
  - intros H; inversion H; subst. specialize (IH i eq_refl). lia.
  - destruct (l_global_idx x =? g)%Z; [|discriminate]. intros H; inversion H; lia.
Qed.

Lemma last_index_in (g : Z) (lines : list BodyLine) :
  In g (map l_global_idx lines) -> exists p, last_index g lines = Some p.
Proof.
  induction lines as [|x l IH]; simpl; [intros []|].
  destruct (last_index g l) as [i|]; [eauto|].
  intros [H|H].
  - rewrite H, Z.eqb_refl. eauto.
  - destruct (IH H) as [p Hp]. discriminate.
Qed.

Lemma scan_chunk_ok (chunk : SectionChunking.Chunk) (lines : list BodyLine)
  (comps : list HeadersOrchestrator.Component) (fl : Z) (pattern : Re.regex)
  (idxs : list nat) :
  Forall (fun i => i < length lines) idxs ->
  exists r,
    HeadersOrchestrator.scan_chunk chunk lines comps fl pattern idxs = Ok r
    /\ forall h, r = Some h -> In (h_global_idx h) (map l_global_idx lines).
Proof.
  induction 1 as [|i idxs Hi _ IH]; simpl.
  - exists None. split; [reflexivity|discriminate].
  - destruct (index_ok lines i Hi) as (line & -> & Hline). simpl.
    destruct (HeadersOrchestrator.candidate_of chunk comps fl line pattern) as [c|] eqn:C;
      [|exact IH].
    exists (Some c). split; [reflexivity|]. intros h Hh. inversion Hh; subst.
    destruct (candidate_of_some _ _ _ _ _ _ C) as (_ & _ & _ & _ & ->).
    apply in_map. eapply nth_error_In; eauto.
Qed.

Lemma find_header_ok (chunk : SectionChunking.Chunk) (lines : list BodyLine)
  (comps : list HeadersOrchestrator.Component) (fl : Z) :
  on_lines lines chunk ->
  exists r,
    HeadersOrchestrator._find_header_in_chunk chunk lines comps
      (HeadersOrchestrator.index_by_global_last lines) fl = Ok r
    /\ forall h, r = Some h -> In (h_global_idx h) (map l_global_idx lines).
Proof.
  intros [Hs He]. unfold HeadersOrchestrator._find_header_in_chunk.
  destruct (HeadersOrchestrator._build_number_pattern comps) as [pattern|];
    [|exists None; split; [reflexivity|discriminate]].
  apply scan_chunk_ok. apply Forall_forall. intros i Hi. apply in_seq in Hi.
  unfold HeadersOrchestrator.scan_end, HeadersOrchestrator.scan_start in *.
  rewrite !index_by_global_last_get in *.
  destruct (last_index_in _ _ Hs) as [ps Hps]. destruct (last_index_in _ _ He) as [pe Hpe].
  rewrite Hps, Hpe in Hi.
  pose proof (last_index_lt _ _ _ Hpe). lia.
Qed.

Lemma list_insert_perm {A} (l : list A) (n : nat) (x : A) :
  Permutation (HeadersOrchestrator.list_insert l n x) (x :: l).
Proof.
  unfold HeadersOrchestrator.list_insert.
  rewrite <- (firstn_skipn n l) at 3. symmetry. apply Permutation_middle.
Qed.

Lemma try_gaps_ok (working : list Header) (sections : list SectionChunking.Chunk)
  (lines : list BodyLine) (gaps : list HeadersOrchestrator.Gap) :
  Forall (on_lines lines) sections ->
  exists r,
    HeadersOrchestrator.try_gaps working sections lines
      (HeadersOrchestrator.index_by_global_last lines) gaps = Ok r
    /\ match r with
       | None => True
       | Some (working', sections') =>
           Forall (on_lines lines) sections'
           /\ exists candidate,
                In (h_global_idx candidate) (map l_global_idx lines)
                /\ ~ In (h_global_idx candidate) (map h_global_idx working)
                /\ Permutation working' (candidate :: working)
       end.
Proof.
  intros Hsec. induction gaps as [|gap gaps IH]; simpl.
  - exists None. split; [reflexivity|exact I].
  - destruct (HeadersOrchestrator.after_index gap) as [ai|]; [|exact IH].
    destruct (length sections <=? ai) eqn:L; [exact IH|].
    apply Nat.leb_gt in L.
    destruct (index_ok sections ai L) as (chunk & -> & Hchunk). simpl.
    assert (on_lines lines chunk) as Hon.
    { rewrite Forall_forall in Hsec. apply Hsec. eapply nth_error_In; eauto. }
    destruct (find_header_ok chunk lines (HeadersOrchestrator.components gap)
                (HeadersOrchestrator.gap_level gap) Hon) as (r & -> & Hr). simpl.
    destruct r as [candidate|]; [|exact IH].
    destruct (existsb _ working) eqn:X; [exact IH|].
    destruct (single_chunks_ok
                (sorted HeadersOrchestrator.by_global_idx
                   (HeadersOrchestrator.list_insert working
                      (Nat.min (HeadersOrchestrator.insert_position gap) (length working))
                      candidate)) lines) as (cs & -> & Hcs). simpl.
    eexists. split; [reflexivity|]. split; [assumption|].
    exists candidate. split; [now apply Hr|]. split.
    + intros Hin. apply in_map_iff in Hin. destruct Hin as (x & Hx & Hin).
      assert (existsb (fun existing => (h_global_idx existing =? h_global_idx candidate)%Z)
                working = true) as Hex; [|congruence].
      apply existsb_exists. exists x. split; [assumption|]. now apply Z.eqb_eq.
    + rewrite sorted_perm. apply list_insert_perm.
Qed.

Lemma filter_length_lt {A} (p q : A -> bool) (l : list A) (a : A) :
  (forall x, q x = true -> p x = true) ->
  In a l -> p a = true -> q a = false ->
  count q l < count p l.
Proof.
  intros Hqp. unfold count.
  assert (Hle : forall l', length (filter q l') <= length (filter p l')).
  { induction l' as [|x l' IH]; simpl; [lia|].
    destruct (q x) eqn:Q; [rewrite (Hqp x Q); simpl; lia|].
    destruct (p x); simpl; lia. }
  induction l as [|x l IH]; simpl; intros Hin Hp Hq; [destruct Hin|].
  destruct Hin as [->|Hin].
  - rewrite Hp, Hq. simpl. specialize (Hle l). lia.
  - specialize (IH Hin Hp Hq).
    destruct (q x) eqn:Q; [rewrite (Hqp x Q); simpl; lia|].
    destruct (p x); simpl; lia.
Qed.

Lemma nodup_length_le (l : list Z) : length (nodup Z.eq_dec l) <= length l.
Proof.
  induction l as [|x l IH]; simpl; [lia|].
  destruct (in_dec Z.eq_dec x l); simpl; lia.
Qed.

Lemma free_lines_bound (lines : list BodyLine) (working : list Header) :
  free_lines lines working <= length lines.
Proof.
  unfold free_lines, count.
  etransitivity; [apply filter_length_le|].
  etransitivity; [apply nodup_length_le|]. now rewrite length_map.
Qed.

Lemma free_lines_decrease (lines : list BodyLine) (working working' : list Header)
  (candidate : Header) :
  In (h_global_idx candidate) (map l_global_idx lines) ->
  ~ In (h_global_idx candidate) (map h_global_idx working) ->
  Permutation working' (candidate :: working) ->
  free_lines lines working' < free_lines lines working.
Proof.
  intros Hline Hfresh Hperm. unfold free_lines.
  assert (Hin : forall g, In g (map h_global_idx working') <->
                          g = h_global_idx candidate \/ In g (map h_global_idx working)).
  { intros g. split; intros H.
    - apply (Permutation_in _ (Permutation_map h_global_idx Hperm)) in H.
      destruct H; [left; congruence|now right].
    - apply (Permutation_in _ (Permutation_sym (Permutation_map h_global_idx Hperm))).
      destruct H; [left; congruence|now right]. }
  apply filter_length_lt with (a := h_global_idx candidate).
  - intros g Hg. apply negb_true_iff in Hg. apply negb_true_iff.
    destruct (mem Z.eqb g (map h_global_idx working)) eqn:M; [|reflexivity].
    apply (mem_spec _ Z.eqb Zeqb_spec) in M.
    assert (mem Z.eqb g (map h_global_idx working') = true) as M'
      by (apply (mem_spec _ Z.eqb Zeqb_spec), Hin; now right).
    congruence.
  - now apply nodup_In.
  - apply negb_true_iff.
    destruct (mem Z.eqb (h_global_idx candidate) (map h_global_idx working)) eqn:M;
      [|reflexivity].
    apply (mem_spec _ Z.eqb Zeqb_spec) in M. contradiction.
  - apply negb_false_iff. apply (mem_spec _ Z.eqb Zeqb_spec), Hin. now left.
Qed.

Lemma keeps_anchors_refl (lines : list BodyLine) (l : list Header) :
  keeps_anchors lines l l.
Proof. repeat split; auto. Qed.

Lemma keeps_anchors_trans (lines : list BodyLine) (a b c : list Header) :
  keeps_anchors lines a b -> keeps_anchors lines b c -> keeps_anchors lines a c.
Proof.
  intros (N1 & I1 & O1) (N2 & I2 & O2). repeat split; auto.
  intros g Hg. destruct (O2 g Hg) as [H|H]; [auto|now right].
Qed.

Lemma keeps_anchors_perm (lines : list BodyLine) (a b : list Header) :
  Permutation (map h_global_idx a) (map h_global_idx b) -> keeps_anchors lines a b.
Proof.
  intros Hp. repeat split.
  - intros ND. eapply Permutation_NoDup; eauto.
  - intros g. apply Permutation_in. assumption.
  - intros g Hg. left. eapply Permutation_in; [symmetry|]; eauto.
Qed.

Lemma keeps_anchors_insert (lines : list BodyLine) (working working' : list Header)
  (candidate : Header) :
  In (h_global_idx candidate) (map l_global_idx lines) ->
  ~ In (h_global_idx candidate) (map h_global_idx working) ->
  Permutation working' (candidate :: working) ->
  keeps_anchors lines working working'.
Proof.
  intros Hline Hfresh Hperm.
  pose proof (Permutation_map h_global_idx Hperm) as Hp. simpl in Hp.
  repeat split.
  - intros ND. apply (Permutation_NoDup (Permutation_sym Hp)). now constructor.
  - intros g Hg. apply (Permutation_in _ (Permutation_sym Hp)). now right.
  - intros g Hg. apply (Permutation_in _ Hp) in Hg.
    destruct Hg as [<-|Hg]; [now right|now left].
Qed.

Lemma repair_loop_ok (lines : list BodyLine) (fuel : nat) (working : list Header)
  (sections : list SectionChunking.Chunk) :
  Forall (on_lines lines) sections ->
  free_lines lines working < fuel ->
  exists working' sections',
    HeadersOrchestrator.repair_loop fuel working sections lines
    = Some (Ok (working', sections'))
    /\ keeps_anchors lines working working'
    /\ Forall (on_lines lines) sections'.
Proof.
  revert working sections; induction fuel as [|fuel IH]; intros working sections Hsec Hfree;
    [lia|].
  cbn [HeadersOrchestrator.repair_loop].
  destruct (identify_ok working) as (gaps & ->).
  destruct gaps as [|gap gaps].
  - exists working, sections. split; [reflexivity|].
    split; [apply keeps_anchors_refl|assumption].
  - destruct (try_gaps_ok working sections lines (gap :: gaps) Hsec) as (r & -> & Hr).
    destruct r as [[working' sections']|].
    + destruct Hr as (Hsec' & candidate & Hline & Hfresh & Hperm).
      pose proof (free_lines_decrease lines working working' candidate Hline Hfresh Hperm).
      destruct (IH working' sections' Hsec') as (w2 & s2 & -> & Hkeep & Hs2); [lia|].
      exists w2, s2. split; [reflexivity|]. split; [|assumption].
      eapply keeps_anchors_trans; [|eassumption].
      eapply keeps_anchors_insert; eauto.
    + exists working, sections. split; [reflexivity|].
      split; [apply keeps_anchors_refl|assumption].
Qed.

Lemma tuple_leb_total (a b : list Z) : tuple_leb a b = true \/ tuple_leb b a = true.
Proof.
  revert b; induction a as [|x a IH]; intros [|y b]; simpl; auto.
  destruct (IH b) as [H|H]; rewrite H; z_cases; simpl; auto; lia.
Qed.

Lemma tuple_leb_trans (a b c : list Z) :
  tuple_leb a b = true -> tuple_leb b c = true -> tuple_leb a c = true.
Proof.
  revert b c; induction a as [|x a IH]; intros [|y b] [|z c]; simpl; auto; try discriminate.
  intros H1 H2.
  apply orb_true_iff in H1. apply orb_true_iff in H2. apply orb_true_iff.
  destruct H1 as [H1|H1], H2 as [H2|H2].
  - apply Z.ltb_lt in H1, H2. left. apply Z.ltb_lt. lia.
  - apply andb_true_iff in H2. destruct H2 as [H2 _].
    apply Z.ltb_lt in H1. apply Z.eqb_eq in H2. left. apply Z.ltb_lt. lia.
  - apply andb_true_iff in H1. destruct H1 as [H1 _].
    apply Z.ltb_lt in H2. apply Z.eqb_eq in H1. left. apply Z.ltb_lt. lia.
  - apply andb_true_iff in H1. apply andb_true_iff in H2.
    destruct H1 as [H1 H1'], H2 as [H2 H2'].
    apply Z.eqb_eq in H1, H2. right. apply andb_true_iff. split.
    + apply Z.eqb_eq. lia.
    + eapply IH; eauto.
Qed.

Lemma map_gid_pop (l : list Header) :
  map h_global_idx (map HeadersOrchestrator.pop_source_idx l) = map h_global_idx l.
Proof. rewrite map_map. reflexivity. Qed.

Lemma map_gid_working (l : list Header) :
  map h_global_idx (map HeadersOrchestrator.working_header l) = map h_global_idx l.
Proof. rewrite map_map. reflexivity. Qed.

Lemma enforce_ok (headers : list Header) (lines : list BodyLine) :
  exists out sections,
    HeadersOrchestrator._enforce_header_sequence headers lines = Some (Ok (out, sections))
    /\ keeps_anchors lines headers out
    /\ Forall (on_lines lines) sections
    /\ exists w,
         out = map HeadersOrchestrator.pop_source_idx w
         /\ StronglySorted (fun a b => HeadersOrchestrator.by_order_key a b = true) w.
Proof.
  unfold HeadersOrchestrator._enforce_header_sequence, HeadersOrchestrator.enforce_with_fuel.
  destruct headers as [|h0 headers].
  - exists [], []. split; [reflexivity|]. split; [apply keeps_anchors_refl|].
    split; [constructor|]. exists []. split; [reflexivity|constructor].
  - set (hs := h0 :: headers).
    set (working :=
           sorted HeadersOrchestrator.by_order_key
             (sorted HeadersOrchestrator.by_global_idx
                (map HeadersOrchestrator.working_header hs))).
    destruct (single_chunks_ok working lines) as (sections & -> & Hsec).
    destruct (repair_loop_ok lines (S (length lines)) working sections Hsec)
      as (w' & s' & -> & Hkeep & Hs').
    { pose proof (free_lines_bound lines working). lia. }
    eexists _, s'. split; [reflexivity|]. split; [|split; [assumption|]].
    + eapply keeps_anchors_trans; [|eapply keeps_anchors_trans; [exact Hkeep|]].
      * apply keeps_anchors_perm. unfold working.
        rewrite !sorted_map_perm, map_gid_working. reflexivity.
      * apply keeps_anchors_perm. rewrite map_gid_pop, !sorted_map_perm. reflexivity.
    + eexists. split; [reflexivity|].
      apply sorted_strongly with (le := HeadersOrchestrator.by_order_key).
      * intros a b. apply tuple_leb_total.
      * auto.
      * intros a b c. apply tuple_leb_trans.
Qed.

(** ** The order of the located headers (C10) *)

Lemma by_source_then_gid_order (a b : Header) :
  HeaderLocator.by_source_then_gid a b = true -> source_then_gid a b.
Proof.
  unfold HeaderLocator.by_source_then_gid, source_then_gid. simpl.
  intros H. apply orb_true_iff in H. destruct H as [H|H].
  - left. now apply Z.ltb_lt.
  - apply andb_true_iff in H. destruct H as [E H]. apply Z.eqb_eq in E.
    right. split; [assumption|].
    apply orb_true_iff in H. destruct H as [H|H].
    + apply Z.ltb_lt in H. lia.
    + apply andb_true_iff in H. destruct H as [H _]. apply Z.eqb_eq in H. lia.
Qed.

Lemma source_then_gid_trans (a b c : Header) :
  source_then_gid a b -> source_then_gid b c -> source_then_gid a c.
Proof. unfold source_then_gid. lia. Qed.

Lemma located_in_order (l : list Header) :
  StronglySorted source_then_gid (sorted HeaderLocator.by_source_then_gid l).
Proof.
  apply sorted_strongly.
  - intros a b. apply tuple_leb_total.
  - apply by_source_then_gid_order.
  - apply source_then_gid_trans.
Qed.

Lemma locate_in_order (similar : text -> text -> bool)
  (align : list HeaderLocator.OracleHeader -> list BodyLine -> list HeaderLocator.SeqEntry)
  (cfg : Config) (headers : list HeaderLocator.OracleHeader)
  (lines : list BodyLine) (excluded : list Z) :
  StronglySorted source_then_gid
    (HeaderLocator.locate_headers_in_lines similar align cfg headers lines excluded).
Proof.
  unfold HeaderLocator.locate_headers_in_lines.
  destruct (HEADERS_ALIGN_SEQUENTIAL cfg); [|apply located_in_order].
  cbv zeta.
  match goal with
  | |- context [HeaderLocator.assign_source_idx ?n ?b ?l] =>
      destruct (HeaderLocator.assign_source_idx n b l) as [b1 located]
  end.
  apply located_in_order.
Qed.

Lemma locate_keeps_entry (similar : text -> text -> bool)
  (align : list HeaderLocator.OracleHeader -> list BodyLine -> list HeaderLocator.SeqEntry)
  (cfg : Config) (headers : list HeaderLocator.OracleHeader)
  (lines : list BodyLine) (excluded : list Z) (e : HeaderLocator.SeqEntry) :
  HEADERS_ALIGN_SEQUENTIAL cfg = true ->
  HeaderLocator.low_coverage
    (length (align headers (filter (HeaderLocator._eligible excluded) lines)))
    (HeaderLocator.total_numbered headers) = false ->
  In e (align headers (filter (HeaderLocator._eligible excluded) lines)) ->
  exists h,
    In h (HeaderLocator.locate_headers_in_lines similar align cfg headers lines excluded)
    /\ h_global_idx h = HeaderLocator.e_global_idx e
    /\ h_number h = Some (HeaderLocator.e_number e)
    /\ h_text h = HeaderLocator.e_title e
    /\ h_level h = HeaderLocator.e_level e
    /\ h_page h = HeaderLocator.e_page e
    /\ h_line_idx h = HeaderLocator.e_line_idx e.
Proof.
  intros Hs Hlow Hin. unfold HeaderLocator.locate_headers_in_lines.
  rewrite Hs, Hlow.
  set (seq_lines := filter (HeaderLocator._eligible excluded) lines) in *.
  destruct (HeaderLocator.assign_source_idx (length headers)
              (HeaderLocator.index_buckets headers)
              (map HeaderLocator.located_of (align headers seq_lines)))
    as [buckets located] eqn:E.
  destruct (assign_source_idx_fields (length headers) (HeaderLocator.index_buckets headers)
              (map HeaderLocator.located_of (align headers seq_lines))
              (HeaderLocator.located_of e) (in_map _ _ _ Hin))
    as (h & Hh & Ht & Hn & Hl & Hp & Hi & Hg).
  rewrite E in Hh. simpl in Hh.
  exists h. split; [|now repeat split].
  apply sorted_In.
  destruct (filter _ headers); [assumption|apply in_or_app; now left].
Qed.
(** ** The modes of a run (C5) *)

Section RunFacts.
Variable get_headers_llm_full : list BodyLine -> text + list HeaderLocator.OracleHeader.
Variable align_headers_llm_strict :
  list HeaderLocator.OracleHeader -> list BodyLine -> list Header.
Variable locate_headers_with_vectors :
  list HeaderLocator.OracleHeader -> list BodyLine -> option (list Header).
Variable similar : text -> text -> bool.
Variable align_headers_sequential :
  list HeaderLocator.OracleHeader -> list BodyLine -> list HeaderLocator.SeqEntry.

Lemma locate_nothing_modes (cfg : Config) (settings : Run.Settings)
  (lines : list BodyLine) (excluded : list Z) :
  let before :=
    Run.locate get_headers_llm_full align_headers_llm_strict locate_headers_with_vectors
      similar align_headers_sequential cfg settings lines excluded in
  fst (fst before) = [] ->
  snd (fst before) = Run.llm_full \/ snd (fst before) = Run.llm_full_error
  \/ snd (fst before) = Run.llm_disabled.
Proof.
  cbv zeta. unfold Run.locate.
  destruct (Run.headers_mode_is_llm_full settings); [|simpl; auto].
  destruct (get_headers_llm_full lines) as [failure|llm_headers]; [simpl; auto|].
  destruct (Run.headers_llm_strict settings && negb (Run.is_nil llm_headers)).
  - destruct (align_headers_llm_strict llm_headers lines) as [|h strict]; simpl.
    + destruct (Run.header_locate_use_embeddings settings); simpl; [|auto].
      destruct (locate_headers_with_vectors llm_headers lines) as [[|f found]|]; simpl; auto.
      discriminate.
    + discriminate.
  - simpl. destruct (Run.header_locate_use_embeddings settings); simpl; [|auto].
    destruct (locate_headers_with_vectors llm_headers lines) as [[|f found]|]; simpl; auto.
    discriminate.
Qed.

Lemma locate_disabled (cfg : Config) (settings : Run.Settings)
  (lines : list BodyLine) (excluded : list Z) :
  Run.headers_mode_is_llm_full settings = false ->
  Run.locate get_headers_llm_full align_headers_llm_strict locate_headers_with_vectors
    similar align_headers_sequential cfg settings lines excluded
  = ([], Run.llm_disabled, [s2t "LLM header extraction is disabled by configuration."]).
Proof. intros H. unfold Run.locate. now rewrite H. Qed.

Lemma locate_oracle_failure (cfg : Config) (settings : Run.Settings)
  (lines : list BodyLine) (excluded : list Z) (failure : text) :
  Run.headers_mode_is_llm_full settings = true ->
  get_headers_llm_full lines = inl failure ->
  Run.locate get_headers_llm_full align_headers_llm_strict locate_headers_with_vectors
    similar align_headers_sequential cfg settings lines excluded
  = ([], Run.llm_full_error, [failure]).
Proof. intros H E. unfold Run.locate. now rewrite H, E. Qed.

End RunFacts.

(** ** The best candidate of the parent scan (C2) *)

Lemma candidate_gtb_spec (a b : Invariants.Candidate) :
  Invariants.candidate_gtb a b = true <->
  (fst (fst b) < fst (fst a))%Q
  \/ (fst (fst a) == fst (fst b))%Q
     /\ ((snd (fst b) < snd (fst a))%Z
         \/ snd (fst a) = snd (fst b) /\ snd a = true /\ snd b = false).
Proof.
  destruct a as [[sa ga] na], b as [[sb gb] nb]. cbn [fst snd].
  unfold Invariants.candidate_gtb.
  rewrite orb_true_iff, andb_true_iff, orb_true_iff, !andb_true_iff, negb_true_iff.
  rewrite Qeq_bool_iff, Z.ltb_lt, Z.eqb_eq, negb_true_iff.
  split.
  - intros [H|[E H]].
    + left. apply Qnot_le_lt. intros L. apply Qle_bool_iff in L. congruence.
    + right. split; [exact E|]. destruct H as [H|[[H1 H2] H3]]; auto.
  - intros [H|[E H]].
    + left. destruct (Qle_bool sa sb) eqn:L; [|reflexivity].
      apply Qle_bool_iff in L. lra.
    + right. split; [exact E|]. destruct H as [H|(H1 & H2 & H3)]; auto.
Qed.

Lemma candidate_gtb_irrefl (a : Invariants.Candidate) :
  Invariants.candidate_gtb a a = false.
Proof.
  destruct (Invariants.candidate_gtb a a) eqn:E; [|reflexivity].
  apply candidate_gtb_spec in E.
  destruct E as [H|[_ [H|(_ & H1 & H2)]]]; [lra|lia|congruence].
Qed.

Lemma candidate_gtb_below (o b c : Invariants.Candidate) :
  Invariants.candidate_gtb c b = true ->
  Invariants.candidate_gtb o b = false ->
  Invariants.candidate_gtb o c = false.
Proof.
  intros Hcb Hob.
  destruct (Invariants.candidate_gtb o c) eqn:Hoc; [|reflexivity].
  rewrite <- Hob. symmetry. apply candidate_gtb_spec.
  apply candidate_gtb_spec in Hcb. apply candidate_gtb_spec in Hoc.
  destruct Hcb as [H1|[E1 H1]], Hoc as [H2|[E2 H2]].
  - left. lra.
  - left. lra.
  - left. lra.
  - right. split; [lra|].
    destruct H1 as [H1|(H1 & H1a & H1b)], H2 as [H2|(H2 & H2a & H2b)].
    + left. lia.
    + left. lia.
    + left. lia.
    + congruence.
Qed.

Section ReanchorBest.
Variable token_set_ratio : text -> text -> Q.
Variables (cfg : Config) (confusables : bool) (lines : list HeadersSequential.Line).
Variables (toc_pages : list Z) (runners : list text) (thr : Z).
Variables (item : Invariants.HeaderItem) (earliest : Z).

Lemma reanchor_step_eq (best : option Invariants.Candidate)
  (line : HeadersSequential.Line) :
  parent_scan_step token_set_ratio cfg confusables lines toc_pages runners thr item
    earliest best line =
  let candidate := reanchor_tuple token_set_ratio cfg confusables lines item line in
  if reanchor_qualifies token_set_ratio cfg confusables lines toc_pages runners thr item
       earliest line
  then match best with
       | None => Some candidate
       | Some b => if Invariants.candidate_gtb candidate b then Some candidate else best
       end
  else best.
Proof.
  unfold parent_scan_step, Invariants.reanchor_step, reanchor_qualifies,
    reanchor_tuple, Invariants.is_ineligible_runner_or_toc, Invariants.threshold_of.
  cbn [fst snd].
  destruct (Z.leb_spec earliest (HeadersSequential.global_idx line)) as [L1|L1];
    destruct (Z.ltb_spec (HeadersSequential.global_idx line) (Z.max 0 (earliest - 800)))
      as [L2|L2];
    destruct (Z.leb_spec (Z.max 0 (earliest - 800)) (HeadersSequential.global_idx line))
      as [L3|L3];
    destruct (Z.ltb_spec (HeadersSequential.global_idx line) earliest) as [L4|L4];
    try lia; cbn [orb andb]; try reflexivity.
  destruct (mem Z.eqb (HeadersSequential.page line) toc_pages); cbn [orb andb negb];
    [reflexivity|].
  destruct (mem PyStr.eqb _ runners); cbn [orb andb negb]; [reflexivity|].
  destruct (Re.found _ _); destruct (HEADERS_TITLE_ONLY_REANCHOR cfg);
    cbn [orb andb negb]; try reflexivity;
    destruct (Qle_bool _ _); reflexivity.
Qed.

Lemma scan_inv_step (seen : list HeadersSequential.Line)
  (best : option Invariants.Candidate) (line : HeadersSequential.Line) :
  scan_inv token_set_ratio cfg confusables lines toc_pages runners thr item earliest
    seen best ->
  scan_inv token_set_ratio cfg confusables lines toc_pages runners thr item earliest
    (seen ++ [line])
    (parent_scan_step token_set_ratio cfg confusables lines toc_pages runners thr item
       earliest best line).
Proof.
  intros Hinv. rewrite reanchor_step_eq. cbv zeta. unfold scan_inv in *.
  destruct (reanchor_qualifies _ _ _ _ _ _ _ _ _ line) eqn:Q.
  - destruct best as [b|].
    + destruct Hinv as (l0 & -> & Hin & Hq & Hmax).
      destruct (Invariants.candidate_gtb _ _) eqn:G.
      * exists line. split; [reflexivity|]. split; [apply in_or_app; right; now left|].
        split; [exact Q|]. intros other Ho Hqo.
        apply in_app_or in Ho. destruct Ho as [Ho|[<-|[]]].
        -- eapply candidate_gtb_below; [exact G|]. now apply Hmax.
        -- apply candidate_gtb_irrefl.
      * exists l0. split; [reflexivity|]. split; [apply in_or_app; now left|].
        split; [exact Hq|]. intros other Ho Hqo.
        apply in_app_or in Ho. destruct Ho as [Ho|[<-|[]]]; [now apply Hmax|exact G].
    + exists line. split; [reflexivity|]. split; [apply in_or_app; right; now left|].
      split; [exact Q|]. intros other Ho Hqo.
      apply in_app_or in Ho. destruct Ho as [Ho|[<-|[]]].
      * rewrite (Hinv other Ho) in Hqo. discriminate.
      * apply candidate_gtb_irrefl.
  - destruct best as [b|].
    + destruct Hinv as (l0 & -> & Hin & Hq & Hmax).
      exists l0. split; [reflexivity|]. split; [apply in_or_app; now left|].
      split; [exact Hq|]. intros other Ho Hqo.
      apply in_app_or in Ho. destruct Ho as [Ho|[<-|[]]]; [now apply Hmax|].
      rewrite Q in Hqo. discriminate.
    + intros other Ho. apply in_app_or in Ho. destruct Ho as [Ho|[<-|[]]];
        [now apply Hinv|exact Q].
Qed.

Lemma scan_inv_fold (todo seen : list HeadersSequential.Line)
  (best : option Invariants.Candidate) :
  scan_inv token_set_ratio cfg confusables lines toc_pages runners thr item earliest
    seen best ->
  scan_inv token_set_ratio cfg confusables lines toc_pages runners thr item earliest
    (seen ++ todo)
    (fold_left
       (parent_scan_step token_set_ratio cfg confusables lines toc_pages runners thr item
          earliest)
       todo best).
Proof.
  revert seen best; induction todo as [|line todo IH]; intros seen best Hinv; simpl.
  - now rewrite app_nil_r.
  - replace (seen ++ line :: todo) with ((seen ++ [line]) ++ todo)
      by (rewrite <- app_assoc; reflexivity).
    apply IH, scan_inv_step, Hinv.
Qed.

Lemma reanchor_qualifies_before (line : HeadersSequential.Line) :
  reanchor_qualifies token_set_ratio cfg confusables lines toc_pages runners thr item
    earliest line = true ->
  (HeadersSequential.global_idx line < earliest)%Z.
Proof.
  unfold reanchor_qualifies. rewrite !andb_true_iff.
  intros (((((_ & H) & _) & _) & _) & _). now apply Z.ltb_lt.
Qed.

Lemma scan_best_is_best (seen : list HeadersSequential.Line)
  (best : HeadersSequential.Line) :
  scan_best token_set_ratio cfg confusables lines toc_pages runners thr item earliest
    seen best ->
  reanchor_best token_set_ratio cfg confusables lines toc_pages runners thr item earliest
    seen best.
Proof.
  intros (Hin & Hq & Hmax). split; [exact Hin|]. split; [exact Hq|].
  intros other Ho Hqo. specialize (Hmax other Ho Hqo). cbv zeta.
  set (o := reanchor_tuple token_set_ratio cfg confusables lines item other) in *.
  set (b := reanchor_tuple token_set_ratio cfg confusables lines item best) in *.
  assert (Hno : ~ ((fst (fst b) < fst (fst o))%Q
                   \/ (fst (fst o) == fst (fst b))%Q
                      /\ ((snd (fst b) < snd (fst o))%Z
                          \/ snd (fst o) = snd (fst b) /\ snd o = true /\ snd b = false))).
  { intros H. apply candidate_gtb_spec in H. congruence. }
  split.
  - apply Qnot_lt_le. intros H. apply Hno. now left.
  - intros E. split.
    + destruct (Z.le_gt_cases (snd (fst o)) (snd (fst b))) as [H|H]; [exact H|].
      exfalso. apply Hno. right. split; [exact E|]. left. lia.
    + intros Eg Ho'. destruct (snd b) eqn:Eb; [reflexivity|].
      exfalso. apply Hno. right. split; [exact E|]. right. auto.
Qed.

Lemma reanchor_scan_result (items_by_num : dict text Invariants.HeaderItem)
  (pos : dict text Z) (parent_num : text) :
  dict_get PyStr.eqb items_by_num parent_num = Some item ->
  exists g,
    Invariants.reanchor_parent_title_only token_set_ratio cfg confusables lines items_by_num
      toc_pages runners thr pos parent_num earliest
    = (dict_set PyStr.eqb pos parent_num g, true)
    /\ ((forall line, In line lines ->
           reanchor_qualifies token_set_ratio cfg confusables lines toc_pages runners thr
             item earliest line = false)
        /\ g = earliest
        \/ exists best,
             reanchor_best token_set_ratio cfg confusables lines toc_pages runners thr item
               earliest lines best
             /\ g = HeadersSequential.global_idx best).
Proof.
  intros Hitem. unfold Invariants.reanchor_parent_title_only. rewrite Hitem.
  pose proof (scan_inv_fold lines [] None (fun _ H => match H with end)) as Hinv.
  cbn [app] in Hinv. unfold parent_scan_step, scan_inv in Hinv.
  match goal with |- context [fold_left ?f lines None] =>
    destruct (fold_left f lines None) as [b|] end.
  - destruct Hinv as (best & -> & Hbest).
    exists (HeadersSequential.global_idx best). split; [reflexivity|].
    right. exists best. split; [now apply scan_best_is_best|reflexivity].
  - exists earliest. split; [reflexivity|]. left. split; [exact Hinv|reflexivity].
Qed.

End ReanchorBest.

(** ** The sections of a run (C3) *)





Section OneOrder.
Variables (A : Type) (R : A -> A -> Prop).


End OneOrder.






(* ================================================================== *)
(** * The claims *)

Local Open Scope string_scope.
Local Open Scope list_scope.

(** C4 (defect in the code).  The normaliser is not idempotent.  With
    confusable folding on, [normalize] maps "1 I. 2" to "11. 2", and a
    second call collapses the dot run it has just created to "11.2";
    [normalize_numeric_artifacts] maps "1 . I Scope" to "1 .1 Scope" and
    then to "1.1 Scope".  A spaced run of three numbers keeps one spaced
    dot after a single call: "1 . 2 . 3" becomes "1.2 . 3", where the
    strict normaliser of the sibling module yields "1.2.3". *)
Theorem C4_normalize_not_idempotent :
  HeadersSequential.normalize (s2t "1 I. 2") true = s2t "11. 2"
  /\ HeadersSequential.normalize (HeadersSequential.normalize (s2t "1 I. 2") true) true
     = s2t "11.2"
  /\ ExtractorNormalize.normalize_numeric_artifacts (s2t "1 . I Scope") = s2t "1 .1 Scope"
  /\ ExtractorNormalize.normalize_numeric_artifacts
       (ExtractorNormalize.normalize_numeric_artifacts (s2t "1 . I Scope"))
     = s2t "1.1 Scope"
  /\ HeadersSequential.normalize (s2t "1 . 2 . 3") true = s2t "1.2 . 3"
  /\ HeadersLlmStrict.normalize_strict_text (s2t "1 . 2 . 3") = s2t "1.2.3"
  /\ HeadersLlmStrict.normalize_strict_text (s2t "1 I. 2") = s2t "11.2".
Proof. vm_compute. repeat split. Qed.

(** C6, as the claim states it, fails: a page with four dot-leader lines
    among ten lines is not TOC-like for [_is_toc_like], whose threshold is
    [max(4, 10 // 2) = 5], and four such lines are below the threshold 6
    of [detect_toc_pages]. *)
Lemma C6_four_dot_leaders_do_not_suffice :
  let texts :=
    map s2t ["Scope ..... 3"; "Terms ..... 4"; "Work ..... 12"; "Tests ..... 15";
             "a"; "b"; "c"; "d"; "e"; "f"] in
  count (Re.found SPEC_DOT_LEADER_RE) texts = 4
  /\ PdfNative._is_toc_like texts 2 = false
  /\ HeadersSequential.detect_toc_pages
       [seq_line "Scope ..... 3" 2 0; seq_line "Terms ..... 4" 2 1;
        seq_line "Work ..... 12" 2 2; seq_line "Tests ..... 15" 2 3] = [].
Proof. vm_compute. repeat split. Qed.

(** C6, amended.  Each detector classifies a page by the dot-leader rule
    once the number of its dot-leader lines reaches that detector's own
    threshold: [HEADERS_STRICT_TOC_MIN_DOT_LEADERS] (4 by default) lines
    matching [\.{3,}\s*\d+\s*$] in [detect_toc_pages_strict]; exactly when
    6 lines not flagged as running match it in [detect_toc_pages]; and
    [max(4, n // 2)] of the [n] non-blank lines matching [\.{2,}\s*\d+$]
    in [_is_toc_like]. *)
Theorem C6_dot_leader_thresholds :
  (forall (cfg : Config) (lines : list BodyLine) (p : Z),
      In p (map l_page lines) ->
      (HEADERS_STRICT_TOC_MIN_DOT_LEADERS cfg
       <= Z.of_nat (count (fun l => (l_page l =? p)%Z
                                    && Re.found HeadersLlmStrict.DOTTED_LEADER_RE (l_text l))
                          lines))%Z ->
      In p (HeadersLlmStrict.detect_toc_pages_strict cfg lines))
  /\ (forall (lines : list HeadersSequential.Line) (p : Z),
         In p (HeadersSequential.detect_toc_pages lines) <->
         6 <= count (fun e => negb (HeadersSequential.is_running e)
                              && HeadersSequential.is_probable_toc_line
                                   (HeadersSequential.text_of e)
                              && (HeadersSequential.page e =? p)%Z) lines)
  /\ (forall (lines : list text) (page_number : Z),
         Nat.max 4 (length (PdfNative.cleaned_lines lines) / 2)
           <= count (Re.found PdfNative.DOTTED_ENTRY_RE) (PdfNative.cleaned_lines lines) ->
         PdfNative._is_toc_like lines page_number = true).
Proof.
  split; [|split].
  - intros cfg lines p Hp Hle. apply strict_toc_member. split; [assumption|].
    unfold HeadersLlmStrict.toc_page_strict, HeadersLlmStrict.dotted_count.
    rewrite count_map. unfold filed. rewrite count_filter.
    apply Z.leb_le in Hle. rewrite Hle. reflexivity.
  - apply sequential_toc_member.
  - apply toc_like_by_dotted.
Qed.

Lemma C6_dot_leader_thresholds_witness :
  In 7%Z (HeadersLlmStrict.detect_toc_pages_strict default_config
            [body_line "Scope ..... 3" 7 0; body_line "Terms ..... 4" 7 1;
             body_line "Work ..... 12" 7 2; body_line "Tests ..... 15" 7 3;
             body_line "a" 7 4; body_line "b" 7 5; body_line "c" 7 6;
             body_line "d" 7 7; body_line "e" 7 8; body_line "f" 7 9]).
Proof.
  apply (proj1 C6_dot_leader_thresholds).
  - simpl. left. reflexivity.
  - vm_compute. discriminate.
Defined.

(** C8, as the claim states it, fails: the line "2" consists of the bare
    number, nothing remains after the numbering is stripped, and the
    line is still returned as the missing header, with the stripped line
    itself as its text. *)
Lemma C8_bare_number_is_accepted :
  let lines := [body_line "1. Scope" 1 0; body_line "2" 1 1; body_line "3. Execution" 1 2] in
  let chunk :=
    {| SectionChunking.header_text := s2t "Scope";
       SectionChunking.header_number := Some (s2t "1");
       SectionChunking.level := 1;
       SectionChunking.start_global_idx := 0; SectionChunking.end_global_idx := 1;
       SectionChunking.start_page := 1; SectionChunking.end_page := 1 |} in
  let comps := [HeadersOrchestrator._build_component 2 HeadersOrchestrator.Numeric
                  (Some {| HeadersOrchestrator.raw := s2t "1";
                           HeadersOrchestrator.normalized := s2t "1";
                           HeadersOrchestrator.kind := Some HeadersOrchestrator.Numeric;
                           HeadersOrchestrator.value := Some 1%Z |})] in
  HeadersOrchestrator._find_header_in_chunk chunk lines comps
    (HeadersOrchestrator.index_by_global_last lines) 1
  = Ok (Some {| h_text := s2t "2"; h_number := Some (s2t "2"); h_level := 1;
                h_page := 1; h_line_idx := 1; h_global_idx := 1; h_source_idx := -1 |})
  /\ option_map (fun hs => map (fun h => (h_number h, h_text h, h_global_idx h)) (fst hs))
       (match HeadersOrchestrator._enforce_header_sequence
                [{| h_text := s2t "Scope"; h_number := Some (s2t "1"); h_level := 1;
                    h_page := 1; h_line_idx := 0; h_global_idx := 0; h_source_idx := -1 |};
                 {| h_text := s2t "Execution"; h_number := Some (s2t "3"); h_level := 1;
                    h_page := 1; h_line_idx := 2; h_global_idx := 2; h_source_idx := -1 |}]
                lines with
        | Some (Ok out) => Some out
        | _ => None
        end)
     = Some [(Some (s2t "1"), s2t "Scope", 0%Z); (Some (s2t "2"), s2t "2", 1%Z);
             (Some (s2t "3"), s2t "Execution", 2%Z)].
Proof. vm_compute. split; reflexivity. Qed.

(** C8, amended.  When the gap filler returns a header for a gap, the
    header sits on a line of the scanned index range whose left-stripped
    text matches the numbering pattern at its start, and no earlier line
    of the range matches.  Its text is what follows the numbering once
    the characters [" -.):\t"] are stripped from the left, or the whole
    stripped line when nothing follows. *)
Theorem C8_first_matching_line
  (chunk : SectionChunking.Chunk) (lines : list BodyLine)
  (comps : list HeadersOrchestrator.Component) (index_by_global : dict Z nat)
  (fallback_level : Z) (h : Header) :
  HeadersOrchestrator._find_header_in_chunk chunk lines comps index_by_global fallback_level
    = Ok (Some h) ->
  exists pattern idx line m,
    HeadersOrchestrator._build_number_pattern comps = Some pattern
    /\ HeadersOrchestrator.scan_start chunk index_by_global <= idx
       <= HeadersOrchestrator.scan_end chunk index_by_global
    /\ nth_error lines idx = Some line
    /\ Re.match_prefix pattern (PyStr.lstrip (l_text line)) = Some m
    /\ (forall j, HeadersOrchestrator.scan_start chunk index_by_global <= j < idx ->
          exists lj, nth_error lines j = Some lj
                     /\ Re.match_prefix pattern (PyStr.lstrip (l_text lj)) = None)
    /\ h_global_idx h = l_global_idx line
    /\ h_number h = Some (HeadersOrchestrator._components_to_number comps)
    /\ h_text h = HeadersOrchestrator.header_text_of m (PyStr.lstrip (l_text line)).
Proof.
  unfold HeadersOrchestrator._find_header_in_chunk.
  destruct (HeadersOrchestrator._build_number_pattern comps) as [pattern|]; [|discriminate].
  intros H. apply scan_chunk_some in H.
  destruct H as (pre & idx & post & line & Hs & Hn & Hc & Hpre).
  apply seq_split in Hs. destruct Hs as (Hi & Hlt & Hin).
  apply candidate_of_some in Hc. destruct Hc as (m & Hm & Ht & Hnum & Hg).
  exists pattern, idx, line, m. repeat split; auto; try lia.
  intros j Hj. destruct (Hpre j) as (lj & Hlj & Hcj); [apply Hin; lia|].
  exists lj. split; [assumption|]. eapply candidate_of_none; eauto.
Qed.

Lemma C8_first_matching_line_witness :
  exists pattern idx line m,
    HeadersOrchestrator._build_number_pattern
      (HeadersOrchestrator._extract_components (Some (s2t "2"))) = Some pattern
    /\ 0 <= idx <= 1
    /\ nth_error [body_line "1. Scope" 1 0; body_line "2. Requirements" 1 1;
                  body_line "3. Execution" 1 2] idx = Some line
    /\ Re.match_prefix pattern (PyStr.lstrip (l_text line)) = Some m
    /\ HeadersOrchestrator.header_text_of m (PyStr.lstrip (l_text line)) = s2t "Requirements".
Proof.
  destruct (C8_first_matching_line
              {| SectionChunking.header_text := s2t "Scope";
                 SectionChunking.header_number := Some (s2t "1");
                 SectionChunking.level := 1;
                 SectionChunking.start_global_idx := 0;
                 SectionChunking.end_global_idx := 1;
                 SectionChunking.start_page := 1; SectionChunking.end_page := 1 |}
              [body_line "1. Scope" 1 0; body_line "2. Requirements" 1 1;
               body_line "3. Execution" 1 2]
              (HeadersOrchestrator._extract_components (Some (s2t "2")))
              (HeadersOrchestrator.index_by_global_last
                 [body_line "1. Scope" 1 0; body_line "2. Requirements" 1 1;
                  body_line "3. Execution" 1 2])
              1%Z
              {| h_text := s2t "Requirements"; h_number := Some (s2t "2"); h_level := 1;
                 h_page := 1; h_line_idx := 1; h_global_idx := 1; h_source_idx := -1 |}
              eq_refl)
    as (pattern & idx & line & m & Hp & Hr & Hn & Hm & _ & _ & _ & Ht).
  exists pattern, idx, line, m. simpl in Ht. rewrite <- Ht.
  repeat split; auto; apply Hr.
Defined.

(** C7: the sequential detector diverges from the claim.  The
    five-character text "Rev 2" and the six-character text "Manual"
    both stand in the band of both pages of a two-page stream, and
    [detect_running_header_footer] puts both in [running_texts]: the
    function has no length test.  The detector of the boilerplate
    aligner, [header_align_bp.detect_running_headers], applies the guard
    the claim describes: on the same lines it keeps "manual" only, and
    no text shorter than six characters is ever in its result. *)
Theorem C7_short_text_joins_running_texts :
  HeadersSequential.detect_running_header_footer default_config
    [seq_line "Rev 2" 1 0; seq_line "Manual" 1 1;
     seq_line "Rev 2" 2 2; seq_line "Manual" 2 3] None
  = [s2t "rev 2"; s2t "manual"]
  /\ length (s2t "rev 2") = 5
  /\ HeaderAlignBp.detect_running_headers default_config
       [body_line "Rev 2" 1 0; body_line "Manual" 1 1;
        body_line "Rev 2" 2 2; body_line "Manual" 2 3]
     = [s2t "manual"]
  /\ (forall (cfg : Config) (lines : list BodyLine) (t : text),
        In t (HeaderAlignBp.detect_running_headers cfg lines) -> 6 <= length t).
Proof.
  split; [vm_compute; reflexivity|].
  split; [reflexivity|].
  split; [vm_compute; reflexivity|].
  intros cfg lines t Hin. unfold HeaderAlignBp.detect_running_headers in Hin.
  apply in_map_iff in Hin. destruct Hin as [[t' n] [Et Hin]].
  apply filter_In in Hin. destruct Hin as [_ Hk].
  apply andb_true_iff in Hk. destruct Hk as [_ Hlen].
  cbn in Et, Hlen. subst t'. apply Nat.leb_le. exact Hlen.
Qed.

(** C10, as the claim states it, fails: the coverage test counts the
    entries the sequential aligner returns, not the numbered oracle
    headers it resolved.  The outline holds the numbered header
    "7 Missing part" and the header "2 Scope", whose [number] is absent;
    the only line reads "2 Scope".  [make_header_items] reads the number
    "2" from the second header's text, [build_top_level_windows] anchors
    it on the line, and nothing is left to scan for "7": the aligner
    returns the one entry below.  None of the one numbered header is
    resolved, yet the coverage is 1/1, the sequential entry is kept
    (with the source position [len(headers) + 1000]) and the legacy
    matcher, left without a free line, locates nothing; had the result
    been discarded, the legacy matcher would have located "2 Scope"
    without a number at source position 1. *)
Lemma C10_unresolved_numbered_header_keeps_entries :
  let headers := [oracle_header "Missing part" (Some "7") 1;
                  oracle_header "2 Scope" None 1] in
  let lines := [body_line "2 Scope" 1 0] in
  let entries := [seq_entry "2" "2 Scope" 1 1 0] in
  let located :=
    HeaderLocator.locate_headers_in_lines (fun _ _ => false) (fun _ _ => entries)
      default_config headers lines [] in
  HeaderLocator.total_numbered headers = 1
  /\ resolved_numbered headers entries = 0
  /\ located
     = [ {| h_text := s2t "2 Scope"; h_number := Some (s2t "2"); h_level := 1;
            h_page := 1; h_line_idx := 0; h_global_idx := 0; h_source_idx := 1002 |} ]
  /\ sorted HeaderLocator.by_source_then_gid
       (snd (HeaderLocator.assign_source_idx (length headers)
               (HeaderLocator.index_buckets headers)
               (HeaderLocator._locate_headers_legacy (fun _ _ => false) headers lines [])))
     = [ {| h_text := s2t "2 Scope"; h_number := None; h_level := 1;
            h_page := 1; h_line_idx := 0; h_global_idx := 0; h_source_idx := 1 |} ].
Proof. vm_compute. repeat split; reflexivity. Qed.

(** C10, amended.  Under the sequential strategy the coverage is the
    number of entries the sequential aligner returns over the number of
    oracle headers that carry a number.  When at least one header
    carries a number and the entries are fewer than 60% of the numbered
    headers, the result is exactly what the legacy matcher finds for all
    the headers on the eligible lines, with source positions assigned:
    no sequential entry survives.  When no header carries a number, or
    the entries reach 60% of the numbered headers, every entry the
    aligner returned is in the result with its number, title, level and
    position.  In both cases the result is ordered by source position
    and then by [global_idx]. *)
Theorem C10_coverage_fallback
  (similar : text -> text -> bool)
  (align_headers_sequential :
     list HeaderLocator.OracleHeader -> list BodyLine -> list HeaderLocator.SeqEntry)
  (cfg : Config) (headers : list HeaderLocator.OracleHeader)
  (lines : list BodyLine) (excluded_pages : list Z) :
  HEADERS_ALIGN_SEQUENTIAL cfg = true ->
  let sequential_lines := filter (HeaderLocator._eligible excluded_pages) lines in
  let sequential_headers := align_headers_sequential headers sequential_lines in
  let numbered := HeaderLocator.total_numbered headers in
  let located :=
    HeaderLocator.locate_headers_in_lines similar align_headers_sequential cfg headers
      lines excluded_pages in
  (1 <= numbered -> 5 * length sequential_headers < 3 * numbered ->
   located =
   sorted HeaderLocator.by_source_then_gid
     (snd (HeaderLocator.assign_source_idx (length headers)
             (HeaderLocator.index_buckets headers)
             (HeaderLocator._locate_headers_legacy similar headers sequential_lines
                excluded_pages))))
  /\ (numbered = 0 \/ 3 * numbered <= 5 * length sequential_headers ->
      forall e, In e sequential_headers ->
        exists h,
          In h located
          /\ h_global_idx h = HeaderLocator.e_global_idx e
          /\ h_number h = Some (HeaderLocator.e_number e)
          /\ h_text h = HeaderLocator.e_title e
          /\ h_level h = HeaderLocator.e_level e
          /\ h_page h = HeaderLocator.e_page e
          /\ h_line_idx h = HeaderLocator.e_line_idx e)
  /\ StronglySorted source_then_gid located.
Proof.
  intros Hs sequential_lines sequential_headers numbered located.
  split; [|split].
  - intros Hn Hlow. apply locate_low_coverage; [assumption|].
    fold sequential_lines sequential_headers numbered.
    unfold HeaderLocator.low_coverage.
    destruct numbered; [lia|]. now apply Nat.ltb_lt.
  - intros Hn e He. apply locate_keeps_entry; try assumption.
    fold sequential_lines sequential_headers numbered.
    unfold HeaderLocator.low_coverage.
    destruct numbered; [reflexivity|]. apply Nat.ltb_ge. lia.
  - apply locate_in_order.
Qed.

(** The outline holds "1 General" without a [number] and the numbered
    headers "2 Scope" and "3 Terms"; the only line reads "1 General".
    The aligner returns one entry for two numbered headers, the entry is
    discarded, and the header comes from the legacy matcher: without a
    number, at source position 0. *)
Lemma C10_coverage_fallback_witness :
  HeaderLocator.locate_headers_in_lines (fun _ _ => false)
    (fun _ _ => [seq_entry "1" "1 General" 1 1 0]) default_config
    [oracle_header "1 General" None 1; oracle_header "Scope" (Some "2") 1;
     oracle_header "Terms" (Some "3") 1]
    [body_line "1 General" 1 0] []
  = [ {| h_text := s2t "1 General"; h_number := None; h_level := 1;
         h_page := 1; h_line_idx := 0; h_global_idx := 0; h_source_idx := 0 |} ].
Proof.
  rewrite (proj1 (C10_coverage_fallback (fun _ _ => false)
                    (fun _ _ => [seq_entry "1" "1 General" 1 1 0]) default_config
                    [oracle_header "1 General" None 1; oracle_header "Scope" (Some "2") 1;
                     oracle_header "Terms" (Some "3") 1]
                    [body_line "1 General" 1 0] [] eq_refl)).
  - vm_compute. reflexivity.
  - vm_compute. lia.
  - vm_compute. lia.
Defined.

(** C2, as the claim states it, fails.  When no line before the earliest
    child qualifies, [reanchor_parent_title_only] gives the parent the
    child's own index (the implied anchor): parent "1" and child "1.1"
    both end at 10.  And with the legacy strategy the run anchors parent
    "1" and child "1.1" on the same line, index 0, because the pattern of
    the number "1" also matches at the start of "1.1 Scope". *)
Lemma C2_parent_shares_the_child_index :
  Invariants.reanchor_parent_title_only (fun _ _ => 0%Q) default_config true
    [seq_line "1.1 Scope" 1 10]
    [(s2t "1", {| Invariants.num := s2t "1"; Invariants.item_title := s2t "General";
                  Invariants.item_level := 1 |});
     (s2t "1.1", {| Invariants.num := s2t "1.1"; Invariants.item_title := s2t "Scope";
                    Invariants.item_level := 2 |})]
    [] [] 80 [(s2t "1.1", 10%Z)] (s2t "1") 10
  = ([(s2t "1.1", 10%Z); (s2t "1", 10%Z)], true)
  /\ option_map (fun out => map (fun h => (h_number h, h_global_idx h)) (fst out))
       (match HeadersOrchestrator._enforce_header_sequence
                (HeaderLocator.locate_headers_in_lines (fun _ _ => false) (fun _ _ => [])
                   legacy_config
                   [oracle_header "General" (Some "1") 1; oracle_header "Scope" (Some "1.1") 2]
                   [body_line "1.1 Scope" 1 0; body_line "1 General" 1 1] [])
                [body_line "1.1 Scope" 1 0; body_line "1 General" 1 1] with
        | Some (Ok out) => Some out
        | _ => None
        end)
     = Some [(Some (s2t "1"), 0%Z); (Some (s2t "1.1"), 0%Z)].
Proof. vm_compute. split; reflexivity. Qed.

(** C2, amended.  When the invariant pass re-anchors a parent that has an
    outline entry, the parent's new index is never after the earliest
    anchored child, and the other anchors are unchanged.  A line
    qualifies when it lies in the 800 indexes before that child, outside
    TOC pages and running texts, shows the parent's number (or
    title-only anchors are allowed) and scores at least
    [max(fuzzy_threshold, 70)].  The parent takes the child's own index
    (the implied anchor) exactly when no line qualifies.  When a line
    qualifies, the parent takes the index of a qualifying line whose
    tuple [(score, global_idx, has_num)] no qualifying line exceeds, and
    that index is strictly before the child.  The parent is thus at or
    before the child, not always strictly before. *)
Theorem C2_reanchored_parent_at_or_before_child
  (token_set_ratio : text -> text -> Q) (cfg : Config) (confusables : bool)
  (lines : list HeadersSequential.Line) (items_by_num : dict text Invariants.HeaderItem)
  (toc_pages : list Z) (runners : list text) (fuzzy_threshold : Z) (pos : dict text Z)
  (parent_num : text) (earliest_child_idx : Z) (item : Invariants.HeaderItem) :
  dict_get PyStr.eqb items_by_num parent_num = Some item ->
  let pos' :=
    fst (Invariants.reanchor_parent_title_only token_set_ratio cfg confusables lines
           items_by_num toc_pages runners fuzzy_threshold pos parent_num
           earliest_child_idx) in
  let qualifies :=
    reanchor_qualifies token_set_ratio cfg confusables lines toc_pages runners
      fuzzy_threshold item earliest_child_idx in
  exists g,
    dict_get PyStr.eqb pos' parent_num = Some g
    /\ (g <= earliest_child_idx)%Z
    /\ (g = earliest_child_idx
        \/ reanchor_candidate lines confusables toc_pages runners earliest_child_idx g)
    /\ (forall k, k <> parent_num -> dict_get PyStr.eqb pos' k = dict_get PyStr.eqb pos k)
    /\ (g = earliest_child_idx <-> forall line, In line lines -> qualifies line = false)
    /\ (forall line, In line lines -> qualifies line = true ->
        exists best,
          reanchor_best token_set_ratio cfg confusables lines toc_pages runners
            fuzzy_threshold item earliest_child_idx lines best
          /\ g = HeadersSequential.global_idx best
          /\ (g < earliest_child_idx)%Z).
Proof.
  intros Hitem pos' qualifies.
  destruct (reanchor_scan_result token_set_ratio cfg confusables lines toc_pages runners
              fuzzy_threshold item earliest_child_idx items_by_num pos parent_num Hitem)
    as (g & Hr & Hg).
  assert (Hbefore : forall best,
             reanchor_best token_set_ratio cfg confusables lines toc_pages runners
               fuzzy_threshold item earliest_child_idx lines best ->
             (HeadersSequential.global_idx best < earliest_child_idx)%Z).
  { intros best (_ & Hq & _). eapply reanchor_qualifies_before; exact Hq. }
  unfold pos'. rewrite Hr. cbn [fst]. exists g.
  split; [|split; [|split; [|split; [|split]]]].
  - rewrite (dict_get_set _ _ PyStr.eqb text_eqb_spec).
    now rewrite (proj2 (text_eqb_spec parent_num parent_num) eq_refl).
  - destruct Hg as [[_ ->]|(best & Hbest & ->)]; [lia|].
    apply Hbefore in Hbest. lia.
  - destruct Hg as [[_ ->]|(best & Hbest & ->)]; [now left|right].
    destruct Hbest as (Hin & Hq & _).
    unfold reanchor_qualifies in Hq. rewrite !andb_true_iff in Hq.
    destruct Hq as (((((R1 & R2) & T) & R) & _) & _).
    apply Z.leb_le in R1. apply Z.ltb_lt in R2.
    apply negb_true_iff in T. apply negb_true_iff in R.
    split; [lia|]. exists best. split; [exact Hin|]. split; [reflexivity|].
    unfold Invariants.is_ineligible_runner_or_toc. now rewrite T, R.
  - intros k Hk. rewrite (dict_get_set _ _ PyStr.eqb text_eqb_spec).
    destruct (PyStr.eqb k parent_num) eqn:E; [|reflexivity].
    apply text_eqb_spec in E. contradiction.
  - destruct Hg as [[Hnone ->]|(best & Hbest & ->)].
    + split; [intros _; exact Hnone|reflexivity].
    + pose proof (Hbefore best Hbest) as Hlt. split; [lia|].
      intros Hnone. destruct Hbest as (Hin & Hq & _).
      unfold qualifies in Hnone. rewrite (Hnone best Hin) in Hq. discriminate.
  - intros line Hin Hq.
    destruct Hg as [[Hnone _]|(best & Hbest & ->)].
    + unfold qualifies in Hq. rewrite (Hnone line Hin) in Hq. discriminate.
    + exists best. split; [exact Hbest|]. split; [reflexivity|]. now apply Hbefore.
Qed.

(** The line "1 General" at index 4 qualifies for the parent "1" of the
    child anchored at index 10: the parent moves to index 4. *)
Lemma C2_reanchored_parent_at_or_before_child_witness :
  exists g,
    dict_get PyStr.eqb
      (fst (Invariants.reanchor_parent_title_only (fun _ _ => 100%Q) default_config true
              [seq_line "1 General" 1 4; seq_line "1.1 Scope" 1 10]
              [(s2t "1", {| Invariants.num := s2t "1";
                            Invariants.item_title := s2t "General";
                            Invariants.item_level := 1 |})]
              [] [] 80 [(s2t "1.1", 10%Z)] (s2t "1") 10))
      (s2t "1") = Some g
    /\ g = 4%Z.
Proof.
  destruct (C2_reanchored_parent_at_or_before_child (fun _ _ => 100%Q) default_config true
              [seq_line "1 General" 1 4; seq_line "1.1 Scope" 1 10]
              [(s2t "1", {| Invariants.num := s2t "1";
                            Invariants.item_title := s2t "General";
                            Invariants.item_level := 1 |})]
              [] [] 80 [(s2t "1.1", 10%Z)] (s2t "1") 10
              {| Invariants.num := s2t "1"; Invariants.item_title := s2t "General";
                 Invariants.item_level := 1 |} eq_refl)
    as (g & Hg & _ & _ & _ & _ & Hbest).
  exists g. split; [exact Hg|].
  destruct (Hbest (seq_line "1 General" 1 4) (or_introl eq_refl) eq_refl)
    as (best & (Hin & Hq & _) & -> & _).
  destruct Hin as [<-|[<-|[]]]; [reflexivity|].
  vm_compute in Hq. discriminate.
Defined.

(** C9, as the claim states it, fails.  Two headers anchored on the same
    line, index 5, of a one-line stream: [_resolve_headers] keeps the
    first at 5 and moves the second to 6, which is the index of no
    line. *)
Lemma C9_colliding_anchor_leaves_the_lines :
  map (fun r => (Sections.rh_text r, Sections.rh_global_idx r))
      (Sections._resolve_headers
         [simple_header "Alpha" None 5; simple_header "Beta" None 5]
         [body_line "Alpha" 1 5])
  = [(s2t "Alpha", 5%Z); (s2t "Beta", 6%Z)]
  /\ map l_global_idx [body_line "Alpha" 1 5] = [5%Z].
Proof. vm_compute. split; reflexivity. Qed.

(** C9, amended.  When the header entries carry pairwise distinct
    [global_idx] values, each the [global_idx] of a line of the stream,
    every header [_resolve_headers] returns keeps the index of its entry,
    which is the [global_idx] of a line, and the returned indexes are
    pairwise distinct.  (A header whose index is already taken is moved
    forward instead, possibly to an index that no line has.) *)
Theorem C9_distinct_anchors_stay_on_lines
  (headers : list Sections.SimpleHeader) (lines : list BodyLine) :
  (forall e, In e headers ->
     exists g, Sections.sh_global_idx e = Some g /\ In g (map l_global_idx lines)) ->
  NoDup (map Sections.sh_global_idx headers) ->
  NoDup (map Sections.rh_global_idx (Sections._resolve_headers headers lines))
  /\ forall r, In r (Sections._resolve_headers headers lines) ->
       In (Sections.rh_global_idx r) (map l_global_idx lines)
       /\ exists e, In e headers /\ Sections.sh_global_idx e = Some (Sections.rh_global_idx r).
Proof.
  intros Hall ND.
  destruct (resolve_distinct headers lines) as [NDr Hsrc]; [|assumption|].
  { intros e He. destruct (Hall e He) as (g & Hg & _). eauto. }
  split; [assumption|]. intros r Hr.
  destruct (Hsrc r Hr) as (e & He & Hg). split; [|eauto].
  destruct (Hall e He) as (g & Hg' & Hin). congruence.
Qed.

Lemma C9_distinct_anchors_stay_on_lines_witness :
  Forall (fun r => In (Sections.rh_global_idx r) [5%Z; 6%Z; 7%Z])
    (Sections._resolve_headers
       [simple_header "Alpha" None 5; simple_header "Beta" None 7]
       [body_line "Alpha" 1 5; body_line "text" 1 6; body_line "Beta" 1 7]).
Proof.
  apply Forall_forall. intros r Hr.
  apply (proj2 (C9_distinct_anchors_stay_on_lines
                  [simple_header "Alpha" None 5; simple_header "Beta" None 7]
                  [body_line "Alpha" 1 5; body_line "text" 1 6; body_line "Beta" 1 7]
                  ltac:(intros e [<-|[<-|[]]]; eexists; (split; [reflexivity|simpl; tauto]))
                  ltac:(repeat constructor; simpl; intuition discriminate))
               r Hr).
Defined.






(** C5, as the claim states it, fails.  For an empty line stream the run
    raises nothing: it returns a result with no headers and no sections,
    in mode [llm_full] when the oracle answers and in mode
    [llm_disabled] when the oracle is switched off. *)
Lemma C5_empty_stream_returns_a_result :
  let run settings :=
    Run.extract_headers_and_chunks
      (fun _ => inr [oracle_header "General" (Some "1") 1])
      (fun _ _ => []) (fun _ _ => Some []) (fun _ _ => false) (fun _ _ => [])
      default_config settings [] [] in
  run {| Run.headers_mode_is_llm_full := true; Run.headers_llm_strict := true;
         Run.header_locate_use_embeddings := true |}
  = Some (Ok {| Run.headers := []; Run.sections := []; Run.mode := Run.llm_full;
                Run.messages := [] |})
  /\ run {| Run.headers_mode_is_llm_full := false; Run.headers_llm_strict := false;
            Run.header_locate_use_embeddings := false |}
     = Some (Ok {| Run.headers := []; Run.sections := []; Run.mode := Run.llm_disabled;
                   Run.messages :=
                     [s2t "LLM header extraction is disabled by configuration."] |}).
Proof. vm_compute. split; reflexivity. Qed.

(** C5, amended.  Whatever the oracle, the aligners and the settings do,
    and whether the line stream is empty or not, the run returns a result
    dictionary: no precondition error is raised, the repair loop
    terminates and no index is out of range.  Its mode and messages are
    those of the locating stage.  For an empty line stream the result
    has no sections, and its headers stand on the indexes of the headers
    the locating stage returned.  When that stage returns no header, the
    result has no header and no section, and its mode is [llm_full],
    [llm_full_error] or [llm_disabled]; with the LLM mode switched off
    the mode is [llm_disabled], and when the oracle call fails it is
    [llm_full_error] with the failure as the only message. *)
Theorem C5_run_always_returns
  (get_headers_llm_full : list BodyLine -> text + list HeaderLocator.OracleHeader)
  (align_headers_llm_strict : list HeaderLocator.OracleHeader -> list BodyLine -> list Header)
  (locate_headers_with_vectors :
     list HeaderLocator.OracleHeader -> list BodyLine -> option (list Header))
  (similar : text -> text -> bool)
  (align_headers_sequential :
     list HeaderLocator.OracleHeader -> list BodyLine -> list HeaderLocator.SeqEntry)
  (cfg : Config) (settings : Run.Settings) (lines : list BodyLine) (excluded_pages : list Z) :
  let before :=
    Run.locate get_headers_llm_full align_headers_llm_strict locate_headers_with_vectors
      similar align_headers_sequential cfg settings lines excluded_pages in
  exists r,
    Run.extract_headers_and_chunks get_headers_llm_full align_headers_llm_strict
      locate_headers_with_vectors similar align_headers_sequential cfg settings lines
      excluded_pages = Some (Ok r)
    /\ Run.mode r = snd (fst before)
    /\ Run.messages r = snd before
    /\ (lines = [] ->
        Run.sections r = []
        /\ forall g, In g (map h_global_idx (Run.headers r))
                     <-> In g (map h_global_idx (fst (fst before))))
    /\ (fst (fst before) = [] ->
        Run.headers r = [] /\ Run.sections r = []
        /\ (Run.mode r = Run.llm_full \/ Run.mode r = Run.llm_full_error
            \/ Run.mode r = Run.llm_disabled))
    /\ (Run.headers_mode_is_llm_full settings = false ->
        Run.headers r = [] /\ Run.sections r = [] /\ Run.mode r = Run.llm_disabled)
    /\ (forall failure,
          Run.headers_mode_is_llm_full settings = true ->
          get_headers_llm_full lines = inl failure ->
          Run.headers r = [] /\ Run.sections r = []
          /\ Run.mode r = Run.llm_full_error /\ Run.messages r = [failure]).
Proof.
  intros before.
  pose proof (locate_nothing_modes get_headers_llm_full align_headers_llm_strict
                locate_headers_with_vectors similar align_headers_sequential
                cfg settings lines excluded_pages) as Hmodes.
  pose proof (locate_disabled get_headers_llm_full align_headers_llm_strict
                locate_headers_with_vectors similar align_headers_sequential
                cfg settings lines excluded_pages) as Hoff.
  pose proof (locate_oracle_failure get_headers_llm_full align_headers_llm_strict
                locate_headers_with_vectors similar align_headers_sequential
                cfg settings lines excluded_pages) as Hfail.
  fold before in Hmodes, Hoff, Hfail.
  unfold Run.extract_headers_and_chunks. fold before.
  destruct before as [[located mode_used] messages]. cbn [fst snd] in *.
  destruct (enforce_ok located lines) as (out & sections & Hrun & Hkeep & Hsec & _).
  assert (Hnone : located = [] -> out = [] /\ sections = []).
  { intros ->. cbv in Hrun. injection Hrun as <- <-. split; reflexivity. }
  rewrite Hrun. eexists. split; [reflexivity|]. cbn.
  split; [reflexivity|]. split; [reflexivity|].
  split; [|split; [|split]].
  - intros ->. split.
    + destruct sections as [|c cs]; [reflexivity|].
      inversion Hsec as [|? ? [[] _] _].
    + destruct Hkeep as (_ & Hin & Hout). intros g. split.
      * intros Hg. destruct (Hout g Hg) as [H|[]]. exact H.
      * apply Hin.
  - intros E. destruct (Hnone E) as [-> ->]. auto.
  - intros Hd. specialize (Hoff Hd). injection Hoff as -> -> ->.
    destruct (Hnone eq_refl) as [-> ->]. auto.
  - intros failure Hon E. specialize (Hfail failure Hon E). injection Hfail as -> -> ->.
    destruct (Hnone eq_refl) as [-> ->]. auto.
Qed.

(* ================================================================== *)
(** * Further properties of the located-header code *)

Local Close Scope string_scope.

(** ** Letters and decimal numerals *)

Lemma code_ascii_of_nat (n : nat) : n < 256 -> Chars.code (ascii_of_nat n) = n.
Proof. intros H. unfold Chars.code. apply nat_ascii_embedding. exact H. Qed.

Lemma letter_facts (k : nat) :
  k < 26 ->
  Chars.code (ascii_of_nat (65 + k)) = 65 + k
  /\ Chars.is_upper (ascii_of_nat (65 + k)) = true
  /\ Chars.is_lower (ascii_of_nat (65 + k)) = false
  /\ Chars.is_digit (ascii_of_nat (65 + k)) = false.
Proof.
  intros H.
  assert (C : Chars.code (ascii_of_nat (65 + k)) = 65 + k) by (apply code_ascii_of_nat; lia).
  unfold Chars.is_upper, Chars.is_lower, Chars.is_digit, Chars.between. rewrite C.
  split; [reflexivity|]. split; [|split].
  - apply andb_true_iff. split; apply Nat.leb_le; lia.
  - apply andb_false_iff. left. apply Nat.leb_gt. lia.
  - apply andb_false_iff. right. apply Nat.leb_gt. lia.
Qed.

Lemma alpha_loop_decode (fuel : nat) :
  forall (v : Z) (chars : text),
    (0 <= v)%Z -> Z.to_nat v <= fuel ->
    fold_left
      (fun total char =>
         if Chars.is_upper char
         then (total * 26 + (Z.of_nat (Chars.code char) - 65 + 1))%Z else total)
      (PyStr.upper (rev (HeadersOrchestrator.int_to_alpha_loop fuel v chars))) 0%Z
    = fold_left
        (fun total char =>
           if Chars.is_upper char
           then (total * 26 + (Z.of_nat (Chars.code char) - 65 + 1))%Z else total)
        (PyStr.upper (rev chars)) v.
Proof.
  induction fuel as [|f IH]; intros v chars Hv Hf.
  - assert (v = 0%Z) by lia. subst v. reflexivity.
  - cbn [HeadersOrchestrator.int_to_alpha_loop].
    destruct (Z.ltb_spec 0 v) as [Hpos|Hle].
    + set (r := (v - 1)%Z).
      assert (Hr : (0 <= r)%Z) by (unfold r; lia).
      assert (Hq : (0 <= r / 26 <= r)%Z).
      { split; [apply Z.div_pos; lia|]. apply Z.div_le_upper_bound; lia. }
      assert (Hm : (0 <= r mod 26 < 26)%Z) by (apply Z.mod_pos_bound; lia).
      rewrite IH by (unfold r in *; lia).
      rewrite rev_app_distr. cbn [rev app PyStr.upper map fold_left].
      destruct (letter_facts (Z.to_nat (r mod 26))) as (C & U & L & _); [lia|].
      assert (E : Chars.upper (ascii_of_nat (65 + Z.to_nat (r mod 26)))
                  = ascii_of_nat (65 + Z.to_nat (r mod 26)))
        by (unfold Chars.upper; rewrite L; reflexivity).
      rewrite E, U, C. unfold PyStr.upper.
      f_equal.
      rewrite Nat2Z.inj_add, Z2Nat.id by lia.
      pose proof (Z.div_mod r 26). unfold r in *. lia.
    + assert (v = 0%Z) by lia. subst v. reflexivity.
Qed.

Lemma alpha_round_trip (v : Z) :
  HeadersOrchestrator._alpha_to_int (HeadersOrchestrator._int_to_alpha v) = Z.max 1 v.
Proof.
  unfold HeadersOrchestrator._int_to_alpha.
  destruct (Z.leb_spec v 0) as [H|H].
  - rewrite Z.max_l by lia. reflexivity.
  - rewrite Z.max_r by lia.
    unfold HeadersOrchestrator._alpha_to_int, Numbering._alpha_component_value.
    rewrite alpha_loop_decode by lia. reflexivity.
Qed.

Lemma digit_facts (d : Z) :
  (0 <= d < 10)%Z ->
  Chars.is_digit (PyStr.digit_char d) = true
  /\ Z.of_nat (Chars.code (PyStr.digit_char d) - 48) = d.
Proof.
  intros H. unfold PyStr.digit_char, Chars.is_digit, Chars.between.
  rewrite code_ascii_of_nat by lia. split.
  - apply andb_true_iff. split; apply Nat.leb_le; lia.
  - lia.
Qed.

Lemma digits_fuel_spec (fuel : nat) :
  forall (n : Z) (acc : text),
    (0 <= n < 2 ^ Z.of_nat fuel)%Z -> 0 < fuel ->
    exists ds,
      PyStr.digits_fuel fuel n acc = ds ++ acc
      /\ ds <> []
      /\ forallb Chars.is_digit ds = true
      /\ forall a,
           fold_left (fun acc c => (acc * 10 + Z.of_nat (Chars.code c - 48))%Z) ds a
           = (a * 10 ^ Z.of_nat (length ds) + n)%Z.
Proof.
  induction fuel as [|f IH]; intros n acc Hn Hf; [lia|].
  cbn [PyStr.digits_fuel].
  assert (Hm : (0 <= n mod 10 < 10)%Z) by (apply Z.mod_pos_bound; lia).
  destruct (digit_facts (n mod 10) Hm) as (D & V).
  destruct (Z.ltb_spec n 10) as [Hlt|Hge].
  - exists [PyStr.digit_char (n mod 10)]. repeat split.
    + discriminate.
    + cbn [forallb]. rewrite D. reflexivity.
    + intros a. cbn [fold_left length]. rewrite V.
      rewrite Z.mod_small by lia. change (10 ^ Z.of_nat 1)%Z with 10%Z. lia.
  - assert (Hq : (1 <= n / 10)%Z) by (apply Z.div_le_lower_bound; lia).
    assert (Hq' : (n / 10 < 2 ^ Z.of_nat f)%Z).
    { apply Z.div_lt_upper_bound; [lia|].
      rewrite Nat2Z.inj_succ, Z.pow_succ_r in Hn by lia. lia. }
    assert (Hf' : 0 < f).
    { destruct f; [|lia]. change (2 ^ Z.of_nat 0)%Z with 1%Z in Hq'. lia. }
    destruct (IH (n / 10)%Z (PyStr.digit_char (n mod 10) :: acc)) as (ds & E & Hne & Hd & Hv);
      [lia|exact Hf'|].
    exists (ds ++ [PyStr.digit_char (n mod 10)]). repeat split.
    + rewrite E, <- app_assoc. reflexivity.
    + destruct ds; discriminate.
    + rewrite forallb_app, Hd. cbn [forallb]. rewrite D. reflexivity.
    + intros a. rewrite fold_left_app, Hv. cbn [fold_left]. rewrite V.
      rewrite length_app, Nat2Z.inj_add, Z.pow_add_r by lia.
      change (10 ^ Z.of_nat (length [PyStr.digit_char (n mod 10)]))%Z with 10%Z.
      pose proof (Z.div_mod n 10). lia.
Qed.

Lemma str_of_Z_spec (v : Z) :
  (0 <= v)%Z ->
  PyStr.str_of_Z v <> []
  /\ forallb Chars.is_digit (PyStr.str_of_Z v) = true
  /\ PyStr.int_of_digits (PyStr.str_of_Z v) = v.
Proof.
  intros Hv. unfold PyStr.str_of_Z.
  destruct (Z.ltb_spec v 0) as [|_]; [lia|].
  destruct (digits_fuel_spec (S (Z.to_nat (Z.log2 v))) v []) as (ds & E & Hne & Hd & Hval).
  - split; [lia|].
    rewrite Nat2Z.inj_succ, Z2Nat.id by apply Z.log2_nonneg.
    destruct (Z.eq_dec v 0) as [->|Hnz]; [reflexivity|].
    apply Z.log2_spec. lia.
  - lia.
  - rewrite E, app_nil_r. repeat split; try assumption.
    unfold PyStr.int_of_digits. rewrite Hval. lia.
Qed.

Lemma isdigit_str_of_Z (v : Z) : (0 <= v)%Z -> PyStr.isdigit (PyStr.str_of_Z v) = true.
Proof.
  intros Hv. destruct (str_of_Z_spec v Hv) as (Hne & Hd & _).
  unfold PyStr.isdigit. rewrite Hd.
  destruct (PyStr.str_of_Z v); [contradiction|reflexivity].
Qed.

Lemma int_of_zeros (k : nat) (s : text) :
  PyStr.int_of_digits (repeat "0"%char k ++ s) = PyStr.int_of_digits s.
Proof.
  unfold PyStr.int_of_digits. rewrite fold_left_app. f_equal.
  induction k as [|k IH]; [reflexivity|]. cbn [repeat fold_left]. exact IH.
Qed.

(** ** The pattern matcher on runs of one character class *)

Lemma run_star (A : Type) (greedy : bool) (r : Re.regex) (st : Re.cursor)
  (k : Re.cursor -> option A) :
  Re.run (Re.Star greedy r) st k = star_loop greedy r k (length (snd st)) st.
Proof. reflexivity. Qed.

Lemma star_class_greedy (A : Type) (p : ascii -> bool) (k : Re.cursor -> option A)
  (ds : text) :
  forall (n : nat) (pre rest : text) (a : A),
    forallb p ds = true ->
    match rest with [] => True | c :: _ => p c = false end ->
    length ds <= n ->
    k (rev ds ++ pre, rest) = Some a ->
    star_loop true (Re.Chr p) k n (pre, ds ++ rest) = Some a.
Proof.
  induction ds as [|d ds IH]; intros n pre rest a Hp Hrest Hn Hk.
  - cbn [rev app] in *. destruct n as [|n]; cbn.
    + exact Hk.
    + destruct rest as [|c rest]; cbn; [exact Hk|].
      rewrite Hrest. exact Hk.
  - cbn [forallb] in Hp. apply andb_true_iff in Hp as [Hd Hds].
    destruct n as [|n]; [cbn in Hn; lia|].
    cbn [star_loop app]. cbn [Re.run snd fst]. rewrite Hd.
    cbn [snd length].
    rewrite (proj2 (Nat.ltb_lt _ _)) by lia.
    fold (star_loop true (Re.Chr p) k).
    match goal with
    | |- Re.orelse ?x _ = _ => replace x with (Some a); [reflexivity|]
    end.
    symmetry. apply IH; [assumption|assumption|cbn in Hn; lia|].
    cbn [rev] in Hk. rewrite <- app_assoc in Hk. exact Hk.
Qed.

Lemma run_plus_class (A : Type) (p : ascii -> bool) (pre : text) (d : ascii) (rest : text)
  (k : Re.cursor -> option A) :
  Re.run (Re.plus (Re.Chr p)) (pre, d :: rest) k
  = if p d then star_loop true (Re.Chr p) k (length rest) (d :: pre, rest) else None.
Proof. unfold Re.plus. cbn [Re.run snd fst]. destruct (p d); reflexivity. Qed.

Lemma match_class_run (p : ascii -> bool) (pre ds rest : text) :
  ds <> [] ->
  forallb p ds = true ->
  match rest with [] => True | c :: _ => p c = false end ->
  Re.match_at (Re.plus (Re.Chr p)) (pre, ds ++ rest) = Some (rev ds ++ pre, rest).
Proof.
  intros Hne Hp Hrest. destruct ds as [|d ds]; [contradiction|].
  cbn [forallb] in Hp. apply andb_true_iff in Hp as [Hd Hds].
  unfold Re.match_at. cbn [app]. rewrite run_plus_class, Hd.
  apply star_class_greedy; try assumption.
  - rewrite length_app. lia.
  - cbn [rev]. rewrite <- app_assoc. reflexivity.
Qed.

Lemma match_class_none (p : ascii -> bool) (pre rest : text) :
  match rest with [] => True | c :: _ => p c = false end ->
  Re.match_at (Re.plus (Re.Chr p)) (pre, rest) = None.
Proof.
  intros H. unfold Re.match_at, Re.plus. cbn [Re.run snd].
  destruct rest as [|c rest]; [reflexivity|]. rewrite H. reflexivity.
Qed.

(** ** Numbering strings and their components *)

Lemma digit_not_alpha (c : ascii) : Chars.is_digit c = true -> Chars.is_alpha c = false.
Proof.
  unfold Chars.is_digit, Chars.is_alpha, Chars.is_upper, Chars.is_lower, Chars.between.
  intros H. apply andb_true_iff in H as [_ H]. apply Nat.leb_le in H.
  apply orb_false_iff. split; apply andb_false_iff; left; apply Nat.leb_gt; lia.
Qed.

Lemma alpha_not_digit (c : ascii) : Chars.is_alpha c = true -> Chars.is_digit c = false.
Proof.
  intros H. destruct (Chars.is_digit c) eqn:D; [|reflexivity].
  rewrite (digit_not_alpha c D) in H. discriminate.
Qed.

Lemma match_alt (r1 r2 : Re.regex) (st : Re.cursor) :
  Re.match_at (Re.Alt r1 r2) st
  = match Re.match_at r1 st with Some x => Some x | None => Re.match_at r2 st end.
Proof. reflexivity. Qed.

Lemma match_token (t pre rest : text) :
  is_token t ->
  match rest with
  | [] => True
  | c :: _ => Chars.is_digit c = false /\ Chars.is_alpha c = false
  end ->
  Re.match_at HeadersSequential.NUMBER_COMPONENT_RE (pre, t ++ rest)
  = Some (rev t ++ pre, rest).
Proof.
  intros [Hne [Hd|Ha]] Hrest; unfold HeadersSequential.NUMBER_COMPONENT_RE;
    rewrite match_alt.
  - rewrite match_class_none.
    + apply match_class_run; [assumption|assumption|].
      destruct rest; [exact I|apply Hrest].
    + destruct t as [|c t]; [contradiction|]. cbn [app].
      cbn [forallb] in Hd. apply andb_true_iff in Hd as [Hc _].
      apply digit_not_alpha. exact Hc.
  - rewrite match_class_run; [reflexivity|assumption|assumption|].
    destruct rest; [exact I|apply Hrest].
Qed.

Lemma match_separator (pre rest : text) :
  Re.match_at HeadersSequential.NUMBER_COMPONENT_RE (pre, "."%char :: rest) = None.
Proof.
  unfold HeadersSequential.NUMBER_COMPONENT_RE. rewrite match_alt.
  rewrite match_class_none by reflexivity. apply match_class_none. reflexivity.
Qed.

Lemma match_nothing (pre : text) :
  Re.match_at HeadersSequential.NUMBER_COMPONENT_RE (pre, []) = None.
Proof. reflexivity. Qed.

Lemma join_cons (sep t : text) (ts : list text) :
  PyStr.join sep (t :: ts) = t ++ match ts with [] => [] | _ => sep ++ PyStr.join sep ts end.
Proof. destruct ts; cbn [PyStr.join]; [rewrite app_nil_r|]; reflexivity. Qed.

Lemma findall_tokens (ts : list text) :
  forall (pre : text) (fuel : nat),
    Forall is_token ts ->
    length (PyStr.join (s2t ".") ts) < fuel ->
    Re.findall_from HeadersSequential.NUMBER_COMPONENT_RE fuel
      (pre, PyStr.join (s2t ".") ts) = ts.
Proof.
  induction ts as [|t ts IH]; intros pre fuel Hts Hfuel.
  - destruct fuel; [cbn in Hfuel; lia|]. reflexivity.
  - inversion Hts as [|? ? Ht Hrest]; subst.
    rewrite join_cons in *.
    destruct fuel as [|fuel]; [lia|].
    cbn [Re.findall_from].
    assert (Hlen : 0 < length t) by (destruct Ht as [Hne _]; destruct t; [contradiction|cbn; lia]).
    destruct ts as [|t2 ts].
    + rewrite match_token by (assumption || exact I).
      cbn [snd]. rewrite app_nil_r.
      rewrite (proj2 (Nat.ltb_lt _ _)) by (cbn; lia).
      unfold Re.matched. cbn [snd length]. rewrite Nat.sub_0_r, firstn_all.
      f_equal. destruct fuel; reflexivity.
    + change (s2t "." ++ PyStr.join (s2t ".") (t2 :: ts))
        with ("."%char :: PyStr.join (s2t ".") (t2 :: ts)) in *.
      rewrite match_token by (assumption || (split; reflexivity)).
      cbn [snd]. rewrite length_app in *. cbn [length] in *.
      rewrite (proj2 (Nat.ltb_lt _ _)) by lia.
      unfold Re.matched. cbn [snd]. rewrite length_app. cbn [length].
      replace (length t + S (length (PyStr.join (s2t ".") (t2 :: ts)))
               - S (length (PyStr.join (s2t ".") (t2 :: ts)))) with (length t) by lia.
      rewrite firstn_app, firstn_all, Nat.sub_diag. cbn [firstn]. rewrite app_nil_r.
      f_equal.
      destruct fuel as [|fuel]; [lia|].
      cbn [Re.findall_from]. rewrite match_separator. cbn [snd fst].
      apply IH; [assumption|lia].
Qed.

Lemma join_nil_inv (ts : list text) :
  Forall is_token ts -> PyStr.join (s2t ".") ts = [] -> ts = [].
Proof.
  intros H E. destruct ts as [|t ts]; [reflexivity|].
  inversion H as [|? ? [Hne _] _]; subst.
  rewrite join_cons in E. destruct t; [contradiction|discriminate].
Qed.

Lemma number_tokens_join (ts : list text) :
  Forall is_token ts ->
  Numbering.number_tokens (Some (PyStr.join (s2t ".") ts)) = ts.
Proof.
  intros H. unfold Numbering.number_tokens.
  destruct (PyStr.join (s2t ".") ts) eqn:E.
  - symmetry. apply join_nil_inv; assumption.
  - rewrite <- E. unfold Re.findall, Re.start. apply findall_tokens; [assumption|lia].
Qed.

Lemma str_of_Z_token (v : Z) : (0 <= v)%Z -> is_token (PyStr.str_of_Z v).
Proof.
  intros Hv. destruct (str_of_Z_spec v Hv) as (Hne & Hd & _).
  split; [assumption|left; assumption].
Qed.

Ltac ascii_cases c :=
  destruct c as [[|] [|] [|] [|] [|] [|] [|] [|]]; vm_compute; try discriminate; try reflexivity;
  try (intros; discriminate); try (intros; reflexivity).

Lemma upper_lower_char (c : ascii) :
  Chars.is_upper c = true ->
  Chars.upper (Chars.lower c) = c
  /\ Chars.upper c = c
  /\ Chars.is_alpha (Chars.lower c) = true
  /\ Chars.is_lower (Chars.lower c) = true
  /\ Chars.is_upper (Chars.lower c) = false
  /\ Chars.is_alpha c = true.
Proof. ascii_cases c; intros _; repeat split. Qed.

Lemma upper_char_alpha (c : ascii) :
  Chars.is_alpha c = true ->
  Chars.is_upper (Chars.upper c) = true
  /\ Chars.upper (Chars.upper c) = Chars.upper c
  /\ Chars.is_digit (Chars.upper c) = false.
Proof. ascii_cases c; intros _; repeat split. Qed.

Lemma star_class_shape (p : ascii -> bool) (n : nat) :
  forall (pre s : text) (st' : Re.cursor),
    star_loop true (Re.Chr p) (fun st => Some st) n (pre, s) = Some st' ->
    exists ds rest, s = ds ++ rest /\ forallb p ds = true /\ st' = (rev ds ++ pre, rest).
Proof.
  induction n as [|n IH]; intros pre s st' H.
  - cbn in H. inversion H. exists [], s. repeat split.
  - cbn [star_loop] in H. cbn [Re.run snd fst] in H.
    destruct s as [|c s].
    + cbn in H. inversion H. exists [], []. repeat split.
    + destruct (p c) eqn:Hc.
      * cbn [snd length] in H. rewrite (proj2 (Nat.ltb_lt _ _)) in H by lia.
        fold (star_loop true (Re.Chr p) (fun st : Re.cursor => Some st)) in H.
        destruct (star_loop true (Re.Chr p) (fun st : Re.cursor => Some st) n (c :: pre, s))
          as [st1|] eqn:E.
        -- cbn in H. inversion H; subst st1.
           destruct (IH _ _ _ E) as (ds & rest & -> & Hp & ->).
           exists (c :: ds), rest. repeat split.
           ++ cbn [forallb]. rewrite Hc, Hp. reflexivity.
           ++ cbn [rev]. rewrite <- app_assoc. reflexivity.
        -- cbn in H. inversion H. exists [], (c :: s). repeat split.
      * cbn in H. inversion H. exists [], (c :: s). repeat split.
Qed.

Lemma match_class_shape (p : ascii -> bool) (pre s : text) (st' : Re.cursor) :
  Re.match_at (Re.plus (Re.Chr p)) (pre, s) = Some st' ->
  exists ds rest,
    s = ds ++ rest /\ ds <> [] /\ forallb p ds = true /\ st' = (rev ds ++ pre, rest).
Proof.
  unfold Re.match_at. destruct s as [|c s]; [discriminate|].
  rewrite run_plus_class. destruct (p c) eqn:Hc; [|discriminate].
  intros H. destruct (star_class_shape p _ _ _ _ H) as (ds & rest & -> & Hp & ->).
  exists (c :: ds), rest. repeat split.
  - discriminate.
  - cbn [forallb]. rewrite Hc, Hp. reflexivity.
  - cbn [rev]. rewrite <- app_assoc. reflexivity.
Qed.

Lemma match_component_shape (pre s : text) (st' : Re.cursor) :
  Re.match_at HeadersSequential.NUMBER_COMPONENT_RE (pre, s) = Some st' ->
  exists t rest, s = t ++ rest /\ is_token t /\ st' = (rev t ++ pre, rest).
Proof.
  unfold HeadersSequential.NUMBER_COMPONENT_RE. rewrite match_alt.
  destruct (Re.match_at (Re.plus (Re.Chr Chars.is_alpha)) (pre, s)) as [st1|] eqn:E.
  - intros H. inversion H; subst st1.
    destruct (match_class_shape _ _ _ _ E) as (t & rest & -> & Hne & Hp & ->).
    exists t, rest. repeat split; auto.
  - intros H.
    destruct (match_class_shape _ _ _ _ H) as (t & rest & -> & Hne & Hp & ->).
    exists t, rest. repeat split; auto.
Qed.

Lemma findall_from_tokens (fuel : nat) :
  forall (pre s : text),
    Forall is_token (Re.findall_from HeadersSequential.NUMBER_COMPONENT_RE fuel (pre, s)).
Proof.
  induction fuel as [|fuel IH]; intros pre s; [constructor|].
  cbn [Re.findall_from].
  destruct (Re.match_at HeadersSequential.NUMBER_COMPONENT_RE (pre, s)) as [st'|] eqn:E.
  - destruct (match_component_shape _ _ _ E) as (t & rest & -> & Ht & ->).
    cbn [snd]. rewrite length_app.
    assert (0 < length t) by (destruct Ht as [Hne _]; destruct t; [contradiction|cbn; lia]).
    rewrite (proj2 (Nat.ltb_lt _ _)) by lia.
    constructor; [|apply IH].
    unfold Re.matched. cbn [snd]. rewrite length_app.
    replace (length t + length rest - length rest) with (length t) by lia.
    rewrite firstn_app, firstn_all, Nat.sub_diag. cbn [firstn]. rewrite app_nil_r. exact Ht.
  - cbn [snd fst]. destruct s as [|c s]; [constructor|apply IH].
Qed.

Lemma number_tokens_shape (n : text) : Forall is_token (Numbering.number_tokens (Some n)).
Proof.
  unfold Numbering.number_tokens. destruct n; [constructor|].
  apply findall_from_tokens.
Qed.

Lemma int_of_digits_nonneg (s : text) : (0 <= PyStr.int_of_digits s)%Z.
Proof.
  unfold PyStr.int_of_digits.
  assert (G : forall a, (0 <= a)%Z ->
            (0 <= fold_left (fun acc c => (acc * 10 + Z.of_nat (Chars.code c - 48))%Z) s a)%Z).
  { induction s as [|c s IH]; intros a Ha; [exact Ha|]. cbn [fold_left]. apply IH. lia. }
  apply G. lia.
Qed.

Lemma alpha_loop_shape (fuel : nat) :
  forall (v : Z) (chars : text),
    forallb Chars.is_upper chars = true ->
    forallb Chars.is_upper (HeadersOrchestrator.int_to_alpha_loop fuel v chars) = true
    /\ ((0 < v)%Z -> 0 < fuel ->
        length chars < length (HeadersOrchestrator.int_to_alpha_loop fuel v chars))
    /\ length chars <= length (HeadersOrchestrator.int_to_alpha_loop fuel v chars).
Proof.
  induction fuel as [|f IH]; intros v chars Hc.
  - cbn. repeat split; [assumption|lia|lia].
  - cbn [HeadersOrchestrator.int_to_alpha_loop].
    destruct (Z.ltb_spec 0 v) as [Hpos|Hle].
    + assert (Hm : (0 <= (v - 1) mod 26 < 26)%Z) by (apply Z.mod_pos_bound; lia).
      destruct (letter_facts (Z.to_nat ((v - 1) mod 26))) as (_ & U & _); [lia|].
      destruct (IH ((v - 1) / 26)%Z
                   (chars ++ [ascii_of_nat (65 + Z.to_nat ((v - 1) mod 26))])) as (A & _ & B).
      { rewrite forallb_app, Hc. cbn [forallb]. rewrite U. reflexivity. }
      rewrite length_app in B. cbn [length] in B.
      repeat split; [assumption|intros; lia|lia].
    + repeat split; [assumption|lia|lia].
Qed.

Lemma forallb_rev {A} (p : A -> bool) (l : list A) :
  forallb p (rev l) = forallb p l.
Proof.
  induction l as [|x l IH]; [reflexivity|].
  cbn [rev forallb]. rewrite forallb_app, IH. cbn [forallb].
  rewrite andb_true_r. apply andb_comm.
Qed.

Lemma int_to_alpha_shape (v : Z) :
  HeadersOrchestrator._int_to_alpha v <> []
  /\ forallb Chars.is_upper (HeadersOrchestrator._int_to_alpha v) = true.
Proof.
  unfold HeadersOrchestrator._int_to_alpha.
  destruct (Z.leb_spec v 0) as [H|H].
  - split; [discriminate|reflexivity].
  - destruct (alpha_loop_shape (Z.to_nat v) v []) as (A & B & _); [reflexivity|].
    split.
    + intros E. apply (f_equal (@length ascii)) in E. rewrite length_rev in E.
      cbn [length] in B, E. specialize (B H). lia.
    + rewrite forallb_rev. exact A.
Qed.

Lemma forallb_impl {A} (p q : A -> bool) (l : list A) :
  (forall x, p x = true -> q x = true) -> forallb p l = true -> forallb q l = true.
Proof.
  intros H. induction l as [|x l IH]; [reflexivity|].
  cbn [forallb]. intros E. apply andb_true_iff in E as [E1 E2].
  rewrite (H x E1), (IH E2). reflexivity.
Qed.

Lemma upper_is_alpha (c : ascii) : Chars.is_upper c = true -> Chars.is_alpha c = true.
Proof. intros H. unfold Chars.is_alpha. rewrite H. reflexivity. Qed.

Lemma isdigit_token (t : text) :
  t <> [] -> forallb Chars.is_digit t = true -> PyStr.isdigit t = true.
Proof.
  intros Hne Hd. unfold PyStr.isdigit. rewrite Hd.
  destruct t; [contradiction|reflexivity].
Qed.

Lemma isalpha_token (t : text) :
  t <> [] -> forallb Chars.is_alpha t = true ->
  PyStr.isdigit t = false /\ PyStr.isalpha t = true.
Proof.
  intros Hne Ha. unfold PyStr.isdigit, PyStr.isalpha. rewrite Ha.
  destruct t as [|c t]; [contradiction|]. cbn [forallb] in *.
  apply andb_true_iff in Ha as [Hc _]. rewrite (alpha_not_digit c Hc). split; reflexivity.
Qed.

Lemma int_to_alpha_token (v : Z) :
  is_token (HeadersOrchestrator._int_to_alpha v).
Proof.
  destruct (int_to_alpha_shape v) as (Hne & Hu).
  split; [assumption|right]. apply (forallb_impl _ _ _ upper_is_alpha Hu).
Qed.

Lemma int_to_alpha_max (w : Z) :
  HeadersOrchestrator._int_to_alpha (Z.max 1 w) = HeadersOrchestrator._int_to_alpha w.
Proof.
  destruct (Z.le_gt_cases w 0) as [H|H].
  - rewrite Z.max_l by lia. unfold HeadersOrchestrator._int_to_alpha.
    destruct (Z.leb_spec w 0); [reflexivity|lia].
  - rewrite Z.max_r by lia. reflexivity.
Qed.

Lemma canonical_token_token (t : text) : is_token t -> is_token (canonical_token t).
Proof.
  intros [Hne [Hd|Ha]]; unfold canonical_token.
  - rewrite (isdigit_token t Hne Hd). apply str_of_Z_token, int_of_digits_nonneg.
  - destruct (isalpha_token t Hne Ha) as [-> ->]. apply int_to_alpha_token.
Qed.

Lemma canonical_digits (t : text) :
  t <> [] -> forallb Chars.is_digit t = true ->
  canonical_token t = PyStr.str_of_Z (PyStr.int_of_digits t).
Proof. intros Hne Hd. unfold canonical_token. rewrite (isdigit_token t Hne Hd). reflexivity. Qed.

Lemma canonical_letters (t : text) :
  t <> [] -> forallb Chars.is_alpha t = true ->
  canonical_token t = HeadersOrchestrator._int_to_alpha (HeadersOrchestrator._alpha_to_int t).
Proof.
  intros Hne Ha. unfold canonical_token.
  destruct (isalpha_token t Hne Ha) as [-> ->]. reflexivity.
Qed.

Lemma int_to_alpha_letters (v : Z) :
  HeadersOrchestrator._int_to_alpha v <> []
  /\ forallb Chars.is_alpha (HeadersOrchestrator._int_to_alpha v) = true.
Proof.
  destruct (int_to_alpha_shape v) as (Hne & Hu).
  split; [assumption|]. apply (forallb_impl _ _ _ upper_is_alpha Hu).
Qed.

Lemma canonical_token_idem (t : text) :
  is_token t -> canonical_token (canonical_token t) = canonical_token t.
Proof.
  intros [Hne [Hd|Ha]].
  - rewrite (canonical_digits t Hne Hd).
    pose proof (int_of_digits_nonneg t) as Hv.
    destruct (str_of_Z_spec _ Hv) as (Hne' & Hd' & E).
    rewrite (canonical_digits _ Hne' Hd'), E. reflexivity.
  - rewrite (canonical_letters t Hne Ha).
    destruct (int_to_alpha_letters (HeadersOrchestrator._alpha_to_int t)) as (Hne' & Ha').
    rewrite (canonical_letters _ Hne' Ha'), alpha_round_trip. apply int_to_alpha_max.
Qed.

Lemma extract_normalized (n : text) :
  map HeadersOrchestrator.normalized (HeadersOrchestrator._extract_components (Some n))
  = map canonical_token (Numbering.number_tokens (Some n)).
Proof.
  unfold HeadersOrchestrator._extract_components, Numbering.number_tokens.
  destruct n as [|c n]; [reflexivity|].
  rewrite map_map. apply map_ext. intros t. unfold canonical_token.
  destruct (PyStr.isdigit t); [reflexivity|]. destruct (PyStr.isalpha t); reflexivity.
Qed.

Lemma filter_nonempty_tokens (ts : list text) :
  Forall is_token ts -> filter (fun n => negb (Nat.eqb (length n) 0)) ts = ts.
Proof.
  intros H. apply filter_all. intros t Ht.
  rewrite Forall_forall in H. destruct (H t Ht) as [Hne _].
  destruct t; [contradiction|reflexivity].
Qed.

Lemma Forall_map_token (ts : list text) :
  Forall is_token ts -> Forall is_token (map canonical_token ts).
Proof.
  intros H. apply Forall_map. revert H. apply Forall_impl. exact canonical_token_token.
Qed.

Lemma canonical_number_spec (n : text) :
  canonical_number n
  = PyStr.join (s2t ".") (map canonical_token (Numbering.number_tokens (Some n))).
Proof.
  unfold canonical_number, HeadersOrchestrator._components_to_number.
  rewrite extract_normalized, filter_nonempty_tokens; [reflexivity|].
  apply Forall_map_token, number_tokens_shape.
Qed.

Lemma canonical_number_tokens (n : text) :
  Numbering.number_tokens (Some (canonical_number n))
  = map canonical_token (Numbering.number_tokens (Some n)).
Proof.
  rewrite canonical_number_spec. apply number_tokens_join.
  apply Forall_map_token, number_tokens_shape.
Qed.

Lemma alpha_fold_pos (u : text) :
  forall a : Z,
    (0 <= a)%Z -> u <> [] -> forallb Chars.is_upper u = true ->
    (1 <= fold_left
            (fun total char =>
               if Chars.is_upper char
               then (total * 26 + (Z.of_nat (Chars.code char) - 65 + 1))%Z else total) u a)%Z.
Proof.
  induction u as [|c u IH]; intros a Ha Hne Hu; [contradiction|].
  cbn [forallb] in Hu. apply andb_true_iff in Hu as [Hc Hu].
  cbn [fold_left]. rewrite Hc.
  assert (Hcode : 65 <= Chars.code c).
  { unfold Chars.is_upper, Chars.between in Hc. apply andb_true_iff in Hc as [Hc _].
    apply Nat.leb_le in Hc. exact Hc. }
  destruct u as [|c' u]; [cbn [fold_left]; lia|].
  apply IH; [lia|discriminate|exact Hu].
Qed.

Lemma upper_all_upper (t : text) :
  forallb Chars.is_alpha t = true -> forallb Chars.is_upper (PyStr.upper t) = true.
Proof.
  induction t as [|c t IH]; [reflexivity|].
  cbn [forallb PyStr.upper map]. intros H. apply andb_true_iff in H as [Hc Ht].
  destruct (upper_char_alpha c Hc) as (-> & _). exact (IH Ht).
Qed.

Lemma alpha_value_pos (t : text) :
  t <> [] -> forallb Chars.is_alpha t = true ->
  (1 <= Numbering._alpha_component_value t)%Z.
Proof.
  intros Hne Ha. unfold Numbering._alpha_component_value.
  apply alpha_fold_pos; [lia| |apply upper_all_upper; exact Ha].
  destruct t; [contradiction|discriminate].
Qed.

Lemma component_value_canonical (t : text) :
  is_token t -> Numbering._component_value (canonical_token t) = Numbering._component_value t.
Proof.
  intros [Hne [Hd|Ha]].
  - rewrite (canonical_digits t Hne Hd).
    pose proof (int_of_digits_nonneg t) as Hv.
    destruct (str_of_Z_spec _ Hv) as (Hne' & Hd' & E).
    unfold Numbering._component_value.
    rewrite (isdigit_token _ Hne' Hd'), (isdigit_token t Hne Hd). exact E.
  - rewrite (canonical_letters t Hne Ha).
    destruct (int_to_alpha_letters (HeadersOrchestrator._alpha_to_int t)) as (Hne' & Ha').
    unfold Numbering._component_value.
    destruct (isalpha_token _ Hne' Ha') as [-> ->].
    destruct (isalpha_token t Hne Ha) as [-> ->].
    change (Numbering._alpha_component_value
              (HeadersOrchestrator._int_to_alpha (HeadersOrchestrator._alpha_to_int t)))
      with (HeadersOrchestrator._alpha_to_int
              (HeadersOrchestrator._int_to_alpha (HeadersOrchestrator._alpha_to_int t))).
    rewrite alpha_round_trip.
    pose proof (alpha_value_pos t Hne Ha). unfold HeadersOrchestrator._alpha_to_int. lia.
Qed.

Lemma alpha_fold_nonneg (u : text) :
  forall a : Z,
    (0 <= a)%Z -> forallb Chars.is_upper u = true ->
    (0 <= fold_left
            (fun total char =>
               if Chars.is_upper char
               then (total * 26 + (Z.of_nat (Chars.code char) - 65 + 1))%Z else total) u a)%Z.
Proof.
  intros a Ha Hu. destruct u as [|c u]; [exact Ha|].
  pose proof (alpha_fold_pos (c :: u) a Ha) as H.
  assert (c :: u <> []) by discriminate. specialize (H H0 Hu). lia.
Qed.

Lemma upper_code (c : ascii) : Chars.is_upper c = true -> 65 <= Chars.code c <= 90.
Proof.
  unfold Chars.is_upper, Chars.between. intros H.
  apply andb_true_iff in H as [H1 H2]. apply Nat.leb_le in H1, H2. lia.
Qed.

Lemma alpha_loop_encode (u : text) :
  forallb Chars.is_upper u = true ->
  forall (fuel : nat) (chars : text),
    Z.to_nat (fold_left
                (fun total char =>
                   if Chars.is_upper char
                   then (total * 26 + (Z.of_nat (Chars.code char) - 65 + 1))%Z else total)
                u 0%Z) <= fuel ->
    HeadersOrchestrator.int_to_alpha_loop fuel
      (fold_left
         (fun total char =>
            if Chars.is_upper char
            then (total * 26 + (Z.of_nat (Chars.code char) - 65 + 1))%Z else total)
         u 0%Z) chars
    = chars ++ rev u.
Proof.
  induction u as [|c u IH] using rev_ind; intros Hu fuel chars Hfuel.
  - cbn [fold_left rev]. rewrite app_nil_r. destruct fuel; reflexivity.
  - rewrite forallb_app in Hu. apply andb_true_iff in Hu as [Hu Hc].
    cbn [forallb] in Hc. rewrite andb_true_r in Hc.
    rewrite fold_left_app in *. cbn [fold_left] in *. rewrite Hc in *.
    pose proof (alpha_fold_nonneg u 0%Z (Z.le_refl 0) Hu) as Hd.
    pose proof (upper_code c Hc) as Hcode.
    set (d := fold_left
                (fun total char =>
                   if Chars.is_upper char
                   then (total * 26 + (Z.of_nat (Chars.code char) - 65 + 1))%Z else total)
                u 0%Z) in *.
    destruct fuel as [|f]; [lia|].
    cbn [HeadersOrchestrator.int_to_alpha_loop].
    destruct (Z.ltb_spec 0 (d * 26 + (Z.of_nat (Chars.code c) - 65 + 1))) as [_|]; [|lia].
    replace (d * 26 + (Z.of_nat (Chars.code c) - 65 + 1) - 1)%Z
      with (d * 26 + (Z.of_nat (Chars.code c) - 65))%Z by lia.
    rewrite Z.div_add_l, Z.div_small, Z.add_0_r by lia.
    rewrite Z.add_comm, Z.mod_add, Z.mod_small by lia.
    replace (65 + Z.to_nat (Z.of_nat (Chars.code c) - 65)) with (Chars.code c) by lia.
    unfold Chars.code. rewrite ascii_nat_embedding.
    rewrite IH by (assumption || lia).
    rewrite rev_app_distr, <- app_assoc. reflexivity.
Qed.

Lemma alpha_encode_decode (t : text) :
  t <> [] -> forallb Chars.is_alpha t = true ->
  HeadersOrchestrator._int_to_alpha (HeadersOrchestrator._alpha_to_int t) = PyStr.upper t.
Proof.
  intros Hne Ha.
  pose proof (alpha_value_pos t Hne Ha) as Hpos.
  unfold HeadersOrchestrator._int_to_alpha, HeadersOrchestrator._alpha_to_int.
  destruct (Z.leb_spec (Numbering._alpha_component_value t) 0) as [|_]; [lia|].
  unfold Numbering._alpha_component_value.
  rewrite alpha_loop_encode; [apply rev_involutive|apply upper_all_upper; exact Ha|lia].
Qed.

(** ** Enumeration letters, numbering components and sort keys *)

(** X1.  [_int_to_alpha] writes a value as a non-empty run of the capital
    letters A to Z, and [_alpha_to_int] reads that run back as the same
    value; a value of zero or less is written "A" and reads back as 1. *)
Theorem int_to_alpha_reads_back (v : Z) :
  HeadersOrchestrator._alpha_to_int (HeadersOrchestrator._int_to_alpha v) = Z.max 1 v
  /\ HeadersOrchestrator._int_to_alpha v <> []
  /\ forallb Chars.is_upper (HeadersOrchestrator._int_to_alpha v) = true.
Proof.
  split; [apply alpha_round_trip|apply int_to_alpha_shape].
Qed.

(** X2.  For a non-empty run of ASCII letters, writing the value
    [_alpha_to_int] reads from it with [_int_to_alpha] gives the run in
    upper case: the two functions are inverse to each other on
    enumeration labels, whatever the case of the label. *)
Theorem alpha_label_round_trip (t : text) :
  t <> [] -> forallb Chars.is_alpha t = true ->
  HeadersOrchestrator._int_to_alpha (HeadersOrchestrator._alpha_to_int t) = PyStr.upper t.
Proof. exact (alpha_encode_decode t). Qed.

Lemma alpha_label_round_trip_witness :
  HeadersOrchestrator._int_to_alpha (HeadersOrchestrator._alpha_to_int (s2t "ab")) = s2t "AB".
Proof.
  apply (alpha_label_round_trip (s2t "ab")); [discriminate|reflexivity].
Defined.

Lemma extract_single_token (t : text) :
  is_token t ->
  HeadersOrchestrator._extract_components (Some t)
  = [ if PyStr.isdigit t then
        {| HeadersOrchestrator.raw := t;
           HeadersOrchestrator.normalized := PyStr.str_of_Z (PyStr.int_of_digits t);
           HeadersOrchestrator.kind := Some HeadersOrchestrator.Numeric;
           HeadersOrchestrator.value := Some (PyStr.int_of_digits t) |}
      else if PyStr.isalpha t then
        {| HeadersOrchestrator.raw := t;
           HeadersOrchestrator.normalized :=
             HeadersOrchestrator._int_to_alpha (HeadersOrchestrator._alpha_to_int t);
           HeadersOrchestrator.kind := Some HeadersOrchestrator.Alpha;
           HeadersOrchestrator.value := Some (HeadersOrchestrator._alpha_to_int t) |}
      else
        {| HeadersOrchestrator.raw := t; HeadersOrchestrator.normalized := t;
           HeadersOrchestrator.kind := None; HeadersOrchestrator.value := None |} ].
Proof.
  intros Ht.
  pose proof (number_tokens_join [t] (Forall_cons _ Ht (Forall_nil _))) as E.
  cbn [PyStr.join] in E. unfold Numbering.number_tokens in E.
  unfold HeadersOrchestrator._extract_components.
  destruct t as [|c t]; [destruct Ht as [Hne _]; contradiction|].
  rewrite E. reflexivity.
Qed.

Lemma lower_letters (n : text) :
  forallb Chars.is_upper n = true ->
  forallb Chars.is_alpha (PyStr.lower n) = true
  /\ PyStr.upper (PyStr.lower n) = n
  /\ PyStr.upper n = n.
Proof.
  induction n as [|c n IH]; [repeat split|].
  cbn [forallb]. intros H. apply andb_true_iff in H as [Hc Hn].
  destruct (IH Hn) as (A & B & C).
  destruct (upper_lower_char c Hc) as (E1 & E2 & E3 & _).
  cbn [PyStr.lower PyStr.upper map forallb].
  fold (PyStr.lower n). fold (PyStr.upper (PyStr.lower n)). fold (PyStr.upper n).
  rewrite E1, E2, E3, A, B, C. repeat split.
Qed.

(** X3.  A component [_build_component] makes for a missing value is what
    [_extract_components] reads back from the component's raw text: a
    numeric component for a value of 0 or more, zero-padded to the width
    of an all-digit template, and an alphabetic one for a value of 1 or
    more, in the template's case. *)
Theorem built_component_reads_back
  (v : Z) (k : HeadersOrchestrator.Kind) (template : option HeadersOrchestrator.Component) :
  (match k with
   | HeadersOrchestrator.Numeric => 0 <= v
   | HeadersOrchestrator.Alpha => 1 <= v
   end)%Z ->
  HeadersOrchestrator._extract_components
    (Some (HeadersOrchestrator.raw (HeadersOrchestrator._build_component v k template)))
  = [HeadersOrchestrator._build_component v k template].
Proof.
  intros Hv. destruct k.
  - destruct (str_of_Z_spec v Hv) as (Hne & Hd & E).
    unfold HeadersOrchestrator._build_component.
    set (width := if PyStr.isdigit _ then _ else 0).
    cbn [HeadersOrchestrator.raw].
    assert (G : forall k0 : nat,
              HeadersOrchestrator._extract_components
                (Some (repeat "0"%char k0 ++ PyStr.str_of_Z v))
              = [{| HeadersOrchestrator.raw := repeat "0"%char k0 ++ PyStr.str_of_Z v;
                    HeadersOrchestrator.normalized := PyStr.str_of_Z v;
                    HeadersOrchestrator.kind := Some HeadersOrchestrator.Numeric;
                    HeadersOrchestrator.value := Some v |}]).
    { intros k0.
      assert (Hne0 : repeat "0"%char k0 ++ PyStr.str_of_Z v <> []).
      { intros C. apply app_eq_nil in C as [_ C]. contradiction. }
      assert (Hd0 : forallb Chars.is_digit (repeat "0"%char k0 ++ PyStr.str_of_Z v) = true).
      { rewrite forallb_app, Hd, andb_true_r.
        clear. induction k0; [reflexivity|exact IHk0]. }
      rewrite extract_single_token by (split; [assumption|left; assumption]).
      rewrite (isdigit_token _ Hne0 Hd0), int_of_zeros, E. reflexivity. }
    destruct (Nat.eqb width 0).
    + exact (G 0).
    + unfold PyStr.zfill. apply G.
  - destruct (int_to_alpha_shape v) as (Hne & Hu).
    destruct (lower_letters _ Hu) as (La & Lu & Uu).
    pose proof (alpha_round_trip v) as R. rewrite Z.max_r in R by lia.
    unfold HeadersOrchestrator._build_component.
    destruct (PyStr.islower _); cbn [HeadersOrchestrator.raw].
    + assert (Hne' : PyStr.lower (HeadersOrchestrator._int_to_alpha v) <> []).
      { destruct (HeadersOrchestrator._int_to_alpha v); [contradiction|discriminate]. }
      rewrite extract_single_token by (split; [assumption|right; assumption]).
      destruct (isalpha_token _ Hne' La) as [-> ->].
      assert (Ev : HeadersOrchestrator._alpha_to_int
                     (PyStr.lower (HeadersOrchestrator._int_to_alpha v)) = v).
      { unfold HeadersOrchestrator._alpha_to_int, Numbering._alpha_component_value.
        rewrite Lu.
        unfold HeadersOrchestrator._alpha_to_int, Numbering._alpha_component_value in R.
        rewrite Uu in R. exact R. }
      rewrite Ev, Uu. reflexivity.
    + pose proof (forallb_impl _ _ _ upper_is_alpha Hu) as Ha.
      rewrite extract_single_token by (split; [assumption|right; assumption]).
      destruct (isalpha_token _ Hne Ha) as [-> ->].
      rewrite R. reflexivity.
Qed.

Lemma built_component_reads_back_witness :
  HeadersOrchestrator._extract_components
    (Some (HeadersOrchestrator.raw
             (HeadersOrchestrator._build_component 7 HeadersOrchestrator.Numeric
                (Some {| HeadersOrchestrator.raw := s2t "006";
                         HeadersOrchestrator.normalized := s2t "6";
                         HeadersOrchestrator.kind := Some HeadersOrchestrator.Numeric;
                         HeadersOrchestrator.value := Some 6%Z |}))))
  = [HeadersOrchestrator._build_component 7 HeadersOrchestrator.Numeric
       (Some {| HeadersOrchestrator.raw := s2t "006";
                HeadersOrchestrator.normalized := s2t "6";
                HeadersOrchestrator.kind := Some HeadersOrchestrator.Numeric;
                HeadersOrchestrator.value := Some 6%Z |})].
Proof.
  apply (built_component_reads_back 7 HeadersOrchestrator.Numeric). lia.
Defined.

(** X4.  Reading a numbering string into components and writing them back
    ([_components_to_number] after [_extract_components]) is idempotent
    on every string: the result, in which leading zeros are dropped,
    letters are capitals and the components are joined by dots, is left
    unchanged by a second pass. *)
Theorem canonical_number_idempotent (number : text) :
  canonical_number (canonical_number number) = canonical_number number.
Proof.
  rewrite (canonical_number_spec (canonical_number number)), canonical_number_tokens.
  rewrite canonical_number_spec, map_map. f_equal.
  pose proof (number_tokens_shape number) as H.
  induction H as [|t ts Ht _ IH]; [reflexivity|].
  cbn [map]. rewrite (canonical_token_idem t Ht), IH. reflexivity.
Qed.

(** X5.  The sort key [number_key] of a numbering string is unchanged
    when the string is rewritten through its components, so a header
    recovered by gap filling sorts exactly like the number it was
    recovered for; and the key of the dotted decimal numeral of a list
    of non-negative integers is that list. *)
Theorem number_key_of_canonical_number :
  (forall number : text,
      Numbering.number_key (canonical_number number) = Numbering.number_key number)
  /\ (forall vs : list Z,
         Forall (fun v => 0 <= v)%Z vs ->
         Numbering.number_key (PyStr.join (s2t ".") (map PyStr.str_of_Z vs)) = vs).
Proof.
  split.
  - intros number. unfold Numbering.number_key.
    rewrite canonical_number_tokens, map_map.
    pose proof (number_tokens_shape number) as H.
    induction H as [|t ts Ht _ IH]; [reflexivity|].
    cbn [map]. rewrite (component_value_canonical t Ht), IH. reflexivity.
  - intros vs Hvs. unfold Numbering.number_key.
    rewrite number_tokens_join.
    + rewrite map_map. induction Hvs as [|v vs Hv _ IH]; [reflexivity|].
      cbn [map]. rewrite IH. f_equal.
      unfold Numbering._component_value. rewrite (isdigit_str_of_Z v Hv).
      apply (str_of_Z_spec v Hv).
    + apply Forall_map. revert Hvs. apply Forall_impl. exact str_of_Z_token.
Qed.

(** ** The numbering tree *)

Lemma lstrip_by_length (p : ascii -> bool) (s : text) :
  length (PyStr.lstrip_by p s) <= length s.
Proof.
  induction s as [|c s IH]; [apply Nat.le_refl|].
  cbn [PyStr.lstrip_by]. destruct (p c); cbn [length]; lia.
Qed.

Lemma strip_by_length (p : ascii -> bool) (s : text) :
  length (PyStr.strip_by p s) <= length s.
Proof.
  unfold PyStr.strip_by, PyStr.rstrip_by. rewrite length_rev.
  etransitivity; [apply lstrip_by_length|].
  rewrite length_rev. apply lstrip_by_length.
Qed.

Lemma eqc_true (a b : ascii) : Chars.eqc a b = true <-> a = b.
Proof. unfold Chars.eqc. apply Ascii.eqb_eq. Qed.

Lemma eqc_sym (a b : ascii) : Chars.eqc a b = Chars.eqc b a.
Proof. unfold Chars.eqc. apply Ascii.eqb_sym. Qed.

Lemma mem_char_app (c : ascii) (l l' : text) :
  PyStr.mem_char c (l ++ l') = PyStr.mem_char c l || PyStr.mem_char c l'.
Proof.
  induction l as [|d l IH]; [reflexivity|].
  cbn [app PyStr.mem_char]. rewrite IH. apply orb_assoc.
Qed.

Lemma mem_char_rev (c : ascii) (l : text) :
  PyStr.mem_char c (rev l) = PyStr.mem_char c l.
Proof.
  induction l as [|d l IH]; [reflexivity|].
  cbn [rev]. rewrite mem_char_app, IH. cbn [PyStr.mem_char].
  rewrite orb_false_r. apply orb_comm.
Qed.

Lemma after_first_dot_split (l : text) :
  PyStr.mem_char "." l = true ->
  exists head,
    l = head ++ "."%char :: NumberTree.after_first_dot l
    /\ PyStr.mem_char "." head = false.
Proof.
  induction l as [|c l IH]; [discriminate|].
  cbn [PyStr.mem_char NumberTree.after_first_dot]. rewrite (eqc_sym "." c).
  destruct (Chars.eqc c ".") eqn:E.
  - intros _. apply eqc_true in E. subst c. exists []. split; reflexivity.
  - cbn [orb]. intros H. destruct (IH H) as (head & E1 & E2).
    exists (c :: head). split.
    + cbn [app]. rewrite <- E1. reflexivity.
    + cbn [PyStr.mem_char]. rewrite (eqc_sym "." c), E, E2. reflexivity.
Qed.

Lemma before_last_dot_split (n : text) :
  PyStr.mem_char "." n = true ->
  exists tail,
    n = NumberTree.before_last_dot n ++ "."%char :: tail
    /\ PyStr.mem_char "." tail = false.
Proof.
  intros H. rewrite <- mem_char_rev in H.
  destruct (after_first_dot_split (rev n) H) as (head & E1 & E2).
  exists (rev head). split.
  - unfold NumberTree.before_last_dot.
    apply (f_equal (@rev ascii)) in E1. rewrite rev_involutive in E1.
    rewrite rev_app_distr in E1. cbn [rev] in E1. rewrite <- app_assoc in E1. exact E1.
  - rewrite mem_char_rev. exact E2.
Qed.

Lemma number_parent_shorter (x p : text) :
  NumberTree.number_parent (Some x) = Some p -> length p < length x.
Proof.
  unfold NumberTree.number_parent. destruct x as [|c x]; [discriminate|].
  destruct (PyStr.mem_char "." (c :: x)) eqn:Hdot.
  - intros H. inversion H; subst p.
    destruct (before_last_dot_split _ Hdot) as (tail & E & _).
    rewrite E at 2. rewrite length_app. cbn [length]. lia.
  - pose proof (strip_by_length Chars.is_space (c :: x)) as Hlen.
    fold PyStr.strip in Hlen.
    destruct (PyStr.strip (c :: x)) as [|s0 s] eqn:Es; [discriminate|].
    set (idx := NumberTree.parent_idx (s0 :: s) (length (s0 :: s))).
    destruct (_ || _) eqn:Hb; [discriminate|].
    intros H. assert (E : p = firstn idx (s0 :: s)) by congruence. rewrite E.
    apply orb_false_iff in Hb as [_ Hb]. apply Nat.leb_gt in Hb.
    rewrite length_firstn. lia.
Qed.

Lemma ancestor_shorter (x p : text) : ancestor x p -> length p < length x.
Proof.
  induction 1 as [x p H _|x q p H _ _ IH].
  - apply number_parent_shorter. exact H.
  - apply number_parent_shorter in H. lia.
Qed.

Lemma ancestor_nonempty (x p : text) : ancestor x p -> p <> [].
Proof. induction 1; assumption. Qed.

Lemma ancestor_trans (a b c : text) : ancestor a b -> ancestor b c -> ancestor a c.
Proof.
  induction 1 as [x p H Hne|x q p H Hne _ IH]; intros Hbc.
  - eapply ancestor_step; eassumption.
  - eapply ancestor_step; [eassumption|assumption|apply IH; assumption].
Qed.

Lemma descendant_loop_spec (fuel : nat) (parent : text) :
  parent <> [] ->
  forall current : option text,
    match current with Some c => length c <= fuel | None => True end ->
    exists b,
      NumberTree.descendant_loop fuel parent current = Some b
      /\ (b = true <->
          exists c, current = Some c /\ c <> [] /\ (c = parent \/ ancestor c parent)).
Proof.
  intros Hp. induction fuel as [|f IH]; intros current Hlen.
  - destruct current as [[|c0 c]|]; cbn in Hlen; try lia.
    + exists false. split; [reflexivity|]. split; [discriminate|].
      intros (c & E & Hne & _). inversion E; subst. contradiction.
    + exists false. split; [reflexivity|]. split; [discriminate|].
      intros (c & E & _). discriminate.
  - destruct current as [[|c0 c]|].
    + exists false. split; [reflexivity|]. split; [discriminate|].
      intros (c & E & Hne & _). inversion E; subst. contradiction.
    + cbn [NumberTree.descendant_loop].
      destruct (PyStr.eqb (c0 :: c) parent) eqn:E.
      * exists true. split; [reflexivity|]. split; [|reflexivity]. intros _.
        apply text_eqb_spec in E. exists (c0 :: c). repeat split; [discriminate|now left].
      * assert (Hneq : c0 :: c <> parent).
        { intros C. apply text_eqb_spec in C. rewrite C in E. discriminate. }
        destruct (IH (NumberTree.number_parent (Some (c0 :: c)))) as (b & Eb & Hb).
        { destruct (NumberTree.number_parent (Some (c0 :: c))) as [q|] eqn:Eq; [|exact I].
          apply number_parent_shorter in Eq. lia. }
        exists b. split; [exact Eb|]. rewrite Hb. split.
        -- intros (q & Eq & Hne & [->|Hanc]).
           ++ exists (c0 :: c). repeat split; [discriminate|].
              right. apply ancestor_parent; assumption.
           ++ exists (c0 :: c). repeat split; [discriminate|].
              right. eapply ancestor_step; eassumption.
        -- intros (x & Ex & _ & Hor). inversion Ex; subst x.
           destruct Hor as [Heq|Hanc]; [contradiction|].
           inversion Hanc as [? ? H Hne|? q ? H Hne Hq]; subst.
           ++ exists parent. repeat split; [assumption|assumption|now left].
           ++ exists q. repeat split; [assumption|assumption|now right].
    + exists false. split; [reflexivity|]. split; [discriminate|].
      intros (c & E & _). discriminate.
Qed.

Lemma is_number_descendant_spec (candidate : text) (parent : option text) :
  exists b,
    NumberTree.is_number_descendant candidate parent = Some b
    /\ (b = true <-> exists p, parent = Some p /\ ancestor candidate p).
Proof.
  unfold NumberTree.is_number_descendant.
  destruct parent as [[|p0 p]|].
  - exists false. split; [reflexivity|]. split; [discriminate|].
    intros (p & E & H). inversion E; subst p.
    apply ancestor_nonempty in H. contradiction.
  - destruct candidate as [|c0 c].
    + exists false. split; [reflexivity|]. split; [discriminate|].
      intros (p' & _ & H). apply ancestor_shorter in H. cbn in H. lia.
    + destruct (PyStr.eqb (c0 :: c) (p0 :: p)) eqn:E.
      * exists false. split; [reflexivity|]. split; [discriminate|].
        intros (p' & E' & H). inversion E'; subst p'.
        apply text_eqb_spec in E. rewrite E in H.
        apply ancestor_shorter in H. lia.
      * destruct (descendant_loop_spec (length (c0 :: c)) (p0 :: p))
          with (current := NumberTree.number_parent (Some (c0 :: c))) as (b & Eb & Hb).
        { discriminate. }
        { destruct (NumberTree.number_parent (Some (c0 :: c))) as [q|] eqn:Eq; [|exact I].
          apply number_parent_shorter in Eq. lia. }
        exists b. split; [exact Eb|]. rewrite Hb. split.
        -- intros (q & Eq & Hne & [->|Hanc]); exists (p0 :: p); split; try reflexivity.
           ++ apply ancestor_parent; assumption.
           ++ eapply ancestor_step; eassumption.
        -- intros (p' & E' & H). inversion E'; subst p'.
           inversion H as [? ? H1 Hne|? q ? H1 Hne Hq]; subst.
           ++ exists (p0 :: p). repeat split; [assumption|discriminate|now left].
           ++ exists q. repeat split; [assumption|assumption|now right].
  - exists false. split; [reflexivity|]. split; [discriminate|].
    intros (p & E & _). discriminate.
Qed.

(** X6.  [number_parent] returns a numbering that is strictly shorter
    than its argument; for a numbering that holds a dot it is what
    precedes the last dot, so the numbering is its parent, a dot and a
    last component without dots. *)
Theorem number_parent_precedes_last_dot (num parent : text) :
  NumberTree.number_parent (Some num) = Some parent ->
  length parent < length num
  /\ (PyStr.mem_char "." num = true ->
      exists last,
        num = parent ++ "."%char :: last /\ PyStr.mem_char "." last = false).
Proof.
  intros H. split; [apply number_parent_shorter; exact H|].
  intros Hdot. unfold NumberTree.number_parent in H.
  destruct num as [|c num]; [discriminate|]. rewrite Hdot in H.
  inversion H; subst parent. apply before_last_dot_split. exact Hdot.
Qed.

Lemma number_parent_precedes_last_dot_witness :
  length (s2t "1.2") < length (s2t "1.2.3")
  /\ (PyStr.mem_char "." (s2t "1.2.3") = true ->
      exists last,
        s2t "1.2.3" = s2t "1.2" ++ "."%char :: last /\ PyStr.mem_char "." last = false).
Proof.
  apply (number_parent_precedes_last_dot (s2t "1.2.3") (s2t "1.2")). reflexivity.
Defined.

(** X7.  [is_number_descendant] always returns (its loop over the chain
    of parents ends, each parent being shorter than its child), and the
    relation it decides is a strict partial order: no numbering descends
    from itself, a numbering never descends from one of its own
    descendants, and a descendant of a descendant is a descendant. *)
Theorem is_number_descendant_strict_order :
  (forall (a : text) (b : option text),
      exists r, NumberTree.is_number_descendant a b = Some r)
  /\ (forall a : text, NumberTree.is_number_descendant a (Some a) = Some false)
  /\ (forall a b : text,
         NumberTree.is_number_descendant a (Some b) = Some true ->
         NumberTree.is_number_descendant b (Some a) = Some false)
  /\ (forall a b c : text,
         NumberTree.is_number_descendant a (Some b) = Some true ->
         NumberTree.is_number_descendant b (Some c) = Some true ->
         NumberTree.is_number_descendant a (Some c) = Some true).
Proof.
  assert (Hno : forall a b,
             (forall p, Some b = Some p -> ~ ancestor a p) ->
             NumberTree.is_number_descendant a (Some b) = Some false).
  { intros a b H. destruct (is_number_descendant_spec a (Some b)) as (r & E & Hr).
    rewrite E. destruct r; [|reflexivity].
    destruct (proj1 Hr eq_refl) as (p & Ep & Hp). exfalso. exact (H p Ep Hp). }
  assert (Hyes : forall a b,
             NumberTree.is_number_descendant a (Some b) = Some true -> ancestor a b).
  { intros a b H. destruct (is_number_descendant_spec a (Some b)) as (r & E & Hr).
    rewrite E in H. inversion H; subst r.
    destruct (proj1 Hr eq_refl) as (p & Ep & Hp). inversion Ep; subst p. exact Hp. }
  repeat split.
  - intros a b. destruct (is_number_descendant_spec a b) as (r & E & _). eauto.
  - intros a. apply Hno. intros p E H. inversion E; subst p.
    apply ancestor_shorter in H. lia.
  - intros a b H. apply Hyes in H. apply Hno. intros p E H'. inversion E; subst p.
    apply ancestor_shorter in H, H'. lia.
  - intros a b c H1 H2. apply Hyes in H1, H2.
    destruct (is_number_descendant_spec a (Some c)) as (r & E & Hr).
    rewrite E. f_equal. apply Hr. exists c. split; [reflexivity|].
    eapply ancestor_trans; eassumption.
Qed.

(** ** Resolved headers and section spans *)

Lemma count_le_length {A} (p : A -> bool) (l : list A) : count p l <= length l.
Proof.
  unfold count. induction l as [|x l IH]; [apply Nat.le_refl|].
  cbn [filter]. destruct (p x); cbn [length]; lia.
Qed.

Lemma first_free_spec (fuel : nat) :
  forall (used : list Z) (g : Z),
    count (fun u => (g <=? u)%Z) used < fuel ->
    mem Z.eqb (Sections.first_free fuel used g) used = false.
Proof.
  induction fuel as [|f IH]; intros used g Hc; [lia|].
  cbn [Sections.first_free].
  destruct (mem Z.eqb g used) eqn:M; [|exact M].
  apply IH.
  apply (mem_spec _ Z.eqb Zeqb_spec) in M.
  pose proof (filter_length_lt (fun u => (g <=? u)%Z) (fun u => (g + 1 <=? u)%Z) used g) as H.
  assert (count (fun u => (g + 1 <=? u)%Z) used < count (fun u => (g <=? u)%Z) used).
  { apply H; [|exact M|apply Z.leb_le; lia|apply Z.leb_gt; lia].
    intros x Hx. apply Z.leb_le in Hx. apply Z.leb_le. lia. }
  lia.
Qed.

Lemma first_free_fresh (used : list Z) (g : Z) :
  ~ In (Sections.first_free (S (length used)) used g) used.
Proof.
  intros H. apply (mem_spec _ Z.eqb Zeqb_spec) in H.
  rewrite first_free_spec in H; [discriminate|].
  pose proof (count_le_length (fun u => (g <=? u)%Z) used). lia.
Qed.

Lemma NoDup_snoc {A} (l : list A) (a : A) : NoDup l -> ~ In a l -> NoDup (l ++ [a]).
Proof.
  intros ND Hn. apply NoDup_insert; rewrite app_nil_r; assumption.
Qed.

Lemma make_distinct_NoDup (lines : list BodyLine) (l : list Sections.ResolvedHeader) :
  forall used : list Z,
    NoDup used ->
    NoDup (used ++ map Sections.rh_global_idx (Sections.make_distinct lines used l)).
Proof.
  induction l as [|entry l IH]; intros used ND.
  - cbn. rewrite app_nil_r. exact ND.
  - cbn [Sections.make_distinct].
    destruct (mem Z.eqb (Sections.rh_global_idx entry) used) eqn:M.
    + set (g := Sections.first_free (S (length used)) used
                  (Sections.scan_forward lines entry)).
      cbn [map]. change (Sections.rh_global_idx (Sections.set_global_idx entry g)) with g.
      specialize (IH (used ++ [g])). rewrite <- app_assoc in IH. apply IH.
      apply NoDup_snoc; [exact ND|apply first_free_fresh].
    + cbn [map].
      specialize (IH (used ++ [Sections.rh_global_idx entry])).
      rewrite <- app_assoc in IH. apply IH.
      apply NoDup_snoc; [exact ND|].
      intros H. apply (mem_spec _ Z.eqb Zeqb_spec) in H. rewrite H in M. discriminate.
Qed.

Lemma make_distinct_keys (lines : list BodyLine) (l : list Sections.ResolvedHeader) :
  forall used : list Z,
    map Sections.dedup_key (Sections.make_distinct lines used l) = map Sections.dedup_key l
    /\ length (Sections.make_distinct lines used l) = length l.
Proof.
  induction l as [|entry l IH]; intros used; [split; reflexivity|].
  cbn [Sections.make_distinct].
  destruct (mem Z.eqb (Sections.rh_global_idx entry) used); cbn [map length].
  - destruct (IH (used ++ [Sections.first_free (S (length used)) used
                             (Sections.scan_forward lines entry)])) as [E1 E2].
    rewrite E1, E2. split; reflexivity.
  - destruct (IH (used ++ [Sections.rh_global_idx entry])) as [E3 E4].
    rewrite E3, E4. split; reflexivity.
Qed.

Lemma opt_eqb_spec {A} (eq : A -> A -> bool) :
  (forall a b, eq a b = true <-> a = b) ->
  forall a b : option A, HeadersOrchestrator.opt_eqb eq a b = true <-> a = b.
Proof.
  intros H [a|] [b|]; cbn; split; intros E; try discriminate; try reflexivity.
  - f_equal. apply H. exact E.
  - apply H. congruence.
Qed.

Lemma dedup_key_eqb_spec (a b : Sections.DedupKey) :
  Sections.dedup_key_eqb a b = true <-> a = b.
Proof.
  destruct a as [[n1 t1] l1], b as [[n2 t2] l2]. unfold Sections.dedup_key_eqb. cbn [fst snd].
  rewrite !andb_true_iff, (opt_eqb_spec PyStr.eqb text_eqb_spec), text_eqb_spec, Z.eqb_eq.
  split; [intros [[-> ->] ->]; reflexivity|intros E; inversion E; auto].
Qed.

Lemma dedup_step_keys (d : dict Sections.DedupKey Sections.ResolvedHeader)
  (h : Sections.ResolvedHeader) :
  NoDup (map fst d) ->
  (forall k x, In (k, x) d -> k = Sections.dedup_key x) ->
  NoDup (map fst (Sections.dedup_step d h))
  /\ (forall k x, In (k, x) (Sections.dedup_step d h) -> k = Sections.dedup_key x).
Proof.
  intros ND Hk. unfold Sections.dedup_step.
  destruct (dict_get Sections.dedup_key_eqb d (Sections.dedup_key h)) as [existing|] eqn:E.
  - destruct (Sections.rh_global_idx existing <=? Sections.rh_global_idx h)%Z;
      [|split; assumption].
    split.
    + rewrite dict_set_keys_present; [exact ND|exact dedup_key_eqb_spec|].
      eapply dict_get_some_keys; [exact dedup_key_eqb_spec|exact E].
    + intros k x Hin.
      destruct (dict_set_split Sections.dedup_key_eqb d (Sections.dedup_key h) existing h E)
        as (d1 & k0 & d2 & Hd & Hs).
      rewrite Hs in Hin. subst d.
      apply in_app_iff in Hin. destruct Hin as [Hin|[Hin|Hin]].
      * apply Hk. apply in_app_iff. now left.
      * inversion Hin; subst k x.
        assert (Hk0 : k0 = Sections.dedup_key existing).
        { apply Hk. apply in_app_iff. right. now left. }
        assert (G : dict_get Sections.dedup_key_eqb (d1 ++ (k0, existing) :: d2) k0
                    = Some existing).
        { apply (dict_in_get _ _ Sections.dedup_key_eqb dedup_key_eqb_spec); [exact ND|].
          apply in_app_iff. right. now left. }
        destruct (dedup_key_eqb_spec (Sections.dedup_key h) k0) as [_ Heq].
        destruct (Sections.dedup_key_eqb (Sections.dedup_key h) k0) eqn:B.
        -- apply dedup_key_eqb_spec in B. congruence.
        -- exfalso.
           assert (In (Sections.dedup_key h) (map fst (d1 ++ (k0, existing) :: d2))).
           { eapply dict_get_some_keys; [exact dedup_key_eqb_spec|exact E]. }
           assert (In (Sections.dedup_key h, existing) (d1 ++ (k0, existing) :: d2)).
           { apply (dict_in_get _ _ Sections.dedup_key_eqb dedup_key_eqb_spec); assumption. }
           assert (Hke : Sections.dedup_key h = Sections.dedup_key existing)
             by (apply Hk; assumption).
           rewrite Hke, <- Hk0 in B.
           rewrite (proj2 (dedup_key_eqb_spec k0 k0) eq_refl) in B. discriminate.
      * apply Hk. apply in_app_iff. right. now right.
  - split.
    + rewrite map_app. cbn [map fst]. apply NoDup_snoc; [exact ND|].
      apply (dict_get_none_keys _ _ Sections.dedup_key_eqb dedup_key_eqb_spec). exact E.
    + intros k x Hin. apply in_app_iff in Hin. destruct Hin as [Hin|[Hin|[]]].
      * apply Hk. exact Hin.
      * inversion Hin. reflexivity.
Qed.

Lemma dedup_fold_keys (l : list Sections.ResolvedHeader) :
  forall d : dict Sections.DedupKey Sections.ResolvedHeader,
    NoDup (map fst d) ->
    (forall k x, In (k, x) d -> k = Sections.dedup_key x) ->
    NoDup (map fst (fold_left Sections.dedup_step l d))
    /\ (forall k x, In (k, x) (fold_left Sections.dedup_step l d) -> k = Sections.dedup_key x).
Proof.
  induction l as [|h l IH]; intros d ND Hk; [split; assumption|].
  cbn [fold_left]. destruct (dedup_step_keys d h ND Hk) as [ND' Hk']. apply IH; assumption.
Qed.

(** X8.  Whatever the entries and the lines, the headers
    [_resolve_headers] returns have pairwise distinct [global_idx]
    values (the loop [while gid in used: gid += 1] always finds a free
    index) and pairwise distinct keys (number, normalised text, level):
    of the entries that share a key one is kept. *)
Theorem resolved_headers_are_distinct
  (headers : list Sections.SimpleHeader) (lines : list BodyLine) :
  NoDup (map Sections.rh_global_idx (Sections._resolve_headers headers lines))
  /\ NoDup (map Sections.dedup_key (Sections._resolve_headers headers lines)).
Proof.
  unfold Sections._resolve_headers. split.
  - apply (make_distinct_NoDup lines _ []). constructor.
  - destruct (make_distinct_keys lines
                (sorted Sections.resolved_leb
                   (map snd (fold_left Sections.dedup_step
                               (Sections.filter_map
                                  (Sections.resolve_entry (Sections.lookup_page_line lines))
                                  headers) []))) []) as [-> _].
    destruct (dedup_fold_keys
                (Sections.filter_map
                   (Sections.resolve_entry (Sections.lookup_page_line lines)) headers) [])
      as [ND Hk]; [constructor|intros k x []|].
    eapply Permutation_NoDup; [symmetry; apply sorted_map_perm|].
    set (d := fold_left Sections.dedup_step _ []) in *.
    replace (map Sections.dedup_key (map snd d)) with (map fst d); [exact ND|].
    clear ND. induction d as [|[k x] d IH]; [reflexivity|].
    cbn [map fst snd]. rewrite IH by (intros k' x' H; apply Hk; now right).
    f_equal. apply Hk. now left.
Qed.

(** ** Section chunks on arbitrary input *)

Lemma chunk_at_sound (headers : list Header) (lines : list BodyLine)
  (position : nat) (h : Header) :
  exists r,
    SectionChunking.chunk_at headers lines (SectionChunking.index_by_global lines) position h
    = Ok r
    /\ forall c, r = Some c -> chunk_of_header lines h c.
Proof.
  unfold SectionChunking.chunk_at. rewrite index_by_global_get.
  destruct (first_index (h_global_idx h) lines) as [cur|] eqn:Hcur;
    [|exists None; split; [reflexivity|discriminate]].
  destruct (first_index_nth _ _ _ Hcur) as [Hlt Hgid].
  assert (Hend : forall end_index : Z,
             (end_index < Z.of_nat (length lines))%Z ->
             exists r,
               (if (end_index <? Z.of_nat cur)%Z then Ok None
                else
                  bind (index lines cur) (fun start_line =>
                  bind (index lines (Z.to_nat end_index)) (fun end_line =>
                  Ok (Some {| SectionChunking.header_text := h_text h;
                              SectionChunking.header_number := h_number h;
                              SectionChunking.level := SectionChunking.or_one (h_level h);
                              SectionChunking.start_global_idx := l_global_idx start_line;
                              SectionChunking.end_global_idx := l_global_idx end_line;
                              SectionChunking.start_page := l_page start_line;
                              SectionChunking.end_page := l_page end_line |})))) = Ok r
               /\ forall c, r = Some c -> chunk_of_header lines h c).
  { intros end_index He.
    destruct (end_index <? Z.of_nat cur)%Z eqn:C;
      [exists None; split; [reflexivity|discriminate]|].
    apply Z.ltb_ge in C.
    destruct (index_ok lines cur Hlt) as (lp & -> & Hlp). cbn [bind].
    destruct (index_ok lines (Z.to_nat end_index)) as (lq & -> & Hlq); [lia|]. cbn [bind].
    eexists. split; [reflexivity|]. intros c Hc. inversion Hc; subst c. clear Hc.
    rewrite Hlp in Hgid. cbn [option_map] in Hgid. inversion Hgid as [Hg].
    unfold chunk_of_header.
    cbn [SectionChunking.header_text SectionChunking.header_number
         SectionChunking.start_global_idx].
    split; [reflexivity|]. split; [reflexivity|]. split; [exact Hg|].
    exists cur, (Z.to_nat end_index). split; [exact Hcur|].
    unfold spans_lines.
    cbn [SectionChunking.start_global_idx SectionChunking.end_global_idx].
    rewrite Hlp, Hlq. repeat split. lia. }
  destruct (position <? length headers - 1) eqn:P.
  - apply Nat.ltb_lt in P.
    destruct (index_ok headers (position + 1)) as (h' & -> & _); [lia|]. cbn [bind].
    apply Hend. rewrite index_by_global_get.
    destruct (first_index (h_global_idx h') lines) as [i|] eqn:Hi; [|lia].
    destruct (first_index_nth _ _ _ Hi). lia.
  - cbn [bind]. apply Hend. lia.
Qed.

Lemma chunks_loop_sound (headers : list Header) (lines : list BodyLine)
  (todo : list (nat * Header)) :
  (forall i h, In (i, h) todo -> In h headers) ->
  forall acc : list SectionChunking.Chunk,
    Forall (fun c => exists h, In h headers /\ chunk_of_header lines h c) acc ->
    exists cs,
      SectionChunking.chunks_loop headers lines (SectionChunking.index_by_global lines) todo acc
      = Ok cs
      /\ length cs <= length acc + length todo
      /\ Forall (fun c => exists h, In h headers /\ chunk_of_header lines h c) cs.
Proof.
  induction todo as [|[position h] todo IH]; intros Htodo acc Hacc.
  - exists acc. repeat split; [cbn; lia|assumption].
  - cbn [SectionChunking.chunks_loop].
    destruct (chunk_at_sound headers lines position h) as (r & -> & Hr). cbn [bind].
    destruct (IH (fun i x H => Htodo i x (or_intror H))
                 (match r with Some ch => acc ++ [ch] | None => acc end))
      as (cs & E & Hlen & Hcs).
    { destruct r as [c|]; [|assumption].
      apply Forall_app. split; [assumption|]. constructor; [|constructor].
      exists h. split; [apply (Htodo position h); now left|apply Hr; reflexivity]. }
    exists cs. repeat split; [exact E| |exact Hcs].
    destruct r; [rewrite length_app in Hlen|]; cbn [length] in *; lia.
Qed.

(** X9.  [single_chunks_from_headers] returns for every list of headers
    and every line stream, sorted or not: no index is out of range.  It
    emits at most one chunk per header; every chunk carries the text and
    number of a header, starts on the first line that has the header's
    [global_idx] and ends on a line at or after it, so a header whose
    index is on no line gets no chunk and no range is inverted. *)
Theorem single_chunks_total (headers : list Header) (lines : list BodyLine) :
  exists chunks,
    SectionChunking.single_chunks_from_headers headers lines = Ok chunks
    /\ length chunks <= length headers
    /\ Forall (fun c => exists h, In h headers /\ chunk_of_header lines h c) chunks.
Proof.
  unfold SectionChunking.single_chunks_from_headers.
  destruct headers as [|h0 headers]; [exists []; repeat split; [cbn; lia|constructor]|].
  assert (Htodo : forall i h,
             In (i, h) (combine (seq 0 (length (h0 :: headers))) (h0 :: headers)) ->
             In h (h0 :: headers)).
  { intros i h Hin. apply in_combine_r in Hin. exact Hin. }
  destruct (chunks_loop_sound (h0 :: headers) lines _ Htodo [] (Forall_nil _))
    as (cs & E & Hlen & Hcs).
  - exists cs. repeat split; [exact E| |exact Hcs].
    rewrite length_combine, length_seq, Nat.min_id in Hlen. cbn [length] in *. lia.
Qed.

(** ** The legacy matcher and the source positions *)

Lemma last_some_in {A} (l : list A) (c : A) :
  last (map Some l) None = Some c -> In c l.
Proof.
  induction l as [|x l IH]; [discriminate|].
  destruct l as [|y l].
  - cbn. intros H. inversion H. now left.
  - intros H. right. apply IH. exact H.
Qed.

Section LegacyFacts.
Variable similar : text -> text -> bool.

Lemma legacy_step_inv (usable : list BodyLine) (P : Header -> Prop) :
  (forall (oh : HeaderLocator.OracleHeader) (best : BodyLine) (number : option text),
      In best usable ->
      P {| h_text := PyStr.strip (HeaderLocator.o_text oh);
           h_number := number;
           h_level := SectionChunking.or_one (HeaderLocator.o_level oh);
           h_page := l_page best;
           h_line_idx := l_line_idx best;
           h_global_idx := l_global_idx best;
           h_source_idx := (-1)%Z |}) ->
  forall (st : list Header * Z) (oh : HeaderLocator.OracleHeader),
    Forall P (fst st) ->
    Forall P (fst (HeaderLocator.legacy_step similar usable st oh))
    /\ length (fst (HeaderLocator.legacy_step similar usable st oh)) <= S (length (fst st)).
Proof.
  intros HP [located prev] oh Hst. unfold HeaderLocator.legacy_step.
  cbn [fst] in Hst.
  destruct (HeaderLocator._normalise (HeaderLocator.o_text oh)) as [|t0 t] eqn:Et;
    [split; [exact Hst|cbn; lia]|].
  set (first := filter _ usable).
  set (second := filter _ usable).
  set (candidates := match first with [] => second | _ => first end).
  assert (Hc : forall c, In c candidates -> In c usable).
  { intros c Hin. subst candidates. destruct first eqn:Ef.
    - unfold second in Hin. apply filter_In in Hin. tauto.
    - rewrite <- Ef in Hin. unfold first in Hin. apply filter_In in Hin. tauto. }
  destruct candidates as [|c0 cs] eqn:Ec; [split; [exact Hst|cbn; lia]|].
  rewrite <- Ec in *. clear Ec.
  set (ordered := sorted HeaderLocator.by_line_gid candidates).
  assert (Ho : forall c, In c ordered -> In c usable).
  { intros c Hin. apply Hc. apply (proj1 (sorted_In _ HeaderLocator.by_line_gid _ _)). exact Hin. }
  destruct (find _ ordered) as [b|] eqn:Ef.
  - apply find_some in Ef as [Hin _]. cbn [fst]. split.
    + apply Forall_app. split; [exact Hst|]. constructor; [|constructor].
      apply HP. apply Ho. exact Hin.
    + rewrite length_app. cbn. lia.
  - destruct (last (map Some ordered) None) as [b|] eqn:El;
      [|split; [exact Hst|cbn; lia]].
    apply last_some_in in El. cbn [fst]. split.
    + apply Forall_app. split; [exact Hst|]. constructor; [|constructor].
      apply HP. apply Ho. exact El.
    + rewrite length_app. cbn. lia.
Qed.

Lemma legacy_fold_inv (usable : list BodyLine) (P : Header -> Prop) :
  (forall (oh : HeaderLocator.OracleHeader) (best : BodyLine) (number : option text),
      In best usable ->
      P {| h_text := PyStr.strip (HeaderLocator.o_text oh);
           h_number := number;
           h_level := SectionChunking.or_one (HeaderLocator.o_level oh);
           h_page := l_page best;
           h_line_idx := l_line_idx best;
           h_global_idx := l_global_idx best;
           h_source_idx := (-1)%Z |}) ->
  forall (headers : list HeaderLocator.OracleHeader) (st : list Header * Z),
    Forall P (fst st) ->
    Forall P (fst (fold_left (HeaderLocator.legacy_step similar usable) headers st))
    /\ length (fst (fold_left (HeaderLocator.legacy_step similar usable) headers st))
       <= length (fst st) + length headers.
Proof.
  intros HP headers. induction headers as [|oh headers IH]; intros st Hst.
  - split; [exact Hst|cbn; lia].
  - cbn [fold_left].
    destruct (legacy_step_inv usable P HP st oh Hst) as [H1 H2].
    destruct (IH _ H1) as [H3 H4]. split; [exact H3|]. cbn [length]. lia.
Qed.

Lemma by_header_gid_total (a b : Header) :
  HeaderLocator.by_header_gid a b = true \/ HeaderLocator.by_header_gid b a = true.
Proof.
  unfold HeaderLocator.by_header_gid.
  destruct (Z.leb_spec (h_global_idx a) (h_global_idx b)); [now left|right].
  apply Z.leb_le. lia.
Qed.

End LegacyFacts.

(** X10.  The legacy matcher anchors headers only on usable lines: every
    header it returns takes its page, line index and [global_idx] from a
    line of the stream that is neither on an excluded page nor flagged as
    running.  It returns at most one header per outline entry, ordered by
    [global_idx]. *)
Theorem legacy_anchors_on_usable_lines
  (similar : text -> text -> bool) (headers : list HeaderLocator.OracleHeader)
  (lines : list BodyLine) (excluded_pages : list Z) :
  let located := HeaderLocator._locate_headers_legacy similar headers lines excluded_pages in
  (forall h, In h located ->
     exists line,
       In line lines
       /\ mem Z.eqb (l_page line) excluded_pages = false
       /\ l_is_running line = false
       /\ h_global_idx h = l_global_idx line
       /\ h_page h = l_page line
       /\ h_line_idx h = l_line_idx line)
  /\ length located <= length headers
  /\ StronglySorted (fun a b => (h_global_idx a <= h_global_idx b)%Z) located.
Proof.
  cbv zeta. unfold HeaderLocator._locate_headers_legacy.
  set (usable := filter _ lines).
  set (P := fun h : Header =>
              exists line,
                In line lines
                /\ mem Z.eqb (l_page line) excluded_pages = false
                /\ l_is_running line = false
                /\ h_global_idx h = l_global_idx line
                /\ h_page h = l_page line
                /\ h_line_idx h = l_line_idx line).
  destruct (legacy_fold_inv similar usable P) with (headers := headers)
    (st := (@nil Header, (-1)%Z)) as [HP Hlen].
  - intros oh best number Hin. unfold usable in Hin. apply filter_In in Hin as [Hin Hb].
    apply andb_true_iff in Hb as [Hb1 Hb2]. apply negb_true_iff in Hb1, Hb2.
    exists best. repeat split; assumption.
  - constructor.
  - repeat split.
    + intros h Hin. apply (proj1 (sorted_In _ HeaderLocator.by_header_gid _ _)) in Hin.
      rewrite Forall_forall in HP. apply HP. exact Hin.
    + rewrite sorted_length. cbn [fst length] in Hlen. lia.
    + apply (sorted_strongly _ HeaderLocator.by_header_gid).
      * exact by_header_gid_total.
      * intros a b H. apply Z.leb_le. exact H.
      * intros a b c H1 H2. lia.
Qed.

Lemma bucket_key_eqb_spec (a b : HeaderLocator.BucketKey) :
  HeaderLocator.bucket_key_eqb a b = true <-> a = b.
Proof.
  destruct a as [a1 a2], b as [b1 b2]. unfold HeaderLocator.bucket_key_eqb. cbn [fst snd].
  rewrite andb_true_iff, !text_eqb_spec.
  split; [intros [-> ->]; reflexivity|intros E; inversion E; auto].
Qed.

Lemma dict_get_split {K V} (keq : K -> K -> bool) (d : dict K V) (k : K) (v0 : V) :
  dict_get keq d k = Some v0 ->
  exists d1 k0 d2,
    d = d1 ++ (k0, v0) :: d2
    /\ keq k k0 = true
    /\ forall v, dict_set keq d k v = d1 ++ (k0, v) :: d2.
Proof.
  induction d as [|[k' v'] d IH]; cbn [dict_get dict_set]; [discriminate|].
  destruct (keq k k') eqn:E.
  - intros H. inversion H; subst v'. exists [], k', d. repeat split; assumption.
  - intros H. destruct (IH H) as (d1 & k0 & d2 & -> & Hk & Hs).
    exists ((k', v') :: d1), k0, d2. repeat split; [assumption|].
    intros v. rewrite Hs. reflexivity.
Qed.

Lemma concat_snd_middle {K A} (d1 d2 : list (K * list A)) (k : K) (v : list A) :
  concat (map snd (d1 ++ (k, v) :: d2))
  = concat (map snd d1) ++ v ++ concat (map snd d2).
Proof. rewrite map_app, concat_app. reflexivity. Qed.

Lemma map_fst_combine_seq {A} (l : list A) (s : nat) :
  map fst (combine (seq s (length l)) l) = seq s (length l).
Proof.
  revert s. induction l as [|x l IH]; intros s; [reflexivity|].
  cbn [length seq combine map fst]. rewrite IH. reflexivity.
Qed.

Section BucketFacts.
Variable headers : list HeaderLocator.OracleHeader.

Lemma index_buckets_fold (todo : list (nat * HeaderLocator.OracleHeader)) :
  forall d : dict HeaderLocator.BucketKey (list nat),
    (forall i oh, In (i, oh) todo -> nth_error headers i = Some oh) ->
    NoDup (map fst todo ++ concat (map snd d)) ->
    buckets_ok headers d ->
    let d' :=
      fold_left
        (fun d ih =>
           let key := (HeaderLocator.number_of (snd ih),
                       HeaderLocator._normalise (HeaderLocator.o_text (snd ih))) in
           match dict_get HeaderLocator.bucket_key_eqb d key with
           | Some b => dict_set HeaderLocator.bucket_key_eqb d key (b ++ [fst ih])
           | None => d ++ [(key, [fst ih])]
           end) todo d in
    NoDup (concat (map snd d')) /\ buckets_ok headers d'.
Proof.
  induction todo as [|[i oh] todo IH]; intros d Hnth ND Hok; cbv zeta.
  - cbn [fold_left]. split; assumption.
  - cbn [fold_left fst snd].
    assert (Hoh : nth_error headers i = Some oh) by (apply Hnth; now left).
    apply IH.
    + intros i' oh' Hin. apply Hnth. now right.
    + cbn [map fst app] in ND.
      destruct (dict_get _ d _) as [b|] eqn:E.
      * destruct (dict_get_split _ _ _ _ E) as (d1 & k0 & d2 & Hd & _ & Hs).
        rewrite Hs. subst d. rewrite concat_snd_middle in *.
        eapply Permutation_NoDup; [|exact ND].
        change (i :: map fst todo ++ concat (map snd d1) ++ b ++ concat (map snd d2))
          with ([i] ++ map fst todo ++ concat (map snd d1) ++ b ++ concat (map snd d2)).
        rewrite <- !app_assoc.
        rewrite (Permutation_app_comm [i]). rewrite <- !app_assoc.
        repeat apply Permutation_app_head.
        rewrite (Permutation_app_comm [i]). reflexivity.
      * rewrite map_app, concat_app. cbn [map snd concat]. rewrite app_nil_r.
        eapply Permutation_NoDup; [|exact ND].
        change (i :: map fst todo ++ concat (map snd d))
          with ([i] ++ map fst todo ++ concat (map snd d)).
        rewrite (Permutation_app_comm [i]). rewrite <- !app_assoc. reflexivity.
    + destruct (dict_get _ d _) as [b|] eqn:E.
      * destruct (dict_get_split _ _ _ _ E) as (d1 & k0 & d2 & Hd & Hk & Hs).
        rewrite Hs. subst d. intros k l j Hin Hj.
        apply in_app_iff in Hin. destruct Hin as [Hin|[Hin|Hin]].
        -- apply (Hok k l j); [apply in_app_iff; now left|exact Hj].
        -- inversion Hin; subst k l. apply in_app_iff in Hj. destruct Hj as [Hj|[Hj|[]]].
           ++ apply (Hok k0 b j); [apply in_app_iff; right; now left|exact Hj].
           ++ subst j. exists oh. split; [exact Hoh|].
              apply bucket_key_eqb_spec in Hk. exact Hk.
        -- apply (Hok k l j); [apply in_app_iff; right; now right|exact Hj].
      * intros k l j Hin Hj. apply in_app_iff in Hin. destruct Hin as [Hin|[Hin|[]]].
        -- apply (Hok k l j); assumption.
        -- inversion Hin; subst k l. destruct Hj as [Hj|[]]. subst j.
           exists oh. split; [exact Hoh|reflexivity].
Qed.

Lemma index_buckets_ok :
  NoDup (concat (map snd (HeaderLocator.index_buckets headers)))
  /\ buckets_ok headers (HeaderLocator.index_buckets headers).
Proof.
  unfold HeaderLocator.index_buckets.
  apply (index_buckets_fold (combine (seq 0 (length headers)) headers) []).
  - intros i oh Hin. clear -Hin.
    assert (G : forall (l : list HeaderLocator.OracleHeader) s,
               In (i, oh) (combine (seq s (length l)) l) -> nth_error l (i - s) = Some oh
               /\ s <= i).
    { induction l as [|x l IH]; intros s H; [destruct H|].
      cbn [length seq combine] in H. destruct H as [H|H].
      - inversion H; subst. rewrite Nat.sub_diag. split; [reflexivity|lia].
      - destruct (IH _ H) as [E Hle]. split; [|lia].
        replace (i - s) with (S (i - S s)) by lia. exact E. }
    destruct (G headers 0 Hin) as [E _]. rewrite Nat.sub_0_r in E. exact E.
  - cbn [map concat]. rewrite app_nil_r.
    rewrite map_fst_combine_seq. apply seq_NoDup.
  - intros k l j [].
Qed.

Lemma assign_source_idx_spec (located : list Header) :
  forall buckets : dict HeaderLocator.BucketKey (list nat),
    buckets_ok headers buckets ->
    (forall j, In j (concat (map snd buckets)) -> j < length headers) ->
    let r := HeaderLocator.assign_source_idx (length headers) buckets located in
    buckets_ok headers (fst r)
    /\ (forall j, In j (concat (map snd (fst r))) -> j < length headers)
    /\ Forall (source_position_ok headers) (snd r)
    /\ exists taken,
         Permutation (concat (map snd buckets)) (taken ++ concat (map snd (fst r)))
         /\ filter (fun i => (i <? Z.of_nat (length headers))%Z) (map h_source_idx (snd r))
            = map Z.of_nat taken.
Proof.
  induction located as [|h located IH]; intros buckets Hok Hlt; cbv zeta.
  - cbn. repeat split; [assumption|assumption|constructor|].
    exists []. split; reflexivity.
  - cbn [HeaderLocator.assign_source_idx].
    unfold HeaderLocator._take_index.
    fold (located_key h).
    destruct (dict_get HeaderLocator.bucket_key_eqb buckets (located_key h))
      as [[|i rest]|] eqn:E.
    + specialize (IH buckets Hok Hlt). cbv zeta in IH.
      destruct (HeaderLocator.assign_source_idx (length headers) buckets located)
        as [b2 rest'].
      cbn [fst snd] in *. destruct IH as (A & B & C & taken & P & F).
      repeat split; [assumption|assumption| |].
      * constructor; [left; reflexivity|assumption].
      * exists taken. split; [exact P|]. cbn [map filter h_source_idx].
        destruct (Z.ltb_spec (Z.of_nat (length headers + 1000)) (Z.of_nat (length headers)));
          [lia|exact F].
    + destruct (dict_get_split _ _ _ _ E) as (d1 & k0 & d2 & Hd & Hk & Hs).
      rewrite Hs. apply bucket_key_eqb_spec in Hk.
      assert (Hok' : buckets_ok headers (d1 ++ (k0, rest) :: d2)).
      { subst buckets. intros k l j Hin Hj. apply in_app_iff in Hin.
        destruct Hin as [Hin|[Hin|Hin]].
        - apply (Hok k l j); [apply in_app_iff; now left|exact Hj].
        - inversion Hin; subst k l.
          apply (Hok k0 (i :: rest) j); [apply in_app_iff; right; now left|now right].
        - apply (Hok k l j); [apply in_app_iff; right; now right|exact Hj]. }
      assert (Hlt' : forall j, In j (concat (map snd (d1 ++ (k0, rest) :: d2))) ->
                               j < length headers).
      { subst buckets. intros j Hj. apply Hlt. rewrite concat_snd_middle in *.
        apply in_app_iff in Hj. apply in_app_iff. destruct Hj as [Hj|Hj]; [now left|right].
        apply in_app_iff in Hj. apply in_app_iff. destruct Hj as [Hj|Hj]; [left; now right|now right]. }
      specialize (IH _ Hok' Hlt'). cbv zeta in IH.
      destruct (HeaderLocator.assign_source_idx (length headers) (d1 ++ (k0, rest) :: d2) located)
        as [b2 rest'].
      cbn [fst snd] in *. destruct IH as (A & B & C & taken & P & F).
      assert (Hi : i < length headers).
      { apply Hlt. subst buckets. rewrite concat_snd_middle.
        apply in_app_iff. right. now left. }
      repeat split; [assumption|assumption| |].
      * constructor; [|assumption]. right.
        destruct (Hok k0 (i :: rest) i) as (oh & Hoh & Hkey);
          [subst buckets; apply in_app_iff; right; now left|now left|].
        exists i, oh. cbn [h_source_idx]. repeat split; [exact Hoh|].
        unfold located_key. cbn [h_number h_text]. fold (located_key h). congruence.
      * exists (i :: taken). split.
        -- subst buckets. rewrite concat_snd_middle. cbn [app].
           rewrite concat_snd_middle in P.
           etransitivity; [apply Permutation_sym, Permutation_middle|].
           constructor. exact P.
        -- cbn [map filter h_source_idx].
           destruct (Z.ltb_spec (Z.of_nat i) (Z.of_nat (length headers))); [|lia].
           cbn [map]. f_equal. exact F.
    + specialize (IH buckets Hok Hlt). cbv zeta in IH.
      destruct (HeaderLocator.assign_source_idx (length headers) buckets located)
        as [b2 rest'].
      cbn [fst snd] in *. destruct IH as (A & B & C & taken & P & F).
      repeat split; [assumption|assumption| |].
      * constructor; [left; reflexivity|assumption].
      * exists taken. split; [exact P|]. cbn [map filter h_source_idx].
        destruct (Z.ltb_spec (Z.of_nat (length headers + 1000)) (Z.of_nat (length headers)));
          [lia|exact F].
Qed.

End BucketFacts.

Lemma Permutation_filter_map {A B} (p : B -> bool) (f : A -> B) (l l' : list A) :
  Permutation l l' -> Permutation (filter p (map f l)) (filter p (map f l')).
Proof.
  induction 1 as [|x l l' _ IH|x y l|l l' l'' _ IH1 _ IH2].
  - constructor.
  - cbn [map filter]. destruct (p (f x)); [constructor|]; exact IH.
  - cbn [map filter]. destruct (p (f x)), (p (f y)); try reflexivity. constructor.
  - etransitivity; eassumption.
Qed.

Lemma buckets_in_range (headers : list HeaderLocator.OracleHeader)
  (buckets : dict HeaderLocator.BucketKey (list nat)) :
  buckets_ok headers buckets ->
  forall j, In j (concat (map snd buckets)) -> j < length headers.
Proof.
  intros Hok j Hj. apply in_concat in Hj as (l & Hl & Hj).
  apply in_map_iff in Hl as ([k l'] & E & Hin). cbn [snd] in E. subst l'.
  destruct (Hok k l j Hin Hj) as (oh & Hoh & _).
  apply nth_error_Some. congruence.
Qed.

Lemma NoDup_map_of_nat (l : list nat) : NoDup l -> NoDup (map Z.of_nat l).
Proof.
  intros H. apply Finite.Injective_map_NoDup; [|exact H].
  intros a b E. lia.
Qed.

(** X11.  In the list [locate_headers_in_lines] returns, under either
    alignment strategy, a [source_idx] below [len(headers)] is the
    position of an outline entry that has the header's number and
    normalised text, and no two located headers share such a position;
    a header that matches no free outline entry gets
    [len(headers) + 1000]. *)
Theorem source_positions_are_distinct
  (similar : text -> text -> bool)
  (align_headers_sequential :
     list HeaderLocator.OracleHeader -> list BodyLine -> list HeaderLocator.SeqEntry)
  (cfg : Config) (headers : list HeaderLocator.OracleHeader)
  (lines : list BodyLine) (excluded_pages : list Z) :
  let located :=
    HeaderLocator.locate_headers_in_lines similar align_headers_sequential cfg headers
      lines excluded_pages in
  NoDup (filter (fun i => (i <? Z.of_nat (length headers))%Z) (map h_source_idx located))
  /\ Forall (source_position_ok headers) located.
Proof.
  cbv zeta. unfold HeaderLocator.locate_headers_in_lines.
  destruct (index_buckets_ok headers) as [ND Hok].
  pose proof (buckets_in_range headers _ Hok) as Hlt.
  assert (Hsorted : forall l : list Header,
             NoDup (filter (fun i => (i <? Z.of_nat (length headers))%Z)
                      (map h_source_idx l)) ->
             Forall (source_position_ok headers) l ->
             NoDup (filter (fun i => (i <? Z.of_nat (length headers))%Z)
                      (map h_source_idx (sorted HeaderLocator.by_source_then_gid l)))
             /\ Forall (source_position_ok headers)
                  (sorted HeaderLocator.by_source_then_gid l)).
  { intros l H1 H2. split.
    - eapply Permutation_NoDup; [|exact H1].
      apply Permutation_filter_map. symmetry. apply sorted_perm.
    - rewrite Forall_forall in *. intros x Hx. apply H2.
      apply (proj1 (sorted_In _ HeaderLocator.by_source_then_gid _ _)). exact Hx. }
  destruct (HEADERS_ALIGN_SEQUENTIAL cfg).
  - set (seqh := if HeaderLocator.low_coverage _ _ then [] else _).
    pose proof (assign_source_idx_spec headers (map HeaderLocator.located_of seqh)
                  _ Hok Hlt) as S1.
    cbv zeta in S1.
    destruct (HeaderLocator.assign_source_idx (length headers)
                (HeaderLocator.index_buckets headers) (map HeaderLocator.located_of seqh))
      as [b1 l1].
    cbn [fst snd] in S1. destruct S1 as (Hok1 & Hlt1 & V1 & taken1 & P1 & F1).
    set (remaining := filter _ headers).
    destruct remaining as [|r0 rs] eqn:Er.
    + apply Hsorted; [|exact V1]. rewrite F1. apply NoDup_map_of_nat.
      apply (Permutation_NoDup P1) in ND. apply NoDup_app_remove_r in ND. exact ND.
    + rewrite <- Er. clear Er.
      set (legacy := HeaderLocator._locate_headers_legacy similar remaining _ excluded_pages).
      pose proof (assign_source_idx_spec headers legacy _ Hok1 Hlt1) as S2.
      cbv zeta in S2.
      destruct (HeaderLocator.assign_source_idx (length headers) b1 legacy) as [b2 l2].
      cbn [fst snd] in *. destruct S2 as (_ & _ & V2 & taken2 & P2 & F2).
      apply Hsorted; [|apply Forall_app; split; assumption].
      rewrite map_app, filter_app, F1, F2, <- map_app. apply NoDup_map_of_nat.
      assert (P : Permutation (concat (map snd (HeaderLocator.index_buckets headers)))
                    ((taken1 ++ taken2) ++ concat (map snd b2))).
      { etransitivity; [exact P1|]. rewrite <- app_assoc.
        apply Permutation_app_head. exact P2. }
      apply (Permutation_NoDup P) in ND. apply NoDup_app_remove_r in ND. exact ND.
  - set (legacy := HeaderLocator._locate_headers_legacy similar headers lines excluded_pages).
    pose proof (assign_source_idx_spec headers legacy _ Hok Hlt) as S1.
    cbv zeta in S1.
    destruct (HeaderLocator.assign_source_idx (length headers)
                (HeaderLocator.index_buckets headers) legacy) as [b1 l1].
    cbn [fst snd] in *. destruct S1 as (_ & _ & V1 & taken1 & P1 & F1).
    apply Hsorted; [|exact V1]. rewrite F1. apply NoDup_map_of_nat.
    apply (Permutation_NoDup P1) in ND. apply NoDup_app_remove_r in ND. exact ND.
Qed.

(** ** Token chunks and the prompt text *)

Lemma split_loop_spec (fuel : nat) :
  forall (char_limit : nat) (rest : text),
    1 <= char_limit -> length rest <= fuel ->
    concat (TokenChunk.split_loop fuel char_limit rest) = rest
    /\ Forall (fun seg => seg <> [] /\ length seg <= char_limit)
         (TokenChunk.split_loop fuel char_limit rest).
Proof.
  induction fuel as [|f IH]; intros cl rest Hcl Hlen.
  - destruct rest; [split; [reflexivity|constructor]|cbn in Hlen; lia].
  - cbn [TokenChunk.split_loop]. destruct rest as [|c rest]; [split; [reflexivity|constructor]|].
    destruct (IH cl (skipn cl (c :: rest)) Hcl) as [E F].
    { rewrite length_skipn. cbn [length] in *. lia. }
    split.
    + cbn [concat]. rewrite E. apply firstn_skipn.
    + constructor; [|exact F]. split.
      * destruct cl; [lia|]. discriminate.
      * rewrite length_firstn. lia.
Qed.

Lemma token_count_bound (seg : text) (limit : nat) :
  1 <= limit -> length seg <= 4 * limit -> TokenChunk.rough_token_count seg <= limit.
Proof.
  intros Hl Hlen. unfold TokenChunk.rough_token_count.
  destruct seg as [|c seg]; [exact Hl|].
  apply Nat.max_lub; [exact Hl|].
  apply Nat.lt_succ_r. apply Nat.Div0.div_lt_upper_bound. lia.
Qed.

Lemma split_block_spec (t : text) (limit_tokens : Z) :
  concat (TokenChunk._split_block t limit_tokens) = t
  /\ ((1 <= limit_tokens)%Z ->
      Forall (fun seg => (Z.of_nat (TokenChunk.rough_token_count seg) <= limit_tokens)%Z)
        (TokenChunk._split_block t limit_tokens))
  /\ ((Z.of_nat (TokenChunk.rough_token_count t) <= limit_tokens)%Z ->
      TokenChunk._split_block t limit_tokens = [t]).
Proof.
  unfold TokenChunk._split_block. destruct t as [|c t].
  - repeat split. intros H. constructor; [cbn; lia|constructor].
  - destruct (Z.leb_spec (Z.of_nat (TokenChunk.rough_token_count (c :: t))) limit_tokens)
      as [Hfit|Hbig].
    + repeat split; [cbn [concat]; apply app_nil_r|].
      intros _. constructor; [exact Hfit|constructor].
    + destruct (split_loop_spec (length (c :: t))
                  (Z.to_nat (Z.max 1 (limit_tokens * 4))) (c :: t)) as [E F];
        [lia|apply Nat.le_refl|].
      split; [exact E|]. split; [|lia].
      intros Hl. revert F. apply Forall_impl. intros seg [_ Hlen].
      pose proof (token_count_bound seg (Z.to_nat limit_tokens)) as B.
      assert (TokenChunk.rough_token_count seg <= Z.to_nat limit_tokens) by (apply B; lia).
      lia.
Qed.

Lemma join_app (sep : text) (l1 l2 : list text) :
  l1 <> [] -> l2 <> [] ->
  PyStr.join sep (l1 ++ l2) = PyStr.join sep l1 ++ sep ++ PyStr.join sep l2.
Proof.
  intros H1 H2. induction l1 as [|x l1 IH]; [contradiction|].
  destruct l1 as [|y l1].
  - cbn [app]. rewrite join_cons. destruct l2; [contradiction|reflexivity].
  - cbn [app] in *. rewrite (join_cons sep x), (join_cons sep x (y :: l1)).
    rewrite IH by discriminate. rewrite <- !app_assoc. reflexivity.
Qed.

Lemma join_of_joins (sep : text) (gs : list (list text)) :
  Forall (fun g => g <> []) gs ->
  PyStr.join sep (map (PyStr.join sep) gs) = PyStr.join sep (concat gs).
Proof.
  induction 1 as [|g gs Hg Hgs IH]; [reflexivity|].
  cbn [map concat]. rewrite join_cons.
  destruct gs as [|g2 gs].
  - cbn. rewrite !app_nil_r. reflexivity.
  - rewrite IH. cbn [map]. rewrite join_app; [reflexivity|exact Hg|].
    inversion Hgs as [|? ? Hg2 _]; subst. cbn [concat].
    destruct g2; [contradiction|discriminate].
Qed.

Lemma group_tokens_app (g : list text) (s : text) :
  group_tokens (g ++ [s]) = (group_tokens g + Z.of_nat (TokenChunk.rough_token_count s))%Z.
Proof.
  unfold group_tokens. induction g as [|x g IH]; cbn [app map fold_right]; [lia|].
  rewrite IH. lia.
Qed.

Lemma add_segment_inv (limit_tokens : Z) (st : TokenChunk.GroupState) (segment : text) :
  TokenChunk.current_tokens st = group_tokens (TokenChunk.current st) ->
  (group_tokens (TokenChunk.current st) <= limit_tokens)%Z ->
  Forall (group_within limit_tokens) (TokenChunk.groups st) ->
  (Z.of_nat (TokenChunk.rough_token_count segment) <= limit_tokens)%Z ->
  let st' := TokenChunk.add_segment limit_tokens st segment in
  TokenChunk.current_tokens st' = group_tokens (TokenChunk.current st')
  /\ (group_tokens (TokenChunk.current st') <= limit_tokens)%Z
  /\ Forall (group_within limit_tokens) (TokenChunk.groups st')
  /\ TokenChunk.current st' <> []
  /\ concat (TokenChunk.groups st') ++ TokenChunk.current st'
     = (concat (TokenChunk.groups st) ++ TokenChunk.current st) ++ [segment].
Proof.
  intros Ht Hc Hg Hs. cbv zeta. unfold TokenChunk.add_segment.
  destruct (TokenChunk.current st) as [|c0 cs] eqn:Ec.
  - cbn [TokenChunk.groups TokenChunk.current TokenChunk.current_tokens].
    rewrite !Ec, Ht, (group_tokens_app [] segment), app_nil_r.
    repeat split; try assumption; try discriminate;
      unfold group_tokens in *; cbn [map fold_right] in *; lia.
  - destruct (Z.ltb_spec limit_tokens
                (TokenChunk.current_tokens st
                 + Z.of_nat (TokenChunk.rough_token_count segment))) as [Hover|Hfit];
      cbn [TokenChunk.groups TokenChunk.current TokenChunk.current_tokens].
    + rewrite (group_tokens_app [] segment). cbn [app].
      repeat split; try discriminate;
        try (unfold group_tokens; cbn [map fold_right]; lia).
      * apply Forall_app. split; [exact Hg|]. constructor; [|constructor].
        split; [discriminate|exact Hc].
      * rewrite concat_app. cbn [concat]. rewrite app_nil_r, <- !app_assoc. reflexivity.
    + rewrite !Ec, group_tokens_app, Ht.
      repeat split; try assumption; try lia; try discriminate.
      rewrite <- app_assoc. reflexivity.
Qed.

Lemma add_segments_inv (limit_tokens : Z) (segs : list text) :
  forall st : TokenChunk.GroupState,
    TokenChunk.current_tokens st = group_tokens (TokenChunk.current st) ->
    (group_tokens (TokenChunk.current st) <= limit_tokens)%Z ->
    Forall (group_within limit_tokens) (TokenChunk.groups st) ->
    Forall (fun s => (Z.of_nat (TokenChunk.rough_token_count s) <= limit_tokens)%Z) segs ->
    let st' := fold_left (TokenChunk.add_segment limit_tokens) segs st in
    TokenChunk.current_tokens st' = group_tokens (TokenChunk.current st')
    /\ (group_tokens (TokenChunk.current st') <= limit_tokens)%Z
    /\ Forall (group_within limit_tokens) (TokenChunk.groups st')
    /\ concat (TokenChunk.groups st') ++ TokenChunk.current st'
       = (concat (TokenChunk.groups st) ++ TokenChunk.current st) ++ segs.
Proof.
  induction segs as [|s segs IH]; intros st Ht Hc Hg Hs; cbv zeta.
  - cbn [fold_left]. rewrite app_nil_r. repeat split; assumption.
  - cbn [fold_left]. inversion Hs as [|? ? Hs1 Hs2]; subst.
    destruct (add_segment_inv limit_tokens st s Ht Hc Hg Hs1) as (A & B & C & _ & E).
    destruct (IH _ A B C Hs2) as (A' & B' & C' & E').
    repeat split; try assumption.
    rewrite E', E, <- !app_assoc. reflexivity.
Qed.

Lemma token_groups_spec (blocks : list text) (limit_tokens : Z) :
  (1 <= limit_tokens)%Z ->
  Forall (group_within limit_tokens) (TokenChunk.token_groups blocks limit_tokens)
  /\ concat (TokenChunk.token_groups blocks limit_tokens) = segments_of blocks limit_tokens.
Proof.
  intros Hl. unfold TokenChunk.token_groups.
  assert (G : forall (bs : list text) (st : TokenChunk.GroupState),
             TokenChunk.current_tokens st = group_tokens (TokenChunk.current st) ->
             (group_tokens (TokenChunk.current st) <= limit_tokens)%Z ->
             Forall (group_within limit_tokens) (TokenChunk.groups st) ->
             let st' :=
               fold_left
                 (fun st block =>
                    fold_left (TokenChunk.add_segment limit_tokens)
                      (TokenChunk._split_block block limit_tokens) st) bs st in
             (group_tokens (TokenChunk.current st') <= limit_tokens)%Z
             /\ Forall (group_within limit_tokens) (TokenChunk.groups st')
             /\ concat (TokenChunk.groups st') ++ TokenChunk.current st'
                = (concat (TokenChunk.groups st) ++ TokenChunk.current st)
                  ++ segments_of bs limit_tokens).
  { induction bs as [|b bs IH]; intros st Ht Hc Hg; cbv zeta.
    - cbn. rewrite app_nil_r. repeat split; assumption.
    - cbn [fold_left].
      destruct (split_block_spec b limit_tokens) as (_ & Hseg & _).
      destruct (add_segments_inv limit_tokens _ st Ht Hc Hg (Hseg Hl)) as (A & B & C & E).
      destruct (IH _ A B C) as (B' & C' & E').
      repeat split; try assumption.
      rewrite E', E. unfold segments_of. cbn [flat_map]. rewrite <- !app_assoc. reflexivity. }
  destruct (G blocks {| TokenChunk.groups := []; TokenChunk.current := [];
                        TokenChunk.current_tokens := 0 |}) as (B & C & E).
  - reflexivity.
  - unfold group_tokens. cbn. lia.
  - constructor.
  - cbn [TokenChunk.groups TokenChunk.current concat app] in E.
    destruct (TokenChunk.current _) as [|c0 cs] eqn:Ec.
    + rewrite app_nil_r in E. split; assumption.
    + split.
      * apply Forall_app. split; [exact C|]. constructor; [|constructor].
        split; [discriminate|exact B].
      * rewrite concat_app. cbn [concat]. rewrite app_nil_r. exact E.
Qed.

(** X12.  The segments [_split_block] yields for a text, put end to end,
    are the text: nothing is lost or repeated.  With a limit of at least
    one token every segment stays within the limit by
    [rough_token_count], and a text that is within the limit is yielded
    whole. *)
Theorem split_block_keeps_the_text (t : text) (limit_tokens : Z) :
  concat (TokenChunk._split_block t limit_tokens) = t
  /\ ((1 <= limit_tokens)%Z ->
      Forall (fun seg => (Z.of_nat (TokenChunk.rough_token_count seg) <= limit_tokens)%Z)
        (TokenChunk._split_block t limit_tokens))
  /\ ((Z.of_nat (TokenChunk.rough_token_count t) <= limit_tokens)%Z ->
      TokenChunk._split_block t limit_tokens = [t]).
Proof. exact (split_block_spec t limit_tokens). Qed.

Lemma split_parts_spec (blocks : list text) (limit_tokens : Z) :
  (1 <= limit_tokens)%Z ->
  TokenChunk.split_by_token_limit blocks limit_tokens
  = TokenChunk.Parts
      (map (PyStr.join TokenChunk.NEWLINE) (TokenChunk.token_groups blocks limit_tokens))
  /\ PyStr.join TokenChunk.NEWLINE
       (map (PyStr.join TokenChunk.NEWLINE) (TokenChunk.token_groups blocks limit_tokens))
     = PyStr.join TokenChunk.NEWLINE (segments_of blocks limit_tokens).
Proof.
  intros H. unfold TokenChunk.split_by_token_limit.
  destruct (Z.leb_spec limit_tokens 0); [lia|].
  destruct (token_groups_spec blocks limit_tokens H) as [F E].
  split; [reflexivity|].
  rewrite join_of_joins, E; [reflexivity|].
  revert F. apply Forall_impl. intros g [Hne _]. exact Hne.
Qed.

(** X13.  [split_by_token_limit] raises [ValueError] exactly when the
    limit is zero or less.  Otherwise its parts are the newline-joins of
    groups of segments that are never empty, never exceed the limit in
    the sum of their token counts and hold all the segments of all the
    blocks in order; so the parts joined by newlines are the segments
    joined by newlines. *)
Theorem split_by_token_limit_groups (blocks : list text) (limit_tokens : Z) :
  ((limit_tokens <= 0)%Z ->
   TokenChunk.split_by_token_limit blocks limit_tokens = TokenChunk.ValueError)
  /\ ((1 <= limit_tokens)%Z ->
      exists groups,
        TokenChunk.split_by_token_limit blocks limit_tokens
        = TokenChunk.Parts (map (PyStr.join TokenChunk.NEWLINE) groups)
        /\ Forall (group_within limit_tokens) groups
        /\ concat groups = segments_of blocks limit_tokens
        /\ PyStr.join TokenChunk.NEWLINE (map (PyStr.join TokenChunk.NEWLINE) groups)
           = PyStr.join TokenChunk.NEWLINE (segments_of blocks limit_tokens)).
Proof.
  unfold TokenChunk.split_by_token_limit. split; intros H.
  - destruct (Z.leb_spec limit_tokens 0); [reflexivity|lia].
  - destruct (Z.leb_spec limit_tokens 0); [lia|].
    destruct (token_groups_spec blocks limit_tokens H) as [F E].
    exists (TokenChunk.token_groups blocks limit_tokens).
    repeat split; [exact F|exact E|].
    exact (proj2 (split_parts_spec blocks limit_tokens H)).
Qed.

Lemma add_lines_inv (rest : list BodyLine) :
  forall (st : TextBlocks.BlockState) (ghost : list (list text)),
    TextBlocks.buffer st <> [] ->
    TextBlocks.blocks st = map (PyStr.join TokenChunk.NEWLINE) ghost ->
    Forall (fun g => g <> []) ghost ->
    let st' := fold_left TextBlocks.add_line rest st in
    TextBlocks.buffer st' <> []
    /\ exists ghost',
         TextBlocks.blocks st' = map (PyStr.join TokenChunk.NEWLINE) ghost'
         /\ Forall (fun g => g <> []) ghost'
         /\ concat ghost' ++ TextBlocks.buffer st'
            = (concat ghost ++ TextBlocks.buffer st) ++ map l_text rest.
Proof.
  induction rest as [|line rest IH]; intros st ghost Hb Hbl Hg; cbv zeta.
  - cbn [fold_left map]. rewrite app_nil_r. split; [exact Hb|]. exists ghost.
    split; [exact Hbl|]. split; [exact Hg|reflexivity].
  - cbn [fold_left].
    destruct (negb (l_page line =? TextBlocks.current_page st)%Z) eqn:Hpage.
    + assert (Es : TextBlocks.add_line st line
                   = {| TextBlocks.blocks :=
                          TextBlocks.blocks st
                          ++ [PyStr.join TokenChunk.NEWLINE (TextBlocks.buffer st)];
                        TextBlocks.current_page := l_page line;
                        TextBlocks.buffer := [l_text line] |}).
      { unfold TextBlocks.add_line. rewrite Hpage. reflexivity. }
      rewrite Es.
      destruct (IH {| TextBlocks.blocks :=
                        TextBlocks.blocks st
                        ++ [PyStr.join TokenChunk.NEWLINE (TextBlocks.buffer st)];
                      TextBlocks.current_page := l_page line;
                      TextBlocks.buffer := [l_text line] |}
                   (ghost ++ [TextBlocks.buffer st])) as (A & ghost' & B & C & D).
      * cbn. discriminate.
      * cbn [TextBlocks.blocks]. rewrite map_app, Hbl. reflexivity.
      * apply Forall_app. split; [exact Hg|]. constructor; [exact Hb|constructor].
      * split; [exact A|]. exists ghost'. split; [exact B|]. split; [exact C|].
        rewrite D. cbn [TextBlocks.buffer map]. rewrite concat_app. cbn [concat].
        rewrite app_nil_r, <- !app_assoc. reflexivity.
    + assert (Es : TextBlocks.add_line st line
                   = {| TextBlocks.blocks := TextBlocks.blocks st;
                        TextBlocks.current_page := TextBlocks.current_page st;
                        TextBlocks.buffer := TextBlocks.buffer st ++ [l_text line] |}).
      { unfold TextBlocks.add_line. rewrite Hpage. reflexivity. }
      rewrite Es.
      destruct (IH {| TextBlocks.blocks := TextBlocks.blocks st;
                      TextBlocks.current_page := TextBlocks.current_page st;
                      TextBlocks.buffer := TextBlocks.buffer st ++ [l_text line] |}
                   ghost) as (A & ghost' & B & C & D).
      * cbn. destruct (TextBlocks.buffer st); discriminate.
      * exact Hbl.
      * exact Hg.
      * split; [exact A|]. exists ghost'. split; [exact B|]. split; [exact C|].
        rewrite D. cbn [TextBlocks.buffer map]. rewrite <- !app_assoc. reflexivity.
Qed.

Lemma build_text_blocks_join (lines : list BodyLine) (excluded_pages : list Z) :
  PyStr.join TokenChunk.NEWLINE (TextBlocks._build_text_blocks lines excluded_pages)
  = PyStr.join TokenChunk.NEWLINE (map l_text (TextBlocks.kept lines excluded_pages))
  /\ TextBlocks._build_text_blocks lines excluded_pages <> [].
Proof.
  unfold TextBlocks._build_text_blocks.
  destruct (TextBlocks.kept lines excluded_pages) as [|first rest]; [split; [reflexivity|discriminate]|].
  cbn [fold_left].
  assert (Es : TextBlocks.add_line
                 {| TextBlocks.blocks := []; TextBlocks.current_page := l_page first;
                    TextBlocks.buffer := [] |} first
               = {| TextBlocks.blocks := []; TextBlocks.current_page := l_page first;
                    TextBlocks.buffer := [l_text first] |}).
  { unfold TextBlocks.add_line. cbn [TextBlocks.current_page].
    rewrite Z.eqb_refl. reflexivity. }
  rewrite Es.
  destruct (add_lines_inv rest
              {| TextBlocks.blocks := []; TextBlocks.current_page := l_page first;
                 TextBlocks.buffer := [l_text first] |} [])
    as (A & ghost' & B & C & D); [cbn; discriminate|reflexivity|constructor|].
  cbn [concat app TextBlocks.buffer] in D.
  destruct (TextBlocks.buffer _) as [|b0 bs] eqn:Eb; [contradiction|].
  rewrite B. split; [|destruct ghost'; discriminate].
  change (map (PyStr.join TokenChunk.NEWLINE) ghost'
          ++ [PyStr.join TokenChunk.NEWLINE (b0 :: bs)])
    with (map (PyStr.join TokenChunk.NEWLINE) ghost'
          ++ map (PyStr.join TokenChunk.NEWLINE) [b0 :: bs]).
  rewrite <- map_app, join_of_joins.
  - rewrite concat_app. cbn [concat]. rewrite app_nil_r, D. reflexivity.
  - apply Forall_app. split; [exact C|]. constructor; [discriminate|constructor].
Qed.

(** X14.  The prompt text loses no line: the blocks of
    [_build_text_blocks], joined by newlines, are the texts of the lines
    that are neither on an excluded page nor flagged as running, joined
    by newlines in stream order, and there is always at least one block.
    When every block is within the token limit, the parts
    [split_by_token_limit] makes of the blocks, joined by newlines, are
    that same text. *)
Theorem prompt_text_keeps_every_line
  (lines : list BodyLine) (excluded_pages : list Z) (limit_tokens : Z) :
  let blocks := TextBlocks._build_text_blocks lines excluded_pages in
  let kept_text :=
    PyStr.join TokenChunk.NEWLINE (map l_text (TextBlocks.kept lines excluded_pages)) in
  PyStr.join TokenChunk.NEWLINE blocks = kept_text
  /\ blocks <> []
  /\ ((1 <= limit_tokens)%Z ->
      Forall (fun b => (Z.of_nat (TokenChunk.rough_token_count b) <= limit_tokens)%Z) blocks ->
      exists parts,
        TokenChunk.split_by_token_limit blocks limit_tokens = TokenChunk.Parts parts
        /\ PyStr.join TokenChunk.NEWLINE parts = kept_text).
Proof.
  cbv zeta. destruct (build_text_blocks_join lines excluded_pages) as [E Hne].
  split; [exact E|]. split; [exact Hne|].
  intros Hl Hfit.
  destruct (split_parts_spec (TextBlocks._build_text_blocks lines excluded_pages)
              limit_tokens Hl) as [E1 E2].
  eexists. split; [exact E1|].
  rewrite E2, <- E. f_equal.
  unfold segments_of. clear -Hfit.
  induction Hfit as [|b bs Hb _ IH]; [reflexivity|].
  cbn [flat_map]. destruct (split_block_spec b limit_tokens) as (_ & _ & Hs).
  rewrite (Hs Hb), IH. reflexivity.
Qed.

(** ** Running texts and page bands *)

Lemma nodup_constant (l : list Z) (p : Z) :
  (forall x, In x l -> x = p) -> length (nodup Z.eq_dec l) <= 1.
Proof.
  intros H. pose proof (NoDup_nodup Z.eq_dec l) as ND.
  assert (Hin : forall x, In x (nodup Z.eq_dec l) -> x = p).
  { intros x Hx. apply H. apply (nodup_In Z.eq_dec). exact Hx. }
  destruct (nodup Z.eq_dec l) as [|a [|b r]]; cbn [length]; try lia.
  exfalso. inversion ND as [|? ? Hn _]; subst. apply Hn.
  rewrite (Hin a (or_introl eq_refl)), (Hin b (or_intror (or_introl eq_refl))). now left.
Qed.

(** X15.  A line stream whose lines all lie on one page has no running
    texts: [detect_running_header_footer] needs a text in the band of at
    least two pages, whatever the band size. *)
Theorem one_page_has_no_running_texts
  (cfg : Config) (lines : list HeadersSequential.Line) (band : option Z) (p : Z) :
  (forall line, In line lines -> HeadersSequential.page line = p) ->
  HeadersSequential.detect_running_header_footer cfg lines band = [].
Proof.
  intros Hpage.
  destruct (HeadersSequential.detect_running_header_footer cfg lines band) as [|t ts] eqn:E;
    [reflexivity|exfalso].
  assert (Hin : In t (HeadersSequential.detect_running_header_footer cfg lines band))
    by (rewrite E; now left).
  apply running_member in Hin. cbv zeta in Hin. destruct Hin as [_ Hin].
  assert (Hpages : length (pages_of lines) <= 1).
  { unfold pages_of. apply (nodup_constant _ p). intros x Hx.
    apply in_map_iff in Hx as (line & <- & Hl). apply Hpage. exact Hl. }
  pose proof (count_le_length
                (fun q => mem PyStr.eqb t
                            (HeadersSequential.page_candidates
                               (Z.to_nat match band with
                                         | Some b => b
                                         | None => HEADERS_BAND_LINES cfg
                                         end) (lines_on q lines)))
                (pages_of lines)) as Hc.
  unfold pages_showing in Hin.
  pose proof (Nat.le_max_l 2 (3 * length (pages_of lines) / 5)). lia.
Qed.

Lemma one_page_has_no_running_texts_witness :
  HeadersSequential.detect_running_header_footer default_config
    [seq_line "Rev 2" 1 0; seq_line "Body" 1 1; seq_line "Rev 2" 1 2] None = [].
Proof.
  apply (one_page_has_no_running_texts default_config _ None 1%Z).
  intros line [<-|[<-|[<-|[]]]]; reflexivity.
Defined.

Lemma dict_get_values {K V W} (keq : K -> K -> bool) (F : V -> W) (d : dict K V) (k : K) :
  dict_get keq (map (fun e => (fst e, F (snd e))) d) k = option_map F (dict_get keq d k).
Proof.
  induction d as [|[k' v] d IH]; [reflexivity|].
  cbn [map dict_get fst snd]. destruct (keq k k'); [reflexivity|exact IH].
Qed.

Lemma dict_set_absent {K V} (keq : K -> K -> bool) (d : dict K V) (k : K) (v : V) :
  dict_get keq d k = None -> dict_set keq d k v = d ++ [(k, v)].
Proof.
  induction d as [|[k' v'] d IH]; [reflexivity|].
  cbn [dict_get dict_set app]. destruct (keq k k'); [discriminate|].
  intros H. rewrite (IH H). reflexivity.
Qed.

Lemma positions_fold (l : list HeadersSequential.Line) :
  forall (s : nat) (d : dict Z nat),
    NoDup (map fst d ++ map HeadersSequential.global_idx l) ->
    fold_left (fun m il => dict_set Z.eqb m (HeadersSequential.global_idx (snd il)) (fst il))
      (combine (seq s (length l)) l) d
    = d ++ map (fun il => (HeadersSequential.global_idx (snd il), fst il))
             (combine (seq s (length l)) l).
Proof.
  induction l as [|x l IH]; intros s d ND.
  - cbn. rewrite app_nil_r. reflexivity.
  - cbn [length seq combine fold_left map fst snd].
    rewrite dict_set_absent.
    + rewrite IH.
      * rewrite <- app_assoc. reflexivity.
      * rewrite map_app. cbn [map fst]. rewrite <- app_assoc. exact ND.
    + apply (dict_get_none_keys _ _ Z.eqb Zeqb_spec).
      cbn [map] in ND. apply NoDup_remove_2 in ND. intros H. apply ND.
      apply in_app_iff. now left.
Qed.

Lemma kept_lines_distinct (keep : HeadersSequential.Line -> bool)
  (lines : list HeadersSequential.Line) :
  NoDup (map HeadersSequential.global_idx lines) ->
  NoDup (map HeadersSequential.global_idx (filter keep lines)).
Proof.
  induction lines as [|ln lines IH]; cbn [map filter]; intros ND; [constructor|].
  inversion ND as [|? ? Hfresh ND']; subst.
  destruct (keep ln); [|exact (IH ND')].
  cbn [map]. constructor; [|exact (IH ND')].
  intros Hin. apply Hfresh. apply in_map_iff in Hin. destruct Hin as (other & E & Ho).
  apply filter_In in Ho. apply in_map_iff. exists other. tauto.
Qed.

Lemma dict_set_keeps_keys {K V} (keq : K -> K -> bool) (d : dict K V) (k k0 : K) (v : V) :
  In k0 (map fst d) -> In k0 (map fst (dict_set keq d k v)).
Proof.
  induction d as [|[k' v'] d IH]; [intros []|].
  cbn [dict_set map fst]. destruct (keq k k'); cbn [map fst]; [tauto|].
  intros [H|H]; [now left|right; apply IH; exact H].
Qed.

Lemma dict_set_has_key {K V} (keq : K -> K -> bool)
  (keq_spec : forall a b, keq a b = true <-> a = b) (d : dict K V) (k : K) (v : V) :
  In k (map fst (dict_set keq d k v)).
Proof.
  induction d as [|[k' v'] d IH]; [now left|].
  cbn [dict_set]. destruct (keq k k') eqn:E; cbn [map fst].
  - left. symmetry. apply keq_spec. exact E.
  - right. exact IH.
Qed.

Lemma page_positions_get (lines : list HeadersSequential.Line) (p : Z) :
  In p (map HeadersSequential.page lines) ->
  dict_get Z.eqb (Invariants.page_positions lines) p
  = Some (let ordered := sorted HeadersSequential.gid_leb (lines_on p lines) in
          fold_left
            (fun m il => dict_set Z.eqb m (HeadersSequential.global_idx (snd il)) (fst il))
            (combine (seq 0 (length ordered)) ordered) []).
Proof.
  intros Hp. unfold Invariants.page_positions.
  rewrite (dict_get_values Z.eqb
             (fun v => let ordered := sorted HeadersSequential.gid_leb v in
                       fold_left
                         (fun m il =>
                            dict_set Z.eqb m (HeadersSequential.global_idx (snd il)) (fst il))
                         (combine (seq 0 (length ordered)) ordered) [])).
  destruct (group_by_spec _ _ Z.eqb HeadersSequential.page Zeqb_spec lines) as (_ & Hk & Hg).
  rewrite Hg by (apply Hk; exact Hp). reflexivity.
Qed.

Lemma page_positions_none (lines : list HeadersSequential.Line) (p : Z) :
  ~ In p (map HeadersSequential.page lines) ->
  dict_get Z.eqb (Invariants.page_positions lines) p = None.
Proof.
  intros Hp. unfold Invariants.page_positions.
  rewrite (dict_get_values Z.eqb
             (fun v => let ordered := sorted HeadersSequential.gid_leb v in
                       fold_left
                         (fun m il =>
                            dict_set Z.eqb m (HeadersSequential.global_idx (snd il)) (fst il))
                         (combine (seq 0 (length ordered)) ordered) [])).
  destruct (group_by_spec _ _ Z.eqb HeadersSequential.page Zeqb_spec lines) as (_ & Hk & _).
  destruct (dict_get Z.eqb (group_by Z.eqb HeadersSequential.page lines) p) eqn:E;
    [|reflexivity].
  exfalso. apply Hp. apply Hk.
  eapply (dict_get_some_keys _ _ Z.eqb Zeqb_spec). exact E.
Qed.

Lemma combine_seq_in {A} (l : list A) (s i : nat) (x : A) :
  In (i, x) (combine (seq s (length l)) l) -> s <= i < s + length l.
Proof.
  intros H. apply in_combine_l in H. apply in_seq in H. exact H.
Qed.

(** X16.  The page band of [in_page_band] over the positions of
    [page_positions].  A line whose page has at most [band] lines is
    always in the band.  When the lines carry pairwise distinct
    [global_idx] values, a band of zero lines or less holds no line. *)
Theorem page_band_edges
  (lines : list HeadersSequential.Line) (ln : HeadersSequential.Line) (band : Z) :
  (In ln lines ->
   (Z.of_nat (length (lines_on (HeadersSequential.page ln) lines)) <= band)%Z ->
   Invariants.in_page_band ln (Invariants.page_positions lines) band = true)
  /\ (NoDup (map HeadersSequential.global_idx lines) ->
      (band <= 0)%Z ->
      Invariants.in_page_band ln (Invariants.page_positions lines) band = false).
Proof.
  unfold Invariants.in_page_band. split.
  - intros Hin Hband.
    rewrite page_positions_get by (apply in_map; exact Hin). cbv zeta.
    set (ordered := sorted HeadersSequential.gid_leb
                      (lines_on (HeadersSequential.page ln) lines)).
    set (positions :=
           fold_left
             (fun (m : dict Z nat) (il : nat * HeadersSequential.Line) =>
                dict_set Z.eqb m (HeadersSequential.global_idx (snd il)) (fst il))
             (combine (seq 0 (length ordered)) ordered) []).
    assert (Hord : In ln ordered).
    { apply (proj2 (sorted_In _ HeadersSequential.gid_leb _ _)).
      unfold lines_on, filed. apply filter_In. split; [exact Hin|apply Z.eqb_refl]. }
    assert (Hlen : length ordered = length (lines_on (HeadersSequential.page ln) lines))
      by apply sorted_length.
    assert (Hval : forall g pos, dict_get Z.eqb positions g = Some pos -> pos < length ordered).
    { intros g pos Hg. unfold positions in Hg.
      assert (G : forall (todo : list (nat * HeadersSequential.Line)) (d : dict Z nat),
                 (forall k v, In (k, v) d -> v < length ordered) ->
                 (forall i x, In (i, x) todo -> i < length ordered) ->
                 forall k v,
                   In (k, v)
                     (fold_left
                        (fun m il =>
                           dict_set Z.eqb m (HeadersSequential.global_idx (snd il)) (fst il))
                        todo d) -> v < length ordered).
      { induction todo as [|[i x] todo IHt]; intros d Hd Ht k v Hkv; [eapply Hd; exact Hkv|].
        cbn [fold_left fst snd] in Hkv. eapply IHt; [| |exact Hkv].
        - intros k' v' Hin'. apply dict_set_In in Hin'.
          destruct Hin' as [->|Hin']; [apply (Ht i x); now left|eapply Hd; exact Hin'].
        - intros i' x' Hin'. apply (Ht i' x'). now right. }
      destruct (dict_get_In _ _ _ _ Hg) as (k0 & Hk0).
      eapply G; [| |exact Hk0].
      - intros k v [].
      - intros i x Hix. apply combine_seq_in in Hix. lia. }
    assert (Hkey : exists pos, dict_get Z.eqb positions (HeadersSequential.global_idx ln)
                               = Some pos).
    { destruct (dict_get Z.eqb positions (HeadersSequential.global_idx ln)) eqn:E; [eauto|].
      exfalso. apply (dict_get_none_keys _ _ Z.eqb Zeqb_spec) in E. apply E.
      unfold positions. clear -Hord.
      assert (G : forall (l : list HeadersSequential.Line) s (d : dict Z nat),
                 In ln l \/ In (HeadersSequential.global_idx ln) (map fst d) ->
                 In (HeadersSequential.global_idx ln)
                   (map fst
                      (fold_left
                         (fun m il =>
                            dict_set Z.eqb m (HeadersSequential.global_idx (snd il)) (fst il))
                         (combine (seq s (length l)) l) d))).
      { induction l as [|x l IHl]; intros s d H.
        - destruct H as [[]|H]. exact H.
        - cbn [length seq combine fold_left fst snd]. apply IHl.
          destruct H as [[->|H]|H].
          + right. apply (dict_set_has_key Z.eqb Zeqb_spec).
          + now left.
          + right. apply dict_set_keeps_keys. exact H. }
      apply G. now left. }
    destruct Hkey as (pos & Hpos). rewrite Hpos.
    destruct positions as [|e es] eqn:Ep; [discriminate|].
    apply orb_true_iff. left. apply Z.ltb_lt.
    specialize (Hval _ _ Hpos). lia.
  - intros ND Hband.
    destruct (in_dec Z.eq_dec (HeadersSequential.page ln) (map HeadersSequential.page lines))
      as [Hp|Hp]; [|rewrite page_positions_none by exact Hp; reflexivity].
    rewrite page_positions_get by exact Hp. cbv zeta.
    set (ordered := sorted HeadersSequential.gid_leb
                      (lines_on (HeadersSequential.page ln) lines)).
    rewrite positions_fold.
    + cbn [app].
      set (positions := map _ (combine (seq 0 (length ordered)) ordered)).
      destruct positions as [|e es] eqn:Ep; [reflexivity|]. rewrite <- Ep.
      destruct (dict_get Z.eqb positions (HeadersSequential.global_idx ln)) as [pos|] eqn:E;
        [|reflexivity].
      destruct (dict_get_In _ _ _ _ E) as (k0 & Hk0).
      unfold positions in Hk0. apply in_map_iff in Hk0 as ([i x] & Eix & Hix).
      cbn [fst snd] in Eix. inversion Eix; subst.
      apply combine_seq_in in Hix.
      assert (Hl : length positions = length ordered).
      { unfold positions. rewrite length_map, length_combine, length_seq. apply Nat.min_id. }
      rewrite Hl. apply orb_false_iff. split; [apply Z.ltb_ge; lia|apply Z.leb_gt; lia].
    + cbn [map app].
      eapply Permutation_NoDup; [symmetry; apply sorted_map_perm|].
      unfold lines_on, filed. apply kept_lines_distinct. exact ND.
Qed.

(** ** Numbering gaps *)

Lemma kind_eqb_spec (a b : HeadersOrchestrator.Kind) :
  HeadersOrchestrator.kind_eqb a b = true <-> a = b.
Proof. destruct a, b; cbn; split; intros E; try discriminate; reflexivity. Qed.

Lemma list_eqb_spec {A} (eq : A -> A -> bool) :
  (forall a b, eq a b = true <-> a = b) ->
  forall a b : list A, HeadersOrchestrator.list_eqb eq a b = true <-> a = b.
Proof.
  intros H a. induction a as [|x a IH]; intros [|y b]; cbn; split; intros E;
    try discriminate; try reflexivity.
  - apply andb_true_iff in E as [E1 E2]. f_equal; [apply H; exact E1|apply IH; exact E2].
  - inversion E; subst. apply andb_true_iff. split; [apply H|apply IH]; reflexivity.
Qed.

Lemma group_key_eqb_spec (a b : HeadersOrchestrator.GroupKey) :
  HeadersOrchestrator.group_key_eqb a b = true <-> a = b.
Proof.
  destruct a as [pa ka], b as [pb kb]. unfold HeadersOrchestrator.group_key_eqb. cbn [fst snd].
  rewrite andb_true_iff, (opt_eqb_spec _ kind_eqb_spec).
  rewrite (list_eqb_spec
             (fun x y : option HeadersOrchestrator.Kind * option Z =>
                HeadersOrchestrator.opt_eqb HeadersOrchestrator.kind_eqb (fst x) (fst y)
                && HeadersOrchestrator.opt_eqb Z.eqb (snd x) (snd y))).
  - split; [intros [-> ->]; reflexivity|intros E; inversion E; auto].
  - intros [k1 v1] [k2 v2]. cbn [fst snd].
    rewrite andb_true_iff, (opt_eqb_spec _ kind_eqb_spec), (opt_eqb_spec _ Z.eqb_eq).
    split; [intros [-> ->]; reflexivity|intros E; inversion E; auto].
Qed.

Lemma extract_components_valued (number : option text) :
  Forall (fun c => exists k v, HeadersOrchestrator.kind c = Some k
                               /\ HeadersOrchestrator.value c = Some v)
    (HeadersOrchestrator._extract_components number).
Proof.
  unfold HeadersOrchestrator._extract_components.
  destruct number as [[|c0 n]|]; try constructor.
  apply Forall_map.
  eapply Forall_impl; [|apply (findall_from_tokens _ [] (c0 :: n))].
  intros t [Hne [Hd|Ha]].
  - rewrite (isdigit_token t Hne Hd). cbn. eauto.
  - destruct (isalpha_token t Hne Ha) as [-> ->]. cbn. eauto.
Qed.

Lemma value_range_spec (start stop v : Z) :
  In v (HeadersOrchestrator._value_range start stop) <-> (start <= v < stop)%Z.
Proof.
  unfold HeadersOrchestrator._value_range. rewrite in_map_iff. split.
  - intros (i & <- & Hi). apply in_seq in Hi. lia.
  - intros H. exists (Z.to_nat (v - start)). split; [lia|]. apply in_seq. lia.
Qed.

Lemma build_component_fields (v : Z) (k : HeadersOrchestrator.Kind)
  (template : option HeadersOrchestrator.Component) :
  HeadersOrchestrator.kind (HeadersOrchestrator._build_component v k template) = Some k
  /\ HeadersOrchestrator.value (HeadersOrchestrator._build_component v k template) = Some v.
Proof.
  unfold HeadersOrchestrator._build_component. destruct k; [split; reflexivity|].
  destruct (PyStr.islower _); split; reflexivity.
Qed.

Lemma latest_unique (headers : list Header) (n : nat) (key : HeadersOrchestrator.GroupKey)
  (i i' : nat) (v v' : Z) :
  latest_in_group headers n key i v -> latest_in_group headers n key i' v' ->
  i = i' /\ v = v'.
Proof.
  intros (Hi & (h & Hh & Hl) & Hno) (Hi' & (h' & Hh' & Hl') & Hno').
  destruct (Nat.lt_trichotomy i i') as [L|[E|L]].
  - exfalso. apply (Hno i' h' v'); [lia|exact Hh'|exact Hl'].
  - subst i'. split; [reflexivity|]. congruence.
  - exfalso. apply (Hno' i h v); [lia|exact Hh|exact Hl].
Qed.

Lemma latest_extend (headers : list Header) (n : nat) (h : Header)
  (key : HeadersOrchestrator.GroupKey) (i : nat) (v : Z) :
  nth_error headers n = Some h ->
  (forall w, last_component_of h <> Some (key, w)) ->
  latest_in_group headers n key i v -> latest_in_group headers (S n) key i v.
Proof.
  intros Hn Hh (Hi & Hex & Hno). split; [lia|]. split; [exact Hex|].
  intros m hm w Hm Hnth. destruct (Nat.eq_dec m n) as [->|Hne].
  - rewrite Hn in Hnth. inversion Hnth; subst. apply Hh.
  - apply (Hno m hm w); [lia|exact Hnth].
Qed.

Lemma gaps_inv_skip (headers : list Header) (n : nat) (h : Header)
  (st st' : HeadersOrchestrator.GapState) :
  nth_error headers n = Some h ->
  last_component_of h = None ->
  HeadersOrchestrator.missing st' = HeadersOrchestrator.missing st ->
  HeadersOrchestrator.expected_by_key st' = HeadersOrchestrator.expected_by_key st ->
  HeadersOrchestrator.last_index_by_key st' = HeadersOrchestrator.last_index_by_key st ->
  gaps_inv headers n st -> gaps_inv headers (S n) st'.
Proof.
  intros Hn Hl Em Ee El (I1 & I2 & I3 & I4). unfold gaps_inv. rewrite Em, Ee, El.
  split; [|split; [|split]].
  - intros key e He. destruct (I1 key e He) as (i & Hi & Hlat). exists i. split; [exact Hi|].
    apply (latest_extend headers n h); [exact Hn| |exact Hlat].
    intros w. rewrite Hl. discriminate.
  - intros key He m hm w Hm Hnth. destruct (Nat.eq_dec m n) as [->|Hne].
    + rewrite Hn in Hnth. inversion Hnth; subst. rewrite Hl. discriminate.
    + apply (I2 key He m); [lia|exact Hnth].
  - exact I3.
  - intros i j key vi vj v Hj Hs Hv. destruct (Nat.eq_dec j n) as [->|Hne].
    + destruct Hs as ((hj & Hnth & Hlast) & _). rewrite Hn in Hnth. inversion Hnth; subst.
      rewrite Hl in Hlast. discriminate.
    + apply (I4 i j key vi vj v); [lia|exact Hs|exact Hv].
Qed.

Lemma identify_step_inv (headers : list Header) (n : nat) (h : Header)
  (st : HeadersOrchestrator.GapState) :
  nth_error headers n = Some h ->
  gaps_inv headers n st ->
  exists st',
    HeadersOrchestrator.identify_step headers st (n, h) = Ok st'
    /\ gaps_inv headers (S n) st'.
Proof.
  intros Hn Hinv. unfold HeadersOrchestrator.identify_step.
  pose proof (extract_components_valued (h_number h)) as Hval.
  assert (Hlast : last_component_of h
                  = match rev (HeadersOrchestrator._extract_components (h_number h)) with
                    | c :: rev_prefix =>
                        match HeadersOrchestrator.kind c, HeadersOrchestrator.value c with
                        | Some k, Some v =>
                            Some ((HeadersOrchestrator._prefix_key (rev rev_prefix), Some k), v)
                        | _, _ => None
                        end
                    | [] => None
                    end) by reflexivity.
  assert (Hrm : forall c rp,
             rev (HeadersOrchestrator._extract_components (h_number h)) = c :: rp ->
             removelast (HeadersOrchestrator._extract_components (h_number h)) = rev rp).
  { intros c rp E. apply (f_equal (@rev _)) in E. rewrite rev_involutive in E.
    rewrite E. cbn [rev]. apply removelast_last. }
  destruct (rev (HeadersOrchestrator._extract_components (h_number h)))
    as [|last_component rev_prefix] eqn:Erev.
  - eexists. split; [reflexivity|].
    apply (gaps_inv_skip headers n h st); try reflexivity; assumption.
  - assert (Hin : In last_component (HeadersOrchestrator._extract_components (h_number h))).
    { apply in_rev. rewrite Erev. now left. }
    rewrite Forall_forall in Hval. destruct (Hval _ Hin) as (k & v & Hk & Hv).
    rewrite Hk, Hv in *.
    set (key := (HeadersOrchestrator._prefix_key (rev rev_prefix), Some k)) in *.
    destruct Hinv as (I1 & I2 & I3 & I4).
    (* the two dictionaries after the step *)
    assert (Hdicts : forall missing' cache',
               Forall (fun g => exists i j key vi vj v,
                         successive_in_group headers i j key vi vj
                         /\ (vi < v < vj)%Z /\ gap_fills headers g i j key v) missing' ->
               (forall i j key vi vj v,
                   j < S n -> successive_in_group headers i j key vi vj -> (vi < v < vj)%Z ->
                   exists g, In g missing' /\ gap_fills headers g i j key v) ->
               gaps_inv headers (S n)
                 {| HeadersOrchestrator.missing := missing';
                    HeadersOrchestrator.expected_by_key :=
                      dict_set HeadersOrchestrator.group_key_eqb
                        (HeadersOrchestrator.expected_by_key st) key (v + 1)%Z;
                    HeadersOrchestrator.last_index_by_key :=
                      dict_set HeadersOrchestrator.group_key_eqb
                        (HeadersOrchestrator.last_index_by_key st) key n;
                    HeadersOrchestrator.components_cache := cache' |}).
    { intros missing' cache' H3 H4. unfold gaps_inv.
      cbn [HeadersOrchestrator.missing HeadersOrchestrator.expected_by_key
           HeadersOrchestrator.last_index_by_key].
      split; [|split; [|split; [exact H3|exact H4]]].
      - intros key' e'.
        rewrite !(dict_get_set _ _ _ group_key_eqb_spec).
        destruct (HeadersOrchestrator.group_key_eqb key' key) eqn:Ek.
        + apply group_key_eqb_spec in Ek. subst key'. intros E. inversion E; subst e'.
          exists n. split; [reflexivity|].
          replace (v + 1 - 1)%Z with v by lia.
          split; [lia|]. split; [exists h; split; [exact Hn|exact Hlast]|].
          intros m hm w Hm. lia.
        + intros He. destruct (I1 key' e' He) as (i & Hi & Hlat). exists i.
          split; [exact Hi|].
          apply (latest_extend headers n h); [exact Hn| |exact Hlat].
          intros w. rewrite Hlast. intros E. inversion E; subst.
          rewrite (proj2 (group_key_eqb_spec key key) eq_refl) in Ek. discriminate.
      - intros key'. rewrite (dict_get_set _ _ _ group_key_eqb_spec).
        destruct (HeadersOrchestrator.group_key_eqb key' key) eqn:Ek; [discriminate|].
        intros He m hm w Hm Hnth. destruct (Nat.eq_dec m n) as [->|Hne].
        + rewrite Hn in Hnth. inversion Hnth; subst. rewrite Hlast.
          intros E. inversion E; subst.
          rewrite (proj2 (group_key_eqb_spec key key) eq_refl) in Ek. discriminate.
        + apply (I2 key' He m); [lia|exact Hnth]. }
    (* gaps of earlier positions stay *)
    assert (Hold : forall extra i j key0 vi vj v0,
               j < n -> successive_in_group headers i j key0 vi vj -> (vi < v0 < vj)%Z ->
               exists g, In g (HeadersOrchestrator.missing st ++ extra)
                         /\ gap_fills headers g i j key0 v0).
    { intros extra i j key0 vi vj v0 Hj Hs Hv0.
      destruct (I4 i j key0 vi vj v0 Hj Hs Hv0) as (g & Hg & Hf).
      exists g. split; [apply in_or_app; now left|exact Hf]. }
    (* what is known of a pair ending at this header *)
    assert (Hhere : forall i key0 vi vj,
               successive_in_group headers i n key0 vi vj ->
               key0 = key /\ vj = v /\ latest_in_group headers n key i vi).
    { intros i key0 vi vj ((hj & Hnth & Hl) & Hlat). rewrite Hn in Hnth.
      inversion Hnth; subst hj. rewrite Hlast in Hl. injection Hl as Ek Ev.
      subst key0 vj. split; [reflexivity|]. split; [reflexivity|exact Hlat]. }
    destruct (dict_get HeadersOrchestrator.group_key_eqb
                (HeadersOrchestrator.expected_by_key st) key) as [e|] eqn:Ee.
    + destruct (I1 key e Ee) as (li & Hli & Hlat). rewrite Hli.
      destruct (Z.ltb_spec e v) as [Hev|Hev].
      * destruct Hlat as (Hlt & (hi & Hhi & Hlasti) & Hno).
        unfold HeadersOrchestrator.level_at, index. rewrite Hhi. cbn [bind].
        eexists. split; [reflexivity|]. apply Hdicts.
        -- apply Forall_app. split; [exact I3|].
           apply Forall_map. apply Forall_forall. intros mv Hmv.
           apply value_range_spec in Hmv.
           exists li, n, key, (e - 1)%Z, v, mv.
           split; [|split; [lia|]].
           ++ split; [exists h; split; [exact Hn|exact Hlast]|].
              split; [exact Hlt|]. split; [exists hi; split; assumption|exact Hno].
           ++ unfold gap_fills.
              cbn [HeadersOrchestrator.after_index HeadersOrchestrator.insert_position
                   HeadersOrchestrator.gap_level HeadersOrchestrator.components].
              split; [reflexivity|]. split; [lia|].
              split; [exists hi; split; [exact Hhi|reflexivity]|].
              eexists h, _. split; [exact Hn|].
              split; [rewrite (Hrm _ _ eq_refl); reflexivity|].
              apply build_component_fields.
        -- intros i j key0 vi vj v0 Hj Hs Hv0. destruct (Nat.eq_dec j n) as [->|Hne].
           ++ destruct (Hhere i key0 vi vj Hs) as (-> & -> & Hlat').
              destruct (latest_unique headers n key i li vi (e - 1) Hlat') as [-> ->].
              { split; [exact Hlt|]. split; [exists hi; split; assumption|exact Hno]. }
              eexists. split.
              ** apply in_or_app. right. apply in_map. apply value_range_spec.
                 instantiate (1 := v0). lia.
              ** unfold gap_fills.
                 cbn [HeadersOrchestrator.after_index HeadersOrchestrator.insert_position
                      HeadersOrchestrator.gap_level HeadersOrchestrator.components].
                 split; [reflexivity|]. split; [lia|].
                 split; [exists hi; split; [exact Hhi|reflexivity]|].
                 eexists h, _. split; [exact Hn|].
                 split; [rewrite (Hrm _ _ eq_refl); reflexivity|].
                 apply build_component_fields.
           ++ apply Hold with (vi := vi) (vj := vj); [lia|exact Hs|exact Hv0].
      * cbn [bind]. eexists. split; [reflexivity|]. apply Hdicts; [exact I3|].
        intros i j key0 vi vj v0 Hj Hs Hv0. destruct (Nat.eq_dec j n) as [->|Hne].
        -- destruct (Hhere i key0 vi vj Hs) as (-> & -> & Hlat').
           destruct (latest_unique headers n key i li vi (e - 1) Hlat' Hlat) as [-> ->]. lia.
        -- apply (I4 i j key0 vi vj v0); [lia|exact Hs|exact Hv0].
    + cbn [bind]. eexists. split; [reflexivity|]. apply Hdicts; [exact I3|].
      intros i j key0 vi vj v0 Hj Hs Hv0. destruct (Nat.eq_dec j n) as [->|Hne].
      * destruct (Hhere i key0 vi vj Hs) as (-> & -> & (Hlt & (hi & Hhi & Hl) & _)).
        exfalso. apply (I2 key Ee i hi vi Hlt Hhi Hl).
      * apply (I4 i j key0 vi vj v0); [lia|exact Hs|exact Hv0].
Qed.

Lemma identify_loop_inv (headers : list Header) (rest : list Header) :
  forall (done : list Header) (st : HeadersOrchestrator.GapState),
    headers = done ++ rest ->
    gaps_inv headers (length done) st ->
    exists st',
      HeadersOrchestrator.identify_loop headers
        (combine (seq (length done) (length rest)) rest) st = Ok st'
      /\ gaps_inv headers (length headers) st'.
Proof.
  induction rest as [|h rest IH]; intros done st E Hinv.
  - cbn. exists st. split; [reflexivity|]. subst headers. rewrite app_nil_r in *. exact Hinv.
  - cbn [length seq combine HeadersOrchestrator.identify_loop].
    assert (Hn : nth_error headers (length done) = Some h).
    { subst headers. rewrite nth_error_app2, Nat.sub_diag by lia. reflexivity. }
    destruct (identify_step_inv headers (length done) h st Hn Hinv) as (st1 & -> & Hinv1).
    cbn [bind].
    specialize (IH (done ++ [h]) st1). rewrite length_app in IH. cbn [length] in IH.
    rewrite Nat.add_1_r in IH. apply IH; [|exact Hinv1].
    rewrite <- app_assoc. exact E.
Qed.

(** X17.  [_identify_missing_headers] returns one gap for every value
    strictly between the values of two headers that follow each other in
    a group (the same prefix and kind of last component), and nothing
    else: each gap names the earlier header in [after_index], is to be
    inserted right behind it, takes its level, and carries the prefix of
    the later header with a last component of the group's kind and the
    missing value. *)
Theorem missing_headers_fill_value_gaps (headers : list Header) :
  exists gaps,
    HeadersOrchestrator._identify_missing_headers headers = Ok gaps
    /\ Forall (fun g => exists i j key vi vj v,
                 successive_in_group headers i j key vi vj
                 /\ (vi < v < vj)%Z /\ gap_fills headers g i j key v) gaps
    /\ (forall i j key vi vj v,
          successive_in_group headers i j key vi vj -> (vi < v < vj)%Z ->
          exists g, In g gaps /\ gap_fills headers g i j key v).
Proof.
  unfold HeadersOrchestrator._identify_missing_headers.
  destruct (identify_loop_inv headers headers []
              {| HeadersOrchestrator.missing := [];
                 HeadersOrchestrator.expected_by_key := [];
                 HeadersOrchestrator.last_index_by_key := [];
                 HeadersOrchestrator.components_cache := [] |} eq_refl)
    as (st & E & I1 & I2 & I3 & I4).
  - split; [intros key e H; discriminate|].
    split; [intros key _ m hm w Hm; cbn in Hm; lia|].
    split; [constructor|]. intros i j key vi vj v Hj. cbn in Hj. lia.
  - cbn [length] in E. rewrite E. cbn [bind]. eexists. split; [reflexivity|].
    split; [exact I3|].
    intros i j key vi vj v Hs Hv. apply (I4 i j key vi vj v); [|exact Hs|exact Hv].
    destruct Hs as ((hj & Hnth & _) & _). apply nth_error_Some. congruence.
Qed.

(** ** The text of the sections *)

Lemma by_gid_fold (lines : list BodyLine) (g : Z) :
  forall d : dict Z (list text),
    match dict_get Z.eqb
            (fold_left
               (fun d line =>
                  dict_set Z.eqb d (l_global_idx line)
                    (match dict_get Z.eqb d (l_global_idx line) with
                     | Some texts => texts
                     | None => []
                     end ++ [l_text line]))
               lines d) g with
    | Some texts => texts
    | None => []
    end
    = match dict_get Z.eqb d g with Some texts => texts | None => [] end
      ++ map l_text (filter (fun line => (g =? l_global_idx line)%Z) lines).
Proof.
  induction lines as [|line lines IH]; intros d.
  - cbn. rewrite app_nil_r. reflexivity.
  - cbn [fold_left filter]. rewrite IH, (dict_get_set _ _ _ Zeqb_spec).
    destruct (Z.eqb_spec g (l_global_idx line)) as [->|Hne].
    + cbn [map]. rewrite <- app_assoc. reflexivity.
    + reflexivity.
Qed.

Lemma by_gid_spec (lines : list BodyLine) (g : Z) :
  match dict_get Z.eqb (SectionText.by_gid lines) g with Some texts => texts | None => [] end
  = map l_text (filter (fun line => (g =? l_global_idx line)%Z) lines).
Proof. unfold SectionText.by_gid. rewrite (by_gid_fold lines g []). reflexivity. Qed.

Lemma filter_none {A} (p : A -> bool) (l : list A) :
  (forall x, In x l -> p x = false) -> filter p l = [].
Proof.
  induction l as [|x l IH]; intros H; [reflexivity|].
  cbn [filter]. rewrite (H x (or_introl eq_refl)). apply IH. intros y Hy. apply H. now right.
Qed.

Lemma filter_range_app (lines : list BodyLine) (a b c : Z) :
  in_gid_order lines -> (a <= b <= c)%Z ->
  filter (fun line => (a <=? l_global_idx line)%Z && (l_global_idx line <? b)%Z) lines
  ++ filter (fun line => (b <=? l_global_idx line)%Z && (l_global_idx line <? c)%Z) lines
  = filter (fun line => (a <=? l_global_idx line)%Z && (l_global_idx line <? c)%Z) lines.
Proof.
  intros HS Habc. induction HS as [|x l HS IH Hall]; [reflexivity|].
  cbn [filter].
  destruct (Z.leb_spec a (l_global_idx x)), (Z.ltb_spec (l_global_idx x) b),
    (Z.leb_spec b (l_global_idx x)), (Z.ltb_spec (l_global_idx x) c);
    cbn [andb]; try lia; try (cbn [app]; rewrite IH; reflexivity); try exact IH.
  (* the first line of the second range: nothing of the first range follows *)
  rewrite <- IH.
  rewrite (filter_none
             (fun line => (a <=? l_global_idx line)%Z && (l_global_idx line <? b)%Z) l).
  - reflexivity.
  - intros y Hy. rewrite Forall_forall in Hall. specialize (Hall y Hy).
    apply andb_false_iff. right. apply Z.ltb_ge. lia.
Qed.

Lemma collected_in_order (lines : list BodyLine) (start : Z) (n : nat) :
  in_gid_order lines ->
  flat_map (fun g => map l_text (filter (fun line => (g =? l_global_idx line)%Z) lines))
    (map (fun i => (start + Z.of_nat i)%Z) (seq 0 n))
  = map l_text
      (filter (fun line => (start <=? l_global_idx line)%Z
                           && (l_global_idx line <? start + Z.of_nat n)%Z) lines).
Proof.
  intros HS. induction n as [|n IH].
  - cbn [seq map flat_map]. rewrite filter_none; [reflexivity|].
    intros x _. apply andb_false_iff.
    destruct (Z.leb_spec start (l_global_idx x)); [right; apply Z.ltb_ge; lia|now left].
  - rewrite seq_S, map_app, flat_map_app, IH. cbn [Nat.add map flat_map].
    rewrite app_nil_r, <- map_app. f_equal.
    rewrite <- (filter_range_app lines start (start + Z.of_nat n) (start + Z.of_nat (S n)) HS)
      by lia.
    f_equal. apply filter_ext. intros x.
    destruct (Z.eqb_spec (start + Z.of_nat n) (l_global_idx x)) as [E|E],
      (Z.leb_spec (start + Z.of_nat n) (l_global_idx x)),
      (Z.ltb_spec (l_global_idx x) (start + Z.of_nat (S n))); cbn [andb]; try reflexivity; lia.
Qed.

Lemma filter_map_comm {A B} (f : A -> B) (p : B -> bool) (l : list A) :
  filter p (map f l) = map f (filter (fun x => p (f x)) l).
Proof.
  induction l as [|x l IH]; [reflexivity|]. cbn [map filter].
  destruct (p (f x)); cbn [map]; rewrite IH; reflexivity.
Qed.

Lemma filter_filter {A} (p q : A -> bool) (l : list A) :
  filter p (filter q l) = filter (fun x => q x && p x) l.
Proof.
  induction l as [|x l IH]; [reflexivity|]. cbn [filter].
  destruct (q x); cbn [filter andb]; [destruct (p x)|]; rewrite IH; reflexivity.
Qed.

Lemma span_text_spec (lines : list BodyLine) (span : Sections.Span) :
  in_gid_order lines ->
  filter SectionText.nonblank
    (SectionText.collected (SectionText.by_gid lines)
       (Sections.start_global_idx span) (Sections.end_global_idx span))
  = map l_text (span_lines lines span).
Proof.
  intros HS. unfold SectionText.collected, SectionText.gid_range, span_lines.
  set (start := Sections.start_global_idx span). set (stop := Sections.end_global_idx span).
  rewrite (flat_map_ext _
             (fun g => map l_text (filter (fun line => (g =? l_global_idx line)%Z) lines)))
    by (intros g; apply by_gid_spec).
  rewrite (collected_in_order lines start _ HS), filter_map_comm, filter_filter.
  f_equal. apply filter_ext_in. intros x _.
  destruct (Z.leb_spec start (l_global_idx x)); cbn [andb]; [|reflexivity].
  f_equal.
  destruct (Z.ltb_spec (l_global_idx x) (start + Z.of_nat (Z.to_nat (stop - start)))),
    (Z.ltb_spec (l_global_idx x) stop); try reflexivity; lia.
Qed.

Lemma chunk_document_spec (lines : list BodyLine) (spans : list Sections.Span) :
  in_gid_order lines ->
  SectionText.chunk_document_by_sections lines spans
  = match lines with
    | [] => []
    | _ =>
        map (fun span =>
               {| SectionText.chunk_start := Sections.start_global_idx span;
                  SectionText.chunk_end := Sections.end_global_idx span;
                  SectionText.chunk_text :=
                    PyStr.join TokenChunk.NEWLINE (map l_text (span_lines lines span)) |})
            spans
    end.
Proof.
  intros HS. unfold SectionText.chunk_document_by_sections.
  destruct lines as [|l0 lines]; [reflexivity|].
  destruct spans as [|s0 spans]; [reflexivity|].
  apply map_ext. intros span. cbv zeta. rewrite (span_text_spec _ span HS). reflexivity.
Qed.

(** X18.  On a stream in [global_idx] order, [chunk_document_by_sections]
    gives every span one chunk with the bounds of the span, whose text
    is the newline-join of the non-blank texts of the lines with
    [start <= global_idx < end], in stream order; without lines there
    are no chunks. *)
Theorem section_chunk_text (lines : list BodyLine) (spans : list Sections.Span) :
  in_gid_order lines ->
  SectionText.chunk_document_by_sections lines spans
  = match lines with
    | [] => []
    | _ =>
        map (fun span =>
               {| SectionText.chunk_start := Sections.start_global_idx span;
                  SectionText.chunk_end := Sections.end_global_idx span;
                  SectionText.chunk_text :=
                    PyStr.join TokenChunk.NEWLINE (map l_text (span_lines lines span)) |})
            spans
    end.
Proof. exact (chunk_document_spec lines spans). Qed.

Lemma section_chunk_text_witness :
  SectionText.chunk_document_by_sections
    [body_line "1 Scope" 1 0; body_line " " 1 1; body_line "Text" 1 2; body_line "2 Terms" 2 3]
    [{| Sections.title := s2t "1 Scope"; Sections.number := Some (s2t "1");
        Sections.span_level := 1; Sections.start_global_idx := 0;
        Sections.end_global_idx := 3 |}]
  = [{| SectionText.chunk_start := 0; SectionText.chunk_end := 3;
        SectionText.chunk_text := s2t "1 Scope" ++ TokenChunk.NEWLINE ++ s2t "Text" |}].
Proof.
  apply (section_chunk_text
           [body_line "1 Scope" 1 0; body_line " " 1 1; body_line "Text" 1 2;
            body_line "2 Terms" 2 3]).
  repeat constructor; cbn; lia.
Defined.

Lemma abutting_start (doc_end : Z) (s : Sections.Span) (rest : list Sections.Span) :
  abutting doc_end (s :: rest) -> (Sections.start_global_idx s < doc_end)%Z.
Proof.
  revert s. induction rest as [|s' rest IH]; intros s (Hlt & He & Hrest).
  - rewrite <- He. exact Hlt.
  - specialize (IH s' Hrest). lia.
Qed.

Lemma span_lines_app (lines : list BodyLine) (a b c : Z) :
  in_gid_order lines -> (a <= b <= c)%Z ->
  filter (fun line => (a <=? l_global_idx line)%Z && (l_global_idx line <? b)%Z
                      && SectionText.nonblank (l_text line)) lines
  ++ filter (fun line => (b <=? l_global_idx line)%Z && (l_global_idx line <? c)%Z
                         && SectionText.nonblank (l_text line)) lines
  = filter (fun line => (a <=? l_global_idx line)%Z && (l_global_idx line <? c)%Z
                        && SectionText.nonblank (l_text line)) lines.
Proof.
  intros HS Habc.
  rewrite <- !(filter_filter (fun line => SectionText.nonblank (l_text line))).
  rewrite <- filter_app, (filter_range_app lines a b c HS Habc). reflexivity.
Qed.

Lemma abutting_partition (lines : list BodyLine) (doc_end : Z) (spans : list Sections.Span) :
  in_gid_order lines -> abutting doc_end spans ->
  concat (map (span_lines lines) spans)
  = match spans with
    | [] => []
    | first :: _ =>
        filter (fun line => (Sections.start_global_idx first <=? l_global_idx line)%Z
                            && (l_global_idx line <? doc_end)%Z
                            && SectionText.nonblank (l_text line)) lines
    end.
Proof.
  intros HS. induction spans as [|s rest IH]; intros Hab; [reflexivity|].
  cbn [map concat]. destruct Hab as (Hlt & He & Hrest). rewrite (IH Hrest).
  destruct rest as [|s' rest].
  - rewrite app_nil_r. unfold span_lines. rewrite He. reflexivity.
  - unfold span_lines at 1. rewrite He.
    apply span_lines_app; [exact HS|].
    pose proof (abutting_start doc_end s' rest Hrest). lia.
Qed.

(** X19.  For a stream in [global_idx] order and outline entries
    anchored at pairwise distinct indexes of lines, the chunks
    [chunk_document_by_sections] makes of the spans of
    [build_section_spans] share out the lines: each chunk's text is made
    of the non-blank lines of its span, and the lines of the spans, one
    span after the other, are the non-blank lines from the first span's
    start on, each once and in stream order. *)
Theorem section_chunks_partition_the_lines
  (headers : list Sections.SimpleHeader) (lines : list BodyLine) :
  in_gid_order lines ->
  (forall e, In e headers ->
     exists g, Sections.sh_global_idx e = Some g /\ In g (map l_global_idx lines)) ->
  NoDup (map Sections.sh_global_idx headers) ->
  map SectionText.chunk_text
    (SectionText.chunk_document_by_sections lines (Sections.build_section_spans headers lines))
  = map (fun span => PyStr.join TokenChunk.NEWLINE (map l_text (span_lines lines span)))
      (Sections.build_section_spans headers lines)
  /\ concat (map (span_lines lines) (Sections.build_section_spans headers lines))
     = match Sections.build_section_spans headers lines with
       | [] => []
       | first :: _ =>
           filter (fun line => (Sections.start_global_idx first <=? l_global_idx line)%Z
                               && SectionText.nonblank (l_text line)) lines
       end.
Proof.
  intros HS Hall ND. destruct (spans_abut headers lines Hall ND) as [Hab _]. split.
  - rewrite (chunk_document_spec _ _ HS). destruct lines as [|l0 lines].
    + destruct headers as [|e headers]; [reflexivity|].
      destruct (Hall e (or_introl eq_refl)) as (g & _ & []).
    + rewrite map_map. reflexivity.
  - rewrite (abutting_partition lines _ _ HS Hab).
    destruct (Sections.build_section_spans headers lines) as [|first rest]; [reflexivity|].
    apply filter_ext_in. intros x Hx.
    assert (l_global_idx x < Sections.document_end lines)%Z as Hlt
        by (apply document_end_above, in_map; exact Hx).
    apply Z.ltb_lt in Hlt. rewrite Hlt, andb_true_r. reflexivity.
Qed.

Lemma section_chunks_partition_the_lines_witness :
  let headers := [simple_header "1 Scope" (Some "1"%string) 0; simple_header "2 Terms" (Some "2"%string) 3] in
  let lines :=
    [body_line "1 Scope" 1 0; body_line " " 1 1; body_line "Text" 1 2;
     body_line "2 Terms" 2 3] in
  map SectionText.chunk_text
    (SectionText.chunk_document_by_sections lines (Sections.build_section_spans headers lines))
  = map (fun span => PyStr.join TokenChunk.NEWLINE (map l_text (span_lines lines span)))
      (Sections.build_section_spans headers lines)
  /\ concat (map (span_lines lines) (Sections.build_section_spans headers lines))
     = match Sections.build_section_spans headers lines with
       | [] => []
       | first :: _ =>
           filter (fun line => (Sections.start_global_idx first <=? l_global_idx line)%Z
                               && SectionText.nonblank (l_text line)) lines
       end.
Proof.
  cbv zeta.
  apply (section_chunks_partition_the_lines
           [simple_header "1 Scope" (Some "1"%string) 0; simple_header "2 Terms" (Some "2"%string) 3]
           [body_line "1 Scope" 1 0; body_line " " 1 1; body_line "Text" 1 2;
            body_line "2 Terms" 2 3]).
  - repeat constructor; cbn; lia.
  - intros e [<-|[<-|[]]]; cbn; eexists; split; try reflexivity; tauto.
  - cbn. repeat constructor; cbn; intuition discriminate.
Defined.

(** ** The windows of the top-level sections *)

Lemma dict_set_entry {K V} (keq : K -> K -> bool)
  (keq_spec : forall a b, keq a b = true <-> a = b) (d : dict K V) (k k' : K) (v v' : V) :
  In (k', v') (dict_set keq d k v) -> (k' = k /\ v' = v) \/ In (k', v') d.
Proof.
  induction d as [|[k0 v0] d IH]; cbn [dict_set].
  - intros [H|[]]. inversion H. now left.
  - destruct (keq k k0) eqn:E.
    + apply keq_spec in E. subst k0. intros [H|H]; [inversion H; now left|right; now right].
    + intros [H|H]; [right; now left|]. destruct (IH H) as [H'|H']; [now left|right; now right].
Qed.

Lemma windows_loop_entries (anchors : dict text Z) (last_idx : Z)
  (ordered : list (text * Z)) :
  forall (windows : dict text (Z * Z * Z)) n a s e,
    In (n, (a, s, e)) (Windows.windows_loop anchors last_idx ordered windows) ->
    In (n, (a, s, e)) windows
    \/ exists pre post,
         ordered = pre ++ (n, s) :: post
         /\ e = match post with (_, next) :: _ => next | [] => (last_idx + 1)%Z end
         /\ a = match dict_get PyStr.eqb anchors n with Some x => x | None => s end.
Proof.
  induction ordered as [|[n0 s0] rest IH]; intros windows n a s e Hin; [now left|].
  cbn [Windows.windows_loop] in Hin. apply IH in Hin. destruct Hin as [Hin|Hin].
  - apply (dict_set_entry PyStr.eqb text_eqb_spec) in Hin. destruct Hin as [[-> E]|Hin].
    + inversion E; subst. right. exists [], rest. repeat split.
    + now left.
  - destruct Hin as (pre & post & -> & He & Ha). right.
    exists ((n0, s0) :: pre), post. repeat split; assumption.
Qed.

Lemma ordered_starts_sorted (anchors : dict text Z) (llm_items : list Windows.HeaderItem) :
  StronglySorted (fun x y : text * Z => (snd x <= snd y)%Z)
    (Windows.ordered_starts anchors llm_items).
Proof.
  unfold Windows.ordered_starts. apply sorted_strongly.
  - intros x y. unfold Windows.by_start. z_cases; auto; lia.
  - intros x y. unfold Windows.by_start. apply Z.leb_le.
  - intros x y z. lia.
Qed.

Lemma fold_min_le (l : list Z) : forall v, (fold_left Z.min l v <= v)%Z.
Proof.
  induction l as [|x l IH]; intros v; cbn [fold_left]; [lia|].
  specialize (IH (Z.min v x)). lia.
Qed.

Lemma start_of_spec (anchors : dict text Z) (children : dict text (list Z))
  (header : Windows.HeaderItem) (s : Z) :
  Windows.start_of anchors children header = Some s ->
  (s <= match dict_get PyStr.eqb anchors (Windows.num header) with
        | Some a => a
        | None => s
        end)%Z.
Proof.
  unfold Windows.start_of.
  destruct (dict_get PyStr.eqb anchors (Windows.num header)) as [a|]; [|lia].
  destruct (Windows.min_default _) as [c|]; [|intros E; inversion E; lia].
  destruct (Z.ltb_spec c a); intros E; inversion E; lia.
Qed.

Lemma ordered_starts_source (anchors : dict text Z) (llm_items : list Windows.HeaderItem)
  (n : text) (s : Z) :
  In (n, s) (Windows.ordered_starts anchors llm_items) ->
  exists header,
    In header llm_items /\ Windows.level header = 1%Z /\ Windows.num header = n
    /\ Windows.start_of anchors (Windows.children_by_parent anchors llm_items) header = Some s.
Proof.
  unfold Windows.ordered_starts. intros H.
  apply (proj1 (sorted_In _ Windows.by_start _ _)) in H.
  apply in_flat_map in H. destruct H as (header & Hh & Hin).
  apply (proj1 (sorted_In _ Windows.by_number_key _ _)) in Hh.
  apply filter_In in Hh. destruct Hh as [Hh Hl]. apply Z.eqb_eq in Hl.
  destruct (Windows.start_of _ _ header) as [s'|] eqn:E; [|destruct Hin].
  destruct Hin as [Hin|[]]. inversion Hin; subst.
  exists header. repeat split; assumption.
Qed.

Lemma start_of_by_num (anchors : dict text Z) (children : dict text (list Z))
  (h1 h2 : Windows.HeaderItem) :
  Windows.num h1 = Windows.num h2 ->
  Windows.start_of anchors children h1 = Windows.start_of anchors children h2.
Proof. intros E. unfold Windows.start_of. rewrite E. reflexivity. Qed.

Lemma windows_loop_keeps_keys (anchors : dict text Z) (last_idx : Z)
  (ordered : list (text * Z)) :
  forall (windows : dict text (Z * Z * Z)) (n : text),
    In n (map fst windows) \/ In n (map fst ordered) ->
    In n (map fst (Windows.windows_loop anchors last_idx ordered windows)).
Proof.
  induction ordered as [|[n0 s0] rest IH]; intros windows n H.
  - destruct H as [H|[]]. exact H.
  - cbn [Windows.windows_loop]. apply IH. cbn [map fst] in H.
    destruct H as [H|[<-|H]].
    + left. apply dict_set_keeps_keys. exact H.
    + left. apply (dict_set_has_key PyStr.eqb text_eqb_spec).
    + now right.
Qed.

Lemma strongly_sorted_elt {A} (R : A -> A -> Prop) (pre post : list A) (x : A) :
  StronglySorted R (pre ++ x :: post) ->
  Forall (fun y => R y x) pre /\ Forall (R x) post /\ StronglySorted R post.
Proof.
  induction pre as [|y pre IH]; cbn [app]; intros HS.
  - inversion HS; subst. repeat split; [constructor|assumption|assumption].
  - inversion HS as [|? ? HS' Hall]; subst. destruct (IH HS') as (H1 & H2 & H3).
    repeat split; [|assumption|assumption].
    constructor; [|exact H1]. rewrite Forall_forall in Hall. apply Hall. apply in_elt.
Qed.

(** X20.  The windows [compute_windows_from_anchors_and_children] gives
    the top-level numbers never overlap: a window that starts before
    another one ends at or before the start of the other.  Every window
    belongs to a level-1 outline entry, starts at that number's anchor
    or at its earliest anchored child when there is no anchor or the
    child comes first, so never after the anchor it records, and ends at
    the start of a window or one past the last line's index. *)
Theorem top_level_windows_do_not_overlap
  (lines : list HeadersSequential.Line) (anchors : dict text Z)
  (llm_items : list Windows.HeaderItem) :
  let windows := Windows.compute_windows_from_anchors_and_children lines anchors llm_items in
  (forall n a s e,
      In (n, (a, s, e)) windows ->
      (s <= a)%Z
      /\ (exists header,
             In header llm_items /\ Windows.level header = 1%Z /\ Windows.num header = n
             /\ Windows.start_of anchors (Windows.children_by_parent anchors llm_items) header
                = Some s)
      /\ (e = last (map HeadersSequential.global_idx lines) 0 + 1
          \/ exists n' a' e', In (n', (a', e, e')) windows)%Z)
  /\ (forall n1 a1 s1 e1 n2 a2 s2 e2,
         In (n1, (a1, s1, e1)) windows -> In (n2, (a2, s2, e2)) windows ->
         (s1 < s2)%Z -> (e1 <= s2)%Z).
Proof.
  cbv zeta. unfold Windows.compute_windows_from_anchors_and_children.
  destruct lines as [|l0 lines]; [split; [intros n a s e []|intros n1 a1 s1 e1 n2 a2 s2 e2 []]|].
  destruct anchors as [|a0 anchors];
    [split; [intros n a s e []|intros n1 a1 s1 e1 n2 a2 s2 e2 []]|].
  set (A := a0 :: anchors). set (L := l0 :: lines).
  set (last_idx := last (map HeadersSequential.global_idx L) 0%Z).
  pose proof (ordered_starts_sorted A llm_items) as HS.
  pose proof (ordered_starts_source A llm_items) as Hsrc.
  set (ordered := Windows.ordered_starts A llm_items) in *.
  assert (Hent : forall n a s e,
             In (n, (a, s, e)) (Windows.windows_loop A last_idx ordered []) ->
             exists pre post,
               ordered = pre ++ (n, s) :: post
               /\ e = match post with (_, next) :: _ => next | [] => (last_idx + 1)%Z end
               /\ a = match dict_get PyStr.eqb A n with Some x => x | None => s end).
  { intros n a s e H. apply windows_loop_entries in H. destruct H as [[]|H]. exact H. }
  split.
  - intros n a s e H. destruct (Hent n a s e H) as (pre & post & Eo & Ee & Ea).
    assert (Hin : In (n, s) ordered) by (rewrite Eo; apply in_elt).
    destruct (Hsrc n s Hin) as (header & Hh & Hl & Hn & Hs).
    split; [|split].
    + pose proof (start_of_spec _ _ _ _ Hs) as Hle. rewrite Hn in Hle. rewrite Ea. exact Hle.
    + exists header. repeat split; assumption.
    + destruct post as [|[n' s'] post]; [left; exact Ee|right].
      assert (Hk : In n' (map fst (Windows.windows_loop A last_idx ordered []))).
      { apply windows_loop_keeps_keys. right. rewrite Eo, map_app. apply in_or_app. right.
        cbn [map fst]. right. now left. }
      apply in_map_iff in Hk. destruct Hk as ([n'' [[a' s''] e']] & En & Hk).
      cbn [fst] in En. subst n''.
      destruct (Hent n' a' s'' e' Hk) as (pre' & post' & Eo' & _ & _).
      assert (Hin' : In (n', s') ordered).
      { rewrite Eo. apply in_or_app. right. right. now left. }
      assert (Hin'' : In (n', s'') ordered) by (rewrite Eo'; apply in_elt).
      destruct (Hsrc n' s' Hin') as (h1 & _ & _ & Hn1 & Hs1).
      destruct (Hsrc n' s'' Hin'') as (h2 & _ & _ & Hn2 & Hs2).
      rewrite (start_of_by_num _ _ h1 h2) in Hs1 by congruence.
      assert (s'' = s') by congruence. subst s''.
      exists n', a', e'. rewrite Ee. exact Hk.
  - intros n1 a1 s1 e1 n2 a2 s2 e2 H1 H2 Hlt.
    destruct (Hent n1 a1 s1 e1 H1) as (pre1 & post1 & Eo1 & Ee1 & _).
    destruct (Hent n2 a2 s2 e2 H2) as (pre2 & post2 & Eo2 & _ & _).
    assert (Hin2 : In (n2, s2) ordered) by (rewrite Eo2; apply in_elt).
    rewrite Eo1 in HS. destruct (strongly_sorted_elt _ _ _ _ HS) as (Hpre & Hpost & HSpost).
    rewrite Eo1 in Hin2. apply in_app_or in Hin2. destruct Hin2 as [Hin2|[Hin2|Hin2]].
    + rewrite Forall_forall in Hpre. specialize (Hpre _ Hin2). cbn [snd] in Hpre. lia.
    + inversion Hin2; subst. lia.
    + destruct post1 as [|[n' s'] post1]; [destruct Hin2|]. subst e1.
      destruct Hin2 as [Hin2|Hin2]; [inversion Hin2; subst; lia|].
      inversion HSpost as [|? ? _ Hall]; subst. rewrite Forall_forall in Hall.
      specialize (Hall _ Hin2). cbn [snd] in Hall. exact Hall.
Qed.

Lemma line_or_spec (lines : list HeadersSequential.Line) (idx : Z)
  (fallback : option HeadersSequential.Line) :
  exists r,
    Windows.line_or lines idx fallback = Ok r
    /\ ((0 <= idx < Z.of_nat (length lines))%Z ->
        exists line, nth_error lines (Z.to_nat idx) = Some line /\ r = Some line)
    /\ (~ (0 <= idx < Z.of_nat (length lines))%Z -> r = fallback).
Proof.
  unfold Windows.line_or.
  destruct (Z.leb_spec 0 idx), (Z.ltb_spec idx (Z.of_nat (length lines))); cbn [andb];
    try (exists fallback; split; [reflexivity|split; [lia|reflexivity]]).
  destruct (index_ok lines (Z.to_nat idx)) as (line & -> & Hn); [lia|].
  cbn [bind]. exists (Some line). split; [reflexivity|]. split; [eauto|lia].
Qed.

Lemma convert_window_spec (lines : list HeadersSequential.Line) (last_gid : Z)
  (a s e : Z) :
  lines <> [] ->
  exists ga gs ge,
    Windows.convert_window lines last_gid (a, s, e) = Ok (ga, gs, ge)
    /\ ((0 <= s < e)%Z -> (e <= Z.of_nat (length lines))%Z ->
        (exists line, nth_error lines (Z.to_nat s) = Some line
                      /\ gs = HeadersSequential.global_idx line)
        /\ (exists line, nth_error lines (Z.to_nat (e - 1)) = Some line
                         /\ ge = (HeadersSequential.global_idx line + 1)%Z))
    /\ ((0 <= a < Z.of_nat (length lines))%Z ->
        exists line, nth_error lines (Z.to_nat a) = Some line
                     /\ ga = HeadersSequential.global_idx line).
Proof.
  intros Hne. assert (Hlen : 0 < length lines) by (destruct lines; [contradiction|cbn; lia]).
  unfold Windows.convert_window.
  destruct (line_or_spec lines a None) as (ra & -> & Ha1 & Ha2). cbn [bind].
  destruct (line_or_spec lines s ra) as (rs & -> & Hs1 & Hs2). cbn [bind].
  destruct (Z.leb_spec e 0) as [He|He]; cbn [bind].
  - do 3 eexists. split; [reflexivity|]. split; [lia|].
    intros Hr. destruct (Ha1 Hr) as (line & Hn & ->). eauto.
  - cbv zeta.
    destruct (index_ok lines
                (Z.to_nat (Z.min (Z.of_nat (length lines) - 1) (Z.max 0 (e - 1)))))
      as (line & -> & Hn); [lia|].
    cbn [bind]. do 3 eexists. split; [reflexivity|]. split.
    + intros Hse Hel. split.
      * destruct (Hs1 ltac:(lia)) as (ls & Hls & ->). eauto.
      * exists line. split; [|reflexivity].
        replace (Z.min (Z.of_nat (length lines) - 1) (Z.max 0 (e - 1))) with (e - 1)%Z in Hn
          by lia.
        exact Hn.
    + intros Hr. destruct (Ha1 Hr) as (la & Hla & ->). eauto.
Qed.

Lemma convert_fold_spec (lines : list HeadersSequential.Line) (last_gid : Z)
  (windows : dict text (Z * Z * Z)) :
  lines <> [] ->
  forall acc0 : dict text (Z * Z * Z),
  exists out,
    fold_left
      (fun acc entry =>
         bind acc (fun out =>
         bind (Windows.convert_window lines last_gid (snd entry)) (fun window =>
         Ok (dict_set PyStr.eqb out (fst entry) window))))
      windows (Ok acc0) = Ok out
    /\ (forall n w, In (n, w) out ->
          In (n, w) acc0
          \/ exists w0, In (n, w0) windows
                        /\ Windows.convert_window lines last_gid w0 = Ok w)
    /\ (forall n, In n (map fst acc0) \/ In n (map fst windows) -> In n (map fst out)).
Proof.
  intros Hne. induction windows as [|[n0 [[a s] e]] windows IH]; intros acc0.
  - exists acc0. split; [reflexivity|]. split; [intros n w H; now left|].
    intros n [H|[]]. exact H.
  - cbn [fold_left bind fst snd].
    destruct (convert_window_spec lines last_gid a s e Hne) as (ga & gs & ge & Ec & _).
    rewrite Ec. cbn [bind].
    destruct (IH (dict_set PyStr.eqb acc0 n0 (ga, gs, ge))) as (out & -> & H1 & H2).
    exists out. split; [reflexivity|]. split.
    + intros n w Hin. destruct (H1 n w Hin) as [H|(w0 & Hw0 & Hc)].
      * apply (dict_set_entry PyStr.eqb text_eqb_spec) in H. destruct H as [[-> ->]|H].
        -- right. exists (a, s, e). split; [now left|exact Ec].
        -- now left.
      * right. exists w0. split; [now right|exact Hc].
    + intros n H. apply H2. cbn [map fst] in H. destruct H as [H|[<-|H]].
      * left. apply dict_set_keeps_keys. exact H.
      * left. apply (dict_set_has_key PyStr.eqb text_eqb_spec).
      * now right.
Qed.

Lemma keys_functional {K V} (d : dict K V) (k : K) (v v' : V) :
  NoDup (map fst d) -> In (k, v) d -> In (k, v') d -> v = v'.
Proof.
  induction d as [|[k0 v0] d IH]; intros ND H H'; [destruct H|].
  inversion ND as [|? ? Hn ND']; subst.
  destruct H as [H|H], H' as [H'|H'].
  - congruence.
  - inversion H; subst. exfalso. apply Hn. apply (in_map fst _ _ H').
  - inversion H'; subst. exfalso. apply Hn. apply (in_map fst _ _ H).
  - apply IH; assumption.
Qed.

Lemma same_lines_sorted (lines : list HeadersSequential.Line) (s e : Z)
  (first last_line : HeadersSequential.Line) :
  StronglySorted Z.lt (map HeadersSequential.global_idx lines) ->
  (0 <= s < e)%Z ->
  nth_error lines (Z.to_nat s) = Some first ->
  nth_error lines (Z.to_nat (e - 1)) = Some last_line ->
  same_lines lines s e (HeadersSequential.global_idx first)
    (HeadersSequential.global_idx last_line + 1).
Proof.
  intros HS Hse Hf Hl p line Hp.
  assert (G : forall q x, nth_error lines q = Some x ->
              nth_error (map HeadersSequential.global_idx lines) q
              = Some (HeadersSequential.global_idx x)).
  { intros q x Hq. rewrite nth_error_map, Hq. reflexivity. }
  pose proof (G _ _ Hf) as Gf. pose proof (G _ _ Hl) as Gl. pose proof (G _ _ Hp) as Gp.
  split.
  - intros Hr. split.
    + destruct (Nat.eq_dec (Z.to_nat s) p) as [E|E].
      * subst p. rewrite Hf in Hp. inversion Hp. lia.
      * pose proof (sorted_nth_lt _ (Z.to_nat s) p _ _ HS Gf Gp). lia.
    + destruct (Nat.eq_dec p (Z.to_nat (e - 1))) as [E|E].
      * subst p. rewrite Hl in Hp. inversion Hp. lia.
      * pose proof (sorted_nth_lt _ p (Z.to_nat (e - 1)) _ _ HS Gp Gl). lia.
  - intros [H1 H2]. split.
    + destruct (Z.eq_dec (HeadersSequential.global_idx first)
                  (HeadersSequential.global_idx line)) as [E|E].
      * destruct (Nat.lt_trichotomy (Z.to_nat s) p) as [L|[L|L]]; [lia|lia|].
        pose proof (sorted_nth_lt _ p (Z.to_nat s) _ _ HS Gp Gf L). lia.
      * pose proof (sorted_nth_pos _ (Z.to_nat s) p _ _ HS Gf Gp). lia.
    + destruct (Z.eq_dec (HeadersSequential.global_idx line)
                  (HeadersSequential.global_idx last_line)) as [E|E].
      * destruct (Nat.lt_trichotomy p (Z.to_nat (e - 1))) as [L|[L|L]]; [lia|lia|].
        pose proof (sorted_nth_lt _ (Z.to_nat (e - 1)) p _ _ HS Gl Gp L). lia.
      * pose proof (sorted_nth_pos _ p (Z.to_nat (e - 1)) _ _ HS Gp Gl). lia.
Qed.

(** X21.  [convert_windows_to_global] never indexes [lines] out of
    range.  On a stream whose [global_idx] values increase strictly, a
    window of positions [start, end) inside the stream becomes the
    window of indexes that holds exactly the lines at those positions:
    it starts at the index of the line at [start] and ends one past the
    index of the line at [end - 1]; an anchor position inside the stream
    becomes the index of its line. *)
Theorem convert_windows_keeps_the_lines
  (lines : list HeadersSequential.Line) (windows : dict text (Z * Z * Z)) :
  exists out,
    Windows.convert_windows_to_global lines windows = Ok out
    /\ (StronglySorted Z.lt (map HeadersSequential.global_idx lines) ->
        NoDup (map fst windows) ->
        forall n a s e,
          In (n, (a, s, e)) windows ->
          (0 <= s < e)%Z -> (e <= Z.of_nat (length lines))%Z ->
          exists ga gs ge,
            In (n, (ga, gs, ge)) out
            /\ same_lines lines s e gs ge
            /\ ((0 <= a < Z.of_nat (length lines))%Z ->
                exists line, nth_error lines (Z.to_nat a) = Some line
                             /\ ga = HeadersSequential.global_idx line)).
Proof.
  unfold Windows.convert_windows_to_global.
  destruct lines as [|l0 lines].
  - exists []. split; [reflexivity|]. intros _ _ n a s e _ Hse Hel. cbn in Hel. lia.
  - set (L := l0 :: lines). assert (Hne : L <> []) by discriminate.
    destruct (convert_fold_spec L (last (map HeadersSequential.global_idx L) 0%Z)
                windows Hne []) as (out & E & H1 & H2).
    exists out. split; [exact E|].
    intros HS ND n a s e Hin Hse Hel.
    assert (Hk : In n (map fst out)).
    { apply H2. right. apply (in_map fst _ _ Hin). }
    apply in_map_iff in Hk. destruct Hk as ([n' [[ga gs] ge]] & En & Hout).
    cbn [fst] in En. subst n'.
    destruct (H1 n _ Hout) as [[]|(w0 & Hw0 & Hc)].
    rewrite (keys_functional windows n w0 (a, s, e) ND Hw0 Hin) in Hc.
    destruct (convert_window_spec L (last (map HeadersSequential.global_idx L) 0%Z)
                a s e Hne) as (ga' & gs' & ge' & Ec & Hpos & Hanchor).
    rewrite Ec in Hc. inversion Hc; subst ga' gs' ge'.
    exists ga, gs, ge. split; [exact Hout|]. split; [|exact Hanchor].
    destruct (Hpos Hse Hel) as ((first & Hf & ->) & (last_line & Hl & ->)).
    apply same_lines_sorted; assumption.
Qed.

(** ** The pattern of a numbering *)

Lemma orelse_left {A} (x : option A) (y : unit -> option A) :
  x <> None -> Re.orelse x y <> None.
Proof. destruct x; [intros _; discriminate|contradiction]. Qed.

Lemma orelse_right {A} (x : option A) (y : unit -> option A) :
  y tt <> None -> Re.orelse x y <> None.
Proof. destruct x; [intros _; discriminate|intros H; exact H]. Qed.

Lemma star_loop_skip (A : Type) (greedy : bool) (r : Re.regex)
  (k : Re.cursor -> option A) (n : nat) (st : Re.cursor) :
  k st <> None -> star_loop greedy r k n st <> None.
Proof.
  intros H. destruct n, greedy; cbn [star_loop];
    first [apply orelse_right; exact H | apply orelse_left; exact H].
Qed.

Lemma run_star_skip (A : Type) (greedy : bool) (r : Re.regex)
  (k : Re.cursor -> option A) (st : Re.cursor) :
  k st <> None -> Re.run (Re.Star greedy r) st k <> None.
Proof. rewrite run_star. apply star_loop_skip. Qed.

Lemma run_star_one (A : Type) (greedy : bool) (p : ascii -> bool)
  (k : Re.cursor -> option A) (pre rest : text) (c : ascii) :
  p c = true -> k (c :: pre, rest) <> None ->
  Re.run (Re.Star greedy (Re.Chr p)) (pre, c :: rest) k <> None.
Proof.
  intros Hp Hk. rewrite run_star. cbn [snd length].
  assert (Hagain :
            Re.run (Re.Chr p) (pre, c :: rest)
              (fun st' =>
                 if length (snd st') <? length (snd (pre, c :: rest))
                 then star_loop greedy (Re.Chr p) k (length rest) st' else None) <> None).
  { cbn [Re.run snd fst length]. rewrite Hp.
    rewrite (proj2 (Nat.ltb_lt (length rest) (S (length rest)))) by lia.
    apply star_loop_skip. exact Hk. }
  destruct greedy; cbn [star_loop].
  - apply orelse_left. exact Hagain.
  - apply orelse_right. exact Hagain.
Qed.

Lemma run_seq (A : Type) (r1 r2 : Re.regex) (st : Re.cursor) (k : Re.cursor -> option A) :
  Re.run (Re.Seq r1 r2) st k = Re.run r1 st (fun st1 => Re.run r2 st1 k).
Proof. reflexivity. Qed.

Lemma run_lit_ci (A : Type) (t : text) :
  forall (t' pre rest : text) (k : Re.cursor -> option A),
    Forall2 (fun a b => Chars.eqc_ci a b = true) t t' ->
    Re.run (Re.lit_ci t) (pre, t' ++ rest) k = k (rev t' ++ pre, rest).
Proof.
  unfold Re.lit_ci. induction t as [|a t IH]; intros t' pre rest k H.
  - inversion H; subst. reflexivity.
  - inversion H as [|? b ? t2 Hab Hrest]; subst.
    assert (Hstep : forall k' : Re.cursor -> option A,
               Re.run (Re.chr_ci a) (pre, (b :: t2) ++ rest) k'
               = k' (b :: pre, t2 ++ rest)).
    { intros k'. cbn [Re.run Re.chr_ci snd fst app]. rewrite Hab. reflexivity. }
    destruct t as [|a2 t].
    + inversion Hrest; subst. cbn [map Re.seqs]. rewrite Hstep. reflexivity.
    + change (Re.seqs (map Re.chr_ci (a :: a2 :: t)))
        with (Re.Seq (Re.chr_ci a) (Re.seqs (map Re.chr_ci (a2 :: t)))).
      rewrite run_seq, Hstep. cbv beta.
      transitivity (k (rev t2 ++ b :: pre, rest)); [exact (IH t2 (b :: pre) rest k Hrest)|].
      cbn [rev]. rewrite <- app_assoc. reflexivity.
Qed.

Lemma eqc_ci_refl (c : ascii) : Chars.eqc_ci c c = true.
Proof. unfold Chars.eqc_ci. apply Ascii.eqb_refl. Qed.

Lemma eqc_ci_upper (c : ascii) : Chars.eqc_ci c (Chars.upper c) = true.
Proof. ascii_cases c. Qed.

Lemma eqc_ci_lower_upper (c : ascii) : Chars.eqc_ci (Chars.lower c) (Chars.upper c) = true.
Proof. ascii_cases c. Qed.

Lemma Forall2_map_both {A B C} (R : B -> C -> Prop) (f : A -> B) (g : A -> C) (l : list A) :
  (forall x, R (f x) (g x)) -> Forall2 R (map f l) (map g l).
Proof. intros H. induction l; cbn [map]; constructor; auto. Qed.

Lemma Forall2_same {A} (R : A -> A -> Prop) (l : list A) :
  (forall x, R x x) -> Forall2 R l l.
Proof. intros H. induction l; constructor; auto. Qed.

Lemma str_of_Z_nonempty (v : Z) : PyStr.str_of_Z v <> [].
Proof.
  destruct (Z.ltb_spec v 0) as [H|H].
  - unfold PyStr.str_of_Z. rewrite (proj2 (Z.ltb_lt v 0) H). discriminate.
  - apply (str_of_Z_spec v H).
Qed.

Lemma made_component_shape (c : HeadersOrchestrator.Component) :
  made_component c ->
  HeadersOrchestrator.normalized c <> []
  /\ (HeadersOrchestrator.kind c = Some HeadersOrchestrator.Numeric
      \/ (HeadersOrchestrator.kind c = Some HeadersOrchestrator.Alpha
          /\ HeadersOrchestrator.raw c <> []
          /\ Forall2 (fun a b => Chars.eqc_ci a b = true)
               (HeadersOrchestrator.raw c) (HeadersOrchestrator.normalized c))).
Proof.
  intros [(number & Hin)|(v & k & template & ->)].
  - unfold HeadersOrchestrator._extract_components in Hin.
    destruct number as [|c0 n]; [destruct Hin|].
    apply in_map_iff in Hin. destruct Hin as (t & <- & Ht).
    assert (Htok : Forall is_token
                     (Re.findall HeadersSequential.NUMBER_COMPONENT_RE (c0 :: n)))
      by apply findall_from_tokens.
    rewrite Forall_forall in Htok. destruct (Htok t Ht) as [Hne [Hd|Ha]].
    + rewrite (isdigit_token t Hne Hd). cbn. split; [apply str_of_Z_nonempty|now left].
    + destruct (isalpha_token t Hne Ha) as [-> ->]. cbn.
      rewrite (alpha_encode_decode t Hne Ha).
      split; [destruct t; [contradiction|discriminate]|]. right.
      split; [reflexivity|]. split; [exact Hne|].
      unfold PyStr.upper. rewrite <- (map_id t) at 1.
      apply Forall2_map_both. apply eqc_ci_upper.
  - unfold HeadersOrchestrator._build_component.
    destruct (int_to_alpha_shape v) as [Hne Hup].
    destruct k; [cbn; split; [apply str_of_Z_nonempty|now left]|].
    destruct (PyStr.islower _); cbn.
    + split; [destruct (HeadersOrchestrator._int_to_alpha v); [contradiction|discriminate]|].
      right. split; [reflexivity|].
      split; [destruct (HeadersOrchestrator._int_to_alpha v); [contradiction|discriminate]|].
      apply Forall2_map_both. apply eqc_ci_lower_upper.
    + split; [exact Hne|]. right. split; [reflexivity|]. split; [exact Hne|].
      apply Forall2_same. apply eqc_ci_refl.
Qed.

Lemma component_part_accepts (A : Type) (c : HeadersOrchestrator.Component)
  (pre rest : text) (k : Re.cursor -> option A) :
  made_component c ->
  k (rev (HeadersOrchestrator.normalized c) ++ pre, rest) <> None ->
  Re.run (HeadersOrchestrator.component_part c)
    (pre, HeadersOrchestrator.normalized c ++ rest) k <> None.
Proof.
  intros Hc Hk. destruct (made_component_shape c Hc) as (_ & [Hn|(Ha & Hraw & Hci)]);
    unfold HeadersOrchestrator.component_part.
  - rewrite Hn, run_seq. unfold Re.star. apply run_star_skip. cbv beta.
    rewrite run_lit_ci; [exact Hk|]. apply Forall2_same. apply eqc_ci_refl.
  - rewrite Ha. destruct (HeadersOrchestrator.raw c) as [|r0 raw] eqn:Er; [contradiction|].
    rewrite run_lit_ci; [exact Hk|exact Hci].
Qed.

Lemma join_parts_accepts (A : Type) (comps : list HeadersOrchestrator.Component) :
  forall (pre rest : text) (k : Re.cursor -> option A),
    Forall made_component comps -> comps <> [] ->
    k (rev (PyStr.join (s2t ".") (map HeadersOrchestrator.normalized comps)) ++ pre, rest)
    <> None ->
    Re.run (HeadersOrchestrator.join_parts (map HeadersOrchestrator.component_part comps))
      (pre, PyStr.join (s2t ".") (map HeadersOrchestrator.normalized comps) ++ rest) k
    <> None.
Proof.
  induction comps as [|c comps IH]; intros pre rest k Hall Hne Hk; [contradiction|].
  inversion Hall as [|? ? Hc Hrest]; subst.
  destruct comps as [|c2 comps].
  - cbn [map HeadersOrchestrator.join_parts PyStr.join] in *.
    apply component_part_accepts; assumption.
  - change (HeadersOrchestrator.join_parts
              (map HeadersOrchestrator.component_part (c :: c2 :: comps)))
      with (Re.Seq (HeadersOrchestrator.component_part c)
              (Re.Seq HeadersOrchestrator.separator
                 (HeadersOrchestrator.join_parts
                    (map HeadersOrchestrator.component_part (c2 :: comps))))).
    change (PyStr.join (s2t ".") (map HeadersOrchestrator.normalized (c :: c2 :: comps)))
      with (HeadersOrchestrator.normalized c
            ++ s2t "." ++ PyStr.join (s2t ".")
                            (map HeadersOrchestrator.normalized (c2 :: comps))) in *.
    set (J := PyStr.join (s2t ".") (map HeadersOrchestrator.normalized (c2 :: comps))) in *.
    rewrite <- app_assoc, run_seq.
    apply component_part_accepts; [exact Hc|]. rewrite run_seq.
    cbn [s2t list_ascii_of_string app]. unfold HeadersOrchestrator.separator, Re.lazy_star.
    apply run_star_one; [reflexivity|]. cbv beta.
    apply IH; [exact Hrest|discriminate|].
    replace (rev J ++ "."%char :: rev (HeadersOrchestrator.normalized c) ++ pre)
      with (rev (HeadersOrchestrator.normalized c ++ s2t "." ++ J) ++ pre); [exact Hk|].
    rewrite !rev_app_distr. cbn [s2t list_ascii_of_string rev app].
    rewrite <- !app_assoc. reflexivity.
Qed.

Lemma components_to_number_made (comps : list HeadersOrchestrator.Component) :
  Forall made_component comps ->
  HeadersOrchestrator._components_to_number comps
  = PyStr.join (s2t ".") (map HeadersOrchestrator.normalized comps).
Proof.
  intros H. unfold HeadersOrchestrator._components_to_number. f_equal.
  apply filter_all. intros n Hn. apply in_map_iff in Hn. destruct Hn as (c & <- & Hc).
  rewrite Forall_forall in H. destruct (made_component_shape c (H c Hc)) as [Hne _].
  destruct (HeadersOrchestrator.normalized c); [contradiction|reflexivity].
Qed.

Lemma number_pattern_accepts (comps : list HeadersOrchestrator.Component) (title : text) :
  comps <> [] -> Forall made_component comps ->
  exists pattern,
    HeadersOrchestrator._build_number_pattern comps = Some pattern
    /\ Re.match_prefix pattern
         (HeadersOrchestrator._components_to_number comps ++ " "%char :: title) <> None.
Proof.
  intros Hne Hall. eexists. split.
  { unfold HeadersOrchestrator._build_number_pattern.
    destruct comps; [contradiction|reflexivity]. }
  rewrite (components_to_number_made comps Hall).
  unfold Re.match_prefix, Re.match_at, Re.start.
  change (Re.seqs
            [Re.Bol; Re.spaces; Re.opt (Re.one_of (s2t "([")); Re.spaces;
             HeadersOrchestrator.join_parts (map HeadersOrchestrator.component_part comps);
             Re.Alt Re.WordB
               (Re.Chr (fun c => Chars.is_space c || PyStr.mem_char c (s2t ".)-:")))])
    with (Re.Seq Re.Bol
            (Re.Seq Re.spaces
               (Re.Seq (Re.opt (Re.one_of (s2t "([")))
                  (Re.Seq Re.spaces
                     (Re.Seq
                        (HeadersOrchestrator.join_parts
                           (map HeadersOrchestrator.component_part comps))
                        (Re.Alt Re.WordB
                           (Re.Chr (fun c => Chars.is_space c
                                             || PyStr.mem_char c (s2t ".)-:"))))))))).
  rewrite run_seq. cbn [Re.run fst].
  unfold Re.spaces, Re.star. apply run_star_skip. cbv beta.
  unfold Re.opt.
  change (Re.run (Re.Alt ?a Re.Eps) ?st ?k)
    with (Re.orelse (Re.run a st k) (fun _ => Re.run Re.Eps st k)).
  apply orelse_right. cbv beta.
  change (Re.run Re.Eps ?st ?k) with (k st). cbv beta.
  apply run_star_skip. cbv beta.
  apply join_parts_accepts; [exact Hall|exact Hne|]. cbv beta. cbn [snd fst].
  destruct (Re.at_word_boundary _); [discriminate|].
  apply orelse_right. discriminate.
Qed.

Lemma candidate_of_matching (chunk : SectionChunking.Chunk)
  (comps : list HeadersOrchestrator.Component) (fallback_level : Z) (line : BodyLine)
  (pattern : Re.regex) :
  Re.match_prefix pattern (PyStr.lstrip (l_text line)) <> None ->
  exists h,
    HeadersOrchestrator.candidate_of chunk comps fallback_level line pattern = Some h
    /\ h_number h = Some (HeadersOrchestrator._components_to_number comps).
Proof.
  intros H. unfold HeadersOrchestrator.candidate_of.
  destruct (Re.match_prefix pattern (PyStr.lstrip (l_text line))); [|contradiction].
  eexists. split; reflexivity.
Qed.

Lemma scan_chunk_finds (chunk : SectionChunking.Chunk) (lines : list BodyLine)
  (comps : list HeadersOrchestrator.Component) (fl : Z) (pattern : Re.regex)
  (idx : nat) (line : BodyLine) (post : list nat) :
  nth_error lines idx = Some line ->
  Re.match_prefix pattern (PyStr.lstrip (l_text line)) <> None ->
  forall pre,
    Forall (fun j => j < length lines) pre ->
    exists h,
      HeadersOrchestrator.scan_chunk chunk lines comps fl pattern (pre ++ idx :: post)
      = Ok (Some h)
      /\ h_number h = Some (HeadersOrchestrator._components_to_number comps).
Proof.
  intros Hn Hm. induction pre as [|j pre IH]; intros Hall.
  - cbn [app HeadersOrchestrator.scan_chunk]. unfold index. rewrite Hn. cbn [bind].
    destruct (candidate_of_matching chunk comps fl line pattern Hm) as (h & -> & Hnum).
    exists h. split; [reflexivity|exact Hnum].
  - inversion Hall as [|? ? Hj Hrest]; subst.
    cbn [app HeadersOrchestrator.scan_chunk].
    destruct (index_ok lines j Hj) as (lj & -> & Hlj). cbn [bind].
    destruct (HeadersOrchestrator.candidate_of chunk comps fl lj pattern) as [h|] eqn:Ec.
    + exists h. split; [reflexivity|].
      unfold HeadersOrchestrator.candidate_of in Ec.
      destruct (Re.match_prefix pattern (PyStr.lstrip (l_text lj))); [|discriminate].
      inversion Ec. reflexivity.
    + apply IH. exact Hrest.
Qed.

(** X22.  The gap filler finds a numbering printed in its canonical
    form: when a line of the scanned range of the chunk reads, after its
    leading white space, as the number [_components_to_number] gives the
    components, a space and any title, [_find_header_in_chunk] returns a
    header, that line's or an earlier match's, and the header carries
    that number.  The components are those [_extract_components] reads
    or [_build_component] makes. *)
Theorem canonical_numbering_is_found
  (chunk : SectionChunking.Chunk) (lines : list BodyLine)
  (comps : list HeadersOrchestrator.Component) (index_by_global : dict Z nat)
  (fallback_level : Z) (idx : nat) (line : BodyLine) (title : text) :
  comps <> [] -> Forall made_component comps ->
  HeadersOrchestrator.scan_start chunk index_by_global <= idx
    <= HeadersOrchestrator.scan_end chunk index_by_global ->
  nth_error lines idx = Some line ->
  PyStr.lstrip (l_text line)
    = HeadersOrchestrator._components_to_number comps ++ " "%char :: title ->
  exists h,
    HeadersOrchestrator._find_header_in_chunk chunk lines comps index_by_global fallback_level
    = Ok (Some h)
    /\ h_number h = Some (HeadersOrchestrator._components_to_number comps).
Proof.
  intros Hne Hall Hidx Hn Htext.
  destruct (number_pattern_accepts comps title Hne Hall) as (pattern & Ep & Hm).
  unfold HeadersOrchestrator._find_header_in_chunk. rewrite Ep. cbv zeta.
  set (start_idx := HeadersOrchestrator.scan_start chunk index_by_global) in *.
  set (end_idx := HeadersOrchestrator.scan_end chunk index_by_global) in *.
  replace (end_idx + 1 - start_idx)
    with ((idx - start_idx) + S (end_idx - idx)) by lia.
  rewrite seq_app. cbn [seq].
  replace (start_idx + (idx - start_idx)) with idx by lia.
  apply (scan_chunk_finds chunk lines comps fallback_level pattern idx line _ Hn).
  - rewrite Htext. exact Hm.
  - apply Forall_forall. intros j Hj. apply in_seq in Hj.
    assert (idx < length lines) by (apply nth_error_Some; congruence). lia.
Qed.

Lemma canonical_numbering_is_found_witness :
  exists h,
    HeadersOrchestrator._find_header_in_chunk
      {| SectionChunking.header_text := s2t "General";
         SectionChunking.header_number := Some (s2t "2");
         SectionChunking.level := 1;
         SectionChunking.start_global_idx := 0;
         SectionChunking.end_global_idx := 2;
         SectionChunking.start_page := 1; SectionChunking.end_page := 1 |}
      [body_line "2 General" 1 0; body_line "  2.1 Scope" 1 1; body_line "Text" 1 2]
      (HeadersOrchestrator._extract_components (Some (s2t "2.1")))
      (HeadersOrchestrator.index_by_global_last
         [body_line "2 General" 1 0; body_line "  2.1 Scope" 1 1; body_line "Text" 1 2])
      2%Z
    = Ok (Some h)
    /\ h_number h
       = Some (HeadersOrchestrator._components_to_number
                 (HeadersOrchestrator._extract_components (Some (s2t "2.1")))).
Proof.
  apply (canonical_numbering_is_found _ _ _ _ 2%Z 1 (body_line "  2.1 Scope" 1 1)
           (s2t "Scope")).
  - discriminate.
  - apply Forall_forall. intros c Hc. left. exists (s2t "2.1"). exact Hc.
  - vm_compute. split; repeat constructor.
  - reflexivity.
  - reflexivity.
Defined.

(** ** The keys of the sections *)

Lemma join_snoc (sep : text) (parts : list text) (x : text) :
  parts <> [] -> PyStr.join sep (parts ++ [x]) = PyStr.join sep parts ++ sep ++ x.
Proof.
  induction parts as [|p parts IH]; intros Hne; [contradiction|].
  destruct parts as [|q parts].
  - reflexivity.
  - change (PyStr.join sep ((p :: q :: parts) ++ [x]))
      with (p ++ sep ++ PyStr.join sep ((q :: parts) ++ [x])).
    rewrite IH by discriminate.
    change (PyStr.join sep (p :: q :: parts)) with (p ++ sep ++ PyStr.join sep (q :: parts)).
    rewrite <- !app_assoc. reflexivity.
Qed.

Lemma split_at_first (c : ascii) (l1 l2 r1 r2 : text) :
  PyStr.mem_char c l1 = false -> PyStr.mem_char c l2 = false ->
  l1 ++ c :: r1 = l2 ++ c :: r2 -> l1 = l2.
Proof.
  revert l2. induction l1 as [|x l1 IH]; intros [|y l2] H1 H2 E; cbn [app] in E.
  - reflexivity.
  - injection E as Ec Er. subst y. cbn [PyStr.mem_char] in H2.
    rewrite (proj2 (eqc_true c c) eq_refl) in H2. discriminate.
  - injection E as Ec Er. subst x. cbn [PyStr.mem_char] in H1.
    rewrite (proj2 (eqc_true c c) eq_refl) in H1. discriminate.
  - injection E as Ec Er. subst y. cbn [PyStr.mem_char] in H1, H2.
    apply orb_false_iff in H1 as [_ H1]. apply orb_false_iff in H2 as [_ H2].
    f_equal. apply (IH l2 H1 H2). exact Er.
Qed.

Lemma digits_no_colon (ds : text) :
  forallb Chars.is_digit ds = true -> PyStr.mem_char ":" ds = false.
Proof.
  induction ds as [|d ds IH]; [reflexivity|].
  cbn [forallb PyStr.mem_char]. intros H. apply andb_true_iff in H as [Hd Hds].
  rewrite (IH Hds), orb_false_r.
  destruct (Chars.eqc ":" d) eqn:E; [|reflexivity].
  apply eqc_true in E. subst d. discriminate.
Qed.

Lemma str_of_Z_neg (v : Z) : (v < 0)%Z -> PyStr.str_of_Z v = "-"%char :: PyStr.str_of_Z (- v).
Proof.
  intros H. unfold PyStr.str_of_Z.
  rewrite (proj2 (Z.ltb_lt v 0) H), (proj2 (Z.ltb_ge (- v) 0)) by lia. reflexivity.
Qed.

Lemma str_of_Z_no_colon (v : Z) : PyStr.mem_char ":" (PyStr.str_of_Z v) = false.
Proof.
  destruct (Z.lt_ge_cases v 0) as [H|H].
  - rewrite (str_of_Z_neg v H). cbn [PyStr.mem_char].
    rewrite digits_no_colon; [reflexivity|]. apply (str_of_Z_spec (- v)). lia.
  - apply digits_no_colon. apply (str_of_Z_spec v H).
Qed.

Lemma str_of_Z_inj (a b : Z) : PyStr.str_of_Z a = PyStr.str_of_Z b -> a = b.
Proof.
  assert (Hpos : forall x y, (0 <= x)%Z -> (0 <= y)%Z ->
                   PyStr.str_of_Z x = PyStr.str_of_Z y -> x = y).
  { intros x y Hx Hy E.
    destruct (str_of_Z_spec x Hx) as (_ & _ & Ex).
    destruct (str_of_Z_spec y Hy) as (_ & _ & Ey). rewrite E in Ex. lia. }
  assert (Hmix : forall x y, (x < 0)%Z -> (0 <= y)%Z ->
                   PyStr.str_of_Z x <> PyStr.str_of_Z y).
  { intros x y Hx Hy E. rewrite (str_of_Z_neg x Hx) in E.
    destruct (str_of_Z_spec y Hy) as (Hne & Hd & _).
    destruct (PyStr.str_of_Z y) as [|d ds]; [discriminate|].
    inversion E; subst d. discriminate. }
  intros E. destruct (Z.lt_ge_cases a 0) as [Ha|Ha], (Z.lt_ge_cases b 0) as [Hb|Hb].
  - rewrite (str_of_Z_neg a Ha), (str_of_Z_neg b Hb) in E. inversion E as [E'].
    apply Hpos in E'; lia.
  - exfalso. exact (Hmix a b Ha Hb E).
  - exfalso. symmetry in E. exact (Hmix b a Hb Ha E).
  - apply Hpos; assumption.
Qed.

Lemma section_key_anchor (n1 n2 : option text) (t1 t2 : text) (a b : Z) :
  SectionKeys.make_section_key n1 t1 (Some a) = SectionKeys.make_section_key n2 t2 (Some b) ->
  a = b.
Proof.
  unfold SectionKeys.make_section_key. cbv zeta.
  set (p1 := match Re.sub _ _ (PyStr.strip match n1 with Some n => n | None => [] end) with
             | [] => []
             | _ => _
             end).
  set (p2 := match Re.sub _ _ (PyStr.strip match n2 with Some n => n | None => [] end) with
             | [] => []
             | _ => _
             end).
  set (q1 := match PyStr.strip_chars _ _ with [] => s2t "section" | _ => _ end).
  set (q2 := match PyStr.strip_chars _ _ with [] => s2t "section" | _ => _ end).
  assert (J : forall (p : list text) (q s : text),
             PyStr.join (s2t "::") (p ++ [q] ++ [s])
             = PyStr.join (s2t "::") (p ++ [q]) ++ s2t "::" ++ s).
  { intros p q s. rewrite app_assoc. apply join_snoc.
    intros E. apply app_eq_nil in E as [_ E]. discriminate. }
  rewrite (J p1 q1), (J p2 q2).
  intros E. apply (f_equal (@rev ascii)) in E.
  rewrite !rev_app_distr in E. cbn [s2t list_ascii_of_string rev app] in E.
  rewrite <- !app_assoc in E. cbn [app] in E.
  apply split_at_first in E.
  - apply str_of_Z_inj. rewrite <- (rev_involutive (PyStr.str_of_Z a)), E.
    apply rev_involutive.
  - rewrite mem_char_rev. apply str_of_Z_no_colon.
  - rewrite mem_char_rev. apply str_of_Z_no_colon.
Qed.

Lemma NoDup_map_by {A B C} (f : A -> B) (g : A -> C) (l : list A) :
  (forall x y, f x = f y -> g x = g y) -> NoDup (map g l) -> NoDup (map f l).
Proof.
  intros H. induction l as [|x l IH]; cbn [map]; intros ND; [constructor|].
  inversion ND as [|? ? Hn ND']; subst. constructor; [|apply IH; exact ND'].
  intros Hin. apply Hn. apply in_map_iff in Hin. destruct Hin as (y & E & Hy).
  apply in_map_iff. exists y. split; [apply H; exact E|exact Hy].
Qed.

Lemma spans_of_starts (doc_end : Z) (resolved : list Sections.ResolvedHeader) :
  map Sections.start_global_idx (Sections.spans_of doc_end resolved)
  = map Sections.rh_global_idx resolved.
Proof.
  induction resolved as [|h rest IH]; [reflexivity|].
  cbn [Sections.spans_of map Sections.start_global_idx]. rewrite IH. reflexivity.
Qed.

(** X23.  The section keys of a document are pairwise distinct: the
    spans of [build_section_spans] start at pairwise distinct indexes,
    whatever the outline entries and the lines, and [make_section_key]
    ends every key with ["::"] and the decimal numeral of the start
    index, so two keys are equal only for equal anchors. *)
Theorem section_keys_are_distinct
  (headers : list Sections.SimpleHeader) (lines : list BodyLine) :
  NoDup (map SectionKeys.section_key (Sections.build_section_spans headers lines))
  /\ (forall n1 n2 t1 t2 a b,
         SectionKeys.make_section_key n1 t1 (Some a)
         = SectionKeys.make_section_key n2 t2 (Some b) -> a = b).
Proof.
  split; [|exact section_key_anchor].
  apply (NoDup_map_by _ Sections.start_global_idx).
  - intros x y E. unfold SectionKeys.section_key in E. exact (section_key_anchor _ _ _ _ _ _ E).
  - unfold Sections.build_section_spans. rewrite spans_of_starts.
    unfold Sections._resolve_headers. apply (make_distinct_NoDup lines _ []). constructor.
Qed.

(** ** The pattern of the sequential aligner *)

Lemma run_seqs_cons (A : Type) (r : Re.regex) (rs : list Re.regex) (st : Re.cursor)
  (k : Re.cursor -> option A) :
  Re.run (Re.seqs (r :: rs)) st k = Re.run r st (fun st1 => Re.run (Re.seqs rs) st1 k).
Proof. destruct rs; reflexivity. Qed.

Lemma run_chr (A : Type) (c : ascii) (pre rest : text) (k : Re.cursor -> option A) :
  Re.run (Re.chr c) (pre, c :: rest) k = k (c :: pre, rest).
Proof.
  cbn [Re.run Re.chr snd fst]. rewrite (proj2 (eqc_true c c) eq_refl). reflexivity.
Qed.

Lemma number_parts_accept (A : Type) (ts : list text) :
  forall (prev pre rest : text) (k : Re.cursor -> option A),
    k (rev (concat (map (fun t => "."%char :: t) ts)) ++ pre, rest) <> None ->
    Re.run (Re.seqs (NumberRegex.number_parts prev ts))
      (pre, concat (map (fun t => "."%char :: t) ts) ++ rest) k <> None.
Proof.
  induction ts as [|t ts IH]; intros prev pre rest k Hk; [exact Hk|].
  cbn [NumberRegex.number_parts map concat]. rewrite run_seqs_cons.
  assert (Hnext :
            Re.run (Re.seqs (NumberRegex.number_parts t ts))
              (rev t ++ "."%char :: pre,
               concat (map (fun t0 => "."%char :: t0) ts) ++ rest) k <> None).
  { apply IH.
    replace (rev (concat (map (fun t0 => "."%char :: t0) ts)) ++ rev t ++ "."%char :: pre)
      with (rev (("."%char :: t) ++ concat (map (fun t0 => "."%char :: t0) ts)) ++ pre);
      [exact Hk|].
    rewrite rev_app_distr. cbn [rev]. rewrite <- !app_assoc. reflexivity. }
  cbn [app]. rewrite <- app_assoc.
  destruct (PyStr.isdigit prev && PyStr.isdigit t).
  - change (Re.seqs [Re.spaces; Re.chr "."; Re.spaces; Re.lit_ci t])
      with (Re.Seq Re.spaces (Re.Seq (Re.chr ".") (Re.Seq Re.spaces (Re.lit_ci t)))).
    rewrite run_seq. unfold Re.spaces, Re.star. apply run_star_skip. cbv beta.
    rewrite run_seq, run_chr. cbv beta. rewrite run_seq.
    apply run_star_skip. cbv beta.
    rewrite run_lit_ci; [exact Hnext|]. apply Forall2_same. apply eqc_ci_refl.
  - rewrite run_seq. unfold Re.star. apply run_star_one; [reflexivity|]. cbv beta.
    rewrite run_lit_ci; [exact Hnext|]. apply Forall2_same. apply eqc_ci_refl.
Qed.

Lemma join_dots (t : text) (ts : list text) :
  PyStr.join (s2t ".") (t :: ts) = t ++ concat (map (fun t0 => "."%char :: t0) ts).
Proof.
  revert t. induction ts as [|t2 ts IH]; intros t.
  - cbn. rewrite app_nil_r. reflexivity.
  - change (PyStr.join (s2t ".") (t :: t2 :: ts))
      with (t ++ s2t "." ++ PyStr.join (s2t ".") (t2 :: ts)).
    rewrite IH. reflexivity.
Qed.

Lemma number_end_accepts (A : Type) (st : Re.cursor) (k : Re.cursor -> option A) :
  closes_number (snd st) -> Re.run NumberRegex.number_end st k = k st.
Proof.
  intros H. unfold NumberRegex.number_end.
  change (Re.run (Re.Ahead false ?r) st k)
    with (match Re.run r st (fun _ => Some tt) with
          | Some _ => k st
          | None => None
          end).
  assert (Hx : Re.run (Re.Alt Re.Eol (Re.Alt Re.space (Re.one_of (s2t ").:-")))) st
                 (fun _ => Some tt) <> None).
  { destruct st as [pre rest]. cbn [snd] in H.
    destruct rest as [|c rest]; [discriminate|].
    change (Re.run (Re.Alt ?a ?b) ?s ?k0)
      with (Re.orelse (Re.run a s k0) (fun _ => Re.run b s k0)).
    apply orelse_right. cbv beta.
    change (Re.run (Re.Alt ?a ?b) ?s ?k0)
      with (Re.orelse (Re.run a s k0) (fun _ => Re.run b s k0)).
    unfold closes_number in H. destruct (Chars.is_space c) eqn:Es.
    - apply orelse_left. cbn [Re.run Re.space snd fst]. rewrite Es. discriminate.
    - apply orelse_right. cbn [Re.run Re.one_of snd fst]. cbn [orb] in H.
      rewrite H. discriminate. }
  destruct (Re.run _ st (fun _ => Some tt)); [reflexivity|contradiction].
Qed.

Lemma search_from_hit (r : Re.regex) (fuel : nat) (st st' : Re.cursor) :
  Re.match_at r st = Some st' -> Re.search_from r fuel st = Some (st, st').
Proof. intros H. destruct fuel; cbn [Re.search_from]; rewrite H; reflexivity. Qed.

(** X24.  The pattern [compile_number_regex] builds for a numbering
    written as components joined by dots, each a run of digits or of
    letters, finds that numbering at the start of a text wherever the
    end of the text, white space or one of [).:-] follows it. *)
Theorem number_regex_finds_its_number (ts : list text) (rest : text) :
  ts <> [] -> Forall is_token ts -> closes_number rest ->
  Re.found (NumberRegex.compile_number_regex (PyStr.join (s2t ".") ts))
    (PyStr.join (s2t ".") ts ++ rest) = true.
Proof.
  intros Hne Hts Hrest.
  unfold NumberRegex.compile_number_regex. rewrite (number_tokens_join ts Hts).
  destruct ts as [|first ts]; [contradiction|].
  set (pattern := Re.seqs _).
  assert (Hm : Re.match_at pattern (Re.start (PyStr.join (s2t ".") (first :: ts) ++ rest))
               <> None).
  { unfold pattern, Re.match_at, Re.start.
    change (Re.seqs [Re.Behind true 1 Re.non_space;
                     Re.seqs (Re.lit_ci first :: NumberRegex.number_parts first ts);
                     NumberRegex.number_end])
      with (Re.Seq (Re.Behind true 1 Re.non_space)
              (Re.Seq (Re.seqs (Re.lit_ci first :: NumberRegex.number_parts first ts))
                 NumberRegex.number_end)).
    rewrite run_seq.
    change (Re.run (Re.Behind true 1 Re.non_space) ([], ?s) ?k) with (k ([], s)).
    cbv beta. rewrite run_seq, run_seqs_cons, join_dots, <- app_assoc.
    rewrite run_lit_ci by (apply Forall2_same; apply eqc_ci_refl).
    apply number_parts_accept. rewrite number_end_accepts; [discriminate|exact Hrest]. }
  unfold Re.found, Re.search.
  destruct (Re.match_at pattern _) as [st'|] eqn:E; [|contradiction].
  rewrite (search_from_hit _ _ _ _ E). reflexivity.
Qed.

Lemma number_regex_finds_its_number_witness :
  Re.found (NumberRegex.compile_number_regex (PyStr.join (s2t ".") [s2t "2"; s2t "1"; s2t "a"]))
    (PyStr.join (s2t ".") [s2t "2"; s2t "1"; s2t "a"] ++ s2t ") Scope") = true.
Proof.
  apply (number_regex_finds_its_number [s2t "2"; s2t "1"; s2t "a"] (s2t ") Scope")).
  - discriminate.
  - repeat constructor; try discriminate; (left; reflexivity) || (right; reflexivity).
  - reflexivity.
Defined.
